(** * Prepack core: environments, for-in evaluation, effect generator, parser glue

    A shallow embedding of
      - environment.js                (declarative environment records),
      - evaluators/ForInStatement.js  (the for-in evaluator),
      - the effect generator          (classes Generator, NameGenerator and
                                       PreludeGenerator),
      - utils/parse.js                (the parser wrapper),
    together with the properties of these functions that the specification
    states.

    Conventions.  JavaScript exceptions are an explicit [Abrupt] outcome,
    mutable objects live in the state threaded by a small state-and-error
    monad, and `this` is passed explicitly where a method only touches its
    own fields.  Loops without a syntactic bound ([do ... while], recursion
    on a shrinking string) take a [fuel] argument and answer [None] or
    [OutOfFuel] when it is exhausted; the theorems show how much fuel
    always suffices. *)

From Stdlib Require Import NArith ZArith Lia Ascii String.
From stdpp Require Import gmap strings list.

Set Default Proof Using "Type".
Set Warnings "-register-all".
Local Open Scope string_scope.
Local Open Scope list_scope.

(* ===================================================================== *)
(** * JavaScript strings *)
(* ===================================================================== *)

Module JsString.

(** [s.length > 0] *)
Definition nonempty (s : string) : bool :=
  match s with EmptyString => false | String _ _ => true end.

(** [s.includes(c)] for a one-character needle. *)
Fixpoint includes_char (c : ascii) (s : string) : bool :=
  match s with
  | EmptyString => false
  | String a s' => if Ascii.eqb a c then true else includes_char c s'
  end.

(** [s.replace(/[.,:]/g, "_")] *)
Definition replace_punct_char (a : ascii) : ascii :=
  if (Ascii.eqb a "." || Ascii.eqb a "," || Ascii.eqb a ":")%bool then "_"%char else a.

Fixpoint replace_punct (s : string) : string :=
  match s with
  | EmptyString => EmptyString
  | String a s' => String (replace_punct_char a) (replace_punct s')
  end.

(** [s.indexOf(pat)]: index of the first occurrence, or -1. *)
Definition indexOf (s pat : string) : Z :=
  match String.index 0 pat s with
  | Some i => Z.of_nat i
  | None => (-1)%Z
  end.

(** [s.lastIndexOf(".")] as an option: [None] stands for -1. *)
Fixpoint lastIndexOf_dot (s : string) : option nat :=
  match s with
  | EmptyString => None
  | String a s' =>
      match lastIndexOf_dot s' with
      | Some i => Some (S i)
      | None => if Ascii.eqb a "." then Some 0 else None
      end
  end.

(** [s.substr(0, i)] is [String.substring 0 i s]; [s.substr(i + 1)] is the
    rest of the string after position [i]. *)
Definition substr_from (i : nat) (s : string) : string :=
  String.substring i (String.length s - i) s.

(** Position of the first occurrence of [c], or the length of the string. *)
Fixpoint first_pos (c : ascii) (s : string) : nat :=
  match s with
  | EmptyString => 0
  | String a s' => if Ascii.eqb a c then 0 else S (first_pos c s')
  end.

Lemma append_cons (x : ascii) (a b : string) :
  String x a +:+ b = String x (a +:+ b).
Proof. reflexivity. Qed.

Lemma append_nil_l (b : string) : "" +:+ b = b.
Proof. reflexivity. Qed.

Ltac unfold_append := rewrite ?append_cons, ?append_nil_l in *.

Lemma append_assoc (a b c : string) : (a +:+ b) +:+ c = a +:+ (b +:+ c).
Proof.
  induction a as [|x a IH]; unfold_append; [reflexivity | now rewrite IH].
Qed.

Lemma append_nil_r (a : string) : a +:+ "" = a.
Proof.
  induction a as [|x a IH]; unfold_append; [reflexivity | now rewrite IH].
Qed.

Lemma length_append (a b : string) :
  String.length (a +:+ b) = String.length a + String.length b.
Proof.
  induction a as [|x a IH]; unfold_append; simpl; [reflexivity | now rewrite IH].
Qed.

Lemma append_inv_head (p a b : string) : p +:+ a = p +:+ b -> a = b.
Proof.
  induction p as [|x p IH]; unfold_append; intros H;
    [assumption | injection H; auto].
Qed.

Lemma append_same_length (a b t1 t2 : string) :
  String.length a = String.length b -> a +:+ t1 = b +:+ t2 -> a = b /\ t1 = t2.
Proof.
  revert b; induction a as [|x a IH]; intros [|y b] Hl H;
    unfold_append; simpl in Hl; try discriminate.
  - auto.
  - injection H as -> H. injection Hl as Hl.
    destruct (IH _ Hl H) as [-> ->]. auto.
Qed.

Lemma append_inv_tail (a b t : string) : a +:+ t = b +:+ t -> a = b.
Proof.
  intros H. apply (append_same_length a b t t); [|assumption].
  apply (f_equal String.length) in H. rewrite !length_append in H. lia.
Qed.

Lemma prefix_append (p s : string) : String.prefix p (p +:+ s) = true.
Proof.
  induction p as [|x p IH]; unfold_append; simpl; [now destruct s|].
  destruct (ascii_dec x x); [assumption | congruence].
Qed.

Lemma first_pos_append_free (c : ascii) (a b : string) :
  includes_char c a = false ->
  first_pos c (a +:+ b) = String.length a + first_pos c b.
Proof.
  induction a as [|x a IH]; unfold_append; simpl; [reflexivity|].
  destruct (Ascii.eqb x c); [discriminate|]. intros H. now rewrite IH.
Qed.

Lemma includes_char_append (c : ascii) (a b : string) :
  includes_char c (a +:+ b) = (includes_char c a || includes_char c b)%bool.
Proof.
  induction a as [|x a IH]; unfold_append; simpl; [reflexivity|].
  destruct (Ascii.eqb x c); [reflexivity | assumption].
Qed.

(** Heads free of [c], put in front of tails whose first [c] sits at the
    same position, have the same length when the results are equal. *)
Lemma heads_same_length (c : ascii) (a b t1 t2 : string) :
  includes_char c a = false -> includes_char c b = false ->
  first_pos c t1 = first_pos c t2 ->
  a +:+ t1 = b +:+ t2 -> String.length a = String.length b.
Proof.
  intros Ha Hb Ht H. apply (f_equal (first_pos c)) in H.
  rewrite !first_pos_append_free in H by assumption. lia.
Qed.

End JsString.

(* ===================================================================== *)
(** * The [base62] package *)
(* ===================================================================== *)

Module base62.

(** Modelled from the spec: the `base62` package is an external
    dependency; the specification says name generators issue
    "monotone base-62 identifiers".  [encode] is the package's loop
    [while (int > 0) { res = chars[int % 62] + res; int = floor(int / 62) }]
    over its default alphabet, with ["0"] for zero.  The counter is a
    JavaScript number holding a non-negative integer; it is modelled as
    [N]: the counter never exceeds 2^53 (see [NameGenerator.bump]), and up
    to there the integers, their remainders and the floors of their
    quotients by 62 are exact. *)
Definition chars : string :=
  "0123456789abcdefghijklmnopqrstuvwxyzABCDEFGHIJKLMNOPQRSTUVWXYZ".

Definition char_at (d : N) : ascii :=
  match String.get (N.to_nat d) chars with
  | Some c => c
  | None => "0"%char
  end.

Fixpoint encode_loop (fuel : nat) (int : N) (res : string) : string :=
  match fuel with
  | O => res
  | S fuel' =>
      if (0 <? int)%N
      then encode_loop fuel' (int / 62)%N (String (char_at (int mod 62)%N) res)
      else res
  end.

(** The loop runs once per base-62 digit, hence at most once per bit. *)
Definition encode (int : N) : string :=
  if (int =? 0)%N then "0" else encode_loop (N.size_nat int) int "".

(** Value of an alphabet character (inverse of [char_at]). *)
Fixpoint pos_in (c : ascii) (s : string) : N :=
  match s with
  | EmptyString => 0
  | String a s' => if Ascii.eqb a c then 0 else N.succ (pos_in c s')
  end.

Fixpoint decode_from (acc : N) (s : string) : N :=
  match s with
  | EmptyString => acc
  | String a s' => decode_from (acc * 62 + pos_in a chars)%N s'
  end.

Definition decode (s : string) : N := decode_from 0 s.

Lemma pos_in_char_at (d : N) : (d < 62)%N -> pos_in (char_at d) chars = d.
Proof.
  intros Hd.
  assert (Hall : forallb (fun k => (pos_in (char_at (N.of_nat k)) chars =? N.of_nat k)%N)
                   (seq 0 62) = true) by (vm_compute; reflexivity).
  rewrite forallb_forall in Hall.
  specialize (Hall (N.to_nat d)). rewrite N2Nat.id in Hall.
  apply N.eqb_eq, Hall, in_seq. lia.
Qed.

Lemma char_at_not_underscore (d : N) : Ascii.eqb (char_at d) "_" = false.
Proof.
  destruct (N.lt_ge_cases d 62) as [Hd|Hd].
  - assert (Hall : forallb (fun k => negb (Ascii.eqb (char_at (N.of_nat k)) "_"))
                     (seq 0 62) = true) by (vm_compute; reflexivity).
    rewrite forallb_forall in Hall.
    specialize (Hall (N.to_nat d)). rewrite N2Nat.id in Hall.
    apply negb_true_iff, Hall, in_seq. lia.
  - unfold char_at.
    assert (Hnone : forall k s, String.length s <= k -> String.get k s = None).
    { intros k s; revert k; induction s as [|a s IH]; intros [|k] Hk;
        simpl in *; try reflexivity; try lia. apply IH; lia. }
    rewrite Hnone; [reflexivity | simpl; lia].
Qed.

Lemma size_nat_gt (n : N) : (n < 2 ^ N.of_nat (N.size_nat n))%N.
Proof.
  destruct n as [|p]; [reflexivity|]. simpl N.size_nat.
  induction p as [p IH|p IH|]; simpl Pos.size_nat;
    rewrite ?Nat2N.inj_succ, ?N.pow_succ_r'; lia.
Qed.

(** With enough fuel the loop stops because [int] reached zero, and
    [decode_from] reads back the number it was started with. *)
Lemma decode_encode_loop (fuel : nat) :
  forall (n : N) (res : string),
    (n < 2 ^ N.of_nat fuel)%N ->
    decode_from 0 (encode_loop fuel n res) = decode_from n res.
Proof.
  induction fuel as [|fuel IH]; intros n res Hn.
  - simpl in *. assert (n = 0%N) as -> by lia. reflexivity.
  - simpl encode_loop. destruct (0 <? n)%N eqn:Hpos.
    + apply N.ltb_lt in Hpos. rewrite IH.
      * cbn [decode_from]. f_equal. rewrite pos_in_char_at by (apply N.mod_lt; lia).
        rewrite N.mul_comm. symmetry. apply N.div_mod. lia.
      * rewrite Nat2N.inj_succ, N.pow_succ_r' in Hn.
        apply N.Div0.div_lt_upper_bound. lia.
    + apply N.ltb_ge in Hpos. assert (n = 0%N) as -> by lia. reflexivity.
Qed.

Lemma decode_encode (n : N) : decode (encode n) = n.
Proof.
  unfold decode, encode. destruct (n =? 0)%N eqn:Hz.
  - apply N.eqb_eq in Hz. subst. reflexivity.
  - rewrite decode_encode_loop by apply size_nat_gt. reflexivity.
Qed.

Lemma encode_inj (n m : N) : encode n = encode m -> n = m.
Proof.
  intros H. rewrite <- (decode_encode n), <- (decode_encode m). now rewrite H.
Qed.

Lemma encode_loop_no_underscore (fuel : nat) :
  forall (n : N) (res : string),
    JsString.includes_char "_" res = false ->
    JsString.includes_char "_" (encode_loop fuel n res) = false.
Proof.
  induction fuel as [|fuel IH]; intros n res Hres; simpl; [assumption|].
  destruct (0 <? n)%N; [|assumption].
  apply IH. simpl. now rewrite char_at_not_underscore.
Qed.

Lemma encode_no_underscore (n : N) : JsString.includes_char "_" (encode n) = false.
Proof.
  unfold encode. destruct (n =? 0)%N; [reflexivity|].
  now apply encode_loop_no_underscore.
Qed.

End base62.

(* ===================================================================== *)
(** * Babel AST, values, completions *)
(* ===================================================================== *)

(** [BabelNodeSourceLocation] *)
Record SourceLocation := {
  loc_start : nat * nat;
  loc_end : nat * nat;
  loc_source : option string;
}.

(** The [babel-types] builders ([t.identifier], [t.memberExpression], ...)
    the sources call, as free constructors.  [nullLiteral] is
    [nullExpression] of internalizer.js.  [parsedNode] stands for a node
    produced by a collaborator (the parser, the serializer) and
    [missingNode] for JavaScript [undefined] landing in a node position
    (an out-of-range array read handed to a builder). *)
Inductive BabelNode :=
| identifier (name : string)
| stringLiteral (value : string)
| nullLiteral
| thisExpression
| memberExpression (object property : BabelNode) (computed : bool)
| unaryExpression (operator : string) (argument : BabelNode)
| binaryExpression (operator : string) (left right : BabelNode)
| logicalExpression (operator : string) (left right : BabelNode)
| assignmentExpression (operator : string) (left right : BabelNode)
| newExpression (callee : BabelNode) (arguments : list BabelNode)
| expressionStatement (expression : BabelNode)
| blockStatement (body : list BabelNode)
| throwStatement (argument : BabelNode)
| ifStatement (test consequent : BabelNode)
| variableDeclarator (id init : BabelNode)
| variableDeclaration (kind : string) (declarations : list BabelNode)
| forInStatement (left right body : BabelNode)
| parsedNode (tag : nat)
| missingNode.

(** The value classes of values/index.js that the sources name. *)
Inductive ValueClass :=
| Value_class            (* [Value], the top of the hierarchy *)
| ConcreteValue_class
| UndefinedValue_class
| NullValue_class
| BooleanValue_class
| NumberValue_class
| StringValue_class
| SymbolValue_class
| ObjectValue_class
| FunctionValue_class
| ArrayValue_class
| AbstractValue_class
| AbstractObjectValue_class.

Definition ValueClass_eqb (a b : ValueClass) : bool :=
  match a, b with
  | Value_class, Value_class
  | ConcreteValue_class, ConcreteValue_class
  | UndefinedValue_class, UndefinedValue_class
  | NullValue_class, NullValue_class
  | BooleanValue_class, BooleanValue_class
  | NumberValue_class, NumberValue_class
  | StringValue_class, StringValue_class
  | SymbolValue_class, SymbolValue_class
  | ObjectValue_class, ObjectValue_class
  | FunctionValue_class, FunctionValue_class
  | ArrayValue_class, ArrayValue_class
  | AbstractValue_class, AbstractValue_class
  | AbstractObjectValue_class, AbstractObjectValue_class => true
  | _, _ => false
  end.

(** [new TypesDomain(type)]; [getType()] hands the class back. *)
Record TypesDomain := { getType : ValueClass }.

(** Values.  Objects and abstract values have identity ([ref], [id]);
    an object's mutable state lives in the realm's object store.  An
    abstract value carries its types domain, its values domain ([None] is
    [ValuesDomain.topVal], [Some l] the finite set of candidates in
    insertion order), its kind tag and its argument values.  [isObject]
    tells an [AbstractObjectValue] from a plain [AbstractValue].  A number's
    payload is the bit pattern of its double; nothing here inspects it. *)
Inductive Value :=
| UndefinedValue
| NullValue
| EmptyValue
| BooleanValue (b : bool)
| NumberValue (bits : N)
| StringValue (s : string)
| SymbolValue (id : nat)
| ObjectValue (ref : nat)
| AbstractValue (id : nat) (isObject : bool) (types : TypesDomain)
    (values : option (list Value)) (kind : option string) (args : list Value).

(** [v instanceof AbstractValue], [v instanceof AbstractObjectValue], ... *)
Definition instanceof_AbstractValue (v : Value) : bool :=
  match v with AbstractValue _ _ _ _ _ _ => true | _ => false end.

Definition instanceof_AbstractObjectValue (v : Value) : bool :=
  match v with AbstractValue _ true _ _ _ _ => true | _ => false end.

Definition instanceof_ObjectValue (v : Value) : bool :=
  match v with ObjectValue _ => true | _ => false end.

Definition instanceof_UndefinedValue (v : Value) : bool :=
  match v with UndefinedValue => true | _ => false end.

Definition instanceof_StringValue (v : Value) : bool :=
  match v with StringValue _ => true | _ => false end.

(** [a === b] on values: identity of objects and of abstract values.  The
    sources only compare operands of which one is an object or an abstract
    value; primitives other than the intrinsic singletons never compare
    identical. *)
Definition identical (a b : Value) : bool :=
  match a, b with
  | ObjectValue r1, ObjectValue r2 => Nat.eqb r1 r2
  | AbstractValue i1 _ _ _ _ _, AbstractValue i2 _ _ _ _ _ => Nat.eqb i1 i2
  | UndefinedValue, UndefinedValue => true
  | NullValue, NullValue => true
  | EmptyValue, EmptyValue => true
  | _, _ => false
  end.

(** [Descriptor] of types.js: every field is optional. *)
Record Descriptor := {
  writable : option bool;
  enumerable : option bool;
  configurable : option bool;
  value : option Value;
  get : option Value;
  set : option Value;
}.

(** JavaScript truthiness of an optional flag. *)
Definition truthy (b : option bool) : bool :=
  match b with Some true => true | _ => false end.

(** Native error classes of the host ([e instanceof SyntaxError]). *)
Inductive NativeErrorClass := SyntaxError_native | TypeError_native | Error_native.

(** What a JavaScript [throw] can carry in these files. *)
Inductive Exception :=
| ThrowCompletion (value : Value) (location : option SourceLocation)
| BreakCompletion (value : Value) (target : option string)
| FatalError
| InvariantViolation (message : string)
| NativeError (cls : NativeErrorClass) (message : string) (loc : option SourceLocation).

Inductive Result (A : Type) :=
| Normal (a : A)
| Abrupt (e : Exception)
| OutOfFuel.
Arguments Normal {A} a.
Arguments Abrupt {A} e.
Arguments OutOfFuel {A}.

(* ===================================================================== *)
(** * State and exceptions *)
(* ===================================================================== *)

(** A computation over a mutable state [St] that returns or throws; the
    state survives a throw, as the heap does in JavaScript. *)
Definition M (St A : Type) : Type := St -> Result A * St.

Definition ret {St A} (a : A) : M St A := fun s => (Normal a, s).

Definition bind {St A B} (c : M St A) (k : A -> M St B) : M St B :=
  fun s =>
    match c s with
    | (Normal a, s') => k a s'
    | (Abrupt e, s') => (Abrupt e, s')
    | (OutOfFuel, s') => (OutOfFuel, s')
    end.

Definition throw {St A} (e : Exception) : M St A := fun s => (Abrupt e, s).

Definition out_of_fuel {St A} : M St A := fun s => (OutOfFuel, s).

Definition gets {St A} (f : St -> A) : M St A := fun s => (Normal (f s), s).

Definition modify {St} (f : St -> St) : M St unit := fun s => (Normal tt, f s).

(** [invariant(condition, message)] of invariant.js *)
Definition invariant {St} (condition : bool) (message : string) : M St unit :=
  if condition then ret tt else throw (InvariantViolation message).

(** [try { body } finally { fin }] *)
Definition try_finally {St A} (body : M St A) (fin : M St unit) : M St A :=
  fun s =>
    match body s with
    | (r, s') =>
        match fin s' with
        | (Normal _, s'') => (r, s'')
        | (Abrupt e, s'') => (Abrupt e, s'')
        | (OutOfFuel, s'') => (OutOfFuel, s'')
        end
    end.

(** [try { body } catch (e) { handler(e) }] *)
Definition try_catch {St A} (body : M St A) (handler : Exception -> M St A) : M St A :=
  fun s =>
    match body s with
    | (Abrupt e, s') => handler e s'
    | other => other
    end.

(** [for (let x of l) body(x)] *)
Fixpoint for_of {St A} (l : list A) (body : A -> M St unit) : M St unit :=
  match l with
  | [] => ret tt
  | x :: l' => bind (body x) (fun _ => for_of l' body)
  end.

Declare Scope js_scope.
Delimit Scope js_scope with js.
Notation "'let!' x ':=' c 'in' k" := (bind c (fun x => k))
  (at level 10, x binder, c at level 100, k at level 200) : js_scope.
Notation "c ';;;' k" := (bind c (fun _ => k))
  (at level 100, k at level 200, right associativity) : js_scope.
Local Open Scope js_scope.

(* ===================================================================== *)
(** * generator.js: [NameGenerator] *)
(* ===================================================================== *)

Module NameGenerator.

Record t := {
  prefix : string;
  uidCounter : N;
  debugNames : bool;
  forbiddenNames : gset string;
  uniqueSuffix : string;
}.

(** [new NameGenerator(forbiddenNames, debugNames, uniqueSuffix, prefix)] *)
Definition new (forbiddenNames : gset string) (debugNames : bool)
    (uniqueSuffix prefix : string) : t :=
  {| prefix := prefix; uidCounter := 0; debugNames := debugNames;
     forbiddenNames := forbiddenNames; uniqueSuffix := uniqueSuffix |}.

(** The body of the [do { ... }] block for the counter value [n]:
    [debugSuffix] is [?string], [None] standing for null/undefined, and
    the empty string is falsy. *)
Definition make_id (this : t) (debugSuffix : option string) (n : N) : string :=
  let id := prefix this +:+ base62.encode n in
  let id := if JsString.nonempty (uniqueSuffix this)
            then id +:+ uniqueSuffix this else id in
  if debugNames this then
    match debugSuffix with
    | Some (String a d) => id +:+ "_" +:+ JsString.replace_punct (String a d)
    | _ => id +:+ "_"
    end
  else id.

(** [uidCounter] is a JavaScript number.  From 0 it runs through the
    integers, each of them exact, up to 2^53; there [uidCounter + 1] rounds
    back to 2^53, and the counter stays where it is. *)
Definition counter_limit : N := 9007199254740992.

(** [this.uidCounter++]: below 2^53 the sum is exact; 2^53 + 1 is not a
    JavaScript number and rounds to 2^53.  (Starting from the constructor's
    0, the counter never gets beyond 2^53.) *)
Definition bump (this : t) : t :=
  {| prefix := prefix this;
     uidCounter := if (uidCounter this <? counter_limit)%N
                   then uidCounter this + 1 else uidCounter this;
     debugNames := debugNames this; forbiddenNames := forbiddenNames this;
     uniqueSuffix := uniqueSuffix this |}.

(** The counter can be incremented [n] more times before it reaches 2^53. *)
Definition counter_room (this : t) (n : nat) : Prop :=
  (uidCounter this + N.of_nat n <= counter_limit)%N.

(** [generate(debugSuffix)]: the do-while loop, one iteration per unit of
    fuel; [None] when the fuel runs out before a free name is found. *)
Fixpoint generate (fuel : nat) (this : t) (debugSuffix : option string)
    : option (string * t) :=
  match fuel with
  | O => None
  | S fuel' =>
      let id := make_id this debugSuffix (uidCounter this) in
      let this' := bump this in
      if decide (id ∈ forbiddenNames this')
      then generate fuel' this' debugSuffix
      else Some (id, this')
  end.

(** Successive calls on the same generator, one per debug suffix. *)
Fixpoint generate_all (fuel : nat) (this : t) (debugSuffixes : list (option string))
    : option (list string * t) :=
  match debugSuffixes with
  | [] => Some ([], this)
  | d :: ds =>
      match generate fuel this d with
      | None => None
      | Some (id, this') =>
          match generate_all fuel this' ds with
          | None => None
          | Some (ids, this'') => Some (id :: ids, this'')
          end
      end
  end.

(** Same generator up to the counter. *)
Definition same_config (a b : t) : Prop :=
  prefix a = prefix b /\ debugNames a = debugNames b /\
  forbiddenNames a = forbiddenNames b /\ uniqueSuffix a = uniqueSuffix b.

(** The part of an identifier that follows the encoded counter. *)
Definition tail_of (this : t) (debugSuffix : option string) : string :=
  uniqueSuffix this +:+
  (if debugNames this then
     match debugSuffix with
     | Some (String a d) => "_" +:+ JsString.replace_punct (String a d)
     | _ => "_"
     end
   else "").

Lemma make_id_shape (this : t) (d : option string) (n : N) :
  make_id this d n = prefix this +:+ (base62.encode n +:+ tail_of this d).
Proof.
  unfold make_id, tail_of.
  assert (Hus : (if JsString.nonempty (uniqueSuffix this)
                 then (prefix this +:+ base62.encode n) +:+ uniqueSuffix this
                 else prefix this +:+ base62.encode n)
                = prefix this +:+ (base62.encode n +:+ uniqueSuffix this)).
  { destruct (uniqueSuffix this); simpl JsString.nonempty.
    - now rewrite !JsString.append_nil_r.
    - now rewrite !JsString.append_assoc. }
  rewrite Hus. destruct (debugNames this).
  - destruct d as [[|a d]|]; now rewrite !JsString.append_assoc.
  - now rewrite JsString.append_nil_r.
Qed.

Lemma make_id_config (a b : t) (d : option string) (n : N) :
  same_config a b -> make_id a d n = make_id b d n.
Proof.
  intros (Hp & Hd & _ & Hu). unfold make_id. now rewrite Hp, Hd, Hu.
Qed.

Lemma same_config_refl (a : t) : same_config a a.
Proof. repeat split. Qed.

Lemma same_config_trans (a b c : t) :
  same_config a b -> same_config b c -> same_config a c.
Proof.
  intros (? & ? & ? & ?) (? & ? & ? & ?). repeat split; congruence.
Qed.

Lemma same_config_bump (a : t) : same_config a (bump a).
Proof. repeat split. Qed.

(** Below 2^53 the increment is exact; at 2^53 it is lost. *)
Lemma uidCounter_bump (this : t) :
  uidCounter (bump this)
  = (if (uidCounter this <? counter_limit)%N then uidCounter this + 1
     else uidCounter this)%N.
Proof. reflexivity. Qed.

Lemma uidCounter_bump_room (this : t) (n : nat) :
  counter_room this (S n) ->
  uidCounter (bump this) = (uidCounter this + 1)%N /\ counter_room (bump this) n.
Proof.
  unfold counter_room. rewrite uidCounter_bump. intros Hroom.
  destruct (N.ltb_spec (uidCounter this) counter_limit); lia.
Qed.

Lemma counter_room_le (this : t) (n m : nat) :
  m <= n -> counter_room this n -> counter_room this m.
Proof. unfold counter_room. lia. Qed.

Lemma make_id_prefix (this : t) (d : option string) (n : N) :
  String.prefix (prefix this) (make_id this d n) = true.
Proof. rewrite make_id_shape. apply JsString.prefix_append. Qed.

Lemma first_pos_through (c : ascii) (a x y : string) :
  JsString.first_pos c (a +:+ String c x) = JsString.first_pos c (a +:+ String c y).
Proof.
  induction a as [|b a IH]; rewrite ?JsString.append_cons, ?JsString.append_nil_l; simpl.
  - now rewrite Ascii.eqb_refl.
  - destruct (Ascii.eqb b c); [reflexivity | now rewrite IH].
Qed.

(** The counter can be read back from an identifier: identifiers made by
    one generator for different counter values differ, whatever the debug
    suffixes. *)
Lemma make_id_inj (this : t) (d1 d2 : option string) (n m : N) :
  make_id this d1 n = make_id this d2 m -> n = m.
Proof.
  rewrite !make_id_shape. intros H. apply JsString.append_inv_head in H.
  apply base62.encode_inj.
  enough (Hlen : String.length (base62.encode n) = String.length (base62.encode m))
    by (now destruct (JsString.append_same_length _ _ _ _ Hlen H)).
  unfold tail_of in H. destruct (debugNames this).
  - destruct d1 as [[|a1 d1]|], d2 as [[|a2 d2]|];
      (eapply (JsString.heads_same_length "_");
       [apply base62.encode_no_underscore | apply base62.encode_no_underscore
       | | exact H]);
      apply (first_pos_through "_").
  - apply (f_equal String.length) in H. rewrite !JsString.length_append in H. lia.
Qed.

(** What a successful call returns: the identifier made for a counter value
    [k] the loop reached, and the counter after the increment at [k]. *)
Lemma generate_sound (fuel : nat) :
  forall (this : t) (d : option string) (id : string) (this' : t),
    generate fuel this d = Some (id, this') ->
    exists k : N,
      (uidCounter this <= k < uidCounter this + N.of_nat fuel)%N /\
      uidCounter this' = (if (k <? counter_limit)%N then k + 1 else k)%N /\
      id = make_id this d k /\ (id ∉ forbiddenNames this) /\ same_config this this'.
Proof.
  induction fuel as [|fuel IH]; intros this d id this' H; simpl in H; [discriminate|].
  destruct (decide (make_id this d (uidCounter this) ∈ forbiddenNames this))
    as [Hin|Hout].
  - destruct (IH _ _ _ _ H) as (k & Hk & Hc & Hid & Hf & Hcfg).
    exists k. rewrite uidCounter_bump in Hk. destruct Hcfg as (? & ? & ? & ?).
    split; [destruct (N.ltb_spec (uidCounter this) counter_limit); lia|].
    split; [assumption|]. split.
    { rewrite Hid. symmetry. apply make_id_config, same_config_bump. }
    split; [assumption|]. repeat split; assumption.
  - injection H as <- <-. exists (uidCounter this).
    split; [lia|]. split; [apply uidCounter_bump|]. split; [reflexivity|].
    split; [exact Hout | apply same_config_bump].
Qed.

(** While the counter has room for every iteration, the call leaves it
    just behind the value it used. *)
Lemma generate_sound_room (fuel : nat) (this : t) (d : option string) (id : string)
    (this' : t) :
  counter_room this fuel ->
  generate fuel this d = Some (id, this') ->
  exists k : N,
    (uidCounter this <= k)%N /\ uidCounter this' = (k + 1)%N /\
    (uidCounter this' <= uidCounter this + N.of_nat fuel)%N /\
    id = make_id this d k /\ (id ∉ forbiddenNames this) /\ same_config this this'.
Proof.
  unfold counter_room. intros Hroom H.
  destruct (generate_sound _ _ _ _ _ H) as (k & Hk & Hc & Hid & Hf & Hcfg).
  exists k. destruct (N.ltb_spec k counter_limit); [|lia].
  repeat split; try apply Hcfg; try assumption; lia.
Qed.

(** The first free name: every candidate the loop passed over is
    forbidden. *)
Lemma generate_passes_forbidden (fuel : nat) :
  forall (this : t) (d : option string) (id : string) (this' : t),
    counter_room this fuel ->
    generate fuel this d = Some (id, this') ->
    forall j : N,
      (uidCounter this <= j)%N -> (j + 1 < uidCounter this')%N ->
      make_id this d j ∈ forbiddenNames this.
Proof.
  induction fuel as [|fuel IH]; intros this d id this' Hroom H j Hj Hj';
    simpl in H; [discriminate|].
  destruct (uidCounter_bump_room _ _ Hroom) as [Hb Hroom'].
  destruct (decide (make_id this d (uidCounter this) ∈ forbiddenNames this))
    as [Hin|Hout].
  - destruct (N.eq_dec j (uidCounter this)) as [->|Hne]; [exact Hin|].
    rewrite (make_id_config this (bump this)) by apply same_config_bump.
    apply (IH _ _ _ _ Hroom' H); [rewrite Hb; lia | exact Hj'].
  - injection H as <- <-. rewrite Hb in Hj'. lia.
Qed.

(** The loop ends: among more counter values than there are forbidden
    names, one yields a name that is not forbidden. *)
Lemma generate_terminates_aux (fuel : nat) :
  forall (this : t) (d : option string) (X : gset string),
    size X < fuel ->
    counter_room this fuel ->
    (forall k : N, (uidCounter this <= k)%N ->
                   make_id this d k ∈ forbiddenNames this -> make_id this d k ∈ X) ->
    is_Some (generate fuel this d).
Proof.
  induction fuel as [|fuel IH]; intros this d X Hsize Hroom HX; [lia|]. simpl.
  destruct (decide (make_id this d (uidCounter this) ∈ forbiddenNames this))
    as [Hin|Hout]; [|eauto].
  destruct (uidCounter_bump_room _ _ Hroom) as [Hb Hroom'].
  set (id := make_id this d (uidCounter this)) in *.
  assert (HidX : id ∈ X) by (apply HX; [lia | exact Hin]).
  apply (IH (bump this) d (X ∖ {[id]})).
  - assert (Hsz : size X = size ({[id]} : gset string) + size (X ∖ {[id]})).
    { rewrite (union_difference_singleton_L id X HidX) at 1.
      apply size_union. intros y Hy1 Hy2.
      apply elem_of_difference in Hy2. tauto. }
    rewrite size_singleton in Hsz. lia.
  - exact Hroom'.
  - intros k Hk Hfk. rewrite Hb in Hk.
    rewrite <- (make_id_config this (bump this)) in * by apply same_config_bump.
    apply elem_of_difference. split; [apply HX; [lia | exact Hfk]|].
    rewrite elem_of_singleton. intros Heq. apply make_id_inj in Heq. lia.
Qed.

Lemma generate_terminates (fuel : nat) (this : t) (d : option string) :
  size (forbiddenNames this) < fuel -> counter_room this fuel ->
  is_Some (generate fuel this d).
Proof.
  intros H Hroom.
  apply (generate_terminates_aux fuel this d (forbiddenNames this)); auto.
Qed.

(** Every identifier of a run of calls was made for a counter value in
    the range the run consumed. *)
Lemma generate_all_sound (fuel : nat) (ds : list (option string)) :
  forall (this : t) (ids : list string) (this' : t),
    counter_room this (length ds * fuel) ->
    generate_all fuel this ds = Some (ids, this') ->
    same_config this this' /\ (uidCounter this <= uidCounter this')%N /\
    (uidCounter this' <= uidCounter this + N.of_nat (length ds * fuel))%N /\
    length ids = length ds /\
    Forall (fun id => exists (k : N) (d : option string),
                (uidCounter this <= k < uidCounter this')%N /\ id = make_id this d k /\
                (id ∉ forbiddenNames this)) ids /\
    NoDup ids.
Proof.
  induction ds as [|d ds IH]; intros this ids this' Hroom H; simpl in H.
  - injection H as <- <-. repeat split; simpl; try lia; constructor.
  - destruct (generate fuel this d) as [[id this1]|] eqn:Hg; [|discriminate].
    destruct (generate_all fuel this1 ds) as [[ids1 this2]|] eqn:Hall; [|discriminate].
    injection H as <- <-.
    assert (Hroom0 : counter_room this fuel).
    { revert Hroom. unfold counter_room. cbn [length Nat.mul]. lia. }
    destruct (generate_sound_room _ _ _ _ _ Hroom0 Hg)
      as (k & Hk & Hc & Hup & Hid & Hf & Hcfg).
    assert (Hroom1 : counter_room this1 (length ds * fuel)).
    { revert Hroom. unfold counter_room. cbn [length Nat.mul]. lia. }
    destruct (IH _ _ _ Hroom1 Hall) as (Hcfg' & Hle & Hup' & Hlen & Hids & Hnd).
    assert (Hids' : Forall (fun id0 => exists (k0 : N) (d0 : option string),
                (uidCounter this1 <= k0 < uidCounter this2)%N /\
                id0 = make_id this d0 k0 /\ (id0 ∉ forbiddenNames this)) ids1).
    { eapply Forall_impl; [exact Hids|]. intros id0 (k0 & d0 & Hr & He & Hn).
      exists k0, d0. repeat split; try lia.
      - rewrite He. symmetry. now apply make_id_config.
      - destruct Hcfg as (_ & _ & Hfn & _). now rewrite Hfn. }
    split; [eapply same_config_trans; eassumption|].
    split; [lia|]. split; [cbn [length Nat.mul]; lia|].
    split; [simpl; now rewrite Hlen|]. split.
    + constructor.
      * exists k, d. repeat split; try lia; assumption.
      * eapply Forall_impl; [exact Hids'|]. intros id0 (k0 & d0 & Hr & He & Hn).
        exists k0, d0. repeat split; try lia; assumption.
    + constructor; [|exact Hnd]. intros Hin.
      rewrite Forall_forall in Hids'. destruct (Hids' _ Hin) as (k0 & d0 & Hr & He & _).
      rewrite Hid in He. apply make_id_inj in He. lia.
Qed.

Lemma generate_all_terminates (fuel : nat) (ds : list (option string)) :
  forall this : t,
    size (forbiddenNames this) < fuel ->
    counter_room this (length ds * fuel) ->
    is_Some (generate_all fuel this ds).
Proof.
  induction ds as [|d ds IH]; intros this Hfuel Hroom; simpl; [eauto|].
  assert (Hroom0 : counter_room this fuel).
  { revert Hroom. unfold counter_room. cbn [length Nat.mul]. lia. }
  destruct (generate_terminates fuel this d Hfuel Hroom0) as [[id this1] Hg]. rewrite Hg.
  destruct (generate_sound_room _ _ _ _ _ Hroom0 Hg)
    as (_ & _ & _ & Hup & _ & _ & (_ & _ & Hfn & _)).
  destruct (IH this1) as [[ids this2] Hall]; [now rewrite <- Hfn| |].
  { revert Hroom. unfold counter_room. cbn [length Nat.mul]. lia. }
  rewrite Hall. eauto.
Qed.

(** C8, as the code has it.  While the counter stays below 2^53 (it has
    room for every iteration of the loop), [generate] returns an identifier
    that is not forbidden and begins with the generator's prefix, and it
    leaves [uidCounter] strictly larger (nothing else of the generator
    changes); the identifiers returned by successive calls on the same
    generator are then pairwise distinct, whatever debug suffixes the calls
    pass.  The loop needs at most one more iteration than there are
    forbidden names. *)
Theorem generate_fresh_increasing_distinct (this : t) (fuel : nat) :
  size (forbiddenNames this) < fuel ->
  (forall d : option string,
      counter_room this fuel ->
      exists (id : string) (this' : t),
        generate fuel this d = Some (id, this') /\
        (id ∉ forbiddenNames this) /\
        (uidCounter this < uidCounter this')%N /\
        String.prefix (prefix this) id = true /\
        same_config this this')
  /\
  (forall ds : list (option string),
      counter_room this (length ds * fuel) ->
      exists (ids : list string) (this' : t),
        generate_all fuel this ds = Some (ids, this') /\
        length ids = length ds /\
        NoDup ids /\
        Forall (fun id => (id ∉ forbiddenNames this) /\
                          String.prefix (prefix this) id = true) ids /\
        same_config this this').
Proof.
  intros Hfuel. split.
  - intros d Hroom.
    destruct (generate_terminates fuel this d Hfuel Hroom) as [[id this'] Hg].
    destruct (generate_sound_room _ _ _ _ _ Hroom Hg)
      as (k & Hk & Hc & _ & Hid & Hf & Hcfg).
    exists id, this'. repeat split; try apply Hcfg; try assumption; try lia.
    rewrite Hid. apply make_id_prefix.
  - intros ds Hroom.
    destruct (generate_all_terminates fuel ds this Hfuel Hroom) as [[ids this'] Hall].
    destruct (generate_all_sound _ _ _ _ _ Hroom Hall)
      as (Hcfg & _ & _ & Hlen & Hids & Hnd).
    exists ids, this'. repeat split; try apply Hcfg; try assumption.
    eapply Forall_impl; [exact Hids|]. intros id (k & d & _ & Hid & Hf).
    split; [assumption|]. rewrite Hid. apply make_id_prefix.
Qed.

(** A generator whose first candidate, [_$0], is forbidden. *)
Definition example_generator : t := new {[ "_$0" ]} false "" "_$".

Lemma generate_fresh_increasing_distinct_witness :
  size (forbiddenNames example_generator) < 2 /\
  counter_room example_generator (length [None; Some "a.b"] * 2) /\
  generate_all 2 example_generator [None; Some "a.b"]
  = Some (["_$1"; "_$2"],
          {| prefix := "_$"; uidCounter := 3; debugNames := false;
             forbiddenNames := {[ "_$0" ]}; uniqueSuffix := "" |}) /\
  exists (ids : list string) (this' : t),
    generate_all 2 example_generator [None; Some "a.b"] = Some (ids, this') /\
    length ids = 2 /\
    NoDup ids /\
    Forall (fun id => (id ∉ forbiddenNames example_generator) /\
                      String.prefix (prefix example_generator) id = true) ids /\
    same_config example_generator this'.
Proof.
  assert (Hsize : size (forbiddenNames example_generator) < 2)
    by (vm_compute; lia).
  assert (Hroom : counter_room example_generator (length [None; Some "a.b"] * 2))
    by (vm_compute; discriminate).
  split; [exact Hsize|]. split; [exact Hroom|].
  split; [vm_compute; reflexivity|].
  exact (proj2 (generate_fresh_increasing_distinct example_generator 2 Hsize)
           [None; Some "a.b"] Hroom).
Defined.

(** The generator the repository's constructor makes, once its counter has
    reached 2^53. *)
Definition exhausted_generator : t :=
  {| prefix := "_$"; uidCounter := counter_limit; debugNames := false;
     forbiddenNames := ∅; uniqueSuffix := "" |}.

(** Incrementing the counter [n] times from the constructor's 0 leaves it
    at [n], up to 2^53: the exhausted generator is a state of the program. *)
Lemma counter_reaches (n : N) :
  (n <= counter_limit)%N ->
  N.iter n bump (new ∅ false "" "_$")
  = {| prefix := "_$"; uidCounter := n; debugNames := false;
       forbiddenNames := ∅; uniqueSuffix := "" |}.
Proof.
  induction n as [|n IH] using N.peano_ind; intros Hn; [reflexivity|].
  rewrite N.iter_succ, IH by lia. unfold bump. cbn [prefix uidCounter debugNames
    forbiddenNames uniqueSuffix].
  destruct (N.ltb_spec n counter_limit); [|lia].
  now rewrite N.add_1_r.
Qed.

Lemma counter_reaches_limit :
  N.iter counter_limit bump (new ∅ false "" "_$") = exhausted_generator.
Proof. apply counter_reaches. reflexivity. Qed.

(** C8 as stated fails at 2^53: there [uidCounter++] no longer changes the
    counter, so a call leaves the counter as it was, and two successive calls
    return the same identifier. *)
Lemma generate_repeats_at_limit :
  generate 1 exhausted_generator None = Some ("_$FfGNdXsE8", exhausted_generator) /\
  ~ (uidCounter exhausted_generator < uidCounter exhausted_generator)%N /\
  generate_all 1 exhausted_generator [None; None]
  = Some (["_$FfGNdXsE8"; "_$FfGNdXsE8"], exhausted_generator) /\
  ~ NoDup ["_$FfGNdXsE8"; "_$FfGNdXsE8"].
Proof.
  split; [vm_compute; reflexivity|]. split; [lia|].
  split; [vm_compute; reflexivity|].
  intros Hnodup. apply NoDup_cons in Hnodup as [Hnotin _].
  apply Hnotin. now left.
Qed.

(** With that identifier forbidden the loop never ends, whatever the
    fuel. *)
Definition stuck_generator : t :=
  {| prefix := "_$"; uidCounter := counter_limit; debugNames := false;
     forbiddenNames := {[ "_$FfGNdXsE8" ]}; uniqueSuffix := "" |}.

Lemma generate_loops_at_limit (fuel : nat) (d : option string) :
  generate fuel stuck_generator d = None.
Proof.
  induction fuel as [|fuel IH]; [reflexivity|].
  cbn [generate]. rewrite decide_True; [exact IH|].
  vm_compute. reflexivity.
Qed.

Example generate_skips_forbidden :
  generate 2 example_generator None
  = Some ("_$1", {| prefix := "_$"; uidCounter := 2; debugNames := false;
                    forbiddenNames := {[ "_$0" ]}; uniqueSuffix := "" |}).
Proof. vm_compute. reflexivity. Qed.

Example generate_debug_name :
  fst <$> generate 1 (new ∅ true "x" "_$") (Some "a.b:c") = Some "_$0x_a_b_c".
Proof. vm_compute. reflexivity. Qed.

End NameGenerator.

(* ===================================================================== *)
(** * generator.js: [PreludeGenerator] *)
(* ===================================================================== *)

Module PreludeGenerator.

Record t := {
  prelude : list BabelNode;
  derivedIds : gmap string (list Value);
  memoizedRefs : gmap string BabelNode;
  nameGenerator : NameGenerator.t;
  usesThis : bool;
  declaredGlobals : gset string;
}.

(** [new PreludeGenerator(debugNames, uniqueSuffix)]: [!!debugNames] and
    [uniqueSuffix || ""] on optional arguments. *)
Definition new (debugNames : option bool) (uniqueSuffix : option string) : t :=
  {| prelude := [];
     derivedIds := ∅;
     memoizedRefs := ∅;
     nameGenerator :=
       NameGenerator.new ∅ (truthy debugNames) (default "" uniqueSuffix) "_$";
     usesThis := false;
     declaredGlobals := ∅ |}.

Definition set_usesThis (b : bool) (this : t) : t :=
  {| prelude := prelude this; derivedIds := derivedIds this;
     memoizedRefs := memoizedRefs this; nameGenerator := nameGenerator this;
     usesThis := b; declaredGlobals := declaredGlobals this |}.

Definition set_nameGenerator (g : NameGenerator.t) (this : t) : t :=
  {| prelude := prelude this; derivedIds := derivedIds this;
     memoizedRefs := memoizedRefs this; nameGenerator := g;
     usesThis := usesThis this; declaredGlobals := declaredGlobals this |}.

Definition set_derivedIds (m : gmap string (list Value)) (this : t) : t :=
  {| prelude := prelude this; derivedIds := m;
     memoizedRefs := memoizedRefs this; nameGenerator := nameGenerator this;
     usesThis := usesThis this; declaredGlobals := declaredGlobals this |}.

(** [this.prelude.push(stmt)] *)
Definition push_prelude (stmt : BabelNode) (this : t) : t :=
  {| prelude := prelude this ++ [stmt]; derivedIds := derivedIds this;
     memoizedRefs := memoizedRefs this; nameGenerator := nameGenerator this;
     usesThis := usesThis this; declaredGlobals := declaredGlobals this |}.

(** [this.memoizedRefs.set(key, ref)] *)
Definition set_memoizedRef (key : string) (ref : BabelNode) (this : t) : t :=
  {| prelude := prelude this; derivedIds := derivedIds this;
     memoizedRefs := <[key := ref]> (memoizedRefs this);
     nameGenerator := nameGenerator this;
     usesThis := usesThis this; declaredGlobals := declaredGlobals this |}.

(** [memoizeReference(key)].  The method calls itself on ["global"] or on
    the part of [key] before its last dot; each level of that recursion, and
    each iteration of the name generator's loop, takes one unit of [fuel]
    ([None]: the fuel ran out). *)
Fixpoint memoizeReference (fuel : nat) (key : string) (this : t)
    : option (BabelNode * t) :=
  match fuel with
  | O => None
  | S fuel' =>
      match memoizedRefs this !! key with
      | Some ref => Some (ref, this)
      | None =>
          let init_this :=
            if (JsString.includes_char "(" key || JsString.includes_char "[" key)%bool
            then Some (identifier key, this)
            else if String.eqb key "global"
            then Some (thisExpression, set_usesThis true this)
            else
              match JsString.lastIndexOf_dot key with
              | None =>
                  match memoizeReference fuel' "global" this with
                  | Some (g, this1) =>
                      Some (memberExpression g (identifier key) false, this1)
                  | None => None
                  end
              | Some i =>
                  match memoizeReference fuel' (String.substring 0 i key) this with
                  | Some (o, this1) =>
                      Some (memberExpression o
                              (identifier (JsString.substr_from (i + 1) key)) false,
                            this1)
                  | None => None
                  end
              end in
          match init_this with
          | None => None
          | Some (init, this1) =>
              match NameGenerator.generate fuel (nameGenerator this1) (Some key) with
              | None => None
              | Some (name, g') =>
                  let ref := identifier name in
                  let this2 := set_nameGenerator g' this1 in
                  let this3 :=
                    push_prelude
                      (variableDeclaration "var" [variableDeclarator ref init]) this2 in
                  Some (ref, set_memoizedRef key ref this3)
              end
          end
      end
  end.

(** The reference the initializer of [key] is built from, if any. *)
Definition parent_reference (key : string) : option string :=
  if (JsString.includes_char "(" key || JsString.includes_char "[" key)%bool then None
  else if String.eqb key "global" then None
  else match JsString.lastIndexOf_dot key with
       | None => Some "global"
       | Some i => Some (String.substring 0 i key)
       end.

Definition is_var_declaration_of (ref stmt : BabelNode) : Prop :=
  exists init : BabelNode, stmt = variableDeclaration "var" [variableDeclarator ref init].

Example memoize_global :
  memoizeReference 1 "global" (new None None)
  = Some (identifier "_$0",
          set_memoizedRef "global" (identifier "_$0")
            (push_prelude
               (variableDeclaration "var"
                  [variableDeclarator (identifier "_$0") thisExpression])
               (set_nameGenerator (NameGenerator.bump (nameGenerator (new None None)))
                  (set_usesThis true (new None None))))).
Proof. vm_compute. reflexivity. Qed.

Example memoize_Object_prototype_prelude :
  (fun r => prelude (snd r)) <$> memoizeReference 3 "Object.prototype" (new None None)
  = Some [ variableDeclaration "var"
             [variableDeclarator (identifier "_$0") thisExpression];
           variableDeclaration "var"
             [variableDeclarator (identifier "_$1")
                (memberExpression (identifier "_$0") (identifier "Object") false)];
           variableDeclaration "var"
             [variableDeclarator (identifier "_$2")
                (memberExpression (identifier "_$1") (identifier "prototype") false)] ].
Proof. vm_compute. reflexivity. Qed.

Lemma lastIndexOf_dot_lt (s : string) (i : nat) :
  JsString.lastIndexOf_dot s = Some i -> i < String.length s.
Proof.
  revert i; induction s as [|a s IH]; intros i H; simpl in H; [discriminate|].
  destruct (JsString.lastIndexOf_dot s) as [j|].
  - injection H as <-. specialize (IH j eq_refl). simpl. lia.
  - destruct (Ascii.eqb a "."); [|discriminate]. injection H as <-. simpl. lia.
Qed.

Lemma length_substring_le (n m : nat) (s : string) :
  String.length (String.substring n m s) <= m.
Proof.
  revert n m; induction s as [|a s IH]; intros [|n] [|m]; simpl; try lia.
  - specialize (IH 0 m). lia.
  - apply IH.
  - apply IH.
Qed.

Lemma parent_shorter (key : string) (i : nat) :
  JsString.lastIndexOf_dot key = Some i ->
  String.length (String.substring 0 i key) < String.length key.
Proof.
  intros Hdot. pose proof (lastIndexOf_dot_lt _ _ Hdot).
  pose proof (length_substring_le 0 i key). lia.
Qed.

(** How deep the recursion for [key] goes at most: the key is at most as
    long as it has dots, plus the step to ["global"]. *)
Definition depth (key : string) : nat :=
  if String.eqb key "global" then 0 else String.length key + 1.

Lemma parent_depth (key p : string) :
  parent_reference key = Some p -> depth p < depth key.
Proof.
  unfold parent_reference, depth.
  destruct (JsString.includes_char "(" key || JsString.includes_char "[" key)%bool;
    [discriminate|].
  destruct (String.eqb key "global"); [discriminate|].
  destruct (JsString.lastIndexOf_dot key) as [i|] eqn:Hdot; intros [= <-].
  - pose proof (parent_shorter _ _ Hdot).
    destruct (String.eqb (String.substring 0 i key) "global"); lia.
  - simpl. lia.
Qed.

Lemma parent_differs (key p : string) : parent_reference key = Some p -> p <> key.
Proof. intros H <-. apply parent_depth in H. lia. Qed.

(** The keys a call for [key] declares, outermost first: [key] and, before
    it, the references its initializer is built from, up to the first one
    that is cached; [n] bounds the number of keys. *)
Fixpoint uncached_from (n : nat) (key : string) (this : t) : list string :=
  match n with
  | O => []
  | S n' =>
      match memoizedRefs this !! key with
      | Some _ => []
      | None =>
          match parent_reference key with
          | None => [key]
          | Some p => uncached_from n' p this ++ [key]
          end
      end
  end.

Definition uncached_chain (key : string) (this : t) : list string :=
  uncached_from (S (depth key)) key this.

Lemma uncached_from_enough (n : nat) :
  forall (m : nat) (key : string) (this : t),
    depth key < n -> depth key < m ->
    uncached_from n key this = uncached_from m key this.
Proof.
  induction n as [|n IH]; intros [|m] key this Hn Hm; try lia.
  cbn [uncached_from]. destruct (memoizedRefs this !! key); [reflexivity|].
  destruct (parent_reference key) as [p|] eqn:Hp; [|reflexivity].
  apply parent_depth in Hp. rewrite (IH m p this); [reflexivity|lia|lia].
Qed.

(** [stmt] declares the reference cached under [k]. *)
Definition declared_in (this : t) (k : string) (stmt : BabelNode) : Prop :=
  exists r : BabelNode, memoizedRefs this !! k = Some r /\ is_var_declaration_of r stmt.

(** The initializer of the declaration for [key]: the key itself, [this],
    or a property of the reference cached for the key's parent. *)
Definition initializer_of (key : string) (this : t) (init : BabelNode) : Prop :=
  if (JsString.includes_char "(" key || JsString.includes_char "[" key)%bool
  then init = identifier key
  else if String.eqb key "global" then init = thisExpression
  else match JsString.lastIndexOf_dot key with
       | None =>
           exists g : BabelNode,
             memoizedRefs this !! "global" = Some g /\
             init = memberExpression g (identifier key) false
       | Some i =>
           exists o : BabelNode,
             memoizedRefs this !! String.substring 0 i key = Some o /\
             init = memberExpression o
                      (identifier (JsString.substr_from (i + 1) key)) false
       end.

Lemma memoizeReference_hit (fuel : nat) (key : string) (this : t) (ref : BabelNode) :
  memoizedRefs this !! key = Some ref ->
  0 < fuel ->
  memoizeReference fuel key this = Some (ref, this).
Proof.
  intros Hhit Hfuel. destruct fuel as [|fuel]; [lia|]. simpl. now rewrite Hhit.
Qed.

(** Any call only appends to the prelude, appends nothing when the key is
    cached, and leaves the name generator's configuration alone. *)
Lemma memoizeReference_extends (fuel : nat) :
  forall (key : string) (this : t) (ref : BabelNode) (this' : t),
    memoizeReference fuel key this = Some (ref, this') ->
    exists decls : list BabelNode,
      prelude this' = prelude this ++ decls /\
      NameGenerator.same_config (nameGenerator this) (nameGenerator this') /\
      (is_Some (memoizedRefs this !! key) -> decls = []).
Proof.
  induction fuel as [|fuel IH]; intros key this ref this' H; [discriminate|].
  cbn [memoizeReference] in H.
  destruct (memoizedRefs this !! key) as [r|] eqn:Hlookup.
  { injection H as <- <-. exists []. rewrite app_nil_r.
    split; [reflexivity|]. split; [apply NameGenerator.same_config_refl | reflexivity]. }
  match type of H with
  | match ?scrutinee with _ => _ end = _ =>
      destruct scrutinee as [[init this1]|] eqn:Hinit
  end; [|discriminate].
  destruct (NameGenerator.generate (S fuel) (nameGenerator this1) (Some key))
    as [[name g']|] eqn:Hgen; [|discriminate].
  injection H as <- <-.
  destruct (NameGenerator.generate_sound _ _ _ _ _ Hgen) as (_ & _ & _ & _ & _ & Hcfg).
  assert (Hstep : exists decls1,
             prelude this1 = prelude this ++ decls1 /\
             NameGenerator.same_config (nameGenerator this) (nameGenerator this1)).
  { destruct (JsString.includes_char "(" key || JsString.includes_char "[" key)%bool.
    { injection Hinit as <- <-. exists []. rewrite app_nil_r.
      split; [reflexivity | apply NameGenerator.same_config_refl]. }
    destruct (String.eqb key "global").
    { injection Hinit as <- <-. exists []. rewrite app_nil_r.
      split; [reflexivity | apply NameGenerator.same_config_refl]. }
    destruct (JsString.lastIndexOf_dot key) as [i|].
    - destruct (memoizeReference fuel (String.substring 0 i key) this)
        as [[o this0]|] eqn:Hrec; [|discriminate].
      injection Hinit as <- <-.
      destruct (IH _ _ _ _ Hrec) as (decls1 & Hp & Hc & _). eauto.
    - destruct (memoizeReference fuel "global" this)
        as [[o this0]|] eqn:Hrec; [|discriminate].
      injection Hinit as <- <-.
      destruct (IH _ _ _ _ Hrec) as (decls1 & Hp & Hc & _). eauto. }
  destruct Hstep as (decls1 & Hp & Hc).
  exists (decls1 ++ [variableDeclaration "var" [variableDeclarator (identifier name) init]]).
  cbn [prelude nameGenerator set_memoizedRef push_prelude set_nameGenerator].
  rewrite Hp, app_assoc. split; [reflexivity|]. split.
  - eapply NameGenerator.same_config_trans; eassumption.
  - intros [? ?]. discriminate.
Qed.

(** What a first call does. *)
Lemma memoizeReference_miss (fuel : nat) (key : string) (this : t)
    (ref : BabelNode) (this' : t) :
  memoizeReference fuel key this = Some (ref, this') ->
  memoizedRefs this !! key = None ->
  exists (decls : list BabelNode) (init : BabelNode),
    prelude this' =
      prelude this ++ decls ++ [variableDeclaration "var" [variableDeclarator ref init]] /\
    match parent_reference key with
    | None => decls = []
    | Some p => is_Some (memoizedRefs this !! p) -> decls = []
    end /\
    memoizedRefs this' !! key = Some ref /\
    exists name : string,
      ref = identifier name /\ name ∉ NameGenerator.forbiddenNames (nameGenerator this).
Proof.
  intros H Hmiss. destruct fuel as [|fuel]; [discriminate|].
  cbn [memoizeReference] in H. rewrite Hmiss in H.
  match type of H with
  | match ?scrutinee with _ => _ end = _ =>
      destruct scrutinee as [[init this1]|] eqn:Hinit
  end; [|discriminate].
  destruct (NameGenerator.generate (S fuel) (nameGenerator this1) (Some key))
    as [[name g']|] eqn:Hgen; [|discriminate].
  injection H as <- <-.
  destruct (NameGenerator.generate_sound _ _ _ _ _ Hgen) as (_ & _ & _ & _ & Hfresh & _).
  assert (Hstep : exists decls,
             prelude this1 = prelude this ++ decls /\
             NameGenerator.same_config (nameGenerator this) (nameGenerator this1) /\
             match parent_reference key with
             | None => decls = []
             | Some p => is_Some (memoizedRefs this !! p) -> decls = []
             end).
  { unfold parent_reference.
    destruct (JsString.includes_char "(" key || JsString.includes_char "[" key)%bool.
    { injection Hinit as <- <-. exists []. rewrite app_nil_r.
      repeat split. }
    destruct (String.eqb key "global").
    { injection Hinit as <- <-. exists []. rewrite app_nil_r.
      repeat split. }
    destruct (JsString.lastIndexOf_dot key) as [i|].
    - destruct (memoizeReference fuel (String.substring 0 i key) this)
        as [[o this0]|] eqn:Hrec; [|discriminate].
      injection Hinit as <- <-.
      destruct (memoizeReference_extends _ _ _ _ _ Hrec) as (decls & Hp & Hc & Hd). eauto.
    - destruct (memoizeReference fuel "global" this)
        as [[o this0]|] eqn:Hrec; [|discriminate].
      injection Hinit as <- <-.
      destruct (memoizeReference_extends _ _ _ _ _ Hrec) as (decls & Hp & Hc & Hd). eauto. }
  destruct Hstep as (decls & Hp & Hc & Hd).
  exists decls, init.
  cbn [prelude memoizedRefs set_memoizedRef push_prelude set_nameGenerator].
  rewrite Hp, <- app_assoc. split; [reflexivity|]. split; [exact Hd|].
  split; [apply lookup_insert_eq|].
  exists name. split; [reflexivity|].
  destruct Hc as (_ & _ & Hf & _). now rewrite Hf.
Qed.

(** A call for [key] writes to the cache only under [key], under
    ["global"], and under keys shorter than [key] (the paths [key] goes
    through). *)
Lemma memoizeReference_frame (fuel : nat) :
  forall (key : string) (this : t) (ref : BabelNode) (this' : t),
    memoizeReference fuel key this = Some (ref, this') ->
    forall key' : string,
      key' <> "global" -> key' <> key ->
      (key <> "global" -> String.length key <= String.length key') ->
      memoizedRefs this' !! key' = memoizedRefs this !! key'.
Proof.
  induction fuel as [|fuel IH]; intros key this ref this' H key' Hglobal Hkey Hlength;
    [discriminate|].
  cbn [memoizeReference] in H.
  destruct (memoizedRefs this !! key) as [r|] eqn:Hlookup.
  { now injection H as <- <-. }
  match type of H with
  | match ?scrutinee with _ => _ end = _ =>
      destruct scrutinee as [[init this1]|] eqn:Hinit
  end; [|discriminate].
  destruct (NameGenerator.generate (S fuel) (nameGenerator this1) (Some key))
    as [[name g']|] eqn:Hgen; [|discriminate].
  injection H as <- <-.
  cbn [memoizedRefs set_memoizedRef push_prelude set_nameGenerator].
  rewrite lookup_insert_ne by congruence.
  destruct (JsString.includes_char "(" key || JsString.includes_char "[" key)%bool.
  { now injection Hinit as <- <-. }
  destruct (String.eqb key "global") eqn:Hkg.
  { now injection Hinit as <- <-. }
  apply String.eqb_neq in Hkg. specialize (Hlength Hkg).
  destruct (JsString.lastIndexOf_dot key) as [i|] eqn:Hdot.
  - destruct (memoizeReference fuel (String.substring 0 i key) this)
      as [[o this0]|] eqn:Hrec; [|discriminate].
    injection Hinit as <- <-.
    pose proof (parent_shorter _ _ Hdot) as Hshorter.
    apply (IH _ _ _ _ Hrec); [assumption| |lia].
    intros ->. lia.
  - destruct (memoizeReference fuel "global" this)
      as [[o this0]|] eqn:Hrec; [|discriminate].
    injection Hinit as <- <-.
    apply (IH _ _ _ _ Hrec); [assumption|assumption|]. intros Hne. now destruct Hne.
Qed.

(** The recursive call for the parent of [key] leaves [key] out of the
    cache. *)
Lemma memoizeReference_parent_frame (fuel : nat) (key p : string) (this : t)
    (ref : BabelNode) (this' : t) :
  parent_reference key = Some p ->
  memoizeReference fuel p this = Some (ref, this') ->
  memoizedRefs this' !! key = memoizedRefs this !! key.
Proof.
  intros Hp Hrec. pose proof (parent_differs _ _ Hp) as Hne.
  revert Hp. unfold parent_reference.
  destruct (JsString.includes_char "(" key || JsString.includes_char "[" key)%bool;
    [discriminate|].
  destruct (String.eqb key "global") eqn:Hkg; [discriminate|].
  apply String.eqb_neq in Hkg.
  destruct (JsString.lastIndexOf_dot key) as [i|] eqn:Hdot; intros [= <-].
  - pose proof (parent_shorter _ _ Hdot).
    apply (memoizeReference_frame _ _ _ _ _ Hrec); [exact Hkg|congruence|lia].
  - apply (memoizeReference_frame _ _ _ _ _ Hrec); [exact Hkg|exact Hkg|].
    intros Hg. now destruct Hg.
Qed.

(** One step of the method, with its self-call named: what [memoizeReference]
    computes for a key that is not cached. *)
Lemma memoizeReference_unfold (fuel : nat) (key : string) (this : t)
    (ref : BabelNode) (this' : t) :
  memoizeReference (S fuel) key this = Some (ref, this') ->
  memoizedRefs this !! key = None ->
  exists (init : BabelNode) (this1 : t) (name : string) (g' : NameGenerator.t),
    NameGenerator.generate (S fuel) (nameGenerator this1) (Some key) = Some (name, g') /\
    ref = identifier name /\
    this' = set_memoizedRef key ref
              (push_prelude (variableDeclaration "var" [variableDeclarator ref init])
                 (set_nameGenerator g' this1)) /\
    match parent_reference key with
    | None =>
        init = (if (JsString.includes_char "(" key
                    || JsString.includes_char "[" key)%bool
                then identifier key else thisExpression) /\
        (this1 = this \/ this1 = set_usesThis true this)
    | Some p =>
        exists o : BabelNode,
          memoizeReference fuel p this = Some (o, this1) /\
          initializer_of key (set_memoizedRef p o this1) init
    end.
Proof.
  intros H Hmiss. cbn [memoizeReference] in H. rewrite Hmiss in H.
  match type of H with
  | match ?scrutinee with _ => _ end = _ =>
      destruct scrutinee as [[init this1]|] eqn:Hinit
  end; [|discriminate].
  destruct (NameGenerator.generate (S fuel) (nameGenerator this1) (Some key))
    as [[name g']|] eqn:Hgen; [|discriminate].
  injection H as <- <-.
  exists init, this1, name, g'. split; [exact Hgen|]. split; [reflexivity|].
  split; [reflexivity|].
  unfold parent_reference, initializer_of.
  destruct (JsString.includes_char "(" key || JsString.includes_char "[" key)%bool.
  { injection Hinit as <- <-. auto. }
  destruct (String.eqb key "global").
  { injection Hinit as <- <-. auto. }
  destruct (JsString.lastIndexOf_dot key) as [i|].
  - destruct (memoizeReference fuel (String.substring 0 i key) this)
      as [[o this0]|] eqn:Hrec; [|discriminate].
    injection Hinit as <- <-. exists o. split; [reflexivity|].
    exists o. split; [apply lookup_insert_eq | reflexivity].
  - destruct (memoizeReference fuel "global" this)
      as [[o this0]|] eqn:Hrec; [|discriminate].
    injection Hinit as <- <-. exists o. split; [reflexivity|].
    exists o. split; [apply lookup_insert_eq | reflexivity].
Qed.

(** Which declarations a call appends: one for each key that was not
    cached on the way from [key] up to the first cached reference, outermost
    first; the cache keeps what it held, and holds the result. *)
Lemma memoizeReference_declares (fuel : nat) :
  forall (key : string) (this : t) (ref : BabelNode) (this' : t),
    memoizeReference fuel key this = Some (ref, this') ->
    exists decls : list BabelNode,
      prelude this' = prelude this ++ decls /\
      Forall2 (declared_in this') (uncached_from fuel key this) decls /\
      (forall (k : string) (r : BabelNode),
          memoizedRefs this !! k = Some r -> memoizedRefs this' !! k = Some r) /\
      memoizedRefs this' !! key = Some ref /\
      (memoizedRefs this !! key = None ->
       exists (decls0 : list BabelNode) (init : BabelNode),
         decls = decls0 ++ [variableDeclaration "var" [variableDeclarator ref init]] /\
         Forall2 (declared_in this')
           (match parent_reference key with
            | None => []
            | Some p => uncached_from (pred fuel) p this
            end) decls0 /\
         initializer_of key this' init).
Proof.
  induction fuel as [|fuel IH]; intros key this ref this' H; [discriminate|].
  destruct (memoizedRefs this !! key) as [r|] eqn:Hlookup.
  { rewrite (memoizeReference_hit _ _ _ _ Hlookup) in H by lia.
    injection H as <- <-. exists []. rewrite app_nil_r.
    cbn [uncached_from]. rewrite Hlookup.
    split; [reflexivity|]. split; [constructor|]. split; [auto|].
    split; [reflexivity | discriminate]. }
  destruct (memoizeReference_unfold _ _ _ _ _ H Hlookup)
    as (init & this1 & name & g' & Hgen & -> & -> & Hparent).
  cbn [uncached_from pred]. rewrite Hlookup.
  cbn [prelude memoizedRefs set_memoizedRef push_prelude set_nameGenerator].
  set (decl := variableDeclaration "var" [variableDeclarator (identifier name) init]).
  set (this' := set_memoizedRef key (identifier name)
                  (push_prelude decl (set_nameGenerator g' this1))).
  assert (Hlast : declared_in this' key decl).
  { exists (identifier name). split; [apply lookup_insert_eq | now exists init]. }
  assert (Hstep : exists decls0,
             prelude this1 = prelude this ++ decls0 /\
             Forall2 (declared_in this')
               (match parent_reference key with
                | None => []
                | Some p => uncached_from fuel p this
                end) decls0 /\
             (forall k r, memoizedRefs this !! k = Some r ->
                          memoizedRefs this1 !! k = Some r) /\
             memoizedRefs this1 !! key = None /\
             initializer_of key this' init).
  { destruct (parent_reference key) as [p|] eqn:Hp.
    - destruct Hparent as (o & Hrec & Hinit).
      destruct (IH _ _ _ _ Hrec) as (decls0 & Hprelude & Hdecls & Hstable & Ho & _).
      assert (Hkey1 : memoizedRefs this1 !! key = None)
        by (now rewrite (memoizeReference_parent_frame _ _ _ _ _ _ Hp Hrec)).
      assert (Hstable' : forall k r, memoizedRefs this1 !! k = Some r ->
                                     memoizedRefs this' !! k = Some r).
      { intros k r Hk. subst this'. cbn [memoizedRefs set_memoizedRef push_prelude
          set_nameGenerator]. rewrite lookup_insert_ne; [exact Hk|].
        intros <-. congruence. }
      exists decls0. split; [exact Hprelude|]. split.
      { eapply Forall2_impl; [exact Hdecls|].
        intros k stmt (r & Hr & Hstmt). exists r. split; [now apply Hstable'|exact Hstmt]. }
      split; [exact Hstable|]. split; [exact Hkey1|].
      revert Hinit. unfold initializer_of.
      destruct (JsString.includes_char "(" key || JsString.includes_char "[" key)%bool;
        [auto|].
      destruct (String.eqb key "global"); [auto|].
      revert Hp. unfold parent_reference.
      destruct (JsString.includes_char "(" key || JsString.includes_char "[" key)%bool;
        [discriminate|].
      destruct (String.eqb key "global"); [discriminate|].
      destruct (JsString.lastIndexOf_dot key) as [i|]; intros [= <-] (o' & Ho' & ->);
        cbn [memoizedRefs set_memoizedRef] in Ho'; rewrite lookup_insert_eq in Ho';
        injection Ho' as <-; exists o; (split; [now apply Hstable' | reflexivity]).
    - destruct Hparent as [-> Hthis1]. exists [].
      assert (Hrefs : memoizedRefs this1 = memoizedRefs this)
        by (now destruct Hthis1 as [-> | ->]).
      assert (Hpre : prelude this1 = prelude this)
        by (now destruct Hthis1 as [-> | ->]).
      rewrite Hpre, Hrefs, app_nil_r. split; [reflexivity|]. split; [constructor|].
      split; [auto|]. split; [exact Hlookup|].
      revert Hp. unfold parent_reference, initializer_of.
      destruct (JsString.includes_char "(" key || JsString.includes_char "[" key)%bool;
        [reflexivity|].
      destruct (String.eqb key "global"); [reflexivity|].
      now destruct (JsString.lastIndexOf_dot key). }
  destruct Hstep as (decls0 & Hprelude & Hdecls & Hstable & Hkey1 & Hinit).
  exists (decls0 ++ [decl]). rewrite Hprelude, app_assoc.
  split; [reflexivity|]. split.
  { destruct (parent_reference key) as [p|].
    - apply Forall2_app; [exact Hdecls | now constructor].
    - apply Forall2_nil_inv_l in Hdecls as ->. now constructor. }
  split.
  { intros k r Hk. rewrite lookup_insert_ne; [now apply Hstable|].
    intros <-. congruence. }
  split; [apply lookup_insert_eq|].
  intros _. exists decls0, init. auto.
Qed.

(** A call moves the counter of the name generator by at most
    [fuel * fuel]: at most [fuel] identifiers, each found in at most [fuel]
    iterations. *)
Lemma memoizeReference_counter (fuel : nat) :
  forall (key : string) (this : t) (ref : BabelNode) (this' : t),
    memoizeReference fuel key this = Some (ref, this') ->
    (NameGenerator.uidCounter (nameGenerator this')
     <= NameGenerator.uidCounter (nameGenerator this) + N.of_nat (fuel * fuel))%N.
Proof.
  induction fuel as [|fuel IH]; intros key this ref this' H; [discriminate|].
  destruct (memoizedRefs this !! key) as [r|] eqn:Hlookup.
  { rewrite (memoizeReference_hit _ _ _ _ Hlookup) in H by lia.
    injection H as <- <-. lia. }
  destruct (memoizeReference_unfold _ _ _ _ _ H Hlookup)
    as (init & this1 & name & g' & Hgen & -> & -> & Hparent).
  cbn [nameGenerator set_memoizedRef push_prelude set_nameGenerator].
  destruct (NameGenerator.generate_sound _ _ _ _ _ Hgen) as (k & Hk & Hc & _).
  assert (Hg' : (NameGenerator.uidCounter g'
                 <= NameGenerator.uidCounter (nameGenerator this1)
                    + N.of_nat (S fuel))%N).
  { rewrite Hc. destruct (N.ltb_spec k NameGenerator.counter_limit); lia. }
  assert (H1 : (NameGenerator.uidCounter (nameGenerator this1)
                <= NameGenerator.uidCounter (nameGenerator this)
                   + N.of_nat (fuel * fuel))%N).
  { destruct (parent_reference key) as [p|].
    - destruct Hparent as (o & Hrec & _). exact (IH _ _ _ _ Hrec).
    - destruct Hparent as [_ [-> | ->]]; cbn [nameGenerator set_usesThis]; lia. }
  nia.
Qed.

Lemma counter_room_step (g : NameGenerator.t) (fuel : nat) :
  NameGenerator.counter_room g (S fuel * S fuel) ->
  NameGenerator.counter_room g (fuel * fuel) /\
  forall g1 : NameGenerator.t,
    (NameGenerator.uidCounter g1
     <= NameGenerator.uidCounter g + N.of_nat (fuel * fuel))%N ->
    NameGenerator.counter_room g1 (S fuel).
Proof.
  unfold NameGenerator.counter_room. intros Hroom. split; [nia|].
  intros g1 Hg1. nia.
Qed.

(** The recursion is at most as deep as the key is long (plus the step to
    ["global"]), and each name needs at most one more try than there are
    forbidden names; the counter has to stay below 2^53 for the tries to
    differ. *)
Lemma memoizeReference_terminates (fuel : nat) :
  forall (key : string) (this : t),
    (if String.eqb key "global" then 0 else String.length key + 1)
      + size (NameGenerator.forbiddenNames (nameGenerator this)) < fuel ->
    NameGenerator.counter_room (nameGenerator this) (fuel * fuel) ->
    is_Some (memoizeReference fuel key this).
Proof.
  induction fuel as [|fuel IH]; intros key this Hfuel Hroom; [lia|].
  destruct (counter_room_step _ _ Hroom) as [Hroom0 Hroom1].
  cbn [memoizeReference].
  destruct (memoizedRefs this !! key) as [r|]; [eauto|].
  assert (Hgen : forall (init : BabelNode) (this1 : t),
             NameGenerator.same_config (nameGenerator this) (nameGenerator this1) ->
             (NameGenerator.uidCounter (nameGenerator this1)
              <= NameGenerator.uidCounter (nameGenerator this)
                 + N.of_nat (fuel * fuel))%N ->
             is_Some
               match NameGenerator.generate (S fuel) (nameGenerator this1) (Some key) with
               | Some (name, g') =>
                   Some (identifier name,
                         set_memoizedRef key (identifier name)
                           (push_prelude
                              (variableDeclaration "var"
                                 [variableDeclarator (identifier name) init])
                              (set_nameGenerator g' this1)))
               | None => None
               end).
  { intros init this1 (_ & _ & Hf & _) Hle.
    destruct (NameGenerator.generate_terminates (S fuel) (nameGenerator this1) (Some key))
      as [[name g'] Hg]; [rewrite <- Hf; lia | now apply Hroom1 |].
    rewrite Hg. eauto. }
  destruct (JsString.includes_char "(" key || JsString.includes_char "[" key)%bool.
  { apply Hgen; [apply NameGenerator.same_config_refl | lia]. }
  destruct (String.eqb key "global") eqn:Hglobal.
  { apply Hgen; [apply NameGenerator.same_config_refl | cbn; lia]. }
  destruct (JsString.lastIndexOf_dot key) as [i|] eqn:Hdot.
  - destruct (IH (String.substring 0 i key) this) as [[o this1] Hrec].
    { pose proof (lastIndexOf_dot_lt _ _ Hdot).
      pose proof (length_substring_le 0 i key).
      destruct (String.eqb (String.substring 0 i key) "global"); lia. }
    { exact Hroom0. }
    rewrite Hrec.
    destruct (memoizeReference_extends _ _ _ _ _ Hrec) as (_ & _ & Hc & _).
    apply Hgen; [exact Hc | exact (memoizeReference_counter _ _ _ _ _ Hrec)].
  - destruct (IH "global" this) as [[o this1] Hrec]; [simpl; lia | exact Hroom0 |].
    rewrite Hrec.
    destruct (memoizeReference_extends _ _ _ _ _ Hrec) as (_ & _ & Hc & _).
    apply Hgen; [exact Hc | exact (memoizeReference_counter _ _ _ _ _ Hrec)].
Qed.

(** C9, as the code has it.  A first call for [key] (not cached yet)
    returns a fresh identifier [ref], caches it under [key], and leaves the
    prelude extended by [decls], one declaration for each reference on the
    way from the key's parent up to the first cached one (outermost first,
    each declaring what the cache then holds for that reference), followed
    by the one declaration [var ref = init] of the key itself, whose
    initializer is the key, [this], or a property of the parent's cached
    reference; when the key needs no other reference, or the one it needs
    is cached already, that declaration is the only one appended.  Every
    later call with the same key returns the identical identifier and
    changes nothing.  The counter of the name generator has to stay below
    2^53. *)
Theorem memoizeReference_memoizes (fuel : nat) (key : string) (this : t) :
  memoizedRefs this !! key = None ->
  (if String.eqb key "global" then 0 else String.length key + 1)
    + size (NameGenerator.forbiddenNames (nameGenerator this)) < fuel ->
  NameGenerator.counter_room (nameGenerator this) (fuel * fuel) ->
  exists (ref : BabelNode) (this' : t) (decls : list BabelNode) (init : BabelNode),
    memoizeReference fuel key this = Some (ref, this') /\
    prelude this' =
      prelude this ++ decls ++ [variableDeclaration "var" [variableDeclarator ref init]] /\
    Forall2 (declared_in this')
      (match parent_reference key with
       | None => []
       | Some p => uncached_chain p this
       end) decls /\
    match parent_reference key with
    | None => decls = []
    | Some p => is_Some (memoizedRefs this !! p) -> decls = []
    end /\
    initializer_of key this' init /\
    memoizedRefs this' !! key = Some ref /\
    (exists name : string,
        ref = identifier name /\
        name ∉ NameGenerator.forbiddenNames (nameGenerator this)) /\
    (forall fuel' : nat, 0 < fuel' -> memoizeReference fuel' key this' = Some (ref, this')).
Proof.
  intros Hmiss Hfuel Hroom.
  destruct (memoizeReference_terminates fuel key this Hfuel Hroom) as [[ref this'] Hrun].
  destruct (memoizeReference_miss _ _ _ _ _ Hrun Hmiss)
    as (_ & _ & _ & _ & Hcached & Hfresh).
  destruct (memoizeReference_declares _ _ _ _ _ Hrun)
    as (decls1 & Hprelude & _ & _ & _ & Hfirst).
  destruct (Hfirst Hmiss) as (decls & init & -> & Hdecls & Hinit).
  assert (Hchain : Forall2 (declared_in this')
                     (match parent_reference key with
                      | None => []
                      | Some p => uncached_chain p this
                      end) decls).
  { destruct (parent_reference key) as [p|] eqn:Hp; [|exact Hdecls].
    unfold uncached_chain.
    rewrite (uncached_from_enough _ (pred fuel) p this); [exact Hdecls|lia|].
    apply parent_depth in Hp. fold (depth key) in Hfuel. lia. }
  exists ref, this', decls, init.
  split; [exact Hrun|]. split; [exact Hprelude|]. split; [exact Hchain|].
  split.
  { destruct (parent_reference key) as [p|]; [|now apply Forall2_nil_inv_l in Hchain].
    intros [r Hr]. unfold uncached_chain in Hchain. cbn [uncached_from] in Hchain.
    rewrite Hr in Hchain. now apply Forall2_nil_inv_l in Hchain. }
  split; [exact Hinit|]. split; [exact Hcached|]. split; [exact Hfresh|].
  intros fuel' Hpos. now apply memoizeReference_hit.
Qed.

Lemma memoizeReference_memoizes_witness :
  memoizedRefs (new None None) !! "Object" = None /\
  (if String.eqb "Object" "global" then 0 else String.length "Object" + 1)
    + size (NameGenerator.forbiddenNames (nameGenerator (new None None))) < 8 /\
  NameGenerator.counter_room (nameGenerator (new None None)) (8 * 8) /\
  uncached_chain "global" (new None None) = ["global"] /\
  exists (ref : BabelNode) (this' : t) (decls : list BabelNode) (init : BabelNode),
    memoizeReference 8 "Object" (new None None) = Some (ref, this') /\
    prelude this' =
      prelude (new None None) ++ decls
        ++ [variableDeclaration "var" [variableDeclarator ref init]] /\
    Forall2 (declared_in this')
      (match parent_reference "Object" with
       | None => []
       | Some p => uncached_chain p (new None None)
       end) decls /\
    match parent_reference "Object" with
    | None => decls = []
    | Some p => is_Some (memoizedRefs (new None None) !! p) -> decls = []
    end /\
    initializer_of "Object" this' init /\
    memoizedRefs this' !! "Object" = Some ref /\
    (exists name : string,
        ref = identifier name /\
        name ∉ NameGenerator.forbiddenNames (nameGenerator (new None None))) /\
    (forall fuel' : nat,
        0 < fuel' -> memoizeReference fuel' "Object" this' = Some (ref, this')).
Proof.
  assert (H1 : memoizedRefs (new None None) !! "Object" = None) by reflexivity.
  assert (H2 : (if String.eqb "Object" "global" then 0 else String.length "Object" + 1)
               + size (NameGenerator.forbiddenNames (nameGenerator (new None None))) < 8)
    by (vm_compute; lia).
  assert (H3 : NameGenerator.counter_room (nameGenerator (new None None)) (8 * 8))
    by (vm_compute; discriminate).
  split; [exact H1|]. split; [exact H2|]. split; [exact H3|].
  split; [vm_compute; reflexivity|].
  exact (memoizeReference_memoizes 8 "Object" (new None None) H1 H2 H3).
Defined.

(** The references still to declare for ["Object.prototype"]: itself once
    ["Object"] has been memoized, the whole path on a new prelude
    generator. *)
Example uncached_chain_example :
  (fun r => uncached_chain "Object.prototype" (snd r))
    <$> memoizeReference 8 "Object" (new None None)
  = Some ["Object.prototype"]
  /\ uncached_chain "Object.prototype" (new None None)
     = ["global"; "Object"; "Object.prototype"].
Proof. split; vm_compute; reflexivity. Qed.

(** C9 as stated fails: on a fresh prelude generator the first call for
    ["Object"] appends two declarations, [var _$0 = this] for ["global"]
    and [var _$1 = _$0.Object], not exactly one. *)
Lemma memoizeReference_first_call_pushes_two :
  memoizedRefs (new None None) !! "Object" = None /\
  prelude (new None None) = [] /\
  (fun r => (fst r, prelude (snd r))) <$> memoizeReference 2 "Object" (new None None)
  = Some (identifier "_$1",
          [ variableDeclaration "var"
              [variableDeclarator (identifier "_$0") thisExpression];
            variableDeclaration "var"
              [variableDeclarator (identifier "_$1")
                 (memberExpression (identifier "_$0") (identifier "Object") false)] ]).
Proof. split; [reflexivity|]. split; [reflexivity|]. vm_compute. reflexivity. Qed.

End PreludeGenerator.

(* ===================================================================== *)
(** * generator.js: entries and the serialization context *)
(* ===================================================================== *)

(** [SerializationContext]: six callbacks of the serializer, which keeps
    state of its own ([S]).  Generators are handed over by reference. *)
Record SerializationContext (S : Type) := {
  serializeValue : Value -> M S BabelNode;
  serializeGenerator : nat -> M S (list BabelNode);
  emitDefinePropertyBody : Value -> string -> Descriptor -> M S BabelNode;
  emit : BabelNode -> M S unit;
  canOmit : Value -> M S bool;
  declare : Value -> M S unit;
}.
Arguments serializeValue {S} _ _.
Arguments serializeGenerator {S} _ _.
Arguments emitDefinePropertyBody {S} _ _ _ _.
Arguments emit {S} _ _.
Arguments canOmit {S} _ _.
Arguments declare {S} _ _.

(** [GeneratorBuildNodeFunction]: a closure that, given the serialized
    arguments and whatever context the serializer brings, builds the
    statement to emit. *)
Definition GeneratorBuildNodeFunction : Type :=
  list BabelNode -> forall S : Type, SerializationContext S -> M S BabelNode.

(** [GeneratorEntry]: [declared], [dependencies] and [isPure] are optional. *)
Record GeneratorEntry := {
  declared : option Value;
  args : list Value;
  buildNode : GeneratorBuildNodeFunction;
  dependencies : option (list nat);
  isPure : option bool;
}.

(** A [Generator] object: its body and the prelude generator it took from
    the realm when it was constructed.  ([realm] is the state the methods
    below run in; [parent] is not used by them.) *)
Record Generator := {
  body : list GeneratorEntry;
  preludeGenerator : PreludeGenerator.t;
}.

(** [this.body.push(entry)] *)
Definition body_push (entry : GeneratorEntry) (this : Generator) : Generator :=
  {| body := body this ++ [entry]; preludeGenerator := preludeGenerator this |}.

Definition set_preludeGenerator (p : PreludeGenerator.t) (this : Generator) : Generator :=
  {| body := body this; preludeGenerator := p |}.

(** [empty()] *)
Definition empty (this : Generator) : bool :=
  match body this with [] => true | _ => false end.

(* ===================================================================== *)
(** * The realm *)
(* ===================================================================== *)

(** [CompilerDiagnostic] of errors.js: message, location, error code and
    severity. *)
Inductive Severity := FatalError_severity | RecoverableError | Warning | Information.

Record CompilerDiagnostic := {
  message : string;
  location : option SourceLocation;
  errorCode : string;
  severity : Severity;
}.

(** The error constructors among the realm's intrinsics. *)
Inductive ErrorConstructor := ReferenceError | SyntaxError | TypeError.

Record LocationData := {
  filename : string;
  sourceCode : string;
  loc : option SourceLocation;
  stackDecorated : bool;
}.

Record ErrorData := { locationData : option LocationData }.

(** What the object store keeps of an object: the [partial] and [simple]
    bits, its own string-keyed properties in insertion order, the identity
    of its [unknownProperty] binding, and, for error objects, the
    constructor that built it, its message and [$ErrorData]. *)
Record ObjectRecord := {
  partial : bool;
  simple : bool;
  properties : list (string * Descriptor);
  unknownProperty : option nat;
  constructedBy : option ErrorConstructor;
  errorMessage : option Value;
  _ErrorData : option ErrorData;
}.

Module Binding.
(** [Binding] of environment.js; every field is optional ([strict] is set
    by [CreateImmutableBinding]). *)
Record t := {
  value : option Value;
  initialized : option bool;
  mutable : option bool;
  deletable : option bool;
  strict : option bool;
}.
End Binding.

(** [DeclarativeEnvironmentRecord]: [bindings] is an object without
    prototype used as a map from names to bindings. *)
Record DeclarativeEnvironmentRecord := {
  isReadOnly : bool;
  bindings : gmap string Binding.t;
}.

(** A lexical environment: a record (declarative, or of another kind that
    these files do not look into) and an optional parent. *)
Inductive EnvironmentRecord :=
| Declarative (rec : DeclarativeEnvironmentRecord)
| OtherRecord (tag : nat).

Record LexicalEnvironment := {
  environmentRecord : EnvironmentRecord;
  parent : option nat;
}.

(** The realm: the object store, the source of fresh identities, the
    [intrinsicName]s given to abstract values, the modification log, the
    lexical environments and the one of the running execution context, the
    current generator, the diagnostics handed to the error handler so far,
    and the current source location. *)
Record Realm := {
  objects : gmap nat ObjectRecord;
  nextId : nat;
  intrinsicNames : gmap nat string;
  modifiedBindings : list (Binding.t * option Value);
  lexicalEnvironments : gmap nat LexicalEnvironment;
  lexicalEnvironment : nat;
  generator : option Generator;
  diagnostics : list CompilerDiagnostic;
  currentLocation : option SourceLocation;
}.

Definition set_objects (f : gmap nat ObjectRecord -> gmap nat ObjectRecord) (r : Realm) : Realm :=
  {| objects := f (objects r); nextId := nextId r; intrinsicNames := intrinsicNames r;
     modifiedBindings := modifiedBindings r;
     lexicalEnvironments := lexicalEnvironments r;
     lexicalEnvironment := lexicalEnvironment r; generator := generator r;
     diagnostics := diagnostics r; currentLocation := currentLocation r |}.

Definition set_nextId (n : nat) (r : Realm) : Realm :=
  {| objects := objects r; nextId := n; intrinsicNames := intrinsicNames r;
     modifiedBindings := modifiedBindings r;
     lexicalEnvironments := lexicalEnvironments r;
     lexicalEnvironment := lexicalEnvironment r; generator := generator r;
     diagnostics := diagnostics r; currentLocation := currentLocation r |}.

Definition set_intrinsicNames (f : gmap nat string -> gmap nat string) (r : Realm) : Realm :=
  {| objects := objects r; nextId := nextId r; intrinsicNames := f (intrinsicNames r);
     modifiedBindings := modifiedBindings r;
     lexicalEnvironments := lexicalEnvironments r;
     lexicalEnvironment := lexicalEnvironment r; generator := generator r;
     diagnostics := diagnostics r; currentLocation := currentLocation r |}.

Definition set_modifiedBindings (l : list (Binding.t * option Value)) (r : Realm) : Realm :=
  {| objects := objects r; nextId := nextId r; intrinsicNames := intrinsicNames r;
     modifiedBindings := l;
     lexicalEnvironments := lexicalEnvironments r;
     lexicalEnvironment := lexicalEnvironment r; generator := generator r;
     diagnostics := diagnostics r; currentLocation := currentLocation r |}.

Definition set_lexicalEnvironments
    (f : gmap nat LexicalEnvironment -> gmap nat LexicalEnvironment) (r : Realm) : Realm :=
  {| objects := objects r; nextId := nextId r; intrinsicNames := intrinsicNames r;
     modifiedBindings := modifiedBindings r;
     lexicalEnvironments := f (lexicalEnvironments r);
     lexicalEnvironment := lexicalEnvironment r; generator := generator r;
     diagnostics := diagnostics r; currentLocation := currentLocation r |}.

Definition set_lexicalEnvironment (e : nat) (r : Realm) : Realm :=
  {| objects := objects r; nextId := nextId r; intrinsicNames := intrinsicNames r;
     modifiedBindings := modifiedBindings r;
     lexicalEnvironments := lexicalEnvironments r;
     lexicalEnvironment := e; generator := generator r;
     diagnostics := diagnostics r; currentLocation := currentLocation r |}.

Definition set_generator (g : option Generator) (r : Realm) : Realm :=
  {| objects := objects r; nextId := nextId r; intrinsicNames := intrinsicNames r;
     modifiedBindings := modifiedBindings r;
     lexicalEnvironments := lexicalEnvironments r;
     lexicalEnvironment := lexicalEnvironment r; generator := g;
     diagnostics := diagnostics r; currentLocation := currentLocation r |}.

Definition set_diagnostics (l : list CompilerDiagnostic) (r : Realm) : Realm :=
  {| objects := objects r; nextId := nextId r; intrinsicNames := intrinsicNames r;
     modifiedBindings := modifiedBindings r;
     lexicalEnvironments := lexicalEnvironments r;
     lexicalEnvironment := lexicalEnvironment r; generator := generator r;
     diagnostics := l; currentLocation := currentLocation r |}.

(** Two realms with the same fields are the same realm. *)
Lemma Realm_eq (a b : Realm) :
  objects a = objects b -> nextId a = nextId b ->
  intrinsicNames a = intrinsicNames b -> modifiedBindings a = modifiedBindings b ->
  lexicalEnvironments a = lexicalEnvironments b ->
  lexicalEnvironment a = lexicalEnvironment b -> generator a = generator b ->
  diagnostics a = diagnostics b -> currentLocation a = currentLocation b ->
  a = b.
Proof. destruct a, b; cbn; intros; subst; reflexivity. Qed.

(** Reads a field through a stack of setters. *)
Ltac read_fields :=
  lazy beta iota delta
    [objects nextId intrinsicNames modifiedBindings lexicalEnvironments
       lexicalEnvironment generator diagnostics currentLocation
       set_objects set_nextId set_intrinsicNames set_modifiedBindings
       set_lexicalEnvironments set_lexicalEnvironment set_generator set_diagnostics].

(** Modelled from the spec: [realm.handleError(diagnostic)] of realm.js.
    "The realm holds an error handler invoked with {message, location,
    code, severity}"; the model records each invocation, in order. *)
Definition handleError (error : CompilerDiagnostic) : M Realm unit :=
  modify (fun r => set_diagnostics (diagnostics r ++ [error]) r).

(** Modelled from the spec: [realm.createAbstract(types, values, args,
    originTemplate, kind)] of realm.js "mints a fresh abstract value"; it is
    an abstract object when its types domain is exactly Object.  The origin
    template is opaque to the interpreter and not kept here. *)
Definition createAbstract (types : TypesDomain) (values : option (list Value))
    (args : list Value) (originTemplate : BabelNode) (kind : option string)
    : M Realm Value :=
  fun r =>
    (Normal (AbstractValue (nextId r)
               (ValueClass_eqb (getType types) ObjectValue_class)
               types values kind args),
     set_nextId (S (nextId r)) r).

(** Modelled from the spec: [Construct(realm, constructor, [message])] of
    methods/construct.js on one of the error constructors.  parse.js
    records that these constructors "are currently guaranteed to produce an
    object with built-in error data": a fresh object built by the
    constructor, carrying the message, with [$ErrorData] present. *)
Definition Construct (constructor : ErrorConstructor) (argumentsList : list Value)
    : M Realm Value :=
  fun r =>
    let error :=
      {| partial := false; simple := false; properties := [];
     unknownProperty := None;
         constructedBy := Some constructor;
         errorMessage := head argumentsList;
         _ErrorData := Some {| locationData := None |} |} in
    (Normal (ObjectValue (nextId r)),
     set_nextId (S (nextId r)) (set_objects (insert (nextId r) error) r)).

(** Modelled from the spec: [realm.createErrorThrowCompletion(type,
    message)] of realm.js: model errors are "a Throw completion carrying a
    value-object with the original location". *)
Definition createErrorThrowCompletion (type : ErrorConstructor) (message : option string)
    : M Realm Exception :=
  let! error := Construct type (match message with
                                | Some m => [StringValue m]
                                | None => []
                                end) in
  let! location := gets currentLocation in
  ret (ThrowCompletion error location).

(* ===================================================================== *)
(** * generator.js: [Generator] *)
(* ===================================================================== *)

(** Methods that only touch their own generator run in [M Generator];
    [derive], which also asks the realm for a fresh abstract value, runs in
    [M (Generator * Realm)]. *)
Definition on_this {A} (c : M Generator A) : M (Generator * Realm) A :=
  fun s =>
    match c (fst s) with
    | (res, this') => (res, (this', snd s))
    end.

Definition on_realm {A} (c : M Realm A) : M (Generator * Realm) A :=
  fun s =>
    match c (snd s) with
    | (res, realm') => (res, (fst s, realm'))
    end.

(** [t.isIdentifier(node)] *)
Definition isIdentifier (node : BabelNode) : bool :=
  match node with identifier _ => true | _ => false end.

(** [nodes[i]] *)
Definition node_at (i : nat) (nodes : list BabelNode) : BabelNode :=
  nth i nodes missingNode.

Section GeneratorMethods.

(** [getAsPropertyNameExpression] leans on two things kept abstract:
    [numericIndex key] is [Some (t.numericLiteral(index))] when
    [index = Number.parseInt(key, 10)] satisfies
    [index >= 0 && index.toString() === key] (arithmetic on doubles), and
    [isValidIdentifier] is babel-types' test. *)
Variable numericIndex : string -> option BabelNode.
Variable isValidIdentifier : string -> bool.

(** [/^[\u0000-\u007f]*$/.test(key)] *)
Fixpoint keyIsAscii (key : string) : bool :=
  match key with
  | EmptyString => true
  | String a key' => (nat_of_ascii a <? 128)%nat && keyIsAscii key'
  end.

Definition getAsPropertyNameExpression (key : string) (canBeIdentifier : bool)
    : BabelNode :=
  match numericIndex key with
  | Some literal => literal
  | None =>
      if (canBeIdentifier && (isValidIdentifier key && keyIsAscii key))%bool
      then identifier key
      else stringLiteral key
  end.

Definition emitPropertyAssignment (object : Value) (key : string) (value : Value)
    : M Generator unit :=
  let propName := getAsPropertyNameExpression key true in
  modify (body_push
    {| declared := None;
       args := [object; value];
       buildNode := fun nodes S context =>
         let objectNode := node_at 0 nodes in
         let valueNode := node_at 1 nodes in
         ret (expressionStatement
                (assignmentExpression "="
                   (memberExpression objectNode propName (negb (isIdentifier propName)))
                   valueNode));
       dependencies := None;
       isPure := None |}).

(** [x || object.$Realm.intrinsics.undefined] on an optional value: value
    objects are truthy. *)
Definition or_undefined (x : option Value) : Value := default UndefinedValue x.

(** [descValue instanceof Value] holds of every value. *)
Definition instanceof_Value (v : Value) : bool := true.

(** [Object.assign({}, desc)]: descriptors are records here, so the copy
    captured by the closure is the descriptor as it was at the call. *)
Definition Object_assign_copy (desc : Descriptor) : Descriptor := desc.

Definition emitDefineProperty (object : Value) (key : string) (desc : Descriptor)
    : M Generator unit :=
  match truthy (enumerable desc) && truthy (configurable desc)
        && truthy (writable desc), value desc with
  | true, Some descValue =>
      invariant (instanceof_Value descValue) "" ;;;
      emitPropertyAssignment object key descValue
  | _, _ =>
      let desc := Object_assign_copy desc in
      modify (body_push
        {| declared := None;
           args := [object;
                    or_undefined (value desc);
                    or_undefined (get desc);
                    or_undefined (set desc)];
           buildNode := fun _ S context =>
             emitDefinePropertyBody context object key desc;
           dependencies := None;
           isPure := None |})
  end.

(** The closure [emitInvariant] pushes: [nodes.pop()] takes the last node
    off when there is an [appendLastToInvariantFn]. *)
Definition invariant_buildNode
    (violationConditionFn : list BabelNode -> BabelNode)
    (appendLastToInvariantFn : option (BabelNode -> BabelNode))
    : GeneratorBuildNodeFunction :=
  fun nodes S context =>
    let throwString := stringLiteral "Prepack model invariant violation" in
    let '(throwString, nodes) :=
      match appendLastToInvariantFn with
      | Some appendLast =>
          let last := List.last nodes missingNode in
          (binaryExpression "+"
             (stringLiteral "Prepack model invariant violation: ")
             (appendLast last),
           removelast nodes)
      | None => (throwString, nodes)
      end in
    let condition := violationConditionFn nodes in
    let throwblock :=
      blockStatement
        [throwStatement (newExpression (identifier "Error") [throwString])] in
    ret (ifStatement condition throwblock).

Definition emitInvariant (args : list Value)
    (violationConditionFn : list BabelNode -> BabelNode)
    (appendLastToInvariantFn : option (BabelNode -> BabelNode))
    : M Generator unit :=
  modify (body_push
    {| declared := None;
       args := args;
       buildNode := invariant_buildNode violationConditionFn appendLastToInvariantFn;
       dependencies := None;
       isPure := None |}).

(** [optionalArgs] of [derive] *)
Record DeriveOptions := {
  opt_kind : option string;
  opt_isPure : option bool;
  opt_skipInvariant : option bool;
}.

(** [buildNode_ instanceof Function ? buildNode_(nodes) : buildNode_] *)
Definition apply_buildNode_ (buildNode_ : (list BabelNode -> BabelNode) + BabelNode)
    (nodes : list BabelNode) : BabelNode :=
  match buildNode_ with
  | inl f => f nodes
  | inr expression => expression
  end.

Definition instanceof_Function (buildNode_ : (list BabelNode -> BabelNode) + BabelNode)
    : bool :=
  match buildNode_ with inl _ => true | inr _ => false end.

(** [type instanceof FunctionValue], where [type] is what [getType()]
    returns: a class, as in [new TypesDomain(StringValue)] and
    [type === StringValue].  [instanceof] looks for [FunctionValue.prototype]
    on the prototype chain of its left operand; the chain of a class
    consists of its superclasses and [Function.prototype], so the test is
    false for every class, [FunctionValue] included. *)
Definition class_instanceof_FunctionValue (type : ValueClass) : bool := false.

(** The violation condition [derive] hands to [emitInvariant]. *)
Definition typeof_violation (typeofString : string) (nodes : list BabelNode) : BabelNode :=
  let condition :=
    binaryExpression "!=="
      (unaryExpression "typeof" (node_at 0 nodes)) (stringLiteral typeofString) in
  if String.eqb typeofString "object" then
    let condition :=
      logicalExpression "&&" condition
        (binaryExpression "!=="
           (unaryExpression "typeof" (node_at 0 nodes)) (stringLiteral "function")) in
    logicalExpression "||" condition
      (binaryExpression "===" (node_at 0 nodes) nullLiteral)
  else condition.

(** The chain of tests on [type] that picks [typeofString]. *)
Definition typeofString_of (type : ValueClass) : M (Generator * Realm) (option string) :=
  if class_instanceof_FunctionValue type then ret (Some "function")
  else if ValueClass_eqb type UndefinedValue_class then
    invariant false "" ;;; ret None
  else if ValueClass_eqb type NullValue_class then
    invariant false "" ;;; ret None
  else if ValueClass_eqb type StringValue_class then ret (Some "string")
  else if ValueClass_eqb type BooleanValue_class then ret (Some "boolean")
  else if ValueClass_eqb type NumberValue_class then ret (Some "number")
  else if ValueClass_eqb type SymbolValue_class then ret (Some "symbol")
  else if ValueClass_eqb type ObjectValue_class then ret (Some "object")
  else ret None.

(** The declaration entry of [derive]. *)
Definition derived_entry (id : BabelNode) (res : Value) (args : list Value)
    (buildNode_ : (list BabelNode -> BabelNode) + BabelNode)
    (optionalArgs : option DeriveOptions) : GeneratorEntry :=
  {| isPure := match optionalArgs with Some o => opt_isPure o | None => None end;
     declared := Some res;
     args := args;
     buildNode := fun nodes S context =>
       ret (variableDeclaration "var"
              [variableDeclarator id (apply_buildNode_ buildNode_ nodes)]);
     dependencies := None |}.

Definition abstract_id (v : Value) : nat :=
  match v with AbstractValue id _ _ _ _ _ => id | _ => 0 end.

(** [derive(types, values, args, buildNode_, optionalArgs)]; [fuel] bounds
    the name generator's loop. *)
Definition derive (fuel : nat) (types : TypesDomain) (values : option (list Value))
    (args : list Value) (buildNode_ : (list BabelNode -> BabelNode) + BabelNode)
    (optionalArgs : option DeriveOptions) : M (Generator * Realm) Value :=
  invariant (instanceof_Function buildNode_ || Nat.eqb (length args) 0) "" ;;;
  let! this := gets fst in
  let prelude := preludeGenerator this in
  match NameGenerator.generate fuel (PreludeGenerator.nameGenerator prelude)
          (Some "derived") with
  | None => out_of_fuel
  | Some (name, nameGenerator') =>
      let id := identifier name in
      let prelude := PreludeGenerator.set_nameGenerator nameGenerator' prelude in
      let prelude :=
        PreludeGenerator.set_derivedIds
          (<[name := args]> (PreludeGenerator.derivedIds prelude)) prelude in
      on_this (modify (set_preludeGenerator prelude)) ;;;
      let! res := on_realm (createAbstract types values [] id
                              (match optionalArgs with
                               | Some o => opt_kind o
                               | None => None
                               end)) in
      on_this (modify (body_push (derived_entry id res args buildNode_ optionalArgs))) ;;;
      let type := getType types in
      on_realm (modify (set_intrinsicNames (insert (abstract_id res) name))) ;;;
      if match optionalArgs with
         | Some o => truthy (opt_skipInvariant o)
         | None => false
         end
      then ret res
      else
        let! typeofString := typeofString_of type in
        match typeofString with
        | Some typeofString =>
            on_this (emitInvariant [res; res] (typeof_violation typeofString)
                       (Some (fun node => node))) ;;;
            ret res
        | None => ret res
        end
  end.

(** [args.map(f)] with an effectful [f] *)
Fixpoint map_M {St A B} (f : A -> M St B) (l : list A) : M St (list B) :=
  match l with
  | [] => ret []
  | x :: l' =>
      let! y := f x in
      let! ys := map_M f l' in
      ret (y :: ys)
  end.

(** The body of the loop of [serialize]. *)
Definition serialize_entry {S : Type} (context : SerializationContext S)
    (entry : GeneratorEntry) : M S unit :=
  let! emitted :=
    if negb (truthy (isPure entry)) then ret true
    else match declared entry with
         | None => ret true
         | Some d => let! omit := canOmit context d in ret (negb omit)
         end in
  if (emitted : bool) then
    let! nodes := map_M (fun boundArg => serializeValue context boundArg) (args entry) in
    let! statement := buildNode entry nodes S context in
    emit context statement ;;;
    match declared entry with
    | Some d => declare context d
    | None => ret tt
    end
  else ret tt.

(** [serialize(context)] *)
Definition serialize {S : Type} (this : Generator) (context : SerializationContext S)
    : M S unit :=
  for_of (body this) (serialize_entry context).

End GeneratorMethods.

(* ===================================================================== *)
(** * Properties of [emitDefineProperty] and [derive] *)
(* ===================================================================== *)

(** The value of a descriptor that [emitDefineProperty] turns into a plain
    assignment: enumerable, configurable and writable all true and a value
    present. *)
Definition plain_value (desc : Descriptor) : option Value :=
  if truthy (enumerable desc) && truthy (configurable desc) && truthy (writable desc)
  then value desc else None.

(** C10.  When [desc] is enumerable, configurable and writable and has a
    value, [emitDefineProperty] does exactly what [emitPropertyAssignment]
    does with that value: it returns with the body of the generator longer
    by one entry, at its end, whose argument vector is [object; value].
    Otherwise the one entry appended has the argument vector
    [object; value-or-undefined; get-or-undefined; set-or-undefined], and
    its build function hands [object], [key] and the descriptor as it was
    at the call to the context's [emitDefinePropertyBody].  Nothing else of
    the generator changes. *)
Theorem emitDefineProperty_entry
    (numericIndex : string -> option BabelNode) (isValidIdentifier : string -> bool)
    (object : Value) (key : string) (desc : Descriptor) (this : Generator) :
  match plain_value desc with
  | Some v =>
      emitDefineProperty numericIndex isValidIdentifier object key desc this
      = emitPropertyAssignment numericIndex isValidIdentifier object key v this
      /\ exists entry : GeneratorEntry,
          emitDefineProperty numericIndex isValidIdentifier object key desc this
          = (Normal tt, {| body := body this ++ [entry];
                           preludeGenerator := preludeGenerator this |})
          /\ args entry = [object; v]
          /\ declared entry = None /\ isPure entry = None
  | None =>
      exists entry : GeneratorEntry,
        emitDefineProperty numericIndex isValidIdentifier object key desc this
        = (Normal tt, {| body := body this ++ [entry];
                         preludeGenerator := preludeGenerator this |})
        /\ args entry = [object; default UndefinedValue (value desc);
                         default UndefinedValue (get desc);
                         default UndefinedValue (set desc)]
        /\ declared entry = None /\ isPure entry = None
        /\ forall (nodes : list BabelNode) (S : Type) (context : SerializationContext S),
            buildNode entry nodes S context
            = emitDefinePropertyBody context object key desc
  end.
Proof.
  unfold plain_value, emitDefineProperty.
  destruct (truthy (enumerable desc) && truthy (configurable desc)
            && truthy (writable desc)) eqn:Hflags.
  - destruct (value desc) as [v|] eqn:Hvalue.
    + split; [reflexivity|]. eexists. split; [reflexivity|]. repeat split.
    + eexists. split; [reflexivity|]. cbn [args declared isPure buildNode].
      unfold Object_assign_copy, or_undefined. rewrite Hvalue. repeat split.
  - eexists. split; [reflexivity|]. repeat split.
Qed.

Example emitDefineProperty_plain :
  let desc := {| writable := Some true; enumerable := Some true;
                 configurable := Some true; value := Some (NumberValue 1);
                 get := None; set := None |} in
  let this := {| body := []; preludeGenerator := PreludeGenerator.new None None |} in
  (fun r => map args (body (snd r)))
    (emitDefineProperty (fun _ => None) (fun _ => true) (ObjectValue 0) "x" desc this)
  = [[ObjectValue 0; NumberValue 1]].
Proof. reflexivity. Qed.

Example emitDefineProperty_readonly :
  let desc := {| writable := Some false; enumerable := Some true;
                 configurable := Some true; value := Some (NumberValue 1);
                 get := None; set := None |} in
  let this := {| body := []; preludeGenerator := PreludeGenerator.new None None |} in
  (fun r => map args (body (snd r)))
    (emitDefineProperty (fun _ => None) (fun _ => true) (ObjectValue 0) "x" desc this)
  = [[ObjectValue 0; NumberValue 1; UndefinedValue; UndefinedValue]].
Proof. reflexivity. Qed.

(** What [derive] leaves behind when it returns: the declaration entry,
    followed by the typeof guard exactly when [skipInvariant] is not set and
    the chain of tests picked a [typeofString]. *)
Definition skipInvariant_set (optionalArgs : option DeriveOptions) : bool :=
  match optionalArgs with
  | Some o => truthy (opt_skipInvariant o)
  | None => false
  end.

Definition typeofString_picked (type : ValueClass) : option string :=
  match type with
  | StringValue_class => Some "string"
  | BooleanValue_class => Some "boolean"
  | NumberValue_class => Some "number"
  | SymbolValue_class => Some "symbol"
  | ObjectValue_class => Some "object"
  | _ => None
  end.

Definition typeof_guard_entry (res : Value) (typeofString : string) : GeneratorEntry :=
  {| declared := None;
     args := [res; res];
     buildNode := invariant_buildNode (typeof_violation typeofString)
                    (Some (fun node => node));
     dependencies := None;
     isPure := None |}.

Lemma derive_appends (fuel : nat) (types : TypesDomain) (values : option (list Value))
    (args : list Value) (buildNode_ : (list BabelNode -> BabelNode) + BabelNode)
    (optionalArgs : option DeriveOptions)
    (this this' : Generator) (realm realm' : Realm) (res : Value) :
  derive fuel types values args buildNode_ optionalArgs (this, realm)
  = (Normal res, (this', realm')) ->
  exists id : BabelNode,
    body this' =
      body this ++
      derived_entry id res args buildNode_ optionalArgs ::
      (if skipInvariant_set optionalArgs then []
       else match typeofString_picked (getType types) with
            | Some typeofString => [typeof_guard_entry res typeofString]
            | None => []
            end).
Proof.
  unfold derive, bind, invariant.
  destruct (instanceof_Function buildNode_ || Nat.eqb (length args) 0);
    [|discriminate].
  cbn [ret gets fst snd].
  destruct (NameGenerator.generate fuel
              (PreludeGenerator.nameGenerator (preludeGenerator this)) (Some "derived"))
    as [[name g']|]; [|discriminate].
  cbn [on_this on_realm modify createAbstract fst snd ret bind].
  unfold skipInvariant_set.
  destruct (match optionalArgs with
            | Some o => truthy (opt_skipInvariant o)
            | None => false
            end).
  - intros H. injection H as <- <- <-. exists (identifier name).
    cbn [body body_push set_preludeGenerator]. reflexivity.
  - unfold typeofString_of, class_instanceof_FunctionValue.
    destruct (getType types); cbn; intros H; try discriminate;
      injection H as <- <- <-; exists (identifier name);
      cbn [body body_push set_preludeGenerator];
      rewrite <- ?app_assoc; reflexivity.
Qed.

(** A generator with an empty body in a realm with nothing in it. *)
Definition fresh_generator : Generator :=
  {| body := []; preludeGenerator := PreludeGenerator.new None None |}.

Definition fresh_realm : Realm :=
  {| objects := ∅; nextId := 0; intrinsicNames := ∅; modifiedBindings := [];
     lexicalEnvironments := ∅; lexicalEnvironment := 0; generator := None;
     diagnostics := []; currentLocation := None |}.

(** [new TypesDomain(FunctionValue)] and the abstract value [derive] mints
    for it in a realm with nothing in it. *)
Definition FunctionValue_types : TypesDomain := {| getType := FunctionValue_class |}.

Definition FunctionValue_derived : Value :=
  AbstractValue 0 false FunctionValue_types None None [].

(** C6 at the types domain [new TypesDomain(FunctionValue)], without
    [skipInvariant]: [derive] returns the fresh abstract value with one
    entry in the body, its declaration; no typeof guard follows it. *)
Lemma derive_FunctionValue_no_guard :
  skipInvariant_set None = false /\
  fst (derive 1 FunctionValue_types None [] (inr (identifier "f")) None
         (fresh_generator, fresh_realm))
  = Normal FunctionValue_derived /\
  map (fun entry => (declared entry, args entry))
    (body (fst (snd (derive 1 FunctionValue_types None [] (inr (identifier "f")) None
                       (fresh_generator, fresh_realm)))))
  = [(Some FunctionValue_derived, [])].
Proof. vm_compute. repeat split. Qed.

(** The same call at [new TypesDomain(StringValue)] leaves two entries:
    the declaration and the typeof guard on the declared value. *)
Example derive_StringValue_guard :
  let types := {| getType := StringValue_class |} in
  let res := AbstractValue 0 false types None None [] in
  let result := derive 1 types None [] (inr (identifier "f")) None
                  (fresh_generator, fresh_realm) in
  fst result = Normal res /\
  map args (body (fst (snd result))) = [[]; [res; res]] /\
  forall (S : Type) (context : SerializationContext S) (s : S) (n0 n1 : BabelNode),
    (fun e => buildNode e [n0; n1] S context s) <$> last (body (fst (snd result)))
    = Some (Normal
              (ifStatement
                 (binaryExpression "!==" (unaryExpression "typeof" n0)
                    (stringLiteral "string"))
                 (blockStatement
                    [throwStatement
                       (newExpression (identifier "Error")
                          [binaryExpression "+"
                             (stringLiteral "Prepack model invariant violation: ")
                             n1])])), s).
Proof. vm_compute. repeat split. Qed.

(* ===================================================================== *)
(** * Properties of [serialize] *)
(* ===================================================================== *)

(** What a serializer lets an observer see: the statements it is asked to
    emit and the values it is told are declared, in order. *)
Inductive Event :=
| ev_emit (statement : BabelNode)
| ev_declare (v : Value).

(** A context that answers [canOmit], [serializeValue],
    [emitDefinePropertyBody] and [serializeGenerator] from given tables and
    records every [emit] and [declare]. *)
Definition observing_context (omit : Value -> bool) (expr : Value -> BabelNode)
    (definePropertyBody : Value -> string -> Descriptor -> BabelNode)
    (generatorBody : nat -> list BabelNode) : SerializationContext (list Event) :=
  {| serializeValue := fun v => ret (expr v);
     serializeGenerator := fun g => ret (generatorBody g);
     emitDefinePropertyBody := fun o k d => ret (definePropertyBody o k d);
     emit := fun statement => modify (fun log => log ++ [ev_emit statement]);
     canOmit := fun v => ret (omit v);
     declare := fun v => modify (fun log => log ++ [ev_declare v]) |}.

(** The statement an entry builds in a context, when building it neither
    throws nor emits. *)
Definition built (context : SerializationContext (list Event))
    (entry : GeneratorEntry) (nodes : list BabelNode) : BabelNode :=
  match fst (buildNode entry nodes (list Event) context []) with
  | Normal statement => statement
  | _ => missingNode
  end.

Definition builds_quietly (context : SerializationContext (list Event))
    (entry : GeneratorEntry) : Prop :=
  forall (nodes : list BabelNode) (log : list Event),
    buildNode entry nodes (list Event) context log
    = (Normal (built context entry nodes), log).

(** An entry is left out when it is pure, declares a value, and the
    context reports that value as omittable. *)
Definition omitted (omit : Value -> bool) (entry : GeneratorEntry) : bool :=
  truthy (isPure entry) &&
  match declared entry with
  | Some d => omit d
  | None => false
  end.

(** What the observer sees of one entry. *)
Definition entry_events (omit : Value -> bool) (expr : Value -> BabelNode)
    (context : SerializationContext (list Event)) (entry : GeneratorEntry)
    : list Event :=
  if omitted omit entry then []
  else
    ev_emit (built context entry (map expr (args entry))) ::
    match declared entry with
    | Some d => [ev_declare d]
    | None => []
    end.

Lemma map_M_observing (omit : Value -> bool) (expr : Value -> BabelNode)
    (dpb : Value -> string -> Descriptor -> BabelNode) (gb : nat -> list BabelNode)
    (l : list Value) (log : list Event) :
  map_M (fun boundArg => serializeValue (observing_context omit expr dpb gb) boundArg)
    l log
  = (Normal (map expr l), log).
Proof.
  induction l as [|v l IH]; [reflexivity|].
  cbn [map_M map]. unfold bind.
  cbn [serializeValue observing_context ret] in IH |- *.
  now rewrite IH.
Qed.

Lemma bind_run {St A B} (c : M St A) (k : A -> M St B) (s s' : St) (a : A) :
  c s = (Normal a, s') -> bind c k s = k a s'.
Proof. intros H. unfold bind. now rewrite H. Qed.

Lemma serialize_entry_observing (omit : Value -> bool) (expr : Value -> BabelNode)
    (dpb : Value -> string -> Descriptor -> BabelNode) (gb : nat -> list BabelNode)
    (entry : GeneratorEntry) (log : list Event) :
  builds_quietly (observing_context omit expr dpb gb) entry ->
  serialize_entry (observing_context omit expr dpb gb) entry log
  = (Normal tt,
     log ++ entry_events omit expr (observing_context omit expr dpb gb) entry).
Proof.
  intros Hquiet. unfold serialize_entry, entry_events, omitted.
  set (ctx := observing_context omit expr dpb gb) in *.
  assert (Hemit :
             (let! nodes := map_M (fun boundArg => serializeValue ctx boundArg)
                              (args entry) in
              let! statement := buildNode entry nodes (list Event) ctx in
              emit ctx statement ;;;
              match declared entry with
              | Some d => declare ctx d
              | None => ret tt
              end) log
             = (Normal tt,
                log ++ ev_emit (built ctx entry (map expr (args entry))) ::
                  match declared entry with
                  | Some d => [ev_declare d]
                  | None => []
                  end)).
  { subst ctx. erewrite bind_run by apply map_M_observing.
    erewrite bind_run by apply Hquiet.
    erewrite bind_run by reflexivity.
    destruct (declared entry); cbn [declare observing_context modify ret].
    - unfold modify. now rewrite <- app_assoc.
    - reflexivity. }
  destruct (truthy (isPure entry)); cbn [negb andb].
  - destruct (declared entry) as [d|] eqn:Hd.
    + erewrite bind_run by reflexivity.
      destruct (omit d); cbn [negb].
      * cbn [ret]. now rewrite app_nil_r.
      * exact Hemit.
    + erewrite bind_run by reflexivity. exact Hemit.
  - erewrite bind_run by reflexivity. exact Hemit.
Qed.

(** For any context: serializing a body is serializing its front part and
    then its back part, and an entry that is pure, declares a value and is
    reported omittable costs one call of [canOmit] and nothing else. *)
Lemma for_of_app {St A : Type} (l1 l2 : list A) (f : A -> M St unit) (s : St) :
  for_of (l1 ++ l2) f s = (for_of l1 f ;;; for_of l2 f) s.
Proof.
  revert s. induction l1 as [|x l1 IH]; intros s; cbn [for_of app].
  - reflexivity.
  - unfold bind in IH |- *. destruct (f x s) as [[[]| |] s1]; try reflexivity.
    apply IH.
Qed.

Lemma serialize_app {S : Type} (context : SerializationContext S)
    (front back : list GeneratorEntry) (prelude : PreludeGenerator.t) (s : S) :
  serialize {| body := front ++ back; preludeGenerator := prelude |} context s
  = (serialize {| body := front; preludeGenerator := prelude |} context ;;;
     serialize {| body := back; preludeGenerator := prelude |} context) s.
Proof. unfold serialize. cbn [body]. apply for_of_app. Qed.

Lemma serialize_entry_omitted {S : Type} (context : SerializationContext S)
    (entry : GeneratorEntry) (d : Value) (s s' : S) :
  isPure entry = Some true ->
  declared entry = Some d ->
  canOmit context d s = (Normal true, s') ->
  serialize_entry context entry s = (Normal tt, s').
Proof.
  intros Hpure Hdeclared Homit. unfold serialize_entry.
  rewrite Hpure, Hdeclared. cbn [truthy negb].
  erewrite bind_run by (erewrite bind_run by exact Homit; reflexivity).
  reflexivity.
Qed.

(** C5.  Seen through a context that records [emit] and [declare],
    [serialize] returns having produced, for the entries of the body in
    their order, nothing for an entry that is pure, declares a value and
    whose declared value the context reports omittable, and for every
    other entry the statement built from its serialized arguments, followed
    at once by the declaration of the entry's declared value if it has
    one. *)
Theorem serialize_in_order (omit : Value -> bool) (expr : Value -> BabelNode)
    (dpb : Value -> string -> Descriptor -> BabelNode) (gb : nat -> list BabelNode)
    (this : Generator) (log : list Event) :
  Forall (builds_quietly (observing_context omit expr dpb gb)) (body this) ->
  serialize this (observing_context omit expr dpb gb) log
  = (Normal tt,
     log ++ flat_map (entry_events omit expr (observing_context omit expr dpb gb))
              (body this)).
Proof.
  unfold serialize. generalize (body this) as entries. intros entries. revert log.
  induction entries as [|entry rest IH]; intros log Hquiet.
  - cbn. now rewrite app_nil_r.
  - inversion Hquiet as [|? ? Hentry Hrest]; subst.
    cbn [for_of flat_map].
    erewrite bind_run by (apply serialize_entry_observing; exact Hentry).
    rewrite (IH _ Hrest). now rewrite app_assoc.
Qed.

(** The statements handed to [emit] are those of the entries that are not
    left out, in the order of the body. *)
Definition emitted_statements (log : list Event) : list BabelNode :=
  flat_map (fun ev => match ev with ev_emit s => [s] | ev_declare _ => [] end) log.

Lemma serialize_statements_in_body_order (omit : Value -> bool)
    (expr : Value -> BabelNode)
    (dpb : Value -> string -> Descriptor -> BabelNode) (gb : nat -> list BabelNode)
    (this : Generator) :
  Forall (builds_quietly (observing_context omit expr dpb gb)) (body this) ->
  emitted_statements (snd (serialize this (observing_context omit expr dpb gb) []))
  = map (fun entry => built (observing_context omit expr dpb gb) entry
                        (map expr (args entry)))
      (filter (fun entry => omitted omit entry = false) (body this)).
Proof.
  unfold serialize. generalize (body this) as entries. intros entries Hquiet.
  enough (Hlog : forall log : list Event,
             emitted_statements
               (snd (for_of entries
                       (serialize_entry (observing_context omit expr dpb gb)) log))
             = emitted_statements log
               ++ map (fun entry => built (observing_context omit expr dpb gb) entry
                                      (map expr (args entry)))
                    (filter (fun entry => omitted omit entry = false) entries))
    by apply (Hlog []).
  induction entries as [|entry rest IH]; intros log.
  - cbn. now rewrite app_nil_r.
  - inversion Hquiet as [|? ? Hentry Hrest]; subst.
    cbn [for_of].
    erewrite bind_run by (apply serialize_entry_observing; exact Hentry).
    rewrite (IH Hrest). unfold emitted_statements at 1. rewrite flat_map_app.
    fold (emitted_statements log). rewrite <- app_assoc. f_equal.
    unfold entry_events. rewrite filter_cons.
    destruct (omitted omit entry) eqn:Ho.
    + rewrite decide_False by discriminate. reflexivity.
    + rewrite decide_True by reflexivity. destruct (declared entry); reflexivity.
Qed.

(** Three entries: a pure declaration of [a] that nothing needs, a
    declaration of [b], and a typeof guard on [b]. *)
Definition example_a : Value :=
  AbstractValue 0 false {| getType := StringValue_class |} None None [].
Definition example_b : Value :=
  AbstractValue 1 false {| getType := StringValue_class |} None None [].

Definition example_body : list GeneratorEntry :=
  [ derived_entry (identifier "a") example_a [] (inr (stringLiteral "x"))
      (Some {| opt_kind := None; opt_isPure := Some true; opt_skipInvariant := None |});
    derived_entry (identifier "b") example_b [] (inr (stringLiteral "y")) None;
    typeof_guard_entry example_b "string" ].

Definition example_context : SerializationContext (list Event) :=
  observing_context (fun v => identical v example_a)
    (fun v => identifier (if identical v example_a then "a" else "b"))
    (fun _ _ _ => missingNode) (fun _ => []).

Definition example_this : Generator :=
  {| body := example_body; preludeGenerator := PreludeGenerator.new None None |}.

Lemma serialize_in_order_witness :
  Forall (builds_quietly example_context) (body example_this) /\
  serialize example_this example_context []
  = (Normal tt,
     [] ++ flat_map (entry_events (fun v => identical v example_a)
                       (fun v => identifier (if identical v example_a then "a" else "b"))
                       example_context)
             (body example_this)).
Proof.
  assert (Hquiet : Forall (builds_quietly example_context) (body example_this))
    by (repeat constructor; intros nodes log; reflexivity).
  split; [exact Hquiet|].
  exact (serialize_in_order _ _ _ _ example_this [] Hquiet).
Defined.

Example serialize_example_trace :
  snd (serialize example_this example_context [])
  = [ ev_emit (variableDeclaration "var"
                 [variableDeclarator (identifier "b") (stringLiteral "y")]);
      ev_declare example_b;
      ev_emit (ifStatement
                 (binaryExpression "!==" (unaryExpression "typeof" (identifier "b"))
                    (stringLiteral "string"))
                 (blockStatement
                    [throwStatement
                       (newExpression (identifier "Error")
                          [binaryExpression "+"
                             (stringLiteral "Prepack model invariant violation: ")
                             (identifier "b")])])) ].
Proof. vm_compute. reflexivity. Qed.

(* ===================================================================== *)
(** * utils/parse.js *)
(* ===================================================================== *)

Inductive SourceType := script | module.

(** The AST the parser returns: every node has a type, a location that may
    be missing, and children. *)
Inductive AstNode :=
| ast_node (type : string) (loc : option SourceLocation) (children : list AstNode).

Definition ast_loc (node : AstNode) : option SourceLocation :=
  match node with ast_node _ loc _ => loc end.

(** [node.loc.source = filename] *)
Definition set_source (filename : string) (loc : SourceLocation) : SourceLocation :=
  {| loc_start := loc_start loc; loc_end := loc_end loc; loc_source := Some filename |}.

(** Modelled from the spec: [traverseFast(node, enter)] of
    utils/traverse-fast.js, used "to rewrite locations after parsing": it
    calls [enter] on the node and, unless [enter] answers true, goes on
    into the children, in order.  [enter] may replace the location of the
    node it is given. *)
Fixpoint traverseFast {St : Type}
    (enter : AstNode -> M St (option SourceLocation * bool)) (node : AstNode)
    : M St AstNode :=
  match node with
  | ast_node type _ children =>
      let! '(loc', stop) := enter node in
      if (stop : bool) then ret (ast_node type loc' children)
      else
        let! children' :=
          (fix traverse_all (l : list AstNode) : M St (list AstNode) :=
             match l with
             | [] => ret []
             | child :: l' =>
                 let! child' := traverseFast enter child in
                 let! l'' := traverse_all l' in
                 ret (child' :: l'')
             end) children in
        ret (ast_node type loc' children')
  end.

(** The fixed list of messages that stand for a ReferenceError. *)
Definition referenceErrors : list string :=
  [ "Invalid left-hand side in postfix operation";
    "Invalid left-hand side in prefix operation";
    "Invalid left-hand side in assignment expression" ].

(** [referenceErrors.some(msg => e.message.indexOf(msg) >= 0)] *)
Definition some_referenceError (e_message : string) : bool :=
  existsb (fun msg => (0 <=? JsString.indexOf e_message msg)%Z) referenceErrors.

(** [error.$ErrorData] and [error.$ErrorData.locationData = data] *)
Definition get_ErrorData (error : Value) (r : Realm) : option ErrorData :=
  match error with
  | ObjectValue ref => o ← objects r !! ref; _ErrorData o
  | _ => None
  end.

Definition with_locationData (data : LocationData) (o : ObjectRecord) : ObjectRecord :=
  {| partial := partial o; simple := simple o; properties := properties o;
     unknownProperty := unknownProperty o;
     constructedBy := constructedBy o; errorMessage := errorMessage o;
     _ErrorData := Some {| locationData := Some data |} |}.

Definition set_locationData (error : Value) (data : LocationData) (r : Realm) : Realm :=
  match error with
  | ObjectValue ref => set_objects (alter (with_locationData data) ref) r
  | _ => r
  end.

Section Parse.

(** [parse(code, { filename, sourceType, startLine })] of babylon: an AST,
    or whatever it throws. *)
Variable babylon_parse : string -> string -> SourceType -> nat -> Result AstNode.

(** The [try] block. *)
Definition parse_try (code filename : string) (sourceType : SourceType) (startLine : nat)
    : M Realm AstNode :=
  let! ast := (fun r => (babylon_parse code filename sourceType startLine, r)) in
  traverseFast
    (fun node =>
       match ast_loc node with
       | Some loc => ret (Some (set_source filename loc), false)
       | None => invariant false "" ;;; ret (None, false)
       end)
    ast.

(** The [catch] block. *)
Definition parse_catch (code filename : string) (e : Exception) : M Realm AstNode :=
  match e with
  | NativeError SyntaxError_native e_message e_loc =>
      let! error :=
        if some_referenceError e_message
        then Construct ReferenceError [StringValue e_message]
        else Construct SyntaxError [StringValue e_message] in
      let! errorData := gets (get_ErrorData error) in
      invariant (bool_decide (is_Some errorData)) "" ;;;
      modify (set_locationData error
                {| filename := filename; sourceCode := code; loc := e_loc;
                   stackDecorated := false |}) ;;;
      throw (ThrowCompletion error e_loc)
  | _ => throw e
  end.

(** The default export; [sourceType] defaults to ["script"] and
    [startLine] to 1. *)
Definition parse (code filename : string) (sourceType : option SourceType)
    (startLine : option nat) : M Realm AstNode :=
  try_catch
    (parse_try code filename (default script sourceType) (default 1 startLine))
    (parse_catch code filename).

End Parse.

(** [pat] occurs in [s]. *)
Definition contains (s pat : string) : Prop :=
  exists m : nat, String.substring m (String.length pat) s = pat.

Lemma indexOf_nonneg (s pat : string) :
  pat <> "" -> ((0 <=? JsString.indexOf s pat)%Z = true <-> contains s pat).
Proof.
  intros Hpat. unfold JsString.indexOf, contains.
  destruct (String.index 0 pat s) as [i|] eqn:Hindex.
  - split; [|intros _; apply Z.leb_le; lia].
    intros _. exists i. eapply index_correct1; eassumption.
  - split; [discriminate|]. intros [m Hm]. exfalso.
    eapply (index_correct3 0 m); eauto. lia.
Qed.

Lemma some_referenceError_contains (e_message : string) :
  some_referenceError e_message = true
  <-> Exists (contains e_message) referenceErrors.
Proof.
  assert (Hne : forall pat, In pat referenceErrors -> pat <> "")
    by (intros pat Hin ->; cbn in Hin; intuition discriminate).
  unfold some_referenceError. rewrite existsb_exists, Exists_exists.
  split; intros (pat & Hin & H); exists pat.
  - apply list_elem_of_In in Hin as Hin'. split; [exact Hin'|].
    apply indexOf_nonneg; auto.
  - apply list_elem_of_In in Hin. split; [exact Hin|].
    apply indexOf_nonneg; auto.
Qed.

(** The error object [parse] throws for a syntax error. *)
Definition syntax_error_object (constructor : ErrorConstructor)
    (code filename e_message : string) (e_loc : option SourceLocation) : ObjectRecord :=
  {| partial := false; simple := false; properties := [];
     unknownProperty := None;
     constructedBy := Some constructor;
     errorMessage := Some (StringValue e_message);
     _ErrorData :=
       Some {| locationData :=
                 Some {| filename := filename; sourceCode := code; loc := e_loc;
                         stackDecorated := false |} |} |}.

Lemma parse_catch_SyntaxError (code filename e_message : string)
    (e_loc : option SourceLocation) (r : Realm) :
  parse_catch code filename (NativeError SyntaxError_native e_message e_loc) r
  = (Abrupt (ThrowCompletion (ObjectValue (nextId r)) e_loc),
     set_nextId (S (nextId r))
       (set_objects
          (insert (nextId r)
             (syntax_error_object
                (if some_referenceError e_message then ReferenceError else SyntaxError)
                code filename e_message e_loc))
          r)).
Proof.
  unfold parse_catch.
  assert (Hconstruct : forall c,
             Construct c [StringValue e_message] r
             = (Normal (ObjectValue (nextId r)),
                set_nextId (S (nextId r))
                  (set_objects
                     (insert (nextId r)
                        {| partial := false; simple := false; properties := [];
     unknownProperty := None;
                           constructedBy := Some c;
                           errorMessage := Some (StringValue e_message);
                           _ErrorData := Some {| locationData := None |} |}) r)))
    by reflexivity.
  destruct (some_referenceError e_message);
    (erewrite bind_run by apply Hconstruct;
     erewrite bind_run by reflexivity;
     cbn [get_ErrorData objects set_nextId set_objects];
     rewrite lookup_insert_eq; cbn [mbind option_bind _ErrorData];
     rewrite bool_decide_eq_true_2 by eauto;
     erewrite bind_run by reflexivity; erewrite bind_run by reflexivity;
     unfold throw; f_equal;
     unfold set_locationData, set_objects, set_nextId; cbn; f_equal;
     now rewrite alter_insert_eq).
Qed.

Lemma parse_try_babylon_throws
    (babylon_parse : string -> string -> SourceType -> nat -> Result AstNode)
    (code filename : string) (sourceType : SourceType) (startLine : nat)
    (e : Exception) (r : Realm) :
  babylon_parse code filename sourceType startLine = Abrupt e ->
  parse_try babylon_parse code filename sourceType startLine r = (Abrupt e, r).
Proof. intros H. unfold parse_try, bind. now rewrite H. Qed.

Lemma referenceErrors_contains (e_message : string) :
  Exists (contains e_message) referenceErrors
  <-> contains e_message "Invalid left-hand side in postfix operation"
      \/ contains e_message "Invalid left-hand side in prefix operation"
      \/ contains e_message "Invalid left-hand side in assignment expression".
Proof.
  unfold referenceErrors. rewrite !List.Exists_cons, List.Exists_nil. tauto.
Qed.

(** C7.  When the [try] block of [parse] fails with exception [e]: if [e]
    is a SyntaxError, [parse] throws a ThrowCompletion that carries a fresh
    error object and the error's location; the object was built by the
    ReferenceError constructor if the message contains one of the three
    fixed substrings and by the SyntaxError constructor if it contains
    none, holds the message, and has the file name, the source code and
    the location recorded in its error data.  Any other exception is
    thrown on unchanged. *)
Theorem parse_failure
    (babylon_parse : string -> string -> SourceType -> nat -> Result AstNode)
    (code filename : string) (sourceType : option SourceType) (startLine : option nat)
    (r r1 : Realm) (e : Exception) :
  parse_try babylon_parse code filename (default script sourceType)
    (default 1 startLine) r = (Abrupt e, r1) ->
  match e with
  | NativeError SyntaxError_native e_message e_loc =>
      (contains e_message "Invalid left-hand side in postfix operation"
       \/ contains e_message "Invalid left-hand side in prefix operation"
       \/ contains e_message "Invalid left-hand side in assignment expression" ->
       parse babylon_parse code filename sourceType startLine r
       = (Abrupt (ThrowCompletion (ObjectValue (nextId r1)) e_loc),
          set_nextId (S (nextId r1))
            (set_objects
               (insert (nextId r1)
                  (syntax_error_object ReferenceError code filename e_message e_loc))
               r1)))
      /\
      (~ (contains e_message "Invalid left-hand side in postfix operation"
          \/ contains e_message "Invalid left-hand side in prefix operation"
          \/ contains e_message "Invalid left-hand side in assignment expression") ->
       parse babylon_parse code filename sourceType startLine r
       = (Abrupt (ThrowCompletion (ObjectValue (nextId r1)) e_loc),
          set_nextId (S (nextId r1))
            (set_objects
               (insert (nextId r1)
                  (syntax_error_object SyntaxError code filename e_message e_loc))
               r1)))
  | _ => parse babylon_parse code filename sourceType startLine r = (Abrupt e, r1)
  end.
Proof.
  intros Htry.
  assert (Hparse : parse babylon_parse code filename sourceType startLine r
                   = parse_catch code filename e r1)
    by (unfold parse, try_catch; now rewrite Htry).
  destruct e as [| | | |cls e_message e_loc]; try exact Hparse.
  destruct cls; try exact Hparse.
  rewrite Hparse, parse_catch_SyntaxError.
  pose proof (some_referenceError_contains e_message) as Hiff.
  rewrite referenceErrors_contains in Hiff.
  destruct (some_referenceError e_message).
  - split; [reflexivity|]. intros Hnot. exfalso. apply Hnot, Hiff. reflexivity.
  - split; [|reflexivity]. intros Hex. apply Hiff in Hex. discriminate.
Qed.

(** A parser that rejects everything the way babylon rejects [1 = 2]. *)
Definition rejecting_parser (code filename : string) (sourceType : SourceType)
    (startLine : nat) : Result AstNode :=
  Abrupt (NativeError SyntaxError_native
            "Invalid left-hand side in assignment expression (1:0)" None).

Lemma parse_failure_witness :
  parse_try rejecting_parser "1 = 2" "a.js" (default script None) (default 1 None)
    fresh_realm
  = (Abrupt (NativeError SyntaxError_native
               "Invalid left-hand side in assignment expression (1:0)" None),
     fresh_realm)
  /\
  contains "Invalid left-hand side in assignment expression (1:0)"
    "Invalid left-hand side in assignment expression"
  /\
  parse rejecting_parser "1 = 2" "a.js" None None fresh_realm
  = (Abrupt (ThrowCompletion (ObjectValue 0) None),
     set_nextId 1
       (set_objects
          (insert 0
             {| partial := false; simple := false; properties := [];
                unknownProperty := None;
                constructedBy := Some ReferenceError;
                errorMessage :=
                  Some (StringValue
                          "Invalid left-hand side in assignment expression (1:0)");
                _ErrorData :=
                  Some {| locationData :=
                            Some {| filename := "a.js"; sourceCode := "1 = 2";
                                    loc := None; stackDecorated := false |} |} |})
          fresh_realm)).
Proof.
  assert (Hc : contains "Invalid left-hand side in assignment expression (1:0)"
                 "Invalid left-hand side in assignment expression")
    by (exists 0; vm_compute; reflexivity).
  split; [reflexivity|]. split; [exact Hc|].
  exact (proj1 (parse_failure rejecting_parser "1 = 2" "a.js" None None
                  fresh_realm fresh_realm _ eq_refl)
           (or_intror (or_intror Hc))).
Defined.

Example parse_invalid_assignment_is_ReferenceError :
  (fun o => constructedBy o)
    <$> objects (snd (parse rejecting_parser "1 = 2" "a.js" None None fresh_realm)) !! 0
  = Some (Some ReferenceError).
Proof. vm_compute. reflexivity. Qed.

Example parse_other_syntax_error_is_SyntaxError :
  (fun o => constructedBy o)
    <$> objects (snd (parse (fun _ _ _ _ =>
                               Abrupt (NativeError SyntaxError_native
                                         "Unexpected token (1:4)" None))
                        "var ;" "a.js" None None fresh_realm)) !! 0
  = Some (Some SyntaxError).
Proof. vm_compute. reflexivity. Qed.

Example parse_rethrows_other_exceptions :
  parse (fun _ _ _ _ => Abrupt (NativeError TypeError_native "not a string" None))
    "" "a.js" None None fresh_realm
  = (Abrupt (NativeError TypeError_native "not a string" None), fresh_realm).
Proof. reflexivity. Qed.

Example parse_sets_source :
  fst (parse (fun _ _ _ _ =>
                Normal (ast_node "File"
                          (Some {| loc_start := (1, 0); loc_end := (1, 2);
                                   loc_source := None |}) []))
         "x;" "a.js" None None fresh_realm)
  = Normal (ast_node "File"
              (Some {| loc_start := (1, 0); loc_end := (1, 2);
                       loc_source := Some "a.js" |}) []).
Proof. reflexivity. Qed.

(* ===================================================================== *)
(** * environment.js: [DeclarativeEnvironmentRecord] *)
(* ===================================================================== *)

(** The methods run on the record they are invoked on ([this], [envRec])
    and on its realm. *)
Definition EnvM (A : Type) : Type := M (DeclarativeEnvironmentRecord * Realm) A.

Definition this_bindings : EnvM (gmap string Binding.t) :=
  gets (fun s => bindings (fst s)).

Definition set_bindings (f : gmap string Binding.t -> gmap string Binding.t)
    (s : DeclarativeEnvironmentRecord * Realm) : DeclarativeEnvironmentRecord * Realm :=
  ({| isReadOnly := isReadOnly (fst s); bindings := f (bindings (fst s)) |}, snd s).

(** Modelled from the spec: [realm.recordModifiedBinding(binding, envRec)]
    of realm.js "appends (binding, prior snapshot) to the modification log
    so it can be restored on rollback" and returns the binding. *)
Definition recordModifiedBinding (binding : Binding.t) : EnvM Binding.t :=
  modify (fun s =>
            (fst s,
             set_modifiedBindings
               (modifiedBindings (snd s) ++ [(binding, Binding.value binding)])
               (snd s))) ;;;
  ret binding.

Definition realm_throw {A} (type : ErrorConstructor) (message : option string) : EnvM A :=
  let! completion :=
    (fun s => match createErrorThrowCompletion type message (snd s) with
              | (res, realm') => (res, (fst s, realm'))
              end) in
  throw completion.

Definition with_value (V : option Value) (b : Binding.t) : Binding.t :=
  {| Binding.value := V; Binding.initialized := Binding.initialized b;
     Binding.mutable := Binding.mutable b; Binding.deletable := Binding.deletable b;
     Binding.strict := Binding.strict b |}.

Definition with_initialized (i : bool) (b : Binding.t) : Binding.t :=
  {| Binding.value := Binding.value b; Binding.initialized := Some i;
     Binding.mutable := Binding.mutable b; Binding.deletable := Binding.deletable b;
     Binding.strict := Binding.strict b |}.

(** ECMA262 8.1.1.1.1 *)
Definition HasBinding (N : string) : EnvM bool :=
  let! bindings := this_bindings in
  match bindings !! N with
  | Some _ => ret true
  | None => ret false
  end.

(** ECMA262 8.1.1.1.2 *)
Definition CreateMutableBinding (N : string) (D : bool) : EnvM Value :=
  let! bindings := this_bindings in
  invariant (bool_decide (bindings !! N = None)) ("shouldn't have the binding " +:+ N) ;;;
  let! binding :=
    recordModifiedBinding
      {| Binding.value := None; Binding.initialized := Some false;
         Binding.mutable := Some true; Binding.deletable := Some D;
         Binding.strict := None |} in
  modify (set_bindings (insert N binding)) ;;;
  ret UndefinedValue.

(** ECMA262 8.1.1.1.3 *)
Definition CreateImmutableBinding (N : string) (S : bool) : EnvM Value :=
  let! bindings := this_bindings in
  invariant (bool_decide (bindings !! N = None)) ("shouldn't have the binding " +:+ N) ;;;
  let! binding :=
    recordModifiedBinding
      {| Binding.value := None; Binding.initialized := Some false;
         Binding.mutable := None; Binding.deletable := Some false;
         Binding.strict := Some S |} in
  modify (set_bindings (insert N binding)) ;;;
  ret UndefinedValue.

(** ECMA262 8.1.1.1.4: the binding is an object shared with
    [this.bindings], so assigning to its fields updates the record. *)
Definition InitializeBinding (N : string) (V : Value) : EnvM Value :=
  let! bindings := this_bindings in
  match bindings !! N with
  | Some binding =>
      invariant (negb (truthy (Binding.initialized binding)))
        ("shouldn't have the binding " +:+ N) ;;;
      recordModifiedBinding binding ;;;
      modify (set_bindings (alter (with_value (Some V)) N)) ;;;
      modify (set_bindings (alter (with_initialized true) N)) ;;;
      ret EmptyValue
  | None =>
      invariant false ("shouldn't have the binding " +:+ N) ;;; ret EmptyValue
  end.

(** ECMA262 8.1.1.1.5 *)
Definition SetMutableBinding (N : string) (V : Value) (S : bool) : EnvM Value :=
  let! bindings := this_bindings in
  match bindings !! N with
  | None =>
      if S then realm_throw ReferenceError (Some (N +:+ " not found"))
      else
        CreateMutableBinding N true ;;;
        InitializeBinding N V ;;;
        ret EmptyValue
  | Some binding =>
      let S := if truthy (Binding.strict binding) then true else S in
      if negb (truthy (Binding.initialized binding)) then
        realm_throw ReferenceError (Some (N +:+ " has not yet been initialized"))
      else if truthy (Binding.mutable binding) then
        recordModifiedBinding binding ;;;
        modify (set_bindings (alter (with_value (Some V)) N)) ;;;
        ret EmptyValue
      else if S then
        realm_throw TypeError (Some "attempt to change immutable binding")
      else ret EmptyValue
  end.

(** ECMA262 8.1.1.1.6 *)
Definition GetBindingValue (N : string) (S : bool) : EnvM Value :=
  let! bindings := this_bindings in
  match bindings !! N with
  | None => invariant false "expected binding" ;;; ret UndefinedValue
  | Some binding =>
      if negb (truthy (Binding.initialized binding)) then realm_throw ReferenceError None
      else match Binding.value binding with
           | Some v => ret v
           | None => invariant false "" ;;; ret UndefinedValue
           end
  end.

(** ECMA262 8.1.1.1.7 *)
Definition DeleteBinding (N : string) : EnvM bool :=
  let! bindings := this_bindings in
  match bindings !! N with
  | None => invariant false "expected binding to exist" ;;; ret false
  | Some binding =>
      if negb (truthy (Binding.deletable binding)) then ret false
      else
        recordModifiedBinding binding ;;;
        modify (set_bindings (delete N)) ;;;
        ret true
  end.

(** The binding a sloppy-mode assignment to an unbound name creates. *)
Definition created_binding (V : Value) : Binding.t :=
  {| Binding.value := Some V; Binding.initialized := Some true;
     Binding.mutable := Some true; Binding.deletable := Some true;
     Binding.strict := None |}.

(** The error object of [realm.createErrorThrowCompletion(type, message)]. *)
Definition thrown_error_object (type : ErrorConstructor) (message : string) : ObjectRecord :=
  {| partial := false; simple := false; properties := [];
     unknownProperty := None;
     constructedBy := Some type;
     errorMessage := Some (StringValue message);
     _ErrorData := Some {| locationData := None |} |}.

(** The binding [CreateMutableBinding(N, true)] creates, before it is
    initialized. *)
Definition fresh_binding : Binding.t :=
  {| Binding.value := None; Binding.initialized := Some false;
     Binding.mutable := Some true; Binding.deletable := Some true;
     Binding.strict := None |}.

(** C1.  On a declarative environment record without a binding for [N]:
    [SetMutableBinding(N, V, true)] throws a ThrowCompletion carrying a
    fresh ReferenceError object and leaves the record as it was;
    [SetMutableBinding(N, V, false)] returns the empty completion, and the
    record has gained a binding for [N] that is mutable, deletable,
    initialized and bound to [V], the other bindings being untouched (the
    realm has only logged the creation and the initialization). *)
Theorem SetMutableBinding_unbound (N : string) (V : Value) (S : bool)
    (this : DeclarativeEnvironmentRecord) (realm : Realm) :
  bindings this !! N = None ->
  if S then
    SetMutableBinding N V true (this, realm)
    = (Abrupt (ThrowCompletion (ObjectValue (nextId realm)) (currentLocation realm)),
       (this,
        set_nextId (Datatypes.S (nextId realm))
          (set_objects
             (insert (nextId realm)
                (thrown_error_object ReferenceError (N +:+ " not found")))
             realm)))
  else
    SetMutableBinding N V false (this, realm)
    = (Normal EmptyValue,
       ({| isReadOnly := isReadOnly this;
           bindings := <[N := created_binding V]> (bindings this) |},
        set_modifiedBindings
          (modifiedBindings realm ++ [(fresh_binding, None)] ++ [(fresh_binding, None)])
          realm)).
Proof.
  intros Hunbound. destruct S.
  - unfold SetMutableBinding.
    erewrite bind_run by reflexivity. cbn [fst]. rewrite Hunbound. reflexivity.
  - unfold SetMutableBinding.
    erewrite bind_run by reflexivity. cbn [fst]. rewrite Hunbound.
    unfold CreateMutableBinding.
    erewrite bind_run.
    2:{ erewrite bind_run by reflexivity. cbn [fst]. rewrite Hunbound.
        rewrite bool_decide_eq_true_2 by reflexivity. reflexivity. }
    unfold InitializeBinding.
    erewrite bind_run.
    2:{ erewrite bind_run by reflexivity. cbn [fst set_bindings bindings].
        rewrite lookup_insert_eq. reflexivity. }
    unfold ret, set_bindings. cbn [fst snd bindings isReadOnly].
    rewrite !alter_insert_eq. f_equal. f_equal.
    apply Realm_eq; read_fields; try reflexivity.
    now rewrite <- app_assoc.
Qed.

Definition empty_record : DeclarativeEnvironmentRecord :=
  {| isReadOnly := false; bindings := ∅ |}.

Lemma SetMutableBinding_unbound_witness :
  bindings empty_record !! "x" = None /\
  SetMutableBinding "x" (NumberValue 1) false (empty_record, fresh_realm)
  = (Normal EmptyValue,
     ({| isReadOnly := isReadOnly empty_record;
         bindings := <["x" := created_binding (NumberValue 1)]> (bindings empty_record) |},
      set_modifiedBindings
        (modifiedBindings fresh_realm
         ++ [(fresh_binding, None)] ++ [(fresh_binding, None)])
        fresh_realm)).
Proof.
  split; [reflexivity|].
  exact (SetMutableBinding_unbound "x" (NumberValue 1) false empty_record fresh_realm
           eq_refl).
Defined.

Example SetMutableBinding_strict_throws :
  fst (SetMutableBinding "x" (NumberValue 1) true (empty_record, fresh_realm))
  = Abrupt (ThrowCompletion (ObjectValue 0) None)
  /\ fst (snd (SetMutableBinding "x" (NumberValue 1) true (empty_record, fresh_realm)))
     = empty_record
  /\ objects (snd (snd (SetMutableBinding "x" (NumberValue 1) true
                          (empty_record, fresh_realm)))) !! 0
     = Some (thrown_error_object ReferenceError "x not found").
Proof. repeat split. Qed.

(** ECMA262 8.1.1.4.5, [GlobalEnvironmentRecord.SetMutableBinding]: the
    global record asks its declarative record first and hands everything
    that record does not bind to its object record, whose method (a [Set]
    on the global object) is a parameter here. *)
Definition Global_SetMutableBinding
    (ObjRec_SetMutableBinding : string -> Value -> bool -> M Realm Value)
    (N : string) (V : Value) (S : bool) : EnvM Value :=
  let! declared := HasBinding N in
  if (declared : bool) then SetMutableBinding N V S
  else
    fun s =>
      match ObjRec_SetMutableBinding N V S (snd s) with
      | (res, realm') => (res, (fst s, realm'))
      end.

(** The declarative record of the global environment is therefore never
    asked to set a name it does not bind. *)
Lemma Global_SetMutableBinding_unbound
    (ObjRec_SetMutableBinding : string -> Value -> bool -> M Realm Value)
    (N : string) (V : Value) (S : bool)
    (DclRec : DeclarativeEnvironmentRecord) (realm : Realm) :
  bindings DclRec !! N = None ->
  Global_SetMutableBinding ObjRec_SetMutableBinding N V S (DclRec, realm)
  = (fst (ObjRec_SetMutableBinding N V S realm),
     (DclRec, snd (ObjRec_SetMutableBinding N V S realm))).
Proof.
  intros Hunbound. unfold Global_SetMutableBinding, HasBinding.
  erewrite bind_run.
  2:{ erewrite bind_run by reflexivity. cbn [fst]. rewrite Hunbound. reflexivity. }
  cbn [fst snd]. now destruct (ObjRec_SetMutableBinding N V S realm).
Qed.

(* ===================================================================== *)
(** * evaluators/ForInStatement.js *)
(* ===================================================================== *)

(** [BabelNodeForInStatement]: [left], [right] (with its location) and
    [body]. *)
Record BabelNodeForInStatement := {
  ast_left : BabelNode;
  ast_right : BabelNode;
  ast_right_loc : option SourceLocation;
  ast_body : BabelNode;
}.

(** [PropertyBinding] of types.js: a binding object with identity, the
    object it belongs to and its key. *)
Record PropertyBinding := {
  pb_id : nat;
  pb_object : nat;
  pb_key : Value;
}.

(** What evaluating a node yields: a value, an abrupt completion, or a
    reference. *)
Inductive EvaluationResult :=
| result_Value (v : Value)
| result_Completion (c : Exception)
| result_Reference.

(** The tuple [compl, gen, bindings, properties, createdObj] that
    [evaluateNodeForEffects] returns; the maps and the set are listed in
    insertion order. *)
Record Effects := {
  eff_completion : EvaluationResult;
  eff_generator : Generator;
  eff_bindings : list (Binding.t * option Value);
  eff_properties : list (PropertyBinding * option Descriptor);
  eff_createdObjects : list nat;
}.

(** [args[i]]: out of range is [undefined]. *)
Definition arg (i : nat) (args : list Value) : option Value := nth_error args i.

Definition kind_of (v : Value) : option string :=
  match v with AbstractValue _ _ _ _ kind _ => kind | _ => None end.

Definition args_of (v : Value) : list Value :=
  match v with AbstractValue _ _ _ _ _ args => args | _ => [] end.

Definition kind_is (v : option Value) (k : string) : bool :=
  match v with
  | Some (AbstractValue _ _ _ _ (Some kind) _) => String.eqb kind k
  | _ => false
  end.

Definition is_ObjectValue (v : option Value) : bool :=
  match v with Some (ObjectValue _) => true | _ => false end.

Definition is_identical (v : option Value) (w : Value) : bool :=
  match v with Some v => identical v w | None => false end.

(** The [while (mem instanceof AbstractValue)] loop: it looks for an
    expression of the form [sourceObject[absStr]], skipping over tests for
    [absStr] being equal to a known property.  [Some sourceObject] when it
    [break]s having found one, [None] when it ends without. *)
Fixpoint find_sourceObject (absStr : Value) (mem : Value) : option Value :=
  match mem with
  | AbstractValue _ _ _ _ kind args =>
      if (match kind with
          | Some k => String.eqb k "sentinel member expression"
          | None => false
          end
          && is_ObjectValue (arg 0 args)
          && is_identical (arg 1 args) absStr)%bool
      then arg 0 args
      else
        if (kind_is (arg 0 args) "check for known property"
            && is_identical (arg 0 (match arg 0 args with
                                    | Some condition => args_of condition
                                    | None => []
                                    end)) absStr)%bool
        then
          match args with
          | _ :: _ :: mem' :: _ => find_sourceObject absStr mem'
          | _ => None
          end
        else None
  | _ => None
  end.

(** [reportError(realm, loc)] *)
Definition reportError (loc : option SourceLocation) : M Realm unit :=
  let error :=
    {| message := "for in loops over unknown objects are not yet supported";
       location := loc;
       errorCode := "PP0013";
       severity := FatalError_severity |} in
  handleError error ;;;
  throw FatalError.

(** Modelled from the spec: [NewDeclarativeEnvironment(realm, E)] of
    methods/: a fresh lexical environment whose record is a new, empty
    declarative record and whose parent is [E]. *)
Definition NewDeclarativeEnvironment (E : nat) : M Realm nat :=
  fun r =>
    (Normal (nextId r),
     set_nextId (S (nextId r))
       (set_lexicalEnvironments
          (insert (nextId r)
             {| environmentRecord :=
                  Declarative {| isReadOnly := false; bindings := ∅ |};
                parent := Some E |})
          r)).

(** A method call on [blockEnv.environmentRecord], after
    [invariant(envRec instanceof DeclarativeEnvironmentRecord, ...)]. *)
Definition on_envRec {A} (env : nat) (c : EnvM A) : M Realm A :=
  fun r =>
    match lexicalEnvironments r !! env with
    | Some {| environmentRecord := Declarative rec; parent := p |} =>
        match c (rec, r) with
        | (res, (rec', r')) =>
            (res,
             set_lexicalEnvironments
               (insert env {| environmentRecord := Declarative rec'; parent := p |}) r')
        end
    | _ => (Abrupt (InvariantViolation "expected declarative environment record"), r)
    end.

(** Modelled from the spec: an object "carries two independent bits,
    partial and simple"; [makeSimple], [makePartial] and [makeNotPartial]
    of values/ObjectValue.js set them, [isPartialObject] and
    [isSimpleObject] read them. *)
Definition with_partial (b : bool) (o : ObjectRecord) : ObjectRecord :=
  {| partial := b; simple := simple o; properties := properties o;
     unknownProperty := unknownProperty o;
     constructedBy := constructedBy o; errorMessage := errorMessage o;
     _ErrorData := _ErrorData o |}.

Definition with_simple (b : bool) (o : ObjectRecord) : ObjectRecord :=
  {| partial := partial o; simple := b; properties := properties o;
     unknownProperty := unknownProperty o;
     constructedBy := constructedBy o; errorMessage := errorMessage o;
     _ErrorData := _ErrorData o |}.

Definition object_ref (v : Value) : option nat :=
  match v with ObjectValue ref => Some ref | _ => None end.

Definition update_object (f : ObjectRecord -> ObjectRecord) (object : Value)
    : M Realm unit :=
  match object with
  | ObjectValue ref => modify (set_objects (alter f ref))
  | _ => ret tt
  end.

Definition makeSimple : Value -> M Realm unit := update_object (with_simple true).
Definition makePartial : Value -> M Realm unit := update_object (with_partial true).
Definition makeNotPartial : Value -> M Realm unit := update_object (with_partial false).

Definition object_bit (bit : ObjectRecord -> bool) (ref : nat) (r : Realm) : bool :=
  match objects r !! ref with
  | Some o => bit o
  | None => false
  end.

(** [realm.generator.body.push(entry)] *)
Definition push_to_generator (entry : GeneratorEntry) : M Realm unit :=
  modify (fun r => set_generator (body_push entry <$> generator r) r).

(** Modelled from the spec: [UpdateEmpty(realm, completion, value).value]
    of methods/, as in the Standard: the completion's value, or [value] if
    that is empty. *)
Definition UpdateEmpty_value (completionValue value : Value) : Value :=
  match completionValue with
  | EmptyValue => value
  | v => v
  end.

Section ForIn.

(** Collaborators of the evaluator that live in other files:
    [ForInOfHeadEvaluation] and [ForInOfBodyEvaluation] of ForOfStatement.js,
    [BoundNames] and [EnumerableOwnProperties] of methods/,
    [realm.evaluateNodeForEffects] of realm.js, [$Set] of the object
    model, and [isPartialObject] / [isSimpleObject] on values that are not
    concrete objects.  [EnumerableOwnProperties] is only called in
    ["key+value"] mode, where it returns two-element arrays [[key, value]];
    they are pairs here, so that [keyVal.$Get("0", keyVal)] and
    [keyVal.$Get("1", keyVal)] are the projections and
    [keyVal instanceof ArrayValue] holds by construction. *)
Variable ForInOfHeadEvaluation :
  nat -> list string -> BabelNode -> string -> bool -> M Realm Value.
Variable ForInOfBodyEvaluation :
  nat -> BabelNode -> BabelNode -> Value -> string -> option (list string) -> bool ->
  M Realm Value.
Variable BoundNames : BabelNode -> list string.
Variable evaluateNodeForEffects : BabelNode -> bool -> nat -> M Realm Effects.
Variable EnumerableOwnProperties : Value -> M Realm (list (Value * Value)).
Variable _Set : Value -> Value -> Value -> Value -> M Realm bool.
Variable abstract_isPartialObject : Value -> M Realm bool.
Variable abstract_isSimpleObject : Value -> M Realm bool.

Definition isPartialObject (v : Value) : M Realm bool :=
  match v with
  | ObjectValue ref => gets (object_bit partial ref)
  | _ => abstract_isPartialObject v
  end.

Definition isSimpleObject (v : Value) : M Realm bool :=
  match v with
  | ObjectValue ref => gets (object_bit simple ref)
  | _ => abstract_isSimpleObject v
  end.

(** [keyResult.isPartialObject() && keyResult.isSimpleObject()] *)
Definition isPartialAndSimple (keyResult : Value) : M Realm bool :=
  let! p := isPartialObject keyResult in
  if (p : bool) then isSimpleObject keyResult else ret false.

(** The loop over [BoundNames(realm, lh)]: it declares the loop variable in
    the block environment, bound to [absStr], and remembers its name. *)
Fixpoint bind_names (blockEnv : nat) (absStr : Value) (names : list string)
    (boundName : option BabelNode) : M Realm (option BabelNode) :=
  match names with
  | [] => ret boundName
  | n :: names' =>
      invariant (bool_decide (boundName = None)) "" ;;;
      let boundName := Some (identifier n) in
      on_envRec blockEnv (CreateMutableBinding n false) ;;;
      on_envRec blockEnv (InitializeBinding n absStr) ;;;
      bind_names blockEnv absStr names' boundName
  end.

(** The callback of [properties.forEach]: it updates [targetObject] and
    [sourceObject]. *)
Definition inspect_property (absStr : Value)
    (targetObject sourceObject : option Value)
    (key : PropertyBinding) (desc : option Descriptor)
    : M Realm (option Value * option Value) :=
  let! unknown := gets (fun r => o ← objects r !! pb_object key; unknownProperty o) in
  if bool_decide (unknown = Some (pb_id key)) then
    let targetObject := Some (ObjectValue (pb_object key)) in
    match desc with
    | None => invariant false "" ;;; ret (targetObject, sourceObject)
    | Some desc =>
        match value desc with
        | Some (AbstractValue _ _ _ _ _ sourceValue_args) =>
            let cond := arg 0 sourceValue_args in
            invariant (kind_is cond "template for property name condition") "" ;;;
            if match arg 2 sourceValue_args with
               | Some v => instanceof_UndefinedValue v
               | None => false
               end
            then
              match arg 1 sourceValue_args with
              | Some mem =>
                  match find_sourceObject absStr mem with
                  | Some found => ret (targetObject, Some found)
                  | None => ret (targetObject, sourceObject)
                  end
              | None => ret (targetObject, sourceObject)
              end
            else ret (targetObject, sourceObject)
        | _ => ret (targetObject, sourceObject)
        end
    end
  else ret (targetObject, sourceObject).

Fixpoint inspect_properties (absStr : Value)
    (properties : list (PropertyBinding * option Descriptor))
    (targetObject sourceObject : option Value)
    : M Realm (option Value * option Value) :=
  match properties with
  | [] => ret (targetObject, sourceObject)
  | (key, desc) :: properties' =>
      let! '(targetObject, sourceObject) :=
        inspect_property absStr targetObject sourceObject key desc in
      inspect_properties absStr properties' targetObject sourceObject
  end.

(** [o]: the iterated object itself, or its one concrete candidate when it
    is an abstract object with a single-element values domain. *)
Definition iterated_object (ob : Value) : Value :=
  match ob with
  | AbstractValue _ true _ (Some [oe]) _ _ => oe
  | _ => ob
  end.

(** The loop over [keyValPairs]. *)
Definition copy_properties (targetObject : Value) (keyValPairs : list (Value * Value))
    : M Realm unit :=
  for_of keyValPairs (fun keyVal =>
    let key := fst keyVal in
    let val := snd keyVal in
    invariant (instanceof_StringValue key) "" ;;;
    _Set targetObject key val targetObject ;;;
    ret tt).

(** The entry of the residual loop. *)
Definition forIn_entry (lh : BabelNode) (boundName : option BabelNode)
    (o targetObject sourceObject : Value) : GeneratorEntry :=
  {| declared := None;
     args := [o; targetObject; sourceObject; targetObject; sourceObject];
     buildNode := fun nodes S context =>
       let obj := node_at 0 nodes in
       let tgt := node_at 1 nodes in
       let src := node_at 2 nodes in
       match boundName with
       | None => invariant false "" ;;; ret missingNode
       | Some boundName =>
           ret (forInStatement lh obj
                  (blockStatement
                     [expressionStatement
                        (assignmentExpression "="
                           (memberExpression tgt boundName true)
                           (memberExpression src boundName true))]))
       end;
     dependencies := None;
     isPure := None |}.

(** The test the [try] block makes of the effects of the body:
    [Some (targetObject, sourceObject)] when they are those of a single
    property assignment whose target is an object and whose source was
    found, [None] otherwise. *)
Definition body_shape (absStr : Value) (effects : Effects)
    : M Realm (option (Value * Value)) :=
  if (match eff_completion effects with result_Value _ => true | _ => false end
      && empty (eff_generator effects)
      && Nat.eqb (length (eff_bindings effects)) 0
      && Nat.eqb (length (eff_properties effects)) 1)%bool
  then
    invariant (Nat.eqb (length (eff_createdObjects effects)) 0) "" ;;;
    let! '(targetObject, sourceObject) :=
      inspect_properties absStr (eff_properties effects) None None in
    match targetObject, sourceObject with
    | Some (ObjectValue target_ref), Some sourceObject =>
        ret (Some (ObjectValue target_ref, sourceObject))
    | _, _ => ret None
    end
  else ret None.

(** What the [try] block does once the body is accepted. *)
Definition emit_residual_loop (lh : BabelNode) (boundName : option BabelNode)
    (ob targetObject sourceObject : Value) : M Realm Value :=
  let o := iterated_object ob in
  let! generator := gets generator in
  invariant (bool_decide (is_Some generator)) "" ;;;
  makeSimple targetObject ;;;
  makePartial targetObject ;;;
  (if identical sourceObject o then
     let! sourcePartial := isPartialObject sourceObject in
     invariant sourcePartial "" ;;;
     makeNotPartial sourceObject ;;;
     let! keyValPairs := EnumerableOwnProperties sourceObject in
     makePartial sourceObject ;;;
     copy_properties targetObject keyValPairs
   else ret tt) ;;;
  push_to_generator (forIn_entry lh boundName o targetObject sourceObject) ;;;
  ret UndefinedValue.

(** The inside of the [try] block; [Some v] stands for [return v], [None]
    for falling out of the block.  The first line is
    [invariant(envRec instanceof DeclarativeEnvironmentRecord, ...)]. *)
Definition residual_loop_try (strictCode : bool) (blockEnv : nat) (lh : BabelNode)
    (ob : Value) (body : BabelNode) : M Realm (option Value) :=
  on_envRec blockEnv (ret tt) ;;;
  let! absStr :=
    createAbstract {| getType := StringValue_class |} None []
      (stringLiteral "never used") None in
  let! boundName := bind_names blockEnv absStr (BoundNames lh) None in
  let! effects := evaluateNodeForEffects body strictCode blockEnv in
  let! accepted := body_shape absStr effects in
  match accepted with
  | Some (targetObject, sourceObject) =>
      let! v := emit_residual_loop lh boundName ob targetObject sourceObject in
      ret (Some v)
  | None => ret None
  end.

Definition emitResidualLoopIfSafe (ast : BabelNodeForInStatement) (strictCode : bool)
    (env : nat) (lh : BabelNode) (obexpr_loc : option SourceLocation)
    (ob : Value) (body : BabelNode) : M Realm Value :=
  let! obSimple := isSimpleObject ob in
  invariant obSimple "" ;;;
  let! oldEnv := gets lexicalEnvironment in
  let! blockEnv := NewDeclarativeEnvironment oldEnv in
  modify (set_lexicalEnvironment blockEnv) ;;;
  let! returned :=
    try_finally
      (residual_loop_try strictCode blockEnv lh ob body)
      (modify (set_lexicalEnvironment oldEnv)) in
  match returned with
  | Some v => ret v
  | None =>
      reportError obexpr_loc ;;;
      invariant false "" ;;; ret UndefinedValue
  end.

(** [reportErrorAndThrowIfNotConcrete(val, loc)] *)
Definition reportErrorAndThrowIfNotConcrete (val : Value) (loc : option SourceLocation)
    : M Realm unit :=
  if instanceof_AbstractValue val then reportError loc else ret tt.

(** [left.declarations[0].id] *)
Definition first_declaration_id (declarations : list BabelNode) : BabelNode :=
  match declarations with
  | variableDeclarator id _ :: _ => id
  | _ => missingNode
  end.

(** The [try] block of the evaluator. *)
Definition ForInStatement_try (ast : BabelNodeForInStatement) (strictCode : bool)
    (env : nat) (labelSet : option (list string)) : M Realm Value :=
  let left := ast_left ast in
  let right := ast_right ast in
  let body := ast_body ast in
  match left with
  | variableDeclaration kind declarations =>
      if String.eqb kind "var" then
        let! keyResult := ForInOfHeadEvaluation env [] right "enumerate" strictCode in
        let! safe := isPartialAndSimple keyResult in
        if (safe : bool) then
          emitResidualLoopIfSafe ast strictCode env left (ast_right_loc ast) keyResult body
        else
          reportErrorAndThrowIfNotConcrete keyResult (ast_right_loc ast) ;;;
          invariant (instanceof_ObjectValue keyResult) "" ;;;
          ForInOfBodyEvaluation env (first_declaration_id declarations) body keyResult
            "varBinding" labelSet strictCode
      else
        let! keyResult :=
          ForInOfHeadEvaluation env (BoundNames left) right "enumerate" strictCode in
        reportErrorAndThrowIfNotConcrete keyResult (ast_right_loc ast) ;;;
        invariant (instanceof_ObjectValue keyResult) "" ;;;
        ForInOfBodyEvaluation env left body keyResult "lexicalBinding" labelSet strictCode
  | _ =>
      let! keyResult := ForInOfHeadEvaluation env [] right "enumerate" strictCode in
      reportErrorAndThrowIfNotConcrete keyResult (ast_right_loc ast) ;;;
      invariant (instanceof_ObjectValue keyResult) "" ;;;
      ForInOfBodyEvaluation env left body keyResult "assignment" labelSet strictCode
  end.

(** ECMA262 13.7.5.11: the default export.  A break without target ends
    the loop normally; everything else thrown goes on. *)
Definition ForInStatement (ast : BabelNodeForInStatement) (strictCode : bool)
    (env : nat) (labelSet : option (list string)) : M Realm Value :=
  try_catch (ForInStatement_try ast strictCode env labelSet)
    (fun e =>
       match e with
       | BreakCompletion value None
       | BreakCompletion value (Some EmptyString) =>
           ret (UpdateEmpty_value value UndefinedValue)
       | _ => throw e
       end).

End ForIn.

(* ===================================================================== *)
(** * Properties of the for-in evaluator *)
(* ===================================================================== *)

Lemma bind_abrupt {St A B} (c : M St A) (k : A -> M St B) (s s' : St) (e : Exception) :
  c s = (Abrupt e, s') -> bind c k s = (Abrupt e, s').
Proof. intros H. unfold bind. now rewrite H. Qed.

(** The diagnostic [reportError] hands to the error handler. *)
Definition unsupported_forIn (loc : option SourceLocation) : CompilerDiagnostic :=
  {| message := "for in loops over unknown objects are not yet supported";
     location := loc;
     errorCode := "PP0013";
     severity := FatalError_severity |}.

Definition reported (loc : option SourceLocation) (r : Realm) : Realm :=
  set_diagnostics (diagnostics r ++ [unsupported_forIn loc]) r.

Lemma reportError_run (loc : option SourceLocation) (r : Realm) :
  reportError loc r = (Abrupt FatalError, reported loc r).
Proof. reflexivity. Qed.

(** [for (var ... in ...)] *)
Definition is_var_declaration (left : BabelNode) : bool :=
  match left with
  | variableDeclaration kind _ => String.eqb kind "var"
  | _ => false
  end.

(** The names the head is evaluated with: those bound by a [let] or
    [const] declaration, none otherwise. *)
Definition head_names (BoundNames : BabelNode -> list string) (left : BabelNode)
    : list string :=
  match left with
  | variableDeclaration kind _ => if String.eqb kind "var" then [] else BoundNames left
  | _ => []
  end.

(** The condition of the [if] in the [try] block: the body completed with
    a value, emitted nothing, modified no binding, and modified exactly one
    property. *)
Definition single_property_effects (effects : Effects) : bool :=
  (match eff_completion effects with result_Value _ => true | _ => false end
   && empty (eff_generator effects)
   && Nat.eqb (length (eff_bindings effects)) 0
   && Nat.eqb (length (eff_properties effects)) 1)%bool.

Section ForInProperties.

Variable ForInOfHeadEvaluation :
  nat -> list string -> BabelNode -> string -> bool -> M Realm Value.
Variable ForInOfBodyEvaluation :
  nat -> BabelNode -> BabelNode -> Value -> string -> option (list string) -> bool ->
  M Realm Value.
Variable BoundNames : BabelNode -> list string.
Variable evaluateNodeForEffects : BabelNode -> bool -> nat -> M Realm Effects.
Variable EnumerableOwnProperties : Value -> M Realm (list (Value * Value)).
Variable _Set : Value -> Value -> Value -> Value -> M Realm bool.
Variable abstract_isPartialObject : Value -> M Realm bool.
Variable abstract_isSimpleObject : Value -> M Realm bool.

Local Abbreviation ForInStatement_ :=
  (ForInStatement ForInOfHeadEvaluation ForInOfBodyEvaluation BoundNames
     evaluateNodeForEffects EnumerableOwnProperties _Set
     abstract_isPartialObject abstract_isSimpleObject).
Local Abbreviation emitResidualLoopIfSafe_ :=
  (emitResidualLoopIfSafe BoundNames evaluateNodeForEffects EnumerableOwnProperties
     _Set abstract_isPartialObject abstract_isSimpleObject).
Local Abbreviation residual_loop_try_ :=
  (residual_loop_try BoundNames evaluateNodeForEffects EnumerableOwnProperties
     _Set abstract_isPartialObject).
Local Abbreviation isPartialAndSimple_ :=
  (isPartialAndSimple abstract_isPartialObject abstract_isSimpleObject).

Lemma ForInStatement_rethrows_FatalError (ast : BabelNodeForInStatement)
    (strictCode : bool) (env : nat) (labelSet : option (list string)) (r r' : Realm) :
  ForInStatement_try ForInOfHeadEvaluation ForInOfBodyEvaluation BoundNames
    evaluateNodeForEffects EnumerableOwnProperties _Set
    abstract_isPartialObject abstract_isSimpleObject ast strictCode env labelSet r
  = (Abrupt FatalError, r') ->
  ForInStatement_ ast strictCode env labelSet r = (Abrupt FatalError, r').
Proof. intros H. unfold ForInStatement, try_catch. now rewrite H. Qed.

(** C2.  When the head of a for-in statement evaluates to an abstract
    value that is not both a partial object and a simple object (in the
    [var] form, the only one that asks), the evaluator hands the error
    handler one diagnostic, of code PP0013 at the location of the head
    expression, and throws FatalError. *)
Theorem ForInStatement_abstract_head (ast : BabelNodeForInStatement)
    (strictCode : bool) (env : nat) (labelSet : option (list string))
    (keyResult : Value) (r r1 r2 : Realm) :
  ForInOfHeadEvaluation env (head_names BoundNames (ast_left ast)) (ast_right ast)
    "enumerate" strictCode r = (Normal keyResult, r1) ->
  instanceof_AbstractValue keyResult = true ->
  (if is_var_declaration (ast_left ast)
   then isPartialAndSimple_ keyResult r1 = (Normal false, r2)
   else r2 = r1) ->
  ForInStatement_ ast strictCode env labelSet r
  = (Abrupt FatalError,
     set_diagnostics (diagnostics r2 ++ [unsupported_forIn (ast_right_loc ast)]) r2)
  /\ errorCode (unsupported_forIn (ast_right_loc ast)) = "PP0013".
Proof.
  intros Hhead Habstract Hcheck. split; [|reflexivity].
  apply ForInStatement_rethrows_FatalError.
  unfold ForInStatement_try, head_names, is_var_declaration in *.
  destruct (ast_left ast) eqn:Hleft;
    try (subst r2; erewrite bind_run by exact Hhead;
         apply bind_abrupt; unfold reportErrorAndThrowIfNotConcrete;
         rewrite Habstract; apply reportError_run).
  destruct (String.eqb kind "var").
  - erewrite bind_run by exact Hhead.
    erewrite bind_run by exact Hcheck.
    apply bind_abrupt. unfold reportErrorAndThrowIfNotConcrete.
    rewrite Habstract. apply reportError_run.
  - subst r2. erewrite bind_run by exact Hhead.
    apply bind_abrupt. unfold reportErrorAndThrowIfNotConcrete.
    rewrite Habstract. apply reportError_run.
Qed.

(** The realm on entry to the [try] block: a fresh block environment,
    child of the running one, has become the running lexical environment. *)
Definition entered_block (r : Realm) : Realm :=
  set_lexicalEnvironment (nextId r)
    (set_nextId (S (nextId r))
       (set_lexicalEnvironments
          (insert (nextId r)
             {| environmentRecord :=
                  Declarative {| isReadOnly := false; bindings := ∅ |};
                parent := Some (lexicalEnvironment r) |})
          r)).

(** How [emitResidualLoopIfSafe] ends, given how its [try] block ends: the
    old lexical environment is restored, and falling out of the block
    leads to [reportError]. *)
Lemma emitResidualLoopIfSafe_run (ast : BabelNodeForInStatement) (strictCode : bool)
    (env : nat) (lh : BabelNode) (obexpr_loc : option SourceLocation)
    (ob : Value) (body : BabelNode) (returned : option Value) (r r0 r3 : Realm) :
  isSimpleObject abstract_isSimpleObject ob r = (Normal true, r0) ->
  residual_loop_try_ strictCode (nextId r0) lh ob body (entered_block r0)
  = (Normal returned, r3) ->
  emitResidualLoopIfSafe_ ast strictCode env lh obexpr_loc ob body r
  = match returned with
    | Some v => (Normal v, set_lexicalEnvironment (lexicalEnvironment r0) r3)
    | None =>
        (Abrupt FatalError,
         reported obexpr_loc (set_lexicalEnvironment (lexicalEnvironment r0) r3))
    end.
Proof.
  intros Hsimple Htry. unfold emitResidualLoopIfSafe.
  erewrite bind_run by exact Hsimple.
  erewrite bind_run by reflexivity.
  erewrite bind_run by reflexivity.
  erewrite bind_run by reflexivity.
  erewrite bind_run by reflexivity.
  erewrite bind_run.
  2:{ unfold try_finally. cbn [gets fst]. fold (entered_block r0).
      rewrite Htry. reflexivity. }
  destruct returned; reflexivity.
Qed.

(** When the [try] block throws, the exception goes on once the old
    lexical environment is restored. *)
Lemma emitResidualLoopIfSafe_abrupt (ast : BabelNodeForInStatement) (strictCode : bool)
    (env : nat) (lh : BabelNode) (obexpr_loc : option SourceLocation)
    (ob : Value) (body : BabelNode) (e : Exception) (r r0 r3 : Realm) :
  isSimpleObject abstract_isSimpleObject ob r = (Normal true, r0) ->
  residual_loop_try_ strictCode (nextId r0) lh ob body (entered_block r0)
  = (Abrupt e, r3) ->
  emitResidualLoopIfSafe_ ast strictCode env lh obexpr_loc ob body r
  = (Abrupt e, set_lexicalEnvironment (lexicalEnvironment r0) r3).
Proof.
  intros Hsimple Htry. unfold emitResidualLoopIfSafe.
  erewrite bind_run by exact Hsimple.
  erewrite bind_run by reflexivity.
  erewrite bind_run by reflexivity.
  erewrite bind_run by reflexivity.
  erewrite bind_run by reflexivity.
  apply bind_abrupt.
  unfold try_finally. cbn [gets fst]. fold (entered_block r0).
  rewrite Htry. reflexivity.
Qed.

(** The abstract string the loop variable is bound to while the body is
    evaluated for effects. *)
Definition loop_variable (r : Realm) : Value :=
  AbstractValue (S (nextId r)) false {| getType := StringValue_class |} None None [].

Definition uninitialized_binding : Binding.t :=
  {| Binding.value := None; Binding.initialized := Some false;
     Binding.mutable := Some true; Binding.deletable := Some false;
     Binding.strict := None |}.

Definition loop_variable_binding (r : Realm) : Binding.t :=
  {| Binding.value := Some (loop_variable r); Binding.initialized := Some true;
     Binding.mutable := Some true; Binding.deletable := Some false;
     Binding.strict := None |}.

(** The realm in which the body is evaluated for effects: the block
    environment holds the loop variable [n], bound to the abstract string;
    creating and initializing the binding went through the modification
    log. *)
Definition body_realm (n : string) (r : Realm) : Realm :=
  {| objects := objects r;
     nextId := S (S (nextId r));
     intrinsicNames := intrinsicNames r;
     modifiedBindings :=
       modifiedBindings r ++
       [(uninitialized_binding, None)] ++ [(uninitialized_binding, None)];
     lexicalEnvironments :=
       <[nextId r :=
           {| environmentRecord :=
                Declarative {| isReadOnly := false;
                               bindings := {[ n := loop_variable_binding r ]} |};
              parent := Some (lexicalEnvironment r) |}]>
         (lexicalEnvironments r);
     lexicalEnvironment := nextId r;
     generator := generator r;
     diagnostics := diagnostics r;
     currentLocation := currentLocation r |}.

Lemma prologue_run {A : Type} (n : string) (r : Realm)
    (k : Value -> option BabelNode -> M Realm A) :
  (on_envRec (nextId r) (ret tt) ;;;
   let! absStr :=
     createAbstract {| getType := StringValue_class |} None []
       (stringLiteral "never used") None in
   let! boundName := bind_names (nextId r) absStr [n] None in
   k absStr boundName) (entered_block r)
  = k (loop_variable r) (Some (identifier n)) (body_realm n r).
Proof.
  erewrite bind_run.
  2:{ unfold on_envRec, entered_block.
      cbn [lexicalEnvironments set_nextId set_lexicalEnvironment set_lexicalEnvironments].
      rewrite lookup_insert_eq. cbn [ret]. reflexivity. }
  erewrite bind_run by reflexivity.
  erewrite bind_run.
  2:{ cbn [bind_names]. unfold invariant.
      rewrite bool_decide_eq_true_2 by reflexivity.
      erewrite bind_run by reflexivity.
      erewrite bind_run.
      2:{ unfold on_envRec.
          cbn [lexicalEnvironments set_nextId set_lexicalEnvironment
                 set_lexicalEnvironments].
          rewrite lookup_insert_eq. unfold CreateMutableBinding.
          erewrite bind_run by reflexivity. cbn [fst bindings]. rewrite lookup_empty.
          rewrite bool_decide_eq_true_2 by reflexivity. cbn. reflexivity. }
      erewrite bind_run.
      2:{ unfold on_envRec.
          cbn [lexicalEnvironments set_nextId set_lexicalEnvironment
                 set_lexicalEnvironments set_modifiedBindings].
          rewrite lookup_insert_eq. unfold InitializeBinding.
          erewrite bind_run by reflexivity. cbn [fst bindings].
          rewrite lookup_insert_eq. cbn. reflexivity. }
      reflexivity. }
  unfold loop_variable. f_equal.
  apply Realm_eq; unfold body_realm; read_fields; try reflexivity.
  - now rewrite <- app_assoc.
  - now rewrite !insert_insert_eq, !alter_insert_eq, insert_empty.
Qed.

(** The [try] block up to the test of the body's effects. *)
Lemma residual_loop_try_run (strictCode : bool) (lh : BabelNode) (ob : Value)
    (body : BabelNode) (n : string) (effects : Effects)
    (accepted : option (Value * Value)) (r0 r1 r2 : Realm) :
  BoundNames lh = [n] ->
  evaluateNodeForEffects body strictCode (nextId r0) (body_realm n r0)
  = (Normal effects, r1) ->
  body_shape (loop_variable r0) effects r1 = (Normal accepted, r2) ->
  residual_loop_try_ strictCode (nextId r0) lh ob body (entered_block r0)
  = match accepted with
    | Some (targetObject, sourceObject) =>
        (let! v := emit_residual_loop EnumerableOwnProperties _Set
                     abstract_isPartialObject lh (Some (identifier n)) ob
                     targetObject sourceObject in
         ret (Some v)) r2
    | None => (Normal None, r2)
    end.
Proof.
  intros Hnames Heffects Hshape. unfold residual_loop_try. rewrite Hnames.
  rewrite prologue_run.
  erewrite bind_run by exact Heffects.
  erewrite bind_run by exact Hshape.
  destruct accepted as [[targetObject sourceObject]|]; reflexivity.
Qed.

(** The [try] block when the test of the body's effects throws. *)
Lemma residual_loop_try_shape_abrupt (strictCode : bool) (lh : BabelNode) (ob : Value)
    (body : BabelNode) (n : string) (effects : Effects) (e : Exception)
    (r0 r1 r2 : Realm) :
  BoundNames lh = [n] ->
  evaluateNodeForEffects body strictCode (nextId r0) (body_realm n r0)
  = (Normal effects, r1) ->
  body_shape (loop_variable r0) effects r1 = (Abrupt e, r2) ->
  residual_loop_try_ strictCode (nextId r0) lh ob body (entered_block r0)
  = (Abrupt e, r2).
Proof.
  intros Hnames Heffects Hshape. unfold residual_loop_try. rewrite Hnames.
  rewrite prologue_run.
  erewrite bind_run by exact Heffects.
  now apply bind_abrupt.
Qed.

(** How the test of the body's effects ends when the condition of its
    [if] is false, and when it holds but the body created an object. *)
Lemma body_shape_falls_through (absStr : Value) (effects : Effects) (r : Realm) :
  single_property_effects effects = false ->
  body_shape absStr effects r = (Normal None, r).
Proof.
  unfold single_property_effects, body_shape. intros H. now rewrite H.
Qed.

Lemma body_shape_created_objects (absStr : Value) (effects : Effects) (r : Realm) :
  single_property_effects effects = true ->
  eff_createdObjects effects <> [] ->
  body_shape absStr effects r = (Abrupt (InvariantViolation ""), r).
Proof.
  unfold single_property_effects, body_shape. intros H Hcreated. rewrite H.
  destruct (eff_createdObjects effects); [congruence | reflexivity].
Qed.

(** C4, as the code has it.  For a head that binds one name and a body
    that was evaluated for effects.  When the test of the effects ends
    without accepting them as those of [target[k] = source[k]], the
    evaluator restores the lexical environment, hands the error handler one
    diagnostic, of code PP0013 and of severity FatalError, at the location
    of the head expression, and throws FatalError; nothing else of the realm
    changes.  The test ends so whenever the body did not complete with a
    value, emitted something, modified a binding, or did not modify exactly
    one property.  When the test fails one of its assertions instead, the
    evaluator throws that invariant violation, with the lexical environment
    restored and no diagnostic; it does when the body modified exactly one
    property and created an object. *)
Theorem emitResidualLoopIfSafe_rejected (ast : BabelNodeForInStatement)
    (strictCode : bool) (env : nat) (lh : BabelNode)
    (obexpr_loc : option SourceLocation) (ob : Value) (body : BabelNode)
    (n : string) (effects : Effects) (outcome : Result (option (Value * Value)))
    (r r0 r1 r2 : Realm) :
  isSimpleObject abstract_isSimpleObject ob r = (Normal true, r0) ->
  BoundNames lh = [n] ->
  evaluateNodeForEffects body strictCode (nextId r0) (body_realm n r0)
  = (Normal effects, r1) ->
  body_shape (loop_variable r0) effects r1 = (outcome, r2) ->
  match outcome with
  | Normal None =>
      emitResidualLoopIfSafe_ ast strictCode env lh obexpr_loc ob body r
      = (Abrupt FatalError,
         {| objects := objects r2; nextId := nextId r2;
            intrinsicNames := intrinsicNames r2;
            modifiedBindings := modifiedBindings r2;
            lexicalEnvironments := lexicalEnvironments r2;
            lexicalEnvironment := lexicalEnvironment r0;
            generator := generator r2;
            diagnostics :=
              diagnostics r2 ++
              [{| message := "for in loops over unknown objects are not yet supported";
                  location := obexpr_loc;
                  errorCode := "PP0013";
                  severity := FatalError_severity |}];
            currentLocation := currentLocation r2 |})
  | Abrupt e =>
      emitResidualLoopIfSafe_ ast strictCode env lh obexpr_loc ob body r
      = (Abrupt e,
         {| objects := objects r2; nextId := nextId r2;
            intrinsicNames := intrinsicNames r2;
            modifiedBindings := modifiedBindings r2;
            lexicalEnvironments := lexicalEnvironments r2;
            lexicalEnvironment := lexicalEnvironment r0;
            generator := generator r2;
            diagnostics := diagnostics r2;
            currentLocation := currentLocation r2 |})
  | _ => True
  end
  /\ (single_property_effects effects = false -> outcome = Normal None /\ r2 = r1)
  /\ (single_property_effects effects = true -> eff_createdObjects effects <> [] ->
      outcome = Abrupt (InvariantViolation "") /\ r2 = r1).
Proof.
  intros Hsimple Hnames Heffects Hshape. split; [|split].
  - destruct outcome as [[accepted|]|e|]; try exact I.
    + rewrite (emitResidualLoopIfSafe_run ast strictCode env lh obexpr_loc ob body
                 None r r0 r2 Hsimple); [reflexivity|].
      rewrite (residual_loop_try_run strictCode lh ob body n effects None r0 r1 r2
                 Hnames Heffects Hshape).
      reflexivity.
    + rewrite (emitResidualLoopIfSafe_abrupt ast strictCode env lh obexpr_loc ob body
                 e r r0 r2 Hsimple); [reflexivity|].
      exact (residual_loop_try_shape_abrupt strictCode lh ob body n effects e r0 r1 r2
               Hnames Heffects Hshape).
  - intros Hcondition.
    rewrite (body_shape_falls_through _ _ _ Hcondition) in Hshape.
    now injection Hshape as <- <-.
  - intros Hcondition Hcreated.
    rewrite (body_shape_created_objects _ _ _ Hcondition Hcreated) in Hshape.
    now injection Hshape as <- <-.
Qed.

(** The realm after [targetObject.makeSimple(); targetObject.makePartial()]
    and the like. *)
Definition updated (f : ObjectRecord -> ObjectRecord) (object : Value) (r : Realm)
    : Realm :=
  match object with
  | ObjectValue ref =>
      {| objects := alter f ref (objects r); nextId := nextId r;
         intrinsicNames := intrinsicNames r;
         modifiedBindings := modifiedBindings r;
         lexicalEnvironments := lexicalEnvironments r;
         lexicalEnvironment := lexicalEnvironment r; generator := generator r;
         diagnostics := diagnostics r; currentLocation := currentLocation r |}
  | _ => r
  end.

Lemma update_object_run (f : ObjectRecord -> ObjectRecord) (object : Value) (r : Realm) :
  update_object f object r = (Normal tt, updated f object r).
Proof. unfold updated. destruct object; reflexivity. Qed.

Lemma generator_updated (f : ObjectRecord -> ObjectRecord) (object : Value) (r : Realm) :
  generator (updated f object r) = generator r.
Proof. unfold updated. destruct object; reflexivity. Qed.

Lemma copy_properties_run (targetObject : Value) (keyValPairs : list (Value * Value)) :
  forall r r' : Realm,
    Forall (fun keyVal => instanceof_StringValue (fst keyVal) = true) keyValPairs ->
    for_of keyValPairs
      (fun keyVal => _Set targetObject (fst keyVal) (snd keyVal) targetObject ;;; ret tt) r
    = (Normal tt, r') ->
    copy_properties _Set targetObject keyValPairs r = (Normal tt, r').
Proof.
  unfold copy_properties.
  induction keyValPairs as [|keyVal rest IH]; intros r r' Hkeys Hsets.
  - exact Hsets.
  - inversion Hkeys as [|? ? Hkey Hrest]; subst.
    cbn [for_of] in Hsets |- *.
    unfold bind at 1 in Hsets. unfold bind at 1.
    unfold invariant. rewrite Hkey. unfold bind at 1. cbn [ret].
    destruct ((_Set targetObject (fst keyVal) (snd keyVal) targetObject ;;; ret tt) r)
      as [[[]| |] r1] eqn:Hset; try discriminate.
    now apply IH.
Qed.

(** C3.  When the effects of the speculatively evaluated body are accepted
    as those of [target[k] = source[k]] and the source is the iterated
    object, the evaluator marks the target simple and partial, calls
    [$Set(key, value, target)] on the target for every pair that
    [EnumerableOwnProperties] lists for the source (taken while the source
    is marked not partial), in order, appends one entry to the body of the
    realm's generator, restores the lexical environment and returns
    undefined: with [g] the generator as the [$Set] calls leave it, the
    generator ends with the body of [g] followed by the one entry, and the
    realm is otherwise as the [$Set] calls leave it.  The entry has the
    iterated object, the target and the source as arguments and builds
    [for (lh in obj) { tgt[k] = src[k]; }]. *)
Theorem emitResidualLoopIfSafe_accepted (ast : BabelNodeForInStatement)
    (strictCode : bool) (env : nat) (lh : BabelNode)
    (obexpr_loc : option SourceLocation) (ob : Value) (loopBody : BabelNode)
    (n : string) (effects : Effects) (targetObject sourceObject : Value)
    (keyValPairs : list (Value * Value)) (g : Generator)
    (r r0 r1 r2 r3 r4 r5 : Realm) :
  isSimpleObject abstract_isSimpleObject ob r = (Normal true, r0) ->
  BoundNames lh = [n] ->
  evaluateNodeForEffects loopBody strictCode (nextId r0) (body_realm n r0)
  = (Normal effects, r1) ->
  body_shape (loop_variable r0) effects r1
  = (Normal (Some (targetObject, sourceObject)), r2) ->
  identical sourceObject (iterated_object ob) = true ->
  is_Some (generator r2) ->
  isPartialObject abstract_isPartialObject sourceObject
    (updated (with_partial true) targetObject
       (updated (with_simple true) targetObject r2))
  = (Normal true, r3) ->
  EnumerableOwnProperties sourceObject (updated (with_partial false) sourceObject r3)
  = (Normal keyValPairs, r4) ->
  Forall (fun keyVal => instanceof_StringValue (fst keyVal) = true) keyValPairs ->
  for_of keyValPairs
    (fun keyVal => _Set targetObject (fst keyVal) (snd keyVal) targetObject ;;; ret tt)
    (updated (with_partial true) sourceObject r4)
  = (Normal tt, r5) ->
  generator r5 = Some g ->
  let entry :=
    forIn_entry lh (Some (identifier n)) (iterated_object ob) targetObject sourceObject in
  emitResidualLoopIfSafe_ ast strictCode env lh obexpr_loc ob loopBody r
  = (Normal UndefinedValue,
     {| objects := objects r5; nextId := nextId r5;
        intrinsicNames := intrinsicNames r5;
        modifiedBindings := modifiedBindings r5;
        lexicalEnvironments := lexicalEnvironments r5;
        lexicalEnvironment := lexicalEnvironment r0;
        generator :=
          Some {| body := body g ++ [entry];
                  preludeGenerator := preludeGenerator g |};
        diagnostics := diagnostics r5;
        currentLocation := currentLocation r5 |})
  /\ args entry = [iterated_object ob; targetObject; sourceObject;
                   targetObject; sourceObject]
  /\ forall (S : Type) (context : SerializationContext S) (s : S)
        (obj tgt src obj1 tgt1 : BabelNode),
      buildNode entry [obj; tgt; src; obj1; tgt1] S context s
      = (Normal
           (forInStatement lh obj
              (blockStatement
                 [expressionStatement
                    (assignmentExpression "="
                       (memberExpression tgt (identifier n) true)
                       (memberExpression src (identifier n) true))])), s).
Proof.
  intros Hsimple Hnames Heffects Hshape Hsource Hgenerator Hpartial Henumerate
    Hkeys Hsets Hg entry.
  split; [|split; [reflexivity | intros; reflexivity]].
  rewrite (emitResidualLoopIfSafe_run ast strictCode env lh obexpr_loc ob loopBody
             (Some UndefinedValue) r r0
             (set_generator (body_push entry <$> generator r5) r5) Hsimple);
    [rewrite Hg; reflexivity|].
  rewrite (residual_loop_try_run strictCode lh ob loopBody n effects
             (Some (targetObject, sourceObject)) r0 r1 r2 Hnames Heffects Hshape).
  unfold emit_residual_loop.
  erewrite bind_run.
  2:{ erewrite bind_run by reflexivity.
      unfold invariant. rewrite bool_decide_eq_true_2 by exact Hgenerator.
      erewrite bind_run by reflexivity.
      unfold makeSimple, makePartial, makeNotPartial.
      erewrite bind_run by apply update_object_run.
      erewrite bind_run by apply update_object_run.
      rewrite Hsource.
      erewrite bind_run.
      2:{ erewrite bind_run by exact Hpartial.
          erewrite bind_run by reflexivity.
          erewrite bind_run by apply update_object_run.
          erewrite bind_run by exact Henumerate.
          erewrite bind_run by apply update_object_run.
          apply copy_properties_run; [exact Hkeys | exact Hsets]. }
      erewrite bind_run by reflexivity.
      reflexivity. }
  reflexivity.
Qed.

End ForInProperties.

(* ===================================================================== *)
(** * The for-in evaluator on examples *)
(* ===================================================================== *)

(** [for (var k in o) body], with the head expression at line 1. *)
Definition example_loc : option SourceLocation :=
  Some {| loc_start := (1, 15); loc_end := (1, 16); loc_source := Some "a.js" |}.

Definition example_forIn : BabelNodeForInStatement :=
  {| ast_left :=
       variableDeclaration "var" [variableDeclarator (identifier "k") missingNode];
     ast_right := identifier "o";
     ast_right_loc := example_loc;
     ast_body := parsedNode 0 |}.

(** A store with a partial, simple object 0 (the source), which has one
    known property [x] with value 1, and an object 1 (the target) whose
    [unknownProperty] is the binding 7; a generator with an empty body. *)
Definition data_property (v : Value) : Descriptor :=
  {| writable := Some true; enumerable := Some true; configurable := Some true;
     value := Some v; get := None; set := None |}.

Definition example_source : ObjectRecord :=
  {| partial := true; simple := true;
     properties := [("x", data_property (NumberValue 1))];
     unknownProperty := None;
     constructedBy := None; errorMessage := None; _ErrorData := None |}.

Definition example_target : ObjectRecord :=
  {| partial := false; simple := false; properties := [];
     unknownProperty := Some 7;
     constructedBy := None; errorMessage := None; _ErrorData := None |}.

Definition example_realm : Realm :=
  {| objects := {[ 0 := example_source; 1 := example_target ]};
     nextId := 2; intrinsicNames := ∅; modifiedBindings := [];
     lexicalEnvironments := ∅; lexicalEnvironment := 0;
     generator := Some fresh_generator;
     diagnostics := []; currentLocation := None |}.

(** Collaborators for the examples.  The head evaluates to [head]; an
    abstract value that is not a concrete object is partial and not
    simple; the body has the effects [effects]; the enumerable own
    properties of an object are the enumerable data properties the store
    has for it; [$Set] defines a data property on its target. *)
Definition head_is (head : Value)
    : nat -> list string -> BabelNode -> string -> bool -> M Realm Value :=
  fun _ _ _ _ _ => ret head.

Definition no_body_evaluation
    : nat -> BabelNode -> BabelNode -> Value -> string -> option (list string) -> bool ->
      M Realm Value :=
  fun _ _ _ _ _ _ _ => ret UndefinedValue.

Definition names_k : BabelNode -> list string := fun _ => ["k"].

Definition effects_are (effects : Effects) : BabelNode -> bool -> nat -> M Realm Effects :=
  fun _ _ _ => ret effects.

Definition enumerable_pairs (o : ObjectRecord) : list (Value * Value) :=
  flat_map
    (fun property =>
       match truthy (enumerable (snd property)), value (snd property) with
       | true, Some v => [(StringValue (fst property), v)]
       | _, _ => []
       end)
    (properties o).

Definition list_known_properties : Value -> M Realm (list (Value * Value)) :=
  fun object =>
    gets (fun r =>
            match object with
            | ObjectValue ref => default [] (enumerable_pairs <$> objects r !! ref)
            | _ => []
            end).

Definition define_property (key : string) (v : Value) (o : ObjectRecord) : ObjectRecord :=
  {| partial := partial o; simple := simple o;
     properties :=
       filter (fun property => fst property <> key) (properties o)
       ++ [(key, data_property v)];
     unknownProperty := unknownProperty o;
     constructedBy := constructedBy o; errorMessage := errorMessage o;
     _ErrorData := _ErrorData o |}.

Definition set_data_property : Value -> Value -> Value -> Value -> M Realm bool :=
  fun target key val receiver =>
    match target, key with
    | ObjectValue ref, StringValue k =>
        modify (set_objects (alter (define_property k val) ref)) ;;; ret true
    | _, _ => ret false
    end.

Definition always (b : bool) : Value -> M Realm bool := fun _ => ret b.

(** [__abstract("object", "obj")]: an abstract object of unknown value. *)
Definition abstract_object : Value :=
  AbstractValue 9 true {| getType := ObjectValue_class |} None None [].

Lemma ForInStatement_abstract_head_witness :
  head_is abstract_object 0 (head_names names_k (ast_left example_forIn))
    (ast_right example_forIn) "enumerate" false example_realm
  = (Normal abstract_object, example_realm)
  /\ instanceof_AbstractValue abstract_object = true
  /\ (if is_var_declaration (ast_left example_forIn)
      then isPartialAndSimple (always true) (always false) abstract_object example_realm
           = (Normal false, example_realm)
      else example_realm = example_realm)
  /\ (ForInStatement (head_is abstract_object) no_body_evaluation names_k
        (effects_are {| eff_completion := result_Value UndefinedValue;
                        eff_generator := fresh_generator;
                        eff_bindings := []; eff_properties := [];
                        eff_createdObjects := [] |})
        list_known_properties set_data_property (always true) (always false)
        example_forIn false 0 None example_realm
      = (Abrupt FatalError,
         set_diagnostics
           (diagnostics example_realm
            ++ [unsupported_forIn (ast_right_loc example_forIn)])
           example_realm)
      /\ errorCode (unsupported_forIn (ast_right_loc example_forIn)) = "PP0013").
Proof.
  split; [reflexivity|]. split; [reflexivity|]. split; [reflexivity|].
  apply (ForInStatement_abstract_head (head_is abstract_object) no_body_evaluation
           names_k _ list_known_properties set_data_property (always true) (always false)
           example_forIn false 0 None abstract_object
           example_realm example_realm example_realm); reflexivity.
Defined.

(** The effects of [t[k] = o[k]]: one modified property, the
    [unknownProperty] binding of the target, whose new value is a
    conditional on the property name that reads [o[k]]. *)
Definition example_absStr : Value := loop_variable example_realm.

Definition example_assigned : Value :=
  AbstractValue 20 false {| getType := Value_class |} None None
    [ AbstractValue 21 false {| getType := BooleanValue_class |} None
        (Some "template for property name condition") [];
      AbstractValue 22 false {| getType := Value_class |} None
        (Some "sentinel member expression") [ObjectValue 0; example_absStr];
      UndefinedValue ].

Definition assignment_effects : Effects :=
  {| eff_completion := result_Value UndefinedValue;
     eff_generator := fresh_generator;
     eff_bindings := [];
     eff_properties :=
       [ ({| pb_id := 7; pb_object := 1; pb_key := example_absStr |},
          Some (data_property example_assigned)) ];
     eff_createdObjects := [] |}.

(** The effects of an empty body: nothing. *)
Definition no_effects : Effects :=
  {| eff_completion := result_Value UndefinedValue;
     eff_generator := fresh_generator;
     eff_bindings := []; eff_properties := []; eff_createdObjects := [] |}.

Example body_shape_accepts_assignment :
  fst (body_shape example_absStr assignment_effects (body_realm "k" example_realm))
  = Normal (Some (ObjectValue 1, ObjectValue 0)).
Proof. vm_compute. reflexivity. Qed.

Example body_shape_rejects_empty_body :
  fst (body_shape example_absStr no_effects (body_realm "k" example_realm))
  = Normal None.
Proof. vm_compute. reflexivity. Qed.

Lemma emitResidualLoopIfSafe_rejected_witness :
  isSimpleObject (always false) (ObjectValue 0) example_realm
  = (Normal true, example_realm)
  /\ names_k (ast_left example_forIn) = ["k"]
  /\ effects_are no_effects (ast_body example_forIn) false (nextId example_realm)
       (body_realm "k" example_realm)
     = (Normal no_effects, body_realm "k" example_realm)
  /\ body_shape (loop_variable example_realm) no_effects (body_realm "k" example_realm)
     = (Normal None, body_realm "k" example_realm)
  /\ emitResidualLoopIfSafe names_k (effects_are no_effects) list_known_properties set_data_property
       (always true) (always false)
       example_forIn false 0 (ast_left example_forIn) example_loc (ObjectValue 0)
       (ast_body example_forIn) example_realm
     = (Abrupt FatalError,
        {| objects := objects example_realm;
           nextId := 4;
           intrinsicNames := ∅;
           modifiedBindings :=
             [(uninitialized_binding, None); (uninitialized_binding, None)];
           lexicalEnvironments :=
             {[ 2 := {| environmentRecord :=
                          Declarative
                            {| isReadOnly := false;
                               bindings :=
                                 {[ "k" := loop_variable_binding example_realm ]} |};
                        parent := Some 0 |} ]};
           lexicalEnvironment := 0;
           generator := Some fresh_generator;
           diagnostics :=
             [{| message := "for in loops over unknown objects are not yet supported";
                 location := example_loc;
                 errorCode := "PP0013";
                 severity := FatalError_severity |}];
           currentLocation := None |}).
Proof.
  split; [reflexivity|]. split; [reflexivity|]. split; [reflexivity|].
  split; [reflexivity|].
  exact (proj1 (emitResidualLoopIfSafe_rejected names_k (effects_are no_effects)
                  list_known_properties set_data_property (always true) (always false)
                  example_forIn false 0 (ast_left example_forIn) example_loc
                  (ObjectValue 0) (ast_body example_forIn) "k" no_effects (Normal None)
                  example_realm example_realm (body_realm "k" example_realm)
                  (body_realm "k" example_realm) eq_refl eq_refl eq_refl eq_refl)).
Defined.

(** The effects of [t[k] = {}]: one modified property, and an object
    created by the body. *)
Definition creating_effects : Effects :=
  {| eff_completion := result_Value UndefinedValue;
     eff_generator := fresh_generator;
     eff_bindings := [];
     eff_properties :=
       [ ({| pb_id := 7; pb_object := 1; pb_key := example_absStr |},
          Some (data_property (ObjectValue 30))) ];
     eff_createdObjects := [30] |}.

(** Such a body is not reported as unsupported: an assertion of the
    evaluator fails, and no diagnostic reaches the error handler. *)
Example created_object_trips_assertion :
  (fun outcome => (fst outcome, diagnostics (snd outcome)))
    (emitResidualLoopIfSafe names_k (effects_are creating_effects) list_known_properties
       set_data_property (always true) (always false)
       example_forIn false 0 (ast_left example_forIn) example_loc (ObjectValue 0)
       (ast_body example_forIn) example_realm)
  = (Abrupt (InvariantViolation ""), []).
Proof. vm_compute. reflexivity. Qed.

(** C4 as stated fails: for [for (var k in o) {}] over the partial and
    simple object 0, whose body is not of the shape [t[k] = o[k]], the
    evaluator throws FatalError, so that interpretation does not go on, and
    the one diagnostic it reports has severity FatalError, not
    RecoverableError. *)
Lemma rejected_body_is_fatal :
  fst (isPartialAndSimple (always true) (always false) (ObjectValue 0) example_realm)
  = Normal true
  /\ fst (ForInStatement (head_is (ObjectValue 0)) no_body_evaluation names_k
            (effects_are no_effects) list_known_properties set_data_property (always true) (always false)
            example_forIn false 0 None example_realm)
     = Abrupt FatalError
  /\ map severity
       (diagnostics
          (snd (ForInStatement (head_is (ObjectValue 0)) no_body_evaluation names_k
                  (effects_are no_effects) list_known_properties set_data_property (always true)
                  (always false) example_forIn false 0 None example_realm)))
     = [FatalError_severity]
  /\ FatalError_severity <> RecoverableError.
Proof.
  split; [reflexivity|]. split; [vm_compute; reflexivity|].
  split; [vm_compute; reflexivity|]. discriminate.
Qed.

(** The realms the accepted loop goes through: the body is evaluated in
    [body_realm "k" example_realm]; the target is marked simple and
    partial; the source is not partial while its properties are listed;
    [x] is copied onto the target. *)
Definition example_marked : Realm :=
  updated (with_partial true) (ObjectValue 1)
    (updated (with_simple true) (ObjectValue 1) (body_realm "k" example_realm)).

Definition example_listing : Realm :=
  updated (with_partial false) (ObjectValue 0) example_marked.

Definition example_copied : Realm :=
  set_objects (alter (define_property "x" (NumberValue 1)) 1)
    (updated (with_partial true) (ObjectValue 0) example_listing).

Lemma emitResidualLoopIfSafe_accepted_witness :
  isSimpleObject (always false) (ObjectValue 0) example_realm
  = (Normal true, example_realm)
  /\ names_k (ast_left example_forIn) = ["k"]
  /\ effects_are assignment_effects (ast_body example_forIn) false
       (nextId example_realm) (body_realm "k" example_realm)
     = (Normal assignment_effects, body_realm "k" example_realm)
  /\ body_shape (loop_variable example_realm) assignment_effects
       (body_realm "k" example_realm)
     = (Normal (Some (ObjectValue 1, ObjectValue 0)), body_realm "k" example_realm)
  /\ identical (ObjectValue 0) (iterated_object (ObjectValue 0)) = true
  /\ is_Some (generator (body_realm "k" example_realm))
  /\ isPartialObject (always true) (ObjectValue 0) example_marked
     = (Normal true, example_marked)
  /\ list_known_properties (ObjectValue 0) example_listing
     = (Normal [(StringValue "x", NumberValue 1)], example_listing)
  /\ Forall (fun keyVal => instanceof_StringValue (fst keyVal) = true)
       [(StringValue "x", NumberValue 1)]
  /\ for_of [(StringValue "x", NumberValue 1)]
       (fun keyVal =>
          set_data_property (ObjectValue 1) (fst keyVal) (snd keyVal) (ObjectValue 1) ;;;
          ret tt)
       (updated (with_partial true) (ObjectValue 0) example_listing)
     = (Normal tt, example_copied)
  /\ generator example_copied = Some fresh_generator
  /\ (emitResidualLoopIfSafe names_k (effects_are assignment_effects) list_known_properties
        set_data_property (always true) (always false)
        example_forIn false 0 (ast_left example_forIn) example_loc (ObjectValue 0)
        (ast_body example_forIn) example_realm
      = (Normal UndefinedValue,
         {| objects := objects example_copied; nextId := nextId example_copied;
            intrinsicNames := intrinsicNames example_copied;
            modifiedBindings := modifiedBindings example_copied;
            lexicalEnvironments := lexicalEnvironments example_copied;
            lexicalEnvironment := lexicalEnvironment example_realm;
            generator :=
              Some {| body :=
                        [forIn_entry (ast_left example_forIn) (Some (identifier "k"))
                           (iterated_object (ObjectValue 0)) (ObjectValue 1)
                           (ObjectValue 0)];
                      preludeGenerator := preludeGenerator fresh_generator |};
            diagnostics := diagnostics example_copied;
            currentLocation := currentLocation example_copied |})
      /\ args (forIn_entry (ast_left example_forIn) (Some (identifier "k"))
                 (iterated_object (ObjectValue 0)) (ObjectValue 1) (ObjectValue 0))
         = [iterated_object (ObjectValue 0); ObjectValue 1; ObjectValue 0;
            ObjectValue 1; ObjectValue 0]
      /\ forall (S : Type) (context : SerializationContext S) (s : S)
           (obj tgt src obj1 tgt1 : BabelNode),
          buildNode
            (forIn_entry (ast_left example_forIn) (Some (identifier "k"))
               (iterated_object (ObjectValue 0)) (ObjectValue 1) (ObjectValue 0))
            [obj; tgt; src; obj1; tgt1] S context s
          = (Normal
               (forInStatement (ast_left example_forIn) obj
                  (blockStatement
                     [expressionStatement
                        (assignmentExpression "="
                           (memberExpression tgt (identifier "k") true)
                           (memberExpression src (identifier "k") true))])), s)).
Proof.
  assert (H1 : isSimpleObject (always false) (ObjectValue 0) example_realm
               = (Normal true, example_realm)) by reflexivity.
  assert (H2 : names_k (ast_left example_forIn) = ["k"]) by reflexivity.
  assert (H3 : effects_are assignment_effects (ast_body example_forIn) false
                 (nextId example_realm) (body_realm "k" example_realm)
               = (Normal assignment_effects, body_realm "k" example_realm))
    by reflexivity.
  assert (H4 : body_shape (loop_variable example_realm) assignment_effects
                 (body_realm "k" example_realm)
               = (Normal (Some (ObjectValue 1, ObjectValue 0)),
                  body_realm "k" example_realm)) by reflexivity.
  assert (H5 : identical (ObjectValue 0) (iterated_object (ObjectValue 0)) = true)
    by reflexivity.
  assert (H6 : is_Some (generator (body_realm "k" example_realm)))
    by (eexists; reflexivity).
  assert (H7 : isPartialObject (always true) (ObjectValue 0) example_marked
               = (Normal true, example_marked)) by reflexivity.
  assert (H8 : list_known_properties (ObjectValue 0) example_listing
               = (Normal [(StringValue "x", NumberValue 1)], example_listing))
    by reflexivity.
  assert (H9 : Forall (fun keyVal => instanceof_StringValue (fst keyVal) = true)
                 [(StringValue "x", NumberValue 1)])
    by (repeat constructor).
  assert (H10 : for_of [(StringValue "x", NumberValue 1)]
                  (fun keyVal =>
                     set_data_property (ObjectValue 1) (fst keyVal) (snd keyVal)
                       (ObjectValue 1) ;;;
                     ret tt)
                  (updated (with_partial true) (ObjectValue 0) example_listing)
                = (Normal tt, example_copied)) by reflexivity.
  assert (H11 : generator example_copied = Some fresh_generator) by reflexivity.
  repeat (split; [assumption|]).
  exact (emitResidualLoopIfSafe_accepted names_k (effects_are assignment_effects)
           list_known_properties set_data_property (always true) (always false)
           example_forIn false 0 (ast_left example_forIn) example_loc (ObjectValue 0)
           (ast_body example_forIn) "k" assignment_effects
           (ObjectValue 1) (ObjectValue 0) [(StringValue "x", NumberValue 1)]
           fresh_generator
           example_realm example_realm (body_realm "k" example_realm)
           (body_realm "k" example_realm) example_marked example_listing example_copied
           H1 H2 H3 H4 H5 H6 H7 H8 H9 H10 H11).
Defined.

(** The whole evaluator on [for (var k in o) { t[k] = o[k]; }]: it returns
    undefined; the target has become simple and partial and has received
    [x]; the source is partial again; the generator holds one entry; the
    lexical environment is the old one; nothing was reported. *)
Example ForInStatement_copies_known_properties :
  let run := ForInStatement (head_is (ObjectValue 0)) no_body_evaluation names_k
               (effects_are assignment_effects) list_known_properties set_data_property
               (always true) (always false) example_forIn false 0 None example_realm in
  fst run = Normal UndefinedValue
  /\ objects (snd run) !! 1
     = Some {| partial := true; simple := true;
               properties := [("x", data_property (NumberValue 1))];
               unknownProperty := Some 7;
               constructedBy := None; errorMessage := None; _ErrorData := None |}
  /\ objects (snd run) !! 0 = Some example_source
  /\ (fun g => map args (body g)) <$> generator (snd run)
     = Some [[ObjectValue 0; ObjectValue 1; ObjectValue 0; ObjectValue 1; ObjectValue 0]]
  /\ lexicalEnvironment (snd run) = 0
  /\ diagnostics (snd run) = [].
Proof. vm_compute. repeat split. Qed.

(* ===================================================================== *)
(** * environment.js: the life of a binding *)
(* ===================================================================== *)

(** The bindings [CreateMutableBinding(N, D)] and
    [CreateImmutableBinding(N, S)] store, and a binding once
    [InitializeBinding(N, V)] has run on it. *)
Definition mutable_binding (D : bool) : Binding.t :=
  {| Binding.value := None; Binding.initialized := Some false;
     Binding.mutable := Some true; Binding.deletable := Some D;
     Binding.strict := None |}.

Definition immutable_binding (S : bool) : Binding.t :=
  {| Binding.value := None; Binding.initialized := Some false;
     Binding.mutable := None; Binding.deletable := Some false;
     Binding.strict := Some S |}.

Definition initialized_with (V : Value) (b : Binding.t) : Binding.t :=
  with_initialized true (with_value (Some V) b).

(** The record with its bindings replaced, and the realm with entries
    added to the modification log. *)
Definition record_with (m : gmap string Binding.t) (this : DeclarativeEnvironmentRecord)
    : DeclarativeEnvironmentRecord :=
  {| isReadOnly := isReadOnly this; bindings := m |}.

Definition logged (entries : list (Binding.t * option Value)) (realm : Realm) : Realm :=
  set_modifiedBindings (modifiedBindings realm ++ entries) realm.

(** The error object and the realm [realm.createErrorThrowCompletion(type,
    message)] leaves, the message being optional. *)
Definition error_object (type : ErrorConstructor) (message : option string) : ObjectRecord :=
  {| partial := false; simple := false; properties := [];
     unknownProperty := None;
     constructedBy := Some type;
     errorMessage := StringValue <$> message;
     _ErrorData := Some {| locationData := None |} |}.

Definition threw (type : ErrorConstructor) (message : option string) (realm : Realm) : Realm :=
  set_nextId (S (nextId realm))
    (set_objects (insert (nextId realm) (error_object type message)) realm).

Definition thrown (realm : Realm) : Exception :=
  ThrowCompletion (ObjectValue (nextId realm)) (currentLocation realm).

Lemma realm_throw_run {A : Type} (type : ErrorConstructor) (message : option string)
    (this : DeclarativeEnvironmentRecord) (realm : Realm) :
  @realm_throw A type message (this, realm)
  = (Abrupt (thrown realm), (this, threw type message realm)).
Proof. destruct message; reflexivity. Qed.

Lemma alter_lookup_insert (f : Binding.t -> Binding.t) (N : string) (b : Binding.t)
    (m : gmap string Binding.t) :
  m !! N = Some b -> alter f N m = <[N := f b]> m.
Proof.
  intros H. rewrite <- (insert_id m N b H) at 1. apply alter_insert_eq.
Qed.

Lemma CreateMutableBinding_run (N : string) (D : bool)
    (this : DeclarativeEnvironmentRecord) (realm : Realm) :
  bindings this !! N = None ->
  CreateMutableBinding N D (this, realm)
  = (Normal UndefinedValue,
     (record_with (<[N := mutable_binding D]> (bindings this)) this,
      logged [(mutable_binding D, None)] realm)).
Proof.
  intros Hunbound. unfold CreateMutableBinding.
  erewrite bind_run by reflexivity. cbn [fst]. rewrite Hunbound.
  rewrite bool_decide_eq_true_2 by reflexivity. reflexivity.
Qed.

Lemma CreateImmutableBinding_run (N : string) (S : bool)
    (this : DeclarativeEnvironmentRecord) (realm : Realm) :
  bindings this !! N = None ->
  CreateImmutableBinding N S (this, realm)
  = (Normal UndefinedValue,
     (record_with (<[N := immutable_binding S]> (bindings this)) this,
      logged [(immutable_binding S, None)] realm)).
Proof.
  intros Hunbound. unfold CreateImmutableBinding.
  erewrite bind_run by reflexivity. cbn [fst]. rewrite Hunbound.
  rewrite bool_decide_eq_true_2 by reflexivity. reflexivity.
Qed.

Lemma InitializeBinding_run (N : string) (V : Value) (b : Binding.t)
    (this : DeclarativeEnvironmentRecord) (realm : Realm) :
  bindings this !! N = Some b ->
  truthy (Binding.initialized b) = false ->
  InitializeBinding N V (this, realm)
  = (Normal EmptyValue,
     (record_with (<[N := initialized_with V b]> (bindings this)) this,
      logged [(b, Binding.value b)] realm)).
Proof.
  intros Hbound Hfresh. unfold InitializeBinding.
  erewrite bind_run by reflexivity. cbn [fst]. rewrite Hbound, Hfresh.
  cbn. unfold set_bindings, record_with, initialized_with. cbn.
  rewrite (alter_lookup_insert _ _ _ _ Hbound), alter_insert_eq. reflexivity.
Qed.

Lemma GetBindingValue_run (N : string) (S : bool) (b : Binding.t) (v : Value)
    (this : DeclarativeEnvironmentRecord) (realm : Realm) :
  bindings this !! N = Some b ->
  truthy (Binding.initialized b) = true ->
  Binding.value b = Some v ->
  GetBindingValue N S (this, realm) = (Normal v, (this, realm)).
Proof.
  intros Hbound Hinit Hvalue. unfold GetBindingValue.
  erewrite bind_run by reflexivity. cbn [fst]. now rewrite Hbound, Hinit, Hvalue.
Qed.

Lemma GetBindingValue_uninitialized (N : string) (S : bool) (b : Binding.t)
    (this : DeclarativeEnvironmentRecord) (realm : Realm) :
  bindings this !! N = Some b ->
  truthy (Binding.initialized b) = false ->
  GetBindingValue N S (this, realm)
  = (Abrupt (thrown realm), (this, threw ReferenceError None realm)).
Proof.
  intros Hbound Hinit. unfold GetBindingValue.
  erewrite bind_run by reflexivity. cbn [fst]. rewrite Hbound, Hinit.
  apply realm_throw_run.
Qed.

Lemma SetMutableBinding_uninitialized (N : string) (V : Value) (S : bool) (b : Binding.t)
    (this : DeclarativeEnvironmentRecord) (realm : Realm) :
  bindings this !! N = Some b ->
  truthy (Binding.initialized b) = false ->
  SetMutableBinding N V S (this, realm)
  = (Abrupt (thrown realm),
     (this,
      threw ReferenceError (Some (N +:+ " has not yet been initialized")) realm)).
Proof.
  intros Hbound Hinit. unfold SetMutableBinding.
  erewrite bind_run by reflexivity. cbn [fst]. rewrite Hbound, Hinit.
  apply realm_throw_run.
Qed.

Lemma SetMutableBinding_mutable (N : string) (V : Value) (S : bool) (b : Binding.t)
    (this : DeclarativeEnvironmentRecord) (realm : Realm) :
  bindings this !! N = Some b ->
  truthy (Binding.initialized b) = true ->
  truthy (Binding.mutable b) = true ->
  SetMutableBinding N V S (this, realm)
  = (Normal EmptyValue,
     (record_with (<[N := with_value (Some V) b]> (bindings this)) this,
      logged [(b, Binding.value b)] realm)).
Proof.
  intros Hbound Hinit Hmutable. unfold SetMutableBinding.
  erewrite bind_run by reflexivity. cbn [fst]. rewrite Hbound, Hinit, Hmutable.
  cbn. unfold set_bindings, record_with. cbn.
  now rewrite (alter_lookup_insert _ _ _ _ Hbound).
Qed.

Lemma SetMutableBinding_immutable (N : string) (V : Value) (S : bool) (b : Binding.t)
    (this : DeclarativeEnvironmentRecord) (realm : Realm) :
  bindings this !! N = Some b ->
  truthy (Binding.initialized b) = true ->
  truthy (Binding.mutable b) = false ->
  SetMutableBinding N V S (this, realm)
  = if (truthy (Binding.strict b) || S)%bool
    then (Abrupt (thrown realm),
          (this, threw TypeError (Some "attempt to change immutable binding") realm))
    else (Normal EmptyValue, (this, realm)).
Proof.
  intros Hbound Hinit Hmutable. unfold SetMutableBinding.
  erewrite bind_run by reflexivity. cbn [fst]. rewrite Hbound, Hinit, Hmutable.
  cbn [negb]. destruct (truthy (Binding.strict b)); cbn [orb].
  - apply realm_throw_run.
  - destruct S; [apply realm_throw_run | reflexivity].
Qed.

Lemma DeleteBinding_run (N : string) (b : Binding.t)
    (this : DeclarativeEnvironmentRecord) (realm : Realm) :
  bindings this !! N = Some b ->
  DeleteBinding N (this, realm)
  = if truthy (Binding.deletable b)
    then (Normal true,
          (record_with (delete N (bindings this)) this,
           logged [(b, Binding.value b)] realm))
    else (Normal false, (this, realm)).
Proof.
  intros Hbound. unfold DeleteBinding.
  erewrite bind_run by reflexivity. cbn [fst]. rewrite Hbound.
  destruct (truthy (Binding.deletable b)); reflexivity.
Qed.

Lemma record_with_bindings (this : DeclarativeEnvironmentRecord) :
  record_with (bindings this) this = this.
Proof. now destruct this. Qed.

Lemma logged_logged (l1 l2 : list (Binding.t * option Value)) (realm : Realm) :
  logged l2 (logged l1 realm) = logged (l1 ++ l2) realm.
Proof.
  unfold logged. apply Realm_eq; read_fields; try reflexivity.
  now rewrite app_assoc.
Qed.

(** X1.  Creating a binding for an unbound name, initializing it with [V]
    and reading it back yields [V], for a mutable binding as for an
    immutable one; the record has gained exactly that binding, initialized
    and holding [V], and the realm has logged the creation and the
    initialization. *)
Theorem binding_create_initialize_get (N : string) (D S S' : bool) (V : Value)
    (this : DeclarativeEnvironmentRecord) (realm : Realm) :
  bindings this !! N = None ->
  (CreateMutableBinding N D ;;; InitializeBinding N V ;;; GetBindingValue N S')
    (this, realm)
  = (Normal V,
     (record_with (<[N := initialized_with V (mutable_binding D)]> (bindings this)) this,
      logged [(mutable_binding D, None); (mutable_binding D, None)] realm))
  /\
  (CreateImmutableBinding N S ;;; InitializeBinding N V ;;; GetBindingValue N S')
    (this, realm)
  = (Normal V,
     (record_with (<[N := initialized_with V (immutable_binding S)]> (bindings this)) this,
      logged [(immutable_binding S, None); (immutable_binding S, None)] realm)).
Proof.
  intros Hunbound. split.
  - erewrite bind_run by (now apply CreateMutableBinding_run).
    erewrite bind_run
      by (apply InitializeBinding_run with (b := mutable_binding D);
          [apply lookup_insert_eq | reflexivity]).
    erewrite GetBindingValue_run;
      [|cbn [bindings record_with]; apply lookup_insert_eq|reflexivity|reflexivity].
    unfold record_with at 1 2. cbn [bindings isReadOnly].
    now rewrite insert_insert_eq, logged_logged.
  - erewrite bind_run by (now apply CreateImmutableBinding_run).
    erewrite bind_run
      by (apply InitializeBinding_run with (b := immutable_binding S);
          [apply lookup_insert_eq | reflexivity]).
    erewrite GetBindingValue_run;
      [|cbn [bindings record_with]; apply lookup_insert_eq|reflexivity|reflexivity].
    unfold record_with at 1 2. cbn [bindings isReadOnly].
    now rewrite insert_insert_eq, logged_logged.
Qed.

Lemma binding_create_initialize_get_witness :
  bindings empty_record !! "x" = None /\
  fst ((CreateMutableBinding "x" false ;;; InitializeBinding "x" (NumberValue 7) ;;;
        GetBindingValue "x" true) (empty_record, fresh_realm))
  = Normal (NumberValue 7).
Proof.
  split; [reflexivity|].
  exact (f_equal fst
           (proj1 (binding_create_initialize_get "x" false false true (NumberValue 7)
                     empty_record fresh_realm eq_refl))).
Defined.

(** X2.  Between its creation and its initialization a binding cannot be
    used: reading it throws a ReferenceError without message, and assigning
    to it throws a ReferenceError "N has not yet been initialized", in
    strict and in sloppy mode alike; the binding stays as it was created. *)
Theorem binding_uninitialized_access (N : string) (D S : bool) (V : Value)
    (this : DeclarativeEnvironmentRecord) (realm : Realm) :
  bindings this !! N = None ->
  (CreateMutableBinding N D ;;; GetBindingValue N S) (this, realm)
  = (Abrupt (thrown realm),
     (record_with (<[N := mutable_binding D]> (bindings this)) this,
      threw ReferenceError None (logged [(mutable_binding D, None)] realm)))
  /\
  (CreateMutableBinding N D ;;; SetMutableBinding N V S) (this, realm)
  = (Abrupt (thrown realm),
     (record_with (<[N := mutable_binding D]> (bindings this)) this,
      threw ReferenceError (Some (N +:+ " has not yet been initialized"))
        (logged [(mutable_binding D, None)] realm))).
Proof.
  intros Hunbound. split.
  - erewrite bind_run by (now apply CreateMutableBinding_run).
    erewrite GetBindingValue_uninitialized with (b := mutable_binding D);
      [reflexivity | apply lookup_insert_eq | reflexivity].
  - erewrite bind_run by (now apply CreateMutableBinding_run).
    erewrite SetMutableBinding_uninitialized with (b := mutable_binding D);
      [reflexivity | apply lookup_insert_eq | reflexivity].
Qed.

Lemma binding_uninitialized_access_witness :
  bindings empty_record !! "x" = None /\
  fst ((CreateMutableBinding "x" false ;;; SetMutableBinding "x" (NumberValue 7) false)
         (empty_record, fresh_realm))
  = Abrupt (ThrowCompletion (ObjectValue 0) None).
Proof.
  split; [reflexivity|].
  exact (f_equal fst
           (proj2 (binding_uninitialized_access "x" false false (NumberValue 7)
                     empty_record fresh_realm eq_refl))).
Defined.

(** X3.  An initialized immutable binding never changes: an assignment to
    it throws a TypeError when the assignment is strict or the binding was
    created strict, and does nothing at all otherwise; either way the
    record is the one the initialization left. *)
Theorem immutable_binding_keeps_value (N : string) (S0 S : bool) (V V' : Value)
    (this : DeclarativeEnvironmentRecord) (realm : Realm) :
  bindings this !! N = None ->
  (CreateImmutableBinding N S0 ;;; InitializeBinding N V ;;; SetMutableBinding N V' S)
    (this, realm)
  = (if (S0 || S)%bool
     then Abrupt (thrown realm)
     else Normal EmptyValue,
     (record_with (<[N := initialized_with V (immutable_binding S0)]> (bindings this)) this,
      (if (S0 || S)%bool
       then threw TypeError (Some "attempt to change immutable binding")
       else fun realm => realm)
        (logged [(immutable_binding S0, None); (immutable_binding S0, None)] realm))).
Proof.
  intros Hunbound.
  erewrite bind_run by (now apply CreateImmutableBinding_run).
  erewrite bind_run
    by (apply InitializeBinding_run with (b := immutable_binding S0);
        [apply lookup_insert_eq | reflexivity]).
  erewrite SetMutableBinding_immutable
    with (b := initialized_with V (immutable_binding S0));
    [|cbn [bindings record_with]; apply lookup_insert_eq|reflexivity|reflexivity].
  unfold record_with at 1 2 4 5. cbn [bindings isReadOnly].
  rewrite insert_insert_eq, logged_logged.
  replace (truthy (Binding.strict (initialized_with V (immutable_binding S0)))) with S0
    by (now destruct S0).
  destruct (S0 || S)%bool; reflexivity.
Qed.

Lemma immutable_binding_keeps_value_witness :
  bindings empty_record !! "c" = None /\
  fst ((CreateImmutableBinding "c" true ;;; InitializeBinding "c" (NumberValue 1) ;;;
        SetMutableBinding "c" (NumberValue 2) false) (empty_record, fresh_realm))
  = Abrupt (ThrowCompletion (ObjectValue 0) None).
Proof.
  split; [reflexivity|].
  exact (f_equal fst
           (immutable_binding_keeps_value "c" true false (NumberValue 1) (NumberValue 2)
              empty_record fresh_realm eq_refl)).
Defined.

(** X4.  Assigning to an initialized mutable binding and reading the name
    back yields the assigned value; the assignment changes the value of that
    binding only (its flags and every other binding stay), and logs the
    binding with its old value. *)
Theorem SetMutableBinding_then_get (N : string) (V : Value) (S S' : bool) (b : Binding.t)
    (this : DeclarativeEnvironmentRecord) (realm : Realm) :
  bindings this !! N = Some b ->
  truthy (Binding.initialized b) = true ->
  truthy (Binding.mutable b) = true ->
  (SetMutableBinding N V S ;;; GetBindingValue N S') (this, realm)
  = (Normal V,
     (record_with (<[N := with_value (Some V) b]> (bindings this)) this,
      logged [(b, Binding.value b)] realm)).
Proof.
  intros Hbound Hinit Hmutable.
  erewrite bind_run by (eapply SetMutableBinding_mutable; eassumption).
  apply GetBindingValue_run with (b := with_value (Some V) b);
    [apply lookup_insert_eq | exact Hinit | reflexivity].
Qed.

Lemma SetMutableBinding_then_get_witness :
  bindings (record_with {[ "x" := created_binding (NumberValue 1) ]} empty_record) !! "x"
  = Some (created_binding (NumberValue 1)) /\
  truthy (Binding.initialized (created_binding (NumberValue 1))) = true /\
  truthy (Binding.mutable (created_binding (NumberValue 1))) = true /\
  fst ((SetMutableBinding "x" (NumberValue 2) true ;;; GetBindingValue "x" true)
         (record_with {[ "x" := created_binding (NumberValue 1) ]} empty_record,
          fresh_realm))
  = Normal (NumberValue 2).
Proof.
  split; [reflexivity|]. split; [reflexivity|]. split; [reflexivity|].
  exact (f_equal fst
           (SetMutableBinding_then_get "x" (NumberValue 2) true true
              (created_binding (NumberValue 1))
              (record_with {[ "x" := created_binding (NumberValue 1) ]} empty_record)
              fresh_realm eq_refl eq_refl eq_refl)).
Defined.

(** X5.  The binding a sloppy assignment to an unbound name creates can be
    deleted again: [DeleteBinding] returns true and the record is exactly
    the one before the assignment.  A binding declared with
    [CreateMutableBinding(N, false)] cannot: [DeleteBinding] returns false
    and the binding stays. *)
Theorem DeleteBinding_honours_deletable (N : string) (V : Value)
    (this : DeclarativeEnvironmentRecord) (realm : Realm) :
  bindings this !! N = None ->
  (SetMutableBinding N V false ;;; DeleteBinding N) (this, realm)
  = (Normal true,
     (this,
      logged [(fresh_binding, None); (fresh_binding, None);
              (created_binding V, Some V)] realm))
  /\
  (CreateMutableBinding N false ;;; InitializeBinding N V ;;; DeleteBinding N)
    (this, realm)
  = (Normal false,
     (record_with (<[N := initialized_with V (mutable_binding false)]> (bindings this))
        this,
      logged [(mutable_binding false, None); (mutable_binding false, None)] realm)).
Proof.
  intros Hunbound. split.
  - erewrite bind_run.
    2:{ unfold SetMutableBinding.
        erewrite bind_run by reflexivity. cbn [fst]. rewrite Hunbound.
        erewrite bind_run by (now apply CreateMutableBinding_run).
        erewrite bind_run
          by (apply InitializeBinding_run with (b := mutable_binding true);
              [apply lookup_insert_eq | reflexivity]).
        reflexivity. }
    erewrite DeleteBinding_run with (b := created_binding V);
      [|cbn [bindings record_with]; apply lookup_insert_eq].
    cbn [created_binding Binding.deletable truthy Binding.value].
    cbn [bindings isReadOnly record_with].
    rewrite !delete_insert_eq, (delete_id _ _ Hunbound), !logged_logged.
    now destruct this.
  - erewrite bind_run by (now apply CreateMutableBinding_run).
    erewrite bind_run
      by (apply InitializeBinding_run with (b := mutable_binding false);
          [apply lookup_insert_eq | reflexivity]).
    erewrite DeleteBinding_run with (b := initialized_with V (mutable_binding false));
      [|cbn [bindings record_with]; apply lookup_insert_eq].
    cbn [truthy Binding.deletable initialized_with with_initialized with_value
           mutable_binding].
    unfold record_with at 1 2. cbn [bindings isReadOnly].
    now rewrite insert_insert_eq, logged_logged.
Qed.

Lemma DeleteBinding_honours_deletable_witness :
  bindings empty_record !! "x" = None /\
  (SetMutableBinding "x" (NumberValue 1) false ;;; DeleteBinding "x")
    (empty_record, fresh_realm)
  = (Normal true,
     (empty_record,
      logged [(fresh_binding, None); (fresh_binding, None);
              (created_binding (NumberValue 1), Some (NumberValue 1))] fresh_realm)).
Proof.
  split; [reflexivity|].
  exact (proj1 (DeleteBinding_honours_deletable "x" (NumberValue 1)
                  empty_record fresh_realm eq_refl)).
Defined.

(** A method called for the name [N] leaves every other binding of the
    record alone, keeps the record's read-only flag, and only appends to the
    realm's modification log, however it ends. *)
Definition touches_only (N : string) {A : Type} (c : EnvM A) : Prop :=
  forall (s s' : DeclarativeEnvironmentRecord * Realm) (res : Result A),
    c s = (res, s') ->
    (forall N' : string, N' <> N -> bindings (fst s') !! N' = bindings (fst s) !! N') /\
    isReadOnly (fst s') = isReadOnly (fst s) /\
    exists entries : list (Binding.t * option Value),
      modifiedBindings (snd s') = modifiedBindings (snd s) ++ entries.

Lemma touches_only_pure (N : string) {A : Type} (c : EnvM A) :
  (forall s, snd (c s) = s) -> touches_only N c.
Proof.
  intros Hpure s s' res Hrun. specialize (Hpure s). rewrite Hrun in Hpure.
  cbn in Hpure. subst s'. repeat split. exists []. now rewrite app_nil_r.
Qed.

Lemma touches_only_bind (N : string) {A B : Type} (c : EnvM A) (k : A -> EnvM B) :
  touches_only N c -> (forall a, touches_only N (k a)) -> touches_only N (bind c k).
Proof.
  intros Hc Hk s s' res Hrun. unfold bind in Hrun.
  destruct (c s) as [[a|e|] s1] eqn:Hcs.
  - destruct (Hc _ _ _ Hcs) as (Hframe1 & Hro1 & entries1 & Hlog1).
    destruct (Hk a _ _ _ Hrun) as (Hframe2 & Hro2 & entries2 & Hlog2).
    split; [|split].
    + intros N' HN'. now rewrite Hframe2, Hframe1.
    + now rewrite Hro2.
    + exists (entries1 ++ entries2). now rewrite Hlog2, Hlog1, app_assoc.
  - injection Hrun as <- <-. exact (Hc _ _ _ Hcs).
  - injection Hrun as <- <-. exact (Hc _ _ _ Hcs).
Qed.

Lemma touches_only_invariant (N : string) (condition : bool) (message : string) :
  touches_only N (invariant condition message).
Proof. apply touches_only_pure. intros s. now destruct condition. Qed.

Lemma touches_only_recordModifiedBinding (N : string) (binding : Binding.t) :
  touches_only N (recordModifiedBinding binding).
Proof.
  intros s s' res Hrun. injection Hrun as <- <-. cbn [fst snd].
  repeat split. eexists. read_fields. reflexivity.
Qed.

Lemma touches_only_realm_throw (N : string) {A : Type} (type : ErrorConstructor)
    (message : option string) :
  touches_only N (@realm_throw A type message).
Proof.
  intros [this realm] s' res Hrun. rewrite realm_throw_run in Hrun.
  injection Hrun as <- <-. cbn [fst snd]. repeat split.
  exists []. unfold threw. read_fields. now rewrite app_nil_r.
Qed.

Lemma touches_only_set_bindings (N : string)
    (f : gmap string Binding.t -> gmap string Binding.t) :
  (forall (m : gmap string Binding.t) (N' : string), N' <> N -> f m !! N' = m !! N') ->
  touches_only N (modify (set_bindings f)).
Proof.
  intros Hf s s' res Hrun. injection Hrun as <- <-. cbn [fst snd set_bindings bindings].
  split; [intros N' HN'; now apply Hf|]. split; [reflexivity|].
  exists []. now rewrite app_nil_r.
Qed.

Lemma touches_only_insert (N : string) (b : Binding.t) :
  touches_only N (modify (set_bindings (insert N b))).
Proof.
  apply touches_only_set_bindings. intros m N' HN'. now apply lookup_insert_ne.
Qed.

Lemma touches_only_alter (N : string) (f : Binding.t -> Binding.t) :
  touches_only N (modify (set_bindings (alter f N))).
Proof.
  apply touches_only_set_bindings. intros m N' HN'. now apply lookup_alter_ne.
Qed.

Lemma touches_only_delete (N : string) :
  touches_only N (modify (set_bindings (delete N))).
Proof.
  apply touches_only_set_bindings. intros m N' HN'. now apply lookup_delete_ne.
Qed.

Lemma touches_only_ret (N : string) {A : Type} (a : A) :
  touches_only N (ret a : EnvM A).
Proof. now apply touches_only_pure. Qed.

Lemma touches_only_this_bindings (N : string) : touches_only N this_bindings.
Proof. now apply touches_only_pure. Qed.

Create HintDb touches discriminated.
#[local] Hint Resolve touches_only_invariant touches_only_recordModifiedBinding
  touches_only_realm_throw touches_only_insert touches_only_alter touches_only_delete
  touches_only_ret touches_only_this_bindings : touches.

Ltac touches :=
  repeat first
    [ solve [auto with touches]
    | apply touches_only_bind; [|intros ?]
    | match goal with
      | |- touches_only _ (match ?x with _ => _ end) => destruct x
      | |- touches_only _ (if ?x then _ else _) => destruct x
      end ].

Lemma touches_only_CreateMutableBinding (N : string) (D : bool) :
  touches_only N (CreateMutableBinding N D).
Proof. unfold CreateMutableBinding. touches. Qed.

Lemma touches_only_InitializeBinding (N : string) (V : Value) :
  touches_only N (InitializeBinding N V).
Proof. unfold InitializeBinding. touches. Qed.

(** X6.  Each of the seven methods of a declarative environment record,
    called for a name [N], leaves the bindings of all other names as they
    were, keeps the record's read-only flag, and only ever appends to the
    realm's modification log, whether it returns or throws. *)
Theorem declarative_methods_touch_only_their_name (N : string) (V : Value) (D S : bool) :
  touches_only N (HasBinding N) /\
  touches_only N (CreateMutableBinding N D) /\
  touches_only N (CreateImmutableBinding N S) /\
  touches_only N (InitializeBinding N V) /\
  touches_only N (SetMutableBinding N V S) /\
  touches_only N (GetBindingValue N S) /\
  touches_only N (DeleteBinding N).
Proof.
  repeat apply conj.
  - unfold HasBinding. touches.
  - apply touches_only_CreateMutableBinding.
  - unfold CreateImmutableBinding. touches.
  - apply touches_only_InitializeBinding.
  - unfold SetMutableBinding.
    apply touches_only_bind; [auto with touches|]. intros m.
    destruct (m !! N) as [b|].
    + touches.
    + destruct S; [auto with touches|].
      apply touches_only_bind; [apply touches_only_CreateMutableBinding|]. intros _.
      apply touches_only_bind; [apply touches_only_InitializeBinding|]. intros _.
      auto with touches.
  - unfold GetBindingValue. touches.
  - unfold DeleteBinding. touches.
Qed.

(** X7.  The assertions of the Standard are checked, and a failed one
    changes nothing: creating a binding for a name that has one, or
    initializing a binding that is initialized, fails with
    "shouldn't have the binding N"; initializing, reading or deleting a
    name that has no binding fails likewise; in each case the record and the
    realm are as before. *)
Theorem declarative_method_assertions (N : string) (D S : bool) (V : Value)
    (this : DeclarativeEnvironmentRecord) (realm : Realm) :
  match bindings this !! N with
  | Some b =>
      CreateMutableBinding N D (this, realm)
      = (Abrupt (InvariantViolation ("shouldn't have the binding " +:+ N)), (this, realm))
      /\
      CreateImmutableBinding N S (this, realm)
      = (Abrupt (InvariantViolation ("shouldn't have the binding " +:+ N)), (this, realm))
      /\
      InitializeBinding N V (this, realm)
      = if truthy (Binding.initialized b)
        then (Abrupt (InvariantViolation ("shouldn't have the binding " +:+ N)),
              (this, realm))
        else (Normal EmptyValue,
              (record_with (<[N := initialized_with V b]> (bindings this)) this,
               logged [(b, Binding.value b)] realm))
  | None =>
      InitializeBinding N V (this, realm)
      = (Abrupt (InvariantViolation ("shouldn't have the binding " +:+ N)), (this, realm))
      /\
      GetBindingValue N S (this, realm)
      = (Abrupt (InvariantViolation "expected binding"), (this, realm))
      /\
      DeleteBinding N (this, realm)
      = (Abrupt (InvariantViolation "expected binding to exist"), (this, realm))
  end.
Proof.
  destruct (bindings this !! N) as [b|] eqn:Hlookup.
  - repeat apply conj.
    + unfold CreateMutableBinding. erewrite bind_run by reflexivity.
      cbn [fst]. rewrite Hlookup. reflexivity.
    + unfold CreateImmutableBinding. erewrite bind_run by reflexivity.
      cbn [fst]. rewrite Hlookup. reflexivity.
    + destruct (truthy (Binding.initialized b)) eqn:Hinit.
      * unfold InitializeBinding. erewrite bind_run by reflexivity.
        cbn [fst]. rewrite Hlookup, Hinit. reflexivity.
      * now apply InitializeBinding_run.
  - repeat apply conj.
    + unfold InitializeBinding. erewrite bind_run by reflexivity.
      cbn [fst]. rewrite Hlookup. reflexivity.
    + unfold GetBindingValue. erewrite bind_run by reflexivity.
      cbn [fst]. rewrite Hlookup. reflexivity.
    + unfold DeleteBinding. erewrite bind_run by reflexivity.
      cbn [fst]. rewrite Hlookup. reflexivity.
Qed.

(* ===================================================================== *)
(** * environment.js: [FunctionEnvironmentRecord] *)
(* ===================================================================== *)

Module FunctionEnvironmentRecord.

(** [$ThisBindingStatus] *)
Inductive ThisBindingStatus := lexical | initialized | uninitialized.

(** A function environment record: the declarative record it extends, and
    [$ThisBindingStatus], [$ThisValue] and [$HomeObject], the last two
    possibly undefined. *)
Record t := {
  declarative : DeclarativeEnvironmentRecord;
  _ThisBindingStatus : ThisBindingStatus;
  _ThisValue : option Value;
  _HomeObject : option Value;
}.

Definition is_lexical (status : ThisBindingStatus) : bool :=
  match status with lexical => true | _ => false end.

Definition is_initialized (status : ThisBindingStatus) : bool :=
  match status with initialized => true | _ => false end.

Definition is_uninitialized (status : ThisBindingStatus) : bool :=
  match status with uninitialized => true | _ => false end.

Definition set_ThisValue (V : Value) (this : t) : t :=
  {| declarative := declarative this; _ThisBindingStatus := _ThisBindingStatus this;
     _ThisValue := Some V; _HomeObject := _HomeObject this |}.

Definition set_ThisBindingStatus (status : ThisBindingStatus) (this : t) : t :=
  {| declarative := declarative this; _ThisBindingStatus := status;
     _ThisValue := _ThisValue this; _HomeObject := _HomeObject this |}.

(** [throw realm.createErrorThrowCompletion(realm.intrinsics.ReferenceError)] *)
Definition throw_ReferenceError {A : Type} : M (t * Realm) A :=
  let! completion :=
    (fun s => match createErrorThrowCompletion ReferenceError None (snd s) with
              | (res, realm') => (res, (fst s, realm'))
              end) in
  throw completion.

(** ECMA262 8.1.1.3.1 *)
Definition BindThisValue (V : Value) : M (t * Realm) Value :=
  let! status := gets (fun s => _ThisBindingStatus (fst s)) in
  invariant (negb (is_lexical status)) "this binding status shouldn't be lexical" ;;;
  if is_initialized status then throw_ReferenceError
  else
    modify (fun s => (set_ThisValue V (fst s), snd s)) ;;;
    modify (fun s => (set_ThisBindingStatus initialized (fst s), snd s)) ;;;
    ret V.

(** ECMA262 8.1.1.3.2 *)
Definition HasThisBinding : M (t * Realm) bool :=
  let! status := gets (fun s => _ThisBindingStatus (fst s)) in
  ret (if is_lexical status then false else true).

(** ECMA262 8.1.1.3.3 *)
Definition HasSuperBinding : M (t * Realm) bool :=
  let! status := gets (fun s => _ThisBindingStatus (fst s)) in
  if is_lexical status then ret false
  else
    let! home := gets (fun s => _HomeObject (fst s)) in
    match home with
    | None => ret false
    | Some _ => ret true
    end.

(** ECMA262 8.1.1.3.4; the result is [envRec.$ThisValue], whatever it
    holds. *)
Definition GetThisBinding : M (t * Realm) (option Value) :=
  let! status := gets (fun s => _ThisBindingStatus (fst s)) in
  invariant (negb (is_lexical status)) "this binding status shouldn't be lexical" ;;;
  if is_uninitialized status then throw_ReferenceError
  else gets (fun s => _ThisValue (fst s)).

Section GetSuperBase.

(** [home.$GetPrototypeOf()] of the object model. *)
Variable _GetPrototypeOf : Value -> M Realm Value.

(** ECMA262 8.1.1.3.5 *)
Definition GetSuperBase : M (t * Realm) Value :=
  let! home := gets (fun s => _HomeObject (fst s)) in
  match home with
  | None => ret UndefinedValue
  | Some home =>
      invariant (instanceof_ObjectValue home) "expected object value" ;;;
      fun s =>
        match _GetPrototypeOf home (snd s) with
        | (res, realm') => (res, (fst s, realm'))
        end
  end.

End GetSuperBase.

Lemma throw_ReferenceError_run {A : Type} (this : t) (realm : Realm) :
  @throw_ReferenceError A (this, realm)
  = (Abrupt (thrown realm), (this, threw ReferenceError None realm)).
Proof. reflexivity. Qed.

(** X8.  [this] is bound at most once.  On a record whose this-binding is
    uninitialized, [BindThisValue(V)] returns [V] and a following
    [GetThisBinding()] returns [V]; a second [BindThisValue(V')] throws a
    ReferenceError and leaves the record bound to [V]. *)
Theorem BindThisValue_once (V V' : Value) (this : t) (realm : Realm) :
  _ThisBindingStatus this = uninitialized ->
  BindThisValue V (this, realm)
  = (Normal V, (set_ThisBindingStatus initialized (set_ThisValue V this), realm))
  /\
  (BindThisValue V ;;; GetThisBinding) (this, realm)
  = (Normal (Some V), (set_ThisBindingStatus initialized (set_ThisValue V this), realm))
  /\
  (BindThisValue V ;;; BindThisValue V') (this, realm)
  = (Abrupt (thrown realm),
     (set_ThisBindingStatus initialized (set_ThisValue V this),
      threw ReferenceError None realm)).
Proof.
  intros Hstatus.
  assert (Hbind : BindThisValue V (this, realm)
                  = (Normal V,
                     (set_ThisBindingStatus initialized (set_ThisValue V this), realm))).
  { unfold BindThisValue. erewrite bind_run by reflexivity.
    cbn [fst]. rewrite Hstatus. reflexivity. }
  split; [exact Hbind|]. split.
  - erewrite bind_run by exact Hbind. reflexivity.
  - erewrite bind_run by exact Hbind. reflexivity.
Qed.

Definition example_record : t :=
  {| declarative := empty_record; _ThisBindingStatus := uninitialized;
     _ThisValue := None; _HomeObject := None |}.

Lemma BindThisValue_once_witness :
  _ThisBindingStatus example_record = uninitialized /\
  fst ((BindThisValue (ObjectValue 3) ;;; BindThisValue NullValue)
         (example_record, fresh_realm))
  = Abrupt (ThrowCompletion (ObjectValue 0) None) /\
  _ThisValue (fst (snd ((BindThisValue (ObjectValue 3) ;;; BindThisValue NullValue)
                          (example_record, fresh_realm))))
  = Some (ObjectValue 3).
Proof.
  split; [reflexivity|].
  pose proof (proj2 (proj2 (BindThisValue_once (ObjectValue 3) NullValue
                              example_record fresh_realm eq_refl))) as H.
  split; [exact (f_equal fst H) | exact (f_equal (fun r => _ThisValue (fst (snd r))) H)].
Defined.

(** X9.  [HasThisBinding()] tells exactly when the this-binding may be
    asked for: it answers false if and only if [BindThisValue] and
    [GetThisBinding] fail their assertion (the record is that of an arrow
    function), and then they change nothing and [HasSuperBinding()] is
    false as well; and [BindThisValue] never makes a record lexical nor
    takes one out of that state. *)
Theorem HasThisBinding_guards_this (V : Value) (this : t) (realm : Realm) :
  HasThisBinding (this, realm)
  = (Normal (negb (is_lexical (_ThisBindingStatus this))), (this, realm))
  /\
  (if is_lexical (_ThisBindingStatus this)
   then BindThisValue V (this, realm)
        = (Abrupt (InvariantViolation "this binding status shouldn't be lexical"),
           (this, realm))
        /\ GetThisBinding (this, realm)
           = (Abrupt (InvariantViolation "this binding status shouldn't be lexical"),
              (this, realm))
        /\ HasSuperBinding (this, realm) = (Normal false, (this, realm))
   else (forall e, fst (BindThisValue V (this, realm)) <> Abrupt (InvariantViolation e))
        /\ (forall e, fst (GetThisBinding (this, realm)) <> Abrupt (InvariantViolation e)))
  /\
  is_lexical (_ThisBindingStatus (fst (snd (BindThisValue V (this, realm)))))
  = is_lexical (_ThisBindingStatus this).
Proof.
  unfold HasThisBinding, BindThisValue, GetThisBinding, HasSuperBinding, bind, gets.
  cbn [fst snd]. destruct (_ThisBindingStatus this) eqn:Hstatus; cbn;
    rewrite ?Hstatus; repeat split; intros e; discriminate.
Qed.

End FunctionEnvironmentRecord.

(* ===================================================================== *)
(** * environment.js: [ObjectEnvironmentRecord] *)
(* ===================================================================== *)

(** A property key handed to [Get]: a string or a symbol. *)
Inductive PropertyKeyValue :=
| key_string (name : string)
| key_symbol (symbol : Value).

(** [realm.intrinsics.SymbolUnscopables]: a symbol of the realm. *)
Definition SymbolUnscopables : Value := SymbolValue 0.

Module ObjectEnvironmentRecord.

(** The binding object, and the [withEnvironment] flag, which the
    constructor leaves unset. *)
Record t := {
  object : Value;
  withEnvironment : option bool;
}.

Section Methods.

(** The object model of methods/ and values/, which these methods are
    written on: [HasProperty], [Get], [Set], [DefinePropertyOrThrow],
    [ToBooleanPartial], [value.throwIfNotConcrete()] and
    [object.$Delete(N)]. *)
Variable HasProperty : Value -> string -> M Realm bool.
Variable Get : Value -> PropertyKeyValue -> M Realm Value.
Variable Set_ : Value -> string -> Value -> bool -> M Realm bool.
Variable DefinePropertyOrThrow : Value -> string -> Descriptor -> M Realm bool.
Variable ToBooleanPartial : Value -> M Realm bool.
Variable throwIfNotConcrete : Value -> M Realm unit.
Variable _Delete : Value -> string -> M Realm bool.

(** ECMA262 8.1.1.2.1 *)
Definition HasBinding (this : t) (N : string) : M Realm bool :=
  let bindings := object this in
  let! foundBinding := HasProperty bindings N in
  if negb foundBinding then ret false
  else if negb (truthy (withEnvironment this)) then ret true
  else
    let! unscopables := Get bindings (key_symbol SymbolUnscopables) in
    let! blocked :=
      if (instanceof_ObjectValue unscopables
          || instanceof_AbstractObjectValue unscopables)%bool
      then let! v := Get unscopables (key_string N) in ToBooleanPartial v
      else ret false in
    if (blocked : bool) then ret false
    else throwIfNotConcrete unscopables ;;; ret true.

(** ECMA262 8.1.1.2.2 *)
Definition CreateMutableBinding (this : t) (N : string) (D : bool) : M Realm Value :=
  let bindings := object this in
  let configValue := if D then true else false in
  let! defined :=
    DefinePropertyOrThrow bindings N
      {| value := Some UndefinedValue; writable := Some true; enumerable := Some true;
         configurable := Some configValue; get := None; set := None |} in
  ret (BooleanValue defined).

(** ECMA262 8.1.1.2.3 *)
Definition CreateImmutableBinding (this : t) (N : string) (S : bool) : M Realm Value :=
  invariant false "" ;;; ret UndefinedValue.

(** ECMA262 8.1.1.2.5 *)
Definition SetMutableBinding (this : t) (N : string) (V : Value) (S : bool)
    : M Realm Value :=
  let bindings := object this in
  let! done := Set_ bindings N V S in
  ret (BooleanValue done).

(** ECMA262 8.1.1.2.4 *)
Definition InitializeBinding (this : t) (N : string) (V : Value) : M Realm Value :=
  SetMutableBinding this N V false.

(** ECMA262 8.1.1.2.6 *)
Definition GetBindingValue (this : t) (N : string) (S : bool) : M Realm Value :=
  let bindings := object this in
  let! value := HasProperty bindings N in
  if negb value then
    if negb S then ret UndefinedValue
    else
      let! completion := createErrorThrowCompletion ReferenceError None in
      throw completion
  else Get bindings (key_string N).

(** ECMA262 8.1.1.2.7 *)
Definition DeleteBinding (this : t) (N : string) : M Realm bool :=
  _Delete (object this) N.

(** ECMA262 8.1.1.2.8 *)
Definition HasThisBinding (this : t) : bool := false.

(** ECMA262 8.1.1.2.9 *)
Definition HasSuperBinding (this : t) : bool := false.

(** ECMA262 8.1.1.2.10 *)
Definition WithBaseObject (this : t) : Value :=
  if truthy (withEnvironment this) then object this else UndefinedValue.

End Methods.

End ObjectEnvironmentRecord.

(* ===================================================================== *)
(** * environment.js: [GlobalEnvironmentRecord] *)
(* ===================================================================== *)

(** [varNames.splice(varNames.indexOf(N), 1)]: the first occurrence of [N]
    goes. *)
Fixpoint remove_first (N : string) (varNames : list string) : list string :=
  match varNames with
  | [] => []
  | n :: varNames' => if String.eqb n N then varNames' else n :: remove_first N varNames'
  end.

(** [varNames.indexOf(N) >= 0] *)
Definition contains_name (varNames : list string) (N : string) : bool :=
  existsb (String.eqb N) varNames.

Module GlobalEnvironmentRecord.

(** The methods of the declarative record, as called on
    [envRec.$DeclarativeRecord]. *)
Local Abbreviation DclRec_HasBinding := HasBinding.
Local Abbreviation DclRec_CreateMutableBinding := CreateMutableBinding.
Local Abbreviation DclRec_CreateImmutableBinding := CreateImmutableBinding.
Local Abbreviation DclRec_InitializeBinding := InitializeBinding.
Local Abbreviation DclRec_SetMutableBinding := SetMutableBinding.
Local Abbreviation DclRec_GetBindingValue := GetBindingValue.
Local Abbreviation DclRec_DeleteBinding := DeleteBinding.

(** A global environment record: [$DeclarativeRecord] (a declarative
    record), [$ObjectRecord], [$VarNames] and [$GlobalThisValue]. *)
Record t := {
  _DeclarativeRecord : DeclarativeEnvironmentRecord;
  _ObjectRecord : ObjectEnvironmentRecord.t;
  _VarNames : list string;
  _GlobalThisValue : option Value;
}.

Definition set_DeclarativeRecord (DclRec : DeclarativeEnvironmentRecord) (this : t) : t :=
  {| _DeclarativeRecord := DclRec; _ObjectRecord := _ObjectRecord this;
     _VarNames := _VarNames this; _GlobalThisValue := _GlobalThisValue this |}.

Definition set_VarNames (varNames : list string) (this : t) : t :=
  {| _DeclarativeRecord := _DeclarativeRecord this; _ObjectRecord := _ObjectRecord this;
     _VarNames := varNames; _GlobalThisValue := _GlobalThisValue this |}.

(** A method call on [envRec.$DeclarativeRecord]. *)
Definition on_DclRec {A : Type} (c : EnvM A) : M (t * Realm) A :=
  fun s =>
    match c (_DeclarativeRecord (fst s), snd s) with
    | (res, (DclRec', realm')) => (res, (set_DeclarativeRecord DclRec' (fst s), realm'))
    end.

(** A call that only involves the realm: a method of [envRec.$ObjectRecord]
    or a function of the object model. *)
Definition in_realm {A : Type} (c : M Realm A) : M (t * Realm) A :=
  fun s =>
    match c (snd s) with
    | (res, realm') => (res, (fst s, realm'))
    end.

(** [throw realm.createErrorThrowCompletion(realm.intrinsics.TypeError)] *)
Definition throw_TypeError {A : Type} : M (t * Realm) A :=
  let! completion := in_realm (createErrorThrowCompletion TypeError None) in
  throw completion.

Section Methods.

Variable HasProperty : Value -> string -> M Realm bool.
Variable Get : Value -> PropertyKeyValue -> M Realm Value.
Variable Set_ : Value -> string -> Value -> bool -> M Realm bool.
Variable DefinePropertyOrThrow : Value -> string -> Descriptor -> M Realm bool.
Variable ToBooleanPartial : Value -> M Realm bool.
Variable throwIfNotConcrete : Value -> M Realm unit.
Variable _Delete : Value -> string -> M Realm bool.

(** Further functions of methods/ and of the object model:
    [HasOwnProperty], [IsExtensible], [IsDataDescriptor],
    [ThrowIfMightHaveBeenDeleted] and [object.$GetOwnProperty(N)]. *)
Variable HasOwnProperty : Value -> string -> M Realm bool.
Variable IsExtensible : Value -> M Realm bool.
Variable IsDataDescriptor : Descriptor -> bool.
Variable ThrowIfMightHaveBeenDeleted : option Value -> M Realm unit.
Variable _GetOwnProperty : Value -> string -> M Realm (option Descriptor).

Definition this_DclRec_HasBinding (N : string) : M (t * Realm) bool :=
  on_DclRec (DclRec_HasBinding N).

Definition this_ObjRec : M (t * Realm) ObjectEnvironmentRecord.t :=
  gets (fun s => _ObjectRecord (fst s)).

(** ECMA262 8.1.1.4.1 *)
Definition HasBinding (N : string) : M (t * Realm) bool :=
  let! declared := this_DclRec_HasBinding N in
  if (declared : bool) then ret true
  else
    let! ObjRec := this_ObjRec in
    in_realm (ObjectEnvironmentRecord.HasBinding HasProperty Get ToBooleanPartial
                throwIfNotConcrete ObjRec N).

(** ECMA262 8.1.1.4.2 *)
Definition CreateMutableBinding (N : string) (D : bool) : M (t * Realm) Value :=
  let! declared := this_DclRec_HasBinding N in
  if (declared : bool) then throw_TypeError
  else on_DclRec (DclRec_CreateMutableBinding N D).

(** ECMA262 8.1.1.4.3 *)
Definition CreateImmutableBinding (N : string) (S : bool) : M (t * Realm) Value :=
  let! declared := this_DclRec_HasBinding N in
  if (declared : bool) then throw_TypeError
  else on_DclRec (DclRec_CreateImmutableBinding N S).

(** ECMA262 8.1.1.4.4 *)
Definition InitializeBinding (N : string) (V : Value) : M (t * Realm) Value :=
  let! declared := this_DclRec_HasBinding N in
  if (declared : bool) then on_DclRec (DclRec_InitializeBinding N V)
  else
    let! ObjRec := this_ObjRec in
    in_realm (ObjectEnvironmentRecord.InitializeBinding Set_ ObjRec N V).

(** ECMA262 8.1.1.4.5 *)
Definition SetMutableBinding (N : string) (V : Value) (S : bool) : M (t * Realm) Value :=
  let! declared := this_DclRec_HasBinding N in
  if (declared : bool) then on_DclRec (DclRec_SetMutableBinding N V S)
  else
    let! ObjRec := this_ObjRec in
    in_realm (ObjectEnvironmentRecord.SetMutableBinding Set_ ObjRec N V S).

(** ECMA262 8.1.1.4.6 *)
Definition GetBindingValue (N : string) (S : bool) : M (t * Realm) Value :=
  let! declared := this_DclRec_HasBinding N in
  if (declared : bool) then on_DclRec (DclRec_GetBindingValue N S)
  else
    let! ObjRec := this_ObjRec in
    in_realm (ObjectEnvironmentRecord.GetBindingValue HasProperty Get ObjRec N S).

(** The statements that follow every successful declaration of a global
    var or function: [N] is appended to [$VarNames] unless it is there. *)
Definition add_VarName (N : string) : M (t * Realm) unit :=
  let! varDeclaredNames := gets (fun s => _VarNames (fst s)) in
  if negb (contains_name varDeclaredNames N)
  then modify (fun s => (set_VarNames (varDeclaredNames ++ [N]) (fst s), snd s))
  else ret tt.

(** ECMA262 8.1.1.4.7 *)
Definition DeleteBinding (N : string) : M (t * Realm) bool :=
  let! declared := this_DclRec_HasBinding N in
  if (declared : bool) then on_DclRec (DclRec_DeleteBinding N)
  else
    let! ObjRec := this_ObjRec in
    let globalObject := ObjectEnvironmentRecord.object ObjRec in
    let! existingProp := in_realm (HasOwnProperty globalObject N) in
    if (existingProp : bool) then
      let! status := in_realm (ObjectEnvironmentRecord.DeleteBinding _Delete ObjRec N) in
      (if (status : bool) then
         let! varNames := gets (fun s => _VarNames (fst s)) in
         if contains_name varNames N
         then modify (fun s => (set_VarNames (remove_first N varNames) (fst s), snd s))
         else ret tt
       else ret tt) ;;;
      ret status
    else ret true.

(** ECMA262 8.1.1.4.8 *)
Definition HasThisBinding : bool := true.

(** ECMA262 8.1.1.4.9 *)
Definition HasSuperBinding : bool := true.

(** ECMA262 8.1.1.4.10 *)
Definition WithBaseObject : Value := UndefinedValue.

(** ECMA262 8.1.1.4.11 *)
Definition GetThisBinding : M (t * Realm) Value :=
  let! this_value := gets (fun s => _GlobalThisValue (fst s)) in
  match this_value with
  | Some v => ret v
  | None => invariant false "" ;;; ret UndefinedValue
  end.

(** ECMA262 8.1.1.4.12 *)
Definition HasVarDeclaration (N : string) : M (t * Realm) bool :=
  let! varDeclaredNames := gets (fun s => _VarNames (fst s)) in
  if contains_name varDeclaredNames N then ret true else ret false.

(** ECMA262 8.1.1.4.13 *)
Definition HasLexicalDeclaration (N : string) : M (t * Realm) bool :=
  this_DclRec_HasBinding N.

(** ECMA262 8.1.1.4.14 *)
Definition HasRestrictedGlobalProperty (N : string) : M (t * Realm) bool :=
  let! ObjRec := this_ObjRec in
  let globalObject := ObjectEnvironmentRecord.object ObjRec in
  let! existingProp := in_realm (_GetOwnProperty globalObject N) in
  match existingProp with
  | None => ret false
  | Some existingProp =>
      in_realm (ThrowIfMightHaveBeenDeleted (value existingProp)) ;;;
      if truthy (configurable existingProp) then ret false else ret true
  end.

(** ECMA262 8.1.1.4.15 *)
Definition CanDeclareGlobalVar (N : string) : M (t * Realm) bool :=
  let! ObjRec := this_ObjRec in
  let globalObject := ObjectEnvironmentRecord.object ObjRec in
  let! hasProperty := in_realm (HasOwnProperty globalObject N) in
  if (hasProperty : bool) then ret true
  else in_realm (IsExtensible globalObject).

(** ECMA262 8.1.1.4.16 *)
Definition CanDeclareGlobalFunction (N : string) : M (t * Realm) bool :=
  let! ObjRec := this_ObjRec in
  let globalObject := ObjectEnvironmentRecord.object ObjRec in
  let! existingProp := in_realm (_GetOwnProperty globalObject N) in
  match existingProp with
  | None => in_realm (IsExtensible globalObject)
  | Some existingProp =>
      in_realm (ThrowIfMightHaveBeenDeleted (value existingProp)) ;;;
      if truthy (configurable existingProp) then ret true
      else if (IsDataDescriptor existingProp && truthy (writable existingProp)
               && truthy (enumerable existingProp))%bool
      then ret true
      else ret false
  end.

(** ECMA262 8.1.1.4.17 *)
Definition CreateGlobalVarBinding (N : string) (D : bool) : M (t * Realm) unit :=
  let! ObjRec := this_ObjRec in
  let globalObject := ObjectEnvironmentRecord.object ObjRec in
  let! hasProperty := in_realm (HasOwnProperty globalObject N) in
  let! extensible := in_realm (IsExtensible globalObject) in
  (if (negb hasProperty && extensible)%bool then
     in_realm (ObjectEnvironmentRecord.CreateMutableBinding DefinePropertyOrThrow
                 ObjRec N D) ;;;
     in_realm (ObjectEnvironmentRecord.InitializeBinding Set_ ObjRec N UndefinedValue) ;;;
     ret tt
   else ret tt) ;;;
  add_VarName N.

(** ECMA262 8.1.1.4.18 *)
Definition CreateGlobalFunctionBinding (N : string) (V : Value) (D : bool)
    : M (t * Realm) unit :=
  let! ObjRec := this_ObjRec in
  let globalObject := ObjectEnvironmentRecord.object ObjRec in
  let! existingProp := in_realm (_GetOwnProperty globalObject N) in
  let! desc :=
    match existingProp with
    | Some existingProp =>
        if truthy (configurable existingProp) then
          ret {| value := Some V; writable := Some true; enumerable := Some true;
                 configurable := Some D; get := None; set := None |}
        else
          in_realm (ThrowIfMightHaveBeenDeleted (value existingProp)) ;;;
          ret {| value := Some V; writable := None; enumerable := None;
                 configurable := None; get := None; set := None |}
    | None =>
        ret {| value := Some V; writable := Some true; enumerable := Some true;
               configurable := Some D; get := None; set := None |}
    end in
  in_realm (DefinePropertyOrThrow globalObject N desc) ;;;
  in_realm (Set_ globalObject N V false) ;;;
  add_VarName N.

End Methods.

End GlobalEnvironmentRecord.

(* ===================================================================== *)
(** * Properties of the global environment record *)
(* ===================================================================== *)

Lemma contains_name_elem_of (varNames : list string) (N : string) :
  contains_name varNames N = true <-> N ∈ varNames.
Proof.
  unfold contains_name. rewrite existsb_exists. split.
  - intros (n & Hin & Heq). apply String.eqb_eq in Heq. subst n.
    now apply list_elem_of_In.
  - intros Hin. exists N. split; [now apply list_elem_of_In | apply String.eqb_refl].
Qed.

Lemma elem_of_remove_first (N N' : string) (varNames : list string) :
  N' <> N -> (N' ∈ remove_first N varNames <-> N' ∈ varNames).
Proof.
  intros Hne. induction varNames as [|n varNames IH]; [reflexivity|].
  cbn [remove_first]. destruct (String.eqb n N) eqn:Heq.
  - apply String.eqb_eq in Heq. subst n. rewrite elem_of_cons. tauto.
  - rewrite !elem_of_cons, IH. reflexivity.
Qed.

Lemma remove_first_subset (N N' : string) (varNames : list string) :
  N' ∈ remove_first N varNames -> N' ∈ varNames.
Proof.
  induction varNames as [|n varNames IH]; [easy|].
  cbn [remove_first]. destruct (String.eqb n N).
  - intros H. now apply elem_of_cons; right.
  - rewrite !elem_of_cons. tauto.
Qed.

Lemma NoDup_remove_first (N : string) (varNames : list string) :
  NoDup varNames -> NoDup (remove_first N varNames) /\ N ∉ remove_first N varNames.
Proof.
  induction varNames as [|n varNames IH]; intros Hnd.
  - split; [constructor | apply not_elem_of_nil].
  - apply NoDup_cons in Hnd as [Hn Hnd]. cbn [remove_first].
    destruct (String.eqb n N) eqn:Heq.
    + apply String.eqb_eq in Heq. subst n. now split.
    + apply String.eqb_neq in Heq. destruct (IH Hnd) as [IH1 IH2]. split.
      * apply NoDup_cons. split; [|exact IH1].
        intros Hin. apply Hn. eapply remove_first_subset, Hin.
      * rewrite elem_of_cons. intros [->|Hin]; [now apply Heq | now apply IH2].
Qed.

Module GlobalEnvironmentRecordProperties.

Local Abbreviation DclRec_HasBinding := HasBinding.
Local Abbreviation DclRec_InitializeBinding := InitializeBinding.
Local Abbreviation DclRec_SetMutableBinding := SetMutableBinding.
Local Abbreviation DclRec_GetBindingValue := GetBindingValue.
Local Abbreviation DclRec_DeleteBinding := DeleteBinding.

Import GlobalEnvironmentRecord.

Lemma set_DeclarativeRecord_id (this : t) :
  set_DeclarativeRecord (_DeclarativeRecord this) this = this.
Proof. now destruct this. Qed.

Lemma this_DclRec_HasBinding_run (N : string) (this : t) (realm : Realm) :
  this_DclRec_HasBinding N (this, realm)
  = (Normal (bool_decide (is_Some (bindings (_DeclarativeRecord this) !! N))),
     (this, realm)).
Proof.
  unfold this_DclRec_HasBinding, on_DclRec, DclRec_HasBinding, bind, this_bindings, gets.
  cbn [fst snd]. destruct (bindings (_DeclarativeRecord this) !! N) as [b|]; cbn [ret].
  - rewrite bool_decide_eq_true_2 by eauto. now rewrite set_DeclarativeRecord_id.
  - rewrite bool_decide_eq_false_2 by (intros [? ?]; discriminate).
    now rewrite set_DeclarativeRecord_id.
Qed.

Lemma throw_TypeError_run {A : Type} (this : t) (realm : Realm) :
  @throw_TypeError A (this, realm)
  = (Abrupt (thrown realm), (this, threw TypeError None realm)).
Proof. reflexivity. Qed.

Section Properties.

Variable HasProperty : Value -> string -> M Realm bool.
Variable Get : Value -> PropertyKeyValue -> M Realm Value.
Variable Set_ : Value -> string -> Value -> bool -> M Realm bool.
Variable DefinePropertyOrThrow : Value -> string -> Descriptor -> M Realm bool.
Variable ToBooleanPartial : Value -> M Realm bool.
Variable throwIfNotConcrete : Value -> M Realm unit.
Variable _Delete : Value -> string -> M Realm bool.
Variable HasOwnProperty : Value -> string -> M Realm bool.
Variable IsExtensible : Value -> M Realm bool.
Variable ThrowIfMightHaveBeenDeleted : option Value -> M Realm unit.
Variable _GetOwnProperty : Value -> string -> M Realm (option Descriptor).

(** X10.  A name the declarative record binds shadows the global object:
    [HasBinding] answers true, and reading, assigning, initializing and
    deleting the name are the declarative record's own operations, run on
    that record; the global object, its record and [$VarNames] are not
    consulted and not changed. *)
Theorem global_lexical_binding_shadows (N : string) (V : Value) (S : bool) (b : Binding.t)
    (this : t) (realm : Realm) :
  bindings (_DeclarativeRecord this) !! N = Some b ->
  HasBinding HasProperty Get ToBooleanPartial throwIfNotConcrete N (this, realm)
  = (Normal true, (this, realm))
  /\ GetBindingValue HasProperty Get N S (this, realm)
     = on_DclRec (DclRec_GetBindingValue N S) (this, realm)
  /\ SetMutableBinding Set_ N V S (this, realm)
     = on_DclRec (DclRec_SetMutableBinding N V S) (this, realm)
  /\ InitializeBinding Set_ N V (this, realm)
     = on_DclRec (DclRec_InitializeBinding N V) (this, realm)
  /\ DeleteBinding _Delete HasOwnProperty N (this, realm)
     = on_DclRec (DclRec_DeleteBinding N) (this, realm).
Proof.
  intros Hbound.
  assert (Hdeclared : this_DclRec_HasBinding N (this, realm) = (Normal true, (this, realm))).
  { rewrite this_DclRec_HasBinding_run, Hbound.
    now rewrite bool_decide_eq_true_2 by eauto. }
  repeat apply conj.
  - unfold HasBinding. now erewrite bind_run by exact Hdeclared.
  - unfold GetBindingValue. now erewrite bind_run by exact Hdeclared.
  - unfold SetMutableBinding. now erewrite bind_run by exact Hdeclared.
  - unfold InitializeBinding. now erewrite bind_run by exact Hdeclared.
  - unfold DeleteBinding. now erewrite bind_run by exact Hdeclared.
Qed.

(** X11.  Declaring a lexical name twice at the global level is a
    TypeError, thrown as a completion, and not a failed assertion as on a
    plain declarative record; the record is unchanged.  A name that is not
    declared yet gets its binding in the declarative record: the global
    object does not receive a property and [$VarNames] does not change. *)
Theorem global_lexical_redeclaration (N : string) (D : bool) (this : t) (realm : Realm) :
  match bindings (_DeclarativeRecord this) !! N with
  | Some b =>
      CreateMutableBinding N D (this, realm)
      = (Abrupt (thrown realm), (this, threw TypeError None realm))
      /\ CreateImmutableBinding N D (this, realm)
         = (Abrupt (thrown realm), (this, threw TypeError None realm))
  | None =>
      CreateMutableBinding N D (this, realm)
      = (Normal UndefinedValue,
         (set_DeclarativeRecord
            (record_with (<[N := mutable_binding D]> (bindings (_DeclarativeRecord this)))
               (_DeclarativeRecord this)) this,
          logged [(mutable_binding D, None)] realm))
      /\ CreateImmutableBinding N D (this, realm)
         = (Normal UndefinedValue,
            (set_DeclarativeRecord
               (record_with
                  (<[N := immutable_binding D]> (bindings (_DeclarativeRecord this)))
                  (_DeclarativeRecord this)) this,
             logged [(immutable_binding D, None)] realm))
  end.
Proof.
  pose proof (this_DclRec_HasBinding_run N this realm) as Hdeclared.
  destruct (bindings (_DeclarativeRecord this) !! N) as [b|] eqn:Hlookup.
  - rewrite bool_decide_eq_true_2 in Hdeclared by eauto.
    split.
    + unfold CreateMutableBinding. erewrite bind_run by exact Hdeclared.
      apply throw_TypeError_run.
    + unfold CreateImmutableBinding. erewrite bind_run by exact Hdeclared.
      apply throw_TypeError_run.
  - rewrite bool_decide_eq_false_2 in Hdeclared by (intros [? ?]; discriminate).
    split.
    + unfold CreateMutableBinding. erewrite bind_run by exact Hdeclared.
      unfold on_DclRec. cbn [fst snd].
      now rewrite (CreateMutableBinding_run N D _ realm Hlookup).
    + unfold CreateImmutableBinding. erewrite bind_run by exact Hdeclared.
      unfold on_DclRec. cbn [fst snd].
      now rewrite (CreateImmutableBinding_run N D _ realm Hlookup).
Qed.

(** What a method called for [N] may do to [$VarNames]: it keeps the list
    free of duplicates, and changes the membership of no other name. *)
Definition keeps_VarNames (N : string) {A : Type} (c : M (t * Realm) A) : Prop :=
  forall (s s' : t * Realm) (res : Result A),
    c s = (res, s') ->
    (NoDup (_VarNames (fst s)) -> NoDup (_VarNames (fst s'))) /\
    (forall N' : string,
        N' <> N -> (N' ∈ _VarNames (fst s') <-> N' ∈ _VarNames (fst s))).

Lemma keeps_VarNames_same (N : string) {A : Type} (c : M (t * Realm) A) :
  (forall s, _VarNames (fst (snd (c s))) = _VarNames (fst s)) -> keeps_VarNames N c.
Proof.
  intros Hsame s s' res Hrun. specialize (Hsame s). rewrite Hrun in Hsame.
  cbn [snd] in Hsame. rewrite Hsame. split; [trivial | reflexivity].
Qed.

Lemma keeps_VarNames_bind (N : string) {A B : Type}
    (c : M (t * Realm) A) (k : A -> M (t * Realm) B) :
  keeps_VarNames N c -> (forall a, keeps_VarNames N (k a)) -> keeps_VarNames N (bind c k).
Proof.
  intros Hc Hk s s' res Hrun. unfold bind in Hrun.
  destruct (c s) as [[a|e|] s1] eqn:Hcs.
  - destruct (Hc _ _ _ Hcs) as [Hnd1 Hframe1].
    destruct (Hk a _ _ _ Hrun) as [Hnd2 Hframe2].
    split; [auto|]. intros N' HN'. now rewrite Hframe2, Hframe1.
  - injection Hrun as <- <-. exact (Hc _ _ _ Hcs).
  - injection Hrun as <- <-. exact (Hc _ _ _ Hcs).
Qed.

Lemma keeps_VarNames_in_realm (N : string) {A : Type} (c : M Realm A) :
  keeps_VarNames N (in_realm c).
Proof.
  apply keeps_VarNames_same. intros s. unfold in_realm. now destruct (c (snd s)).
Qed.

Lemma keeps_VarNames_on_DclRec (N : string) {A : Type} (c : EnvM A) :
  keeps_VarNames N (on_DclRec c).
Proof.
  apply keeps_VarNames_same. intros s. unfold on_DclRec.
  now destruct (c (_DeclarativeRecord (fst s), snd s)) as [res [DclRec' realm']].
Qed.

Lemma keeps_VarNames_ret (N : string) {A : Type} (a : A) :
  keeps_VarNames N (ret a : M (t * Realm) A).
Proof. now apply keeps_VarNames_same. Qed.

Lemma keeps_VarNames_this_ObjRec (N : string) : keeps_VarNames N this_ObjRec.
Proof. now apply keeps_VarNames_same. Qed.

Lemma keeps_VarNames_add_VarName (N : string) : keeps_VarNames N (add_VarName N).
Proof.
  intros [this realm] s' res Hrun. unfold add_VarName, bind, gets in Hrun.
  cbn [fst snd] in Hrun.
  destruct (contains_name (_VarNames this) N) eqn:Hcontains; cbn [negb] in Hrun.
  - injection Hrun as <- <-. split; [trivial | reflexivity].
  - injection Hrun as <- <-. cbn [fst set_VarNames _VarNames]. split.
    + intros Hnd. apply NoDup_app. split; [exact Hnd|]. split; [|apply NoDup_singleton].
      intros x Hx Hx'. apply list_elem_of_singleton in Hx'. subst x.
      apply contains_name_elem_of in Hx. congruence.
    + intros N' HN'. rewrite elem_of_app, list_elem_of_singleton. tauto.
Qed.

Lemma keeps_VarNames_remove (N : string) :
  keeps_VarNames N
    (let! varNames := gets (fun s : t * Realm => _VarNames (fst s)) in
     if contains_name varNames N
     then modify (fun s => (set_VarNames (remove_first N varNames) (fst s), snd s))
     else ret tt).
Proof.
  intros [this realm] s' res Hrun. unfold bind, gets in Hrun. cbn [fst snd] in Hrun.
  destruct (contains_name (_VarNames this) N).
  - injection Hrun as <- <-. cbn [fst set_VarNames _VarNames]. split.
    + intros Hnd. now apply NoDup_remove_first.
    + intros N' HN'. now apply elem_of_remove_first.
  - injection Hrun as <- <-. split; [trivial | reflexivity].
Qed.

#[local] Hint Resolve keeps_VarNames_in_realm keeps_VarNames_on_DclRec keeps_VarNames_ret
  keeps_VarNames_this_ObjRec keeps_VarNames_add_VarName keeps_VarNames_remove : touches.

Ltac keeps :=
  repeat first
    [ solve [auto with touches]
    | apply keeps_VarNames_bind; [|intros ?]
    | match goal with
      | |- keeps_VarNames _ (match ?x with _ => _ end) => destruct x
      | |- keeps_VarNames _ (if ?x then _ else _) => destruct x
      end ].

(** X12.  [$VarNames] is a set kept in a list: a list without duplicates
    stays without duplicates under [DeleteBinding], [CreateGlobalVarBinding]
    and [CreateGlobalFunctionBinding], the three methods that write to it,
    however they end and whatever the object model does; and called for a
    name [N] they neither add nor remove any other name. *)
Theorem VarNames_stays_duplicate_free (N : string) (V : Value) (D : bool) :
  keeps_VarNames N (DeleteBinding _Delete HasOwnProperty N) /\
  keeps_VarNames N
    (CreateGlobalVarBinding Set_ DefinePropertyOrThrow HasOwnProperty IsExtensible N D) /\
  keeps_VarNames N
    (CreateGlobalFunctionBinding Set_ DefinePropertyOrThrow ThrowIfMightHaveBeenDeleted
       _GetOwnProperty N V D).
Proof.
  repeat apply conj.
  - unfold DeleteBinding, this_DclRec_HasBinding. keeps.
  - unfold CreateGlobalVarBinding. keeps.
  - unfold CreateGlobalFunctionBinding. keeps.
Qed.

Lemma add_VarName_declares (N : string) (s s' : t * Realm) (res : Result unit) :
  add_VarName N s = (res, s') ->
  res = Normal tt /\ contains_name (_VarNames (fst s')) N = true /\ snd s' = snd s.
Proof.
  unfold add_VarName, bind, gets.
  destruct (contains_name (_VarNames (fst s)) N) eqn:Hcontains; cbn [negb].
  - intros H. injection H as <- <-. auto.
  - intros H. injection H as <- <-. cbn [fst snd set_VarNames _VarNames].
    repeat split. apply contains_name_elem_of, elem_of_app. right.
    now apply list_elem_of_singleton.
Qed.

(** X13.  Whenever [CreateGlobalVarBinding(N, D)] or
    [CreateGlobalFunctionBinding(N, V, D)] returns, [N] is a declared var
    name: [HasVarDeclaration(N)] answers true in the state it leaves. *)
Theorem global_declaration_is_recorded (N : string) (V : Value) (D : bool)
    (s s' : t * Realm) :
  (CreateGlobalVarBinding Set_ DefinePropertyOrThrow HasOwnProperty IsExtensible N D s
   = (Normal tt, s') ->
   HasVarDeclaration N s' = (Normal true, s'))
  /\
  (CreateGlobalFunctionBinding Set_ DefinePropertyOrThrow ThrowIfMightHaveBeenDeleted
     _GetOwnProperty N V D s
   = (Normal tt, s') ->
   HasVarDeclaration N s' = (Normal true, s')).
Proof.
  assert (Hhas : forall s0, contains_name (_VarNames (fst s0)) N = true ->
                            HasVarDeclaration N s0 = (Normal true, s0)).
  { intros s0 Hc. unfold HasVarDeclaration, bind, gets. now rewrite Hc. }
  assert (Hlast : forall (c : M (t * Realm) unit) s1,
             (c ;;; add_VarName N) s = (Normal tt, s1) ->
             contains_name (_VarNames (fst s1)) N = true).
  { intros c s1 Hrun. unfold bind in Hrun.
    destruct (c s) as [[[]| |] s0]; try discriminate.
    now destruct (add_VarName_declares _ _ _ _ Hrun) as (_ & Hc & _). }
  split; [intros Hvar | intros Hfun]; apply Hhas.
  - apply (Hlast
             (let! ObjRec := this_ObjRec in
              let globalObject := ObjectEnvironmentRecord.object ObjRec in
              let! hasProperty := in_realm (HasOwnProperty globalObject N) in
              let! extensible := in_realm (IsExtensible globalObject) in
              if (negb hasProperty && extensible)%bool then
                in_realm (ObjectEnvironmentRecord.CreateMutableBinding
                            DefinePropertyOrThrow ObjRec N D) ;;;
                in_realm (ObjectEnvironmentRecord.InitializeBinding Set_ ObjRec N
                            UndefinedValue) ;;;
                ret tt
              else ret tt)).
    rewrite <- Hvar. unfold CreateGlobalVarBinding, bind.
    destruct (this_ObjRec s) as [[ObjRec| |] s0]; try reflexivity.
    destruct (in_realm (HasOwnProperty (ObjectEnvironmentRecord.object ObjRec) N) s0)
      as [[hasProperty| |] s3]; try reflexivity.
    destruct (in_realm (IsExtensible (ObjectEnvironmentRecord.object ObjRec)) s3)
      as [[extensible| |] s4]; reflexivity.
  - revert Hfun. unfold CreateGlobalFunctionBinding.
    unfold bind at 1. destruct (this_ObjRec s) as [[ObjRec| |] s0]; try discriminate.
    unfold bind at 1.
    destruct (in_realm (_GetOwnProperty (ObjectEnvironmentRecord.object ObjRec) N) s0)
      as [[existingProp| |] s3]; try discriminate.
    unfold bind at 1.
    match goal with
    | |- context [match ?c s3 with _ => _ end] =>
        destruct (c s3) as [[desc| |] s4]; try discriminate
    end.
    unfold bind at 1.
    destruct (in_realm (DefinePropertyOrThrow (ObjectEnvironmentRecord.object ObjRec) N
                          desc) s4)
      as [[defined| |] s5]; try discriminate.
    unfold bind at 1.
    destruct (in_realm (Set_ (ObjectEnvironmentRecord.object ObjRec) N V false) s5)
      as [[done| |] s6]; try discriminate.
    intros Hadd. now destruct (add_VarName_declares _ _ _ _ Hadd) as (_ & Hc & _).
Qed.

(** X14.  Deleting a global var: when the declarative record does not bind
    [N], the global object has an own property [N] and deleting it
    succeeds, [DeleteBinding(N)] returns true, and on a [$VarNames] without
    duplicates [N] is no longer a declared var name afterwards. *)
Theorem global_var_deleted (N : string) (this : t) (realm r1 r2 : Realm) :
  bindings (_DeclarativeRecord this) !! N = None ->
  HasOwnProperty (ObjectEnvironmentRecord.object (_ObjectRecord this)) N realm
  = (Normal true, r1) ->
  _Delete (ObjectEnvironmentRecord.object (_ObjectRecord this)) N r1 = (Normal true, r2) ->
  NoDup (_VarNames this) ->
  exists this' : t,
    DeleteBinding _Delete HasOwnProperty N (this, realm) = (Normal true, (this', r2))
    /\ _VarNames this' = remove_first N (_VarNames this)
    /\ _DeclarativeRecord this' = _DeclarativeRecord this
    /\ HasVarDeclaration N (this', r2) = (Normal false, (this', r2)).
Proof.
  intros Hunbound Hown Hdelete Hnd.
  pose proof (this_DclRec_HasBinding_run N this realm) as Hdeclared.
  rewrite Hunbound, bool_decide_eq_false_2 in Hdeclared
    by (intros [? ?]; discriminate).
  assert (Hgone : forall l, NoDup l -> contains_name (remove_first N l) N = false).
  { intros l Hl. destruct (contains_name (remove_first N l) N) eqn:Hc; [|reflexivity].
    apply contains_name_elem_of in Hc. now apply NoDup_remove_first in Hc. }
  assert (Hkeep : forall l, contains_name l N = false -> remove_first N l = l).
  { intros l. induction l as [|n l IH]; [reflexivity|].
    cbn [contains_name existsb remove_first]. rewrite String.eqb_sym.
    destruct (String.eqb n N); [discriminate|]. cbn [orb]. intros H.
    f_equal. now apply IH. }
  destruct (contains_name (_VarNames this) N) eqn:Hcontains.
  - exists (set_VarNames (remove_first N (_VarNames this)) this).
    split; [|split; [reflexivity|split; [reflexivity|]]].
    + unfold DeleteBinding. erewrite bind_run by exact Hdeclared. cbv beta iota.
      erewrite bind_run by reflexivity. cbn [fst].
      erewrite bind_run by (unfold in_realm; cbn [fst snd]; rewrite Hown; reflexivity).
      cbv beta iota.
      erewrite bind_run
        by (unfold in_realm, ObjectEnvironmentRecord.DeleteBinding; cbn [fst snd];
            rewrite Hdelete; reflexivity).
      cbv beta iota.
      erewrite bind_run.
      2:{ erewrite bind_run by reflexivity. cbn [fst]. rewrite Hcontains. reflexivity. }
      reflexivity.
    + unfold HasVarDeclaration, bind, gets. cbn [fst _VarNames set_VarNames].
      now rewrite Hgone.
  - exists this. rewrite (Hkeep _ Hcontains).
    split; [|split; [reflexivity|split; [reflexivity|]]].
    + unfold DeleteBinding. erewrite bind_run by exact Hdeclared. cbv beta iota.
      erewrite bind_run by reflexivity. cbn [fst].
      erewrite bind_run by (unfold in_realm; cbn [fst snd]; rewrite Hown; reflexivity).
      cbv beta iota.
      erewrite bind_run
        by (unfold in_realm, ObjectEnvironmentRecord.DeleteBinding; cbn [fst snd];
            rewrite Hdelete; reflexivity).
      cbv beta iota.
      erewrite bind_run.
      2:{ erewrite bind_run by reflexivity. cbn [fst]. rewrite Hcontains. reflexivity. }
      reflexivity.
    + unfold HasVarDeclaration, bind, gets. cbn [fst]. now rewrite Hcontains.
Qed.

End Properties.

(** A global record whose declarative record binds [x] lexically and
    whose object record stands on object 0, with the var name [v]
    declared; and an object model in which every property exists and can be
    deleted. *)
Definition example_global : t :=
  {| _DeclarativeRecord :=
       record_with {[ "x" := created_binding (NumberValue 1) ]} empty_record;
     _ObjectRecord :=
       {| ObjectEnvironmentRecord.object := ObjectValue 0;
          ObjectEnvironmentRecord.withEnvironment := None |};
     _VarNames := ["v"];
     _GlobalThisValue := Some (ObjectValue 0) |}.

Definition yes : Value -> string -> M Realm bool := fun _ _ => ret true.

Lemma global_lexical_binding_shadows_witness :
  bindings (_DeclarativeRecord example_global) !! "x"
  = Some (created_binding (NumberValue 1))
  /\ GetBindingValue yes (fun _ _ => ret UndefinedValue) "x" true
       (example_global, fresh_realm)
     = on_DclRec (DclRec_GetBindingValue "x" true) (example_global, fresh_realm).
Proof.
  split; [reflexivity|].
  exact (proj1 (proj2 (global_lexical_binding_shadows yes (fun _ _ => ret UndefinedValue)
                         (fun _ _ _ _ => ret true) (fun _ => ret true)
                         (fun _ => ret tt) yes yes
                         "x" UndefinedValue true (created_binding (NumberValue 1))
                         example_global fresh_realm eq_refl))).
Defined.

Lemma global_declaration_is_recorded_witness :
  CreateGlobalVarBinding (fun _ _ _ _ => ret true) (fun _ _ _ => ret true) yes
    (fun _ => ret true) "w" false (example_global, fresh_realm)
  = (Normal tt, (set_VarNames ["v"; "w"] example_global, fresh_realm))
  /\ CreateGlobalFunctionBinding (fun _ _ _ _ => ret true) (fun _ _ _ => ret true)
       (fun _ => ret tt) (fun _ _ => ret None) "w" NullValue false
       (example_global, fresh_realm)
     = (Normal tt, (set_VarNames ["v"; "w"] example_global, fresh_realm))
  /\ HasVarDeclaration "w" (set_VarNames ["v"; "w"] example_global, fresh_realm)
     = (Normal true, (set_VarNames ["v"; "w"] example_global, fresh_realm)).
Proof.
  split; [reflexivity|]. split; [reflexivity|].
  exact (proj1 (global_declaration_is_recorded (fun _ _ _ _ => ret true)
                  (fun _ _ _ => ret true) yes (fun _ => ret true) (fun _ => ret tt)
                  (fun _ _ => ret None) "w" NullValue false
                  (example_global, fresh_realm)
                  (set_VarNames ["v"; "w"] example_global, fresh_realm))
           eq_refl).
Defined.

Lemma global_var_deleted_witness :
  bindings (_DeclarativeRecord example_global) !! "v" = None
  /\ yes (ObjectEnvironmentRecord.object (_ObjectRecord example_global)) "v" fresh_realm
     = (Normal true, fresh_realm)
  /\ NoDup (_VarNames example_global)
  /\ exists this' : t,
      DeleteBinding yes yes "v" (example_global, fresh_realm)
      = (Normal true, (this', fresh_realm))
      /\ _VarNames this' = remove_first "v" (_VarNames example_global)
      /\ _DeclarativeRecord this' = _DeclarativeRecord example_global
      /\ HasVarDeclaration "v" (this', fresh_realm) = (Normal false, (this', fresh_realm)).
Proof.
  assert (Hnd : NoDup (_VarNames example_global))
    by (apply NoDup_singleton).
  split; [reflexivity|]. split; [reflexivity|]. split; [exact Hnd|].
  exact (global_var_deleted yes yes "v" example_global fresh_realm fresh_realm
           fresh_realm eq_refl eq_refl eq_refl Hnd).
Defined.

End GlobalEnvironmentRecordProperties.

(* ===================================================================== *)
(** * utils/parse.js: a successful parse *)
(* ===================================================================== *)

(** Every node of the tree has a location. *)
Fixpoint all_located (node : AstNode) : bool :=
  match node with
  | ast_node _ loc children =>
      match loc with
      | Some _ => forallb all_located children
      | None => false
      end
  end.

(** The tree with [filename] as the source of every location. *)
Fixpoint with_source (filename : string) (node : AstNode) : AstNode :=
  match node with
  | ast_node type loc children =>
      ast_node type (set_source filename <$> loc) (map (with_source filename) children)
  end.

(** The callback [parse] hands to [traverseFast]. *)
Definition set_source_of (filename : string) (node : AstNode)
    : M Realm (option SourceLocation * bool) :=
  match ast_loc node with
  | Some loc => ret (Some (set_source filename loc), false)
  | None => invariant false "" ;;; ret (None, false)
  end.

Lemma traverseFast_set_source (filename : string) (r : Realm) :
  forall node : AstNode,
    traverseFast (set_source_of filename) node r
    = if all_located node
      then (Normal (with_source filename node), r)
      else (Abrupt (InvariantViolation ""), r).
Proof.
  fix IH 1. intros [type loc children].
  cbn [traverseFast all_located with_source].
  destruct loc as [loc|]; [|reflexivity].
  unfold set_source_of at 1. cbn [ast_loc].
  erewrite bind_run by reflexivity. cbv beta iota.
  assert (Hchildren :
            (fix traverse_all (l : list AstNode) : M Realm (list AstNode) :=
               match l with
               | [] => ret []
               | child :: l' =>
                   let! child' := traverseFast (set_source_of filename) child in
                   let! l'' := traverse_all l' in
                   ret (child' :: l'')
               end) children r
            = if forallb all_located children
              then (Normal (map (with_source filename) children), r)
              else (Abrupt (InvariantViolation ""), r)).
  { induction children as [|child rest IHrest]; [reflexivity|].
    cbn [forallb map]. unfold bind at 1. rewrite (IH child).
    destruct (all_located child); [|reflexivity]. cbn [andb].
    unfold bind at 1. rewrite IHrest.
    destruct (forallb all_located rest); reflexivity. }
  unfold bind at 1. rewrite Hchildren.
  destruct (forallb all_located children); reflexivity.
Qed.

(** X15.  When babylon returns a tree, [parse] returns that tree with the
    file name as the source of the location of every node, and nothing else
    changed, provided every node has a location; if some node has none,
    [parse] fails with an invariant violation.  The realm is untouched
    either way. *)
Theorem parse_success
    (babylon_parse : string -> string -> SourceType -> nat -> Result AstNode)
    (code filename : string) (sourceType : option SourceType) (startLine : option nat)
    (ast : AstNode) (r : Realm) :
  babylon_parse code filename (default script sourceType) (default 1 startLine)
  = Normal ast ->
  parse babylon_parse code filename sourceType startLine r
  = if all_located ast
    then (Normal (with_source filename ast), r)
    else (Abrupt (InvariantViolation ""), r).
Proof.
  intros Hparsed. unfold parse, try_catch, parse_try.
  unfold bind at 1. rewrite Hparsed.
  change (fun node : AstNode =>
            match ast_loc node with
            | Some loc => ret (Some (set_source filename loc), false)
            | None => invariant false "" ;;; ret (None, false)
            end)
    with (set_source_of filename).
  rewrite traverseFast_set_source.
  destruct (all_located ast); reflexivity.
Qed.

(** [x;] as babylon returns it: a file, a program, an expression
    statement and an identifier, each with its location. *)
Definition example_loc_at (column : nat) : option SourceLocation :=
  Some {| loc_start := (1, 0); loc_end := (1, column); loc_source := None |}.

Definition example_ast : AstNode :=
  ast_node "File" (example_loc_at 2)
    [ast_node "Program" (example_loc_at 2)
       [ast_node "ExpressionStatement" (example_loc_at 2)
          [ast_node "Identifier" (example_loc_at 1) []]]].

Lemma parse_success_witness :
  (fun _ _ _ _ => Normal example_ast) "x;" "a.js" (default script None) (default 1 None)
  = Normal example_ast
  /\ parse (fun _ _ _ _ => Normal example_ast) "x;" "a.js" None None fresh_realm
     = if all_located example_ast
       then (Normal (with_source "a.js" example_ast), fresh_realm)
       else (Abrupt (InvariantViolation ""), fresh_realm).
Proof.
  split; [reflexivity|].
  exact (parse_success (fun _ _ _ _ => Normal example_ast) "x;" "a.js" None None
           example_ast fresh_realm eq_refl).
Defined.

(* ===================================================================== *)
(** * generator.js: more on the name generator and the prelude *)
(* ===================================================================== *)

(** X16.  [generate] wastes no name.  With more fuel than there are
    forbidden names, and room for the counter below 2^53, it returns; the
    identifier it returns is the one made for the smallest counter value,
    from [uidCounter] on, whose identifier is not forbidden; every
    candidate it passed over is forbidden, and the counter is left just
    behind the value used. *)
Theorem generate_first_free (fuel : nat) (this : NameGenerator.t) (d : option string) :
  size (NameGenerator.forbiddenNames this) < fuel ->
  NameGenerator.counter_room this fuel ->
  exists (id : string) (this' : NameGenerator.t) (k : N),
    NameGenerator.generate fuel this d = Some (id, this') /\
    (NameGenerator.uidCounter this <= k)%N /\
    NameGenerator.uidCounter this' = (k + 1)%N /\
    id = NameGenerator.make_id this d k /\
    (id ∉ NameGenerator.forbiddenNames this) /\
    (forall j : N,
        (NameGenerator.uidCounter this <= j < k)%N ->
        NameGenerator.make_id this d j ∈ NameGenerator.forbiddenNames this) /\
    NameGenerator.same_config this this'.
Proof.
  intros Hfuel Hroom.
  destruct (NameGenerator.generate_terminates fuel this d Hfuel Hroom)
    as [[id this'] Hrun].
  destruct (NameGenerator.generate_sound_room _ _ _ _ _ Hroom Hrun)
    as (k & Hk & Hc & _ & Hid & Hf & Hcfg).
  exists id, this', k.
  split; [exact Hrun|]. split; [exact Hk|]. split; [exact Hc|]. split; [exact Hid|].
  split; [exact Hf|]. split; [|exact Hcfg].
  intros j Hj.
  apply (NameGenerator.generate_passes_forbidden _ _ _ _ _ Hroom Hrun); lia.
Qed.

Lemma generate_first_free_witness :
  size (NameGenerator.forbiddenNames NameGenerator.example_generator) < 2
  /\ NameGenerator.counter_room NameGenerator.example_generator 2
  /\ NameGenerator.generate 2 NameGenerator.example_generator None
     = Some ("_$1",
             {| NameGenerator.prefix := "_$"; NameGenerator.uidCounter := 2;
                NameGenerator.debugNames := false;
                NameGenerator.forbiddenNames := {[ "_$0" ]};
                NameGenerator.uniqueSuffix := "" |})
  /\ exists (id : string) (this' : NameGenerator.t) (k : N),
      NameGenerator.generate 2 NameGenerator.example_generator None = Some (id, this') /\
      (NameGenerator.uidCounter NameGenerator.example_generator <= k)%N /\
      NameGenerator.uidCounter this' = (k + 1)%N /\
      id = NameGenerator.make_id NameGenerator.example_generator None k /\
      (id ∉ NameGenerator.forbiddenNames NameGenerator.example_generator) /\
      (forall j : N,
          (NameGenerator.uidCounter NameGenerator.example_generator <= j < k)%N ->
          NameGenerator.make_id NameGenerator.example_generator None j
          ∈ NameGenerator.forbiddenNames NameGenerator.example_generator) /\
      NameGenerator.same_config NameGenerator.example_generator this'.
Proof.
  assert (Hsize : size (NameGenerator.forbiddenNames NameGenerator.example_generator) < 2)
    by (vm_compute; lia).
  assert (Hroom : NameGenerator.counter_room NameGenerator.example_generator 2)
    by (vm_compute; discriminate).
  split; [exact Hsize|]. split; [exact Hroom|]. split; [vm_compute; reflexivity|].
  exact (generate_first_free 2 NameGenerator.example_generator None Hsize Hroom).
Defined.

Module PreludeGeneratorProperties.
Import PreludeGenerator.

(** The object an initializer reads a property of, if it is a member
    expression. *)
Definition object_of (init : BabelNode) : option BabelNode :=
  match init with
  | memberExpression o _ _ => Some o
  | _ => None
  end.

(** Declare before use: every statement of the prelude is a declaration
    [var ref = init], and when [init] is a member expression, the
    identifier it starts from is declared by an earlier statement. *)
Definition well_ordered (statements : list BabelNode) : Prop :=
  forall (before after : list BabelNode) (stmt : BabelNode),
    statements = before ++ stmt :: after ->
    exists ref init : BabelNode,
      stmt = variableDeclaration "var" [variableDeclarator ref init] /\
      forall o : BabelNode,
        object_of init = Some o -> Exists (is_var_declaration_of o) before.

(** Every memoized reference is declared in the prelude. *)
Definition refs_declared (this : t) : Prop :=
  forall (key : string) (ref : BabelNode),
    memoizedRefs this !! key = Some ref ->
    Exists (is_var_declaration_of ref) (prelude this).

Lemma well_ordered_snoc (statements : list BabelNode) (ref init : BabelNode) :
  well_ordered statements ->
  (forall o, object_of init = Some o -> Exists (is_var_declaration_of o) statements) ->
  well_ordered (statements ++ [variableDeclaration "var" [variableDeclarator ref init]]).
Proof.
  intros Hordered Hinit before after stmt Hsplit.
  destruct after as [|last after _] using rev_ind.
  - apply app_inj_tail in Hsplit as [<- <-]. eauto.
  - rewrite app_comm_cons, app_assoc in Hsplit.
    apply app_inj_tail in Hsplit as [Hsplit _].
    exact (Hordered _ _ _ Hsplit).
Qed.

(** A call keeps the prelude in declare-before-use order. *)
Lemma memoizeReference_keeps_order (fuel : nat) :
  forall (key : string) (this : t) (ref : BabelNode) (this' : t),
    well_ordered (prelude this) -> refs_declared this ->
    memoizeReference fuel key this = Some (ref, this') ->
    well_ordered (prelude this') /\ refs_declared this' /\
    Exists (is_var_declaration_of ref) (prelude this').
Proof.
  induction fuel as [|fuel IH]; intros key this ref this' Hordered Hdeclared H;
    [discriminate|].
  cbn [memoizeReference] in H.
  destruct (memoizedRefs this !! key) as [r|] eqn:Hlookup.
  { injection H as <- <-. split; [assumption|]. split; [assumption|]. eauto. }
  match type of H with
  | match ?scrutinee with _ => _ end = _ =>
      destruct scrutinee as [[init this1]|] eqn:Hinit
  end; [|discriminate].
  destruct (NameGenerator.generate (S fuel) (nameGenerator this1) (Some key))
    as [[name g']|] eqn:Hgen; [|discriminate].
  injection H as <- <-.
  assert (Hstep : well_ordered (prelude this1) /\ refs_declared this1 /\
                  forall o, object_of init = Some o ->
                            Exists (is_var_declaration_of o) (prelude this1)).
  { destruct (JsString.includes_char "(" key || JsString.includes_char "[" key)%bool.
    { injection Hinit as <- <-. repeat split; try assumption. discriminate. }
    destruct (String.eqb key "global").
    { injection Hinit as <- <-. repeat split; try assumption. discriminate. }
    destruct (JsString.lastIndexOf_dot key) as [i|].
    - destruct (memoizeReference fuel (String.substring 0 i key) this)
        as [[o this0]|] eqn:Hrec; [|discriminate].
      injection Hinit as <- <-.
      destruct (IH _ _ _ _ Hordered Hdeclared Hrec) as (Ho & Hd & Hex).
      repeat split; try assumption. intros o' Ho'. now injection Ho' as <-.
    - destruct (memoizeReference fuel "global" this)
        as [[o this0]|] eqn:Hrec; [|discriminate].
      injection Hinit as <- <-.
      destruct (IH _ _ _ _ Hordered Hdeclared Hrec) as (Ho & Hd & Hex).
      repeat split; try assumption. intros o' Ho'. now injection Ho' as <-. }
  destruct Hstep as (Hordered1 & Hdeclared1 & Hobject).
  cbn [prelude memoizedRefs set_memoizedRef push_prelude set_nameGenerator].
  assert (Hlast : Exists (is_var_declaration_of (identifier name))
                    (prelude this1 ++
                     [variableDeclaration "var"
                        [variableDeclarator (identifier name) init]])).
  { apply Exists_app. right. constructor. now exists init. }
  split; [now apply well_ordered_snoc|]. split; [|exact Hlast].
  intros key' ref' Hlookup'.
  cbn [prelude memoizedRefs set_memoizedRef push_prelude set_nameGenerator] in *.
  destruct (decide (key' = key)) as [->|Hne].
  - rewrite lookup_insert_eq in Hlookup'. now injection Hlookup' as <-.
  - rewrite lookup_insert_ne in Hlookup' by congruence.
    apply Exists_app. left. now apply (Hdeclared1 key').
Qed.

(** X17.  The prelude declares before it uses.  On a prelude generator whose
    prelude is in declare-before-use order and declares every memoized
    reference (a new one is), every call of [memoizeReference] returns
    (given fuel for the depth of the key and the forbidden names, and room
    for the counter below 2^53) and keeps both, and the identifier it
    returns is declared in the prelude it leaves. *)
Theorem memoizeReference_declares_before_use (fuel : nat) (key : string) (this : t) :
  well_ordered (prelude this) -> refs_declared this ->
  (if String.eqb key "global" then 0 else String.length key + 1)
    + size (NameGenerator.forbiddenNames (nameGenerator this)) < fuel ->
  NameGenerator.counter_room (nameGenerator this) (fuel * fuel) ->
  exists (ref : BabelNode) (this' : t),
    memoizeReference fuel key this = Some (ref, this') /\
    well_ordered (prelude this') /\ refs_declared this' /\
    Exists (is_var_declaration_of ref) (prelude this').
Proof.
  intros Hordered Hdeclared Hfuel Hroom.
  destruct (memoizeReference_terminates fuel key this Hfuel Hroom) as [[ref this'] Hrun].
  exists ref, this'. split; [exact Hrun|].
  exact (memoizeReference_keeps_order _ _ _ _ _ Hordered Hdeclared Hrun).
Qed.

Lemma new_well_ordered (debugNames : option bool) (uniqueSuffix : option string) :
  well_ordered (prelude (new debugNames uniqueSuffix))
  /\ refs_declared (new debugNames uniqueSuffix).
Proof.
  split.
  - intros before after stmt Hsplit. now destruct before.
  - intros key ref Hlookup. cbn in Hlookup. now rewrite lookup_empty in Hlookup.
Qed.

Lemma memoizeReference_declares_before_use_witness :
  well_ordered (prelude (new None None))
  /\ refs_declared (new None None)
  /\ (if String.eqb "Object.prototype" "global" then 0
      else String.length "Object.prototype" + 1)
     + size (NameGenerator.forbiddenNames (nameGenerator (new None None))) < 18
  /\ NameGenerator.counter_room (nameGenerator (new None None)) (18 * 18)
  /\ (fun r => (fst r, prelude (snd r)))
       <$> memoizeReference 18 "Object.prototype" (new None None)
     = Some (identifier "_$2",
             [ variableDeclaration "var"
                 [variableDeclarator (identifier "_$0") thisExpression];
               variableDeclaration "var"
                 [variableDeclarator (identifier "_$1")
                    (memberExpression (identifier "_$0") (identifier "Object") false)];
               variableDeclaration "var"
                 [variableDeclarator (identifier "_$2")
                    (memberExpression (identifier "_$1") (identifier "prototype")
                       false)] ])
  /\ exists (ref : BabelNode) (this' : t),
      memoizeReference 18 "Object.prototype" (new None None) = Some (ref, this') /\
      well_ordered (prelude this') /\ refs_declared this' /\
      Exists (is_var_declaration_of ref) (prelude this').
Proof.
  destruct (new_well_ordered None None) as [Hordered Hdeclared].
  assert (Hfuel : (if String.eqb "Object.prototype" "global" then 0
                   else String.length "Object.prototype" + 1)
                  + size (NameGenerator.forbiddenNames (nameGenerator (new None None)))
                  < 18) by (vm_compute; lia).
  assert (Hroom : NameGenerator.counter_room (nameGenerator (new None None)) (18 * 18))
    by (vm_compute; discriminate).
  split; [exact Hordered|]. split; [exact Hdeclared|]. split; [exact Hfuel|].
  split; [exact Hroom|]. split; [vm_compute; reflexivity|].
  exact (memoizeReference_declares_before_use 18 "Object.prototype" (new None None)
           Hordered Hdeclared Hfuel Hroom).
Defined.

(** A call appends as many statements as it adds keys to the cache. *)
Lemma memoizeReference_counts (fuel : nat) :
  forall (key : string) (this : t) (ref : BabelNode) (this' : t),
    memoizeReference fuel key this = Some (ref, this') ->
    length (prelude this') + size (memoizedRefs this)
    = length (prelude this) + size (memoizedRefs this')
    /\ (forall (key' : string) (ref' : BabelNode),
           memoizedRefs this !! key' = Some ref' ->
           memoizedRefs this' !! key' = Some ref')
    /\ memoizedRefs this' !! key = Some ref.
Proof.
  induction fuel as [|fuel IH]; intros key this ref this' H; [discriminate|].
  pose proof H as Hrun.
  cbn [memoizeReference] in H.
  destruct (memoizedRefs this !! key) as [r|] eqn:Hlookup.
  { injection H as <- <-. auto. }
  match type of H with
  | match ?scrutinee with _ => _ end = _ =>
      destruct scrutinee as [[init this1]|] eqn:Hinit
  end; [|discriminate].
  destruct (NameGenerator.generate (S fuel) (nameGenerator this1) (Some key))
    as [[name g']|] eqn:Hgen; [|discriminate].
  injection H as <- <-.
  assert (Hstep : length (prelude this1) + size (memoizedRefs this)
                  = length (prelude this) + size (memoizedRefs this1)
                  /\ (forall key' ref', memoizedRefs this !! key' = Some ref' ->
                                        memoizedRefs this1 !! key' = Some ref')
                  /\ memoizedRefs this1 !! key = None).
  { destruct (JsString.includes_char "(" key || JsString.includes_char "[" key)%bool.
    { injection Hinit as <- <-. auto. }
    destruct (String.eqb key "global") eqn:Hkg.
    { injection Hinit as <- <-. auto. }
    apply String.eqb_neq in Hkg.
    destruct (JsString.lastIndexOf_dot key) as [i|] eqn:Hdot.
    - destruct (memoizeReference fuel (String.substring 0 i key) this)
        as [[o this0]|] eqn:Hrec; [|discriminate].
      injection Hinit as <- <-.
      destruct (IH _ _ _ _ Hrec) as (Hcount & Hstable & _).
      split; [exact Hcount|]. split; [exact Hstable|].
      pose proof (parent_shorter _ _ Hdot) as Hshorter.
      rewrite (memoizeReference_frame _ _ _ _ _ Hrec key); [exact Hlookup|exact Hkg| |lia].
      intros Heq. rewrite <- Heq in Hshorter. lia.
    - destruct (memoizeReference fuel "global" this)
        as [[o this0]|] eqn:Hrec; [|discriminate].
      injection Hinit as <- <-.
      destruct (IH _ _ _ _ Hrec) as (Hcount & Hstable & _).
      split; [exact Hcount|]. split; [exact Hstable|].
      rewrite (memoizeReference_frame _ _ _ _ _ Hrec key); [exact Hlookup|exact Hkg| |].
      + exact Hkg.
      + intros Hne. now destruct Hne. }
  destruct Hstep as (Hcount & Hstable & Hfresh).
  cbn [prelude memoizedRefs set_memoizedRef push_prelude set_nameGenerator].
  rewrite length_app, (map_size_insert_None _ _ _ Hfresh). cbn [length].
  split; [lia|]. split; [|apply lookup_insert_eq].
  intros key' ref' Hold. rewrite lookup_insert_ne; [now apply Hstable|].
  intros <-. apply Hstable in Hold. congruence.
Qed.

(** X18.  One declaration per memoized key: a call of [memoizeReference]
    returns (given fuel for the depth of the key and the forbidden names,
    and room for the counter below 2^53), appends to the prelude exactly as
    many statements as it adds keys to the cache, and never changes or drops
    what the cache holds; so a prelude that has as many statements as the
    cache has keys (a new one has none of either) keeps that. *)
Theorem memoizeReference_one_declaration_per_key (fuel : nat) (key : string) (this : t) :
  (if String.eqb key "global" then 0 else String.length key + 1)
    + size (NameGenerator.forbiddenNames (nameGenerator this)) < fuel ->
  NameGenerator.counter_room (nameGenerator this) (fuel * fuel) ->
  exists (ref : BabelNode) (this' : t),
    memoizeReference fuel key this = Some (ref, this')
    /\ length (prelude this') + size (memoizedRefs this)
       = length (prelude this) + size (memoizedRefs this')
    /\ (forall (key' : string) (ref' : BabelNode),
           memoizedRefs this !! key' = Some ref' ->
           memoizedRefs this' !! key' = Some ref')
    /\ memoizedRefs this' !! key = Some ref.
Proof.
  intros Hfuel Hroom.
  destruct (memoizeReference_terminates fuel key this Hfuel Hroom) as [[ref this'] Hrun].
  exists ref, this'. split; [exact Hrun|].
  exact (memoizeReference_counts _ _ _ _ _ Hrun).
Qed.

(** The prelude generator after a first [memoizeReference("Object.prototype")]. *)
Definition memoized_Object_prototype : t :=
  default (new None None) (snd <$> memoizeReference 18 "Object.prototype" (new None None)).

Lemma memoized_Object_prototype_run :
  memoizeReference 18 "Object.prototype" (new None None)
  = Some (identifier "_$2", memoized_Object_prototype).
Proof. vm_compute. reflexivity. Qed.

Lemma memoizeReference_one_declaration_per_key_witness :
  (if String.eqb "Object.prototype" "global" then 0
   else String.length "Object.prototype" + 1)
  + size (NameGenerator.forbiddenNames (nameGenerator (new None None))) < 18
  /\ NameGenerator.counter_room (nameGenerator (new None None)) (18 * 18)
  /\ length (prelude memoized_Object_prototype) = 3
  /\ size (memoizedRefs memoized_Object_prototype) = 3
  /\ exists (ref : BabelNode) (this' : t),
      memoizeReference 18 "Object.prototype" (new None None) = Some (ref, this')
      /\ length (prelude this') + size (memoizedRefs (new None None))
         = length (prelude (new None None)) + size (memoizedRefs this')
      /\ (forall (key' : string) (ref' : BabelNode),
             memoizedRefs (new None None) !! key' = Some ref' ->
             memoizedRefs this' !! key' = Some ref')
      /\ memoizedRefs this' !! "Object.prototype" = Some ref.
Proof.
  assert (Hfuel : (if String.eqb "Object.prototype" "global" then 0
                   else String.length "Object.prototype" + 1)
                  + size (NameGenerator.forbiddenNames (nameGenerator (new None None)))
                  < 18) by (vm_compute; lia).
  assert (Hroom : NameGenerator.counter_room (nameGenerator (new None None)) (18 * 18))
    by (vm_compute; discriminate).
  split; [exact Hfuel|]. split; [exact Hroom|].
  split; [vm_compute; reflexivity|]. split; [vm_compute; reflexivity|].
  exact (memoizeReference_one_declaration_per_key 18 "Object.prototype" (new None None)
           Hfuel Hroom).
Defined.

(** [name] was made by the name generator [g] for a counter value it has
    left behind. *)
Definition made_before (g : NameGenerator.t) (name : string) : Prop :=
  exists (d : option string) (k : N),
    name = NameGenerator.make_id g d k /\ (k < NameGenerator.uidCounter g)%N.

(** Every identifier the prelude generator has handed out, as a memoized
    reference or as the name of a derived value, came from its name
    generator; and no two keys share a memoized reference. *)
Definition names_fresh (this : t) : Prop :=
  (forall (key : string) (ref : BabelNode),
      memoizedRefs this !! key = Some ref ->
      exists name : string, ref = identifier name /\ made_before (nameGenerator this) name)
  /\
  (forall (name : string) (args : list Value),
      derivedIds this !! name = Some args -> made_before (nameGenerator this) name)
  /\
  (forall (key1 key2 : string) (ref : BabelNode),
      memoizedRefs this !! key1 = Some ref -> memoizedRefs this !! key2 = Some ref ->
      key1 = key2).

(** [name] is in use: it names a memoized reference or a derived value. *)
Definition handed_out (this : t) (name : string) : Prop :=
  (exists key : string, memoizedRefs this !! key = Some (identifier name))
  \/ is_Some (derivedIds this !! name).

Lemma made_before_mono (g g' : NameGenerator.t) (name : string) :
  NameGenerator.same_config g g' ->
  (NameGenerator.uidCounter g <= NameGenerator.uidCounter g')%N ->
  made_before g name -> made_before g' name.
Proof.
  intros Hcfg Hle (d & k & Hname & Hk). exists d, k. split; [|lia].
  rewrite Hname. now apply NameGenerator.make_id_config.
Qed.

Lemma made_before_generated (fuel : nat) (g g' : NameGenerator.t) (d : option string)
    (name : string) :
  NameGenerator.counter_room g fuel ->
  NameGenerator.generate fuel g d = Some (name, g') ->
  NameGenerator.same_config g g'
  /\ (NameGenerator.uidCounter g <= NameGenerator.uidCounter g')%N
  /\ made_before g' name
  /\ ~ made_before g name.
Proof.
  intros Hroom Hgen.
  destruct (NameGenerator.generate_sound_room _ _ _ _ _ Hroom Hgen)
    as (k & Hk & Hc & _ & Hid & _ & Hcfg).
  split; [exact Hcfg|]. split; [lia|]. split.
  - exists d, k. split; [|lia]. rewrite Hid. now apply NameGenerator.make_id_config.
  - intros (d0 & k0 & Hname0 & Hk0). rewrite Hid in Hname0.
    apply NameGenerator.make_id_inj in Hname0. lia.
Qed.

Lemma not_handed_out (this : t) (name : string) :
  names_fresh this -> ~ made_before (nameGenerator this) name -> ~ handed_out this name.
Proof.
  intros (Hrefs & Hderived & _) Hnew [[key Hkey]|[args Hargs]].
  - destruct (Hrefs _ _ Hkey) as (name0 & Heq & Hmade). now injection Heq as <-.
  - now apply Hderived in Hargs.
Qed.

(** While the counter stays below 2^53, a call keeps the identifiers
    apart. *)
Lemma memoizeReference_keeps_fresh (fuel : nat) :
  forall (key : string) (this : t) (ref : BabelNode) (this' : t),
    names_fresh this ->
    NameGenerator.counter_room (nameGenerator this) (fuel * fuel) ->
    memoizeReference fuel key this = Some (ref, this') ->
    names_fresh this'
    /\ NameGenerator.same_config (nameGenerator this) (nameGenerator this')
    /\ (NameGenerator.uidCounter (nameGenerator this)
        <= NameGenerator.uidCounter (nameGenerator this'))%N
    /\ derivedIds this' = derivedIds this
    /\ (memoizedRefs this !! key = None ->
        exists name : string, ref = identifier name /\ ~ handed_out this name).
Proof.
  induction fuel as [|fuel IH]; intros key this ref this' Hfresh Hroom H; [discriminate|].
  destruct (counter_room_step _ _ Hroom) as [Hroom0 Hroom1].
  cbn [memoizeReference] in H.
  destruct (memoizedRefs this !! key) as [r|] eqn:Hlookup.
  { injection H as <- <-. split; [assumption|].
    split; [apply NameGenerator.same_config_refl|]. split; [lia|].
    split; [reflexivity | discriminate]. }
  match type of H with
  | match ?scrutinee with _ => _ end = _ =>
      destruct scrutinee as [[init this1]|] eqn:Hinit
  end; [|discriminate].
  destruct (NameGenerator.generate (S fuel) (nameGenerator this1) (Some key))
    as [[name g']|] eqn:Hgen; [|discriminate].
  injection H as <- <-.
  assert (Hstep : names_fresh this1
                  /\ NameGenerator.same_config (nameGenerator this) (nameGenerator this1)
                  /\ (NameGenerator.uidCounter (nameGenerator this)
                      <= NameGenerator.uidCounter (nameGenerator this1))%N
                  /\ derivedIds this1 = derivedIds this
                  /\ (NameGenerator.uidCounter (nameGenerator this1)
                      <= NameGenerator.uidCounter (nameGenerator this)
                         + N.of_nat (fuel * fuel))%N).
  { destruct (JsString.includes_char "(" key || JsString.includes_char "[" key)%bool.
    { injection Hinit as <- <-. split; [assumption|].
      split; [apply NameGenerator.same_config_refl|]. split; [lia|].
      split; [reflexivity | lia]. }
    destruct (String.eqb key "global").
    { injection Hinit as <- <-. split; [exact Hfresh|].
      split; [apply NameGenerator.same_config_refl|]. split; [cbn; lia|].
      split; [reflexivity | cbn; lia]. }
    destruct (JsString.lastIndexOf_dot key) as [i|].
    - destruct (memoizeReference fuel (String.substring 0 i key) this)
        as [[o this0]|] eqn:Hrec; [|discriminate].
      injection Hinit as <- <-.
      pose proof (memoizeReference_counter _ _ _ _ _ Hrec).
      destruct (IH _ _ _ _ Hfresh Hroom0 Hrec) as (? & ? & ? & ? & _). auto.
    - destruct (memoizeReference fuel "global" this)
        as [[o this0]|] eqn:Hrec; [|discriminate].
      injection Hinit as <- <-.
      pose proof (memoizeReference_counter _ _ _ _ _ Hrec).
      destruct (IH _ _ _ _ Hfresh Hroom0 Hrec) as (? & ? & ? & ? & _). auto. }
  destruct Hstep as (Hfresh1 & Hcfg1 & Hle1 & Hderived1 & Hup1).
  destruct (made_before_generated _ _ _ _ _ (Hroom1 _ Hup1) Hgen)
    as (Hcfg & Hle & Hmade & Hnew).
  pose proof Hfresh1 as (Hrefs1 & Hnames1 & Hinj1).
  assert (Hunused : forall key', memoizedRefs this1 !! key' <> Some (identifier name)).
  { intros key' Hkey'. destruct (Hrefs1 _ _ Hkey') as (name0 & Heq & Hmade0).
    now injection Heq as <-. }
  cbn [prelude memoizedRefs derivedIds nameGenerator set_memoizedRef push_prelude
         set_nameGenerator].
  split; [|split; [|split; [|split]]].
  - split; [|split].
    + cbn [prelude memoizedRefs derivedIds nameGenerator set_memoizedRef push_prelude
             set_nameGenerator].
      intros key' ref' Hlookup'. destruct (decide (key' = key)) as [->|Hne].
      * rewrite lookup_insert_eq in Hlookup'. injection Hlookup' as <-. eauto.
      * rewrite lookup_insert_ne in Hlookup' by congruence.
        destruct (Hrefs1 _ _ Hlookup') as (name0 & Heq & Hmade0).
        exists name0. split; [exact Heq|]. now apply (made_before_mono _ _ _ Hcfg Hle).
    + cbn [prelude memoizedRefs derivedIds nameGenerator set_memoizedRef push_prelude
             set_nameGenerator].
      intros name0 args0 Hargs0.
      apply (made_before_mono _ _ _ Hcfg Hle). now apply (Hnames1 name0 args0).
    + cbn [prelude memoizedRefs derivedIds nameGenerator set_memoizedRef push_prelude
             set_nameGenerator].
      intros key1 key2 ref' H1 H2.
      destruct (decide (key1 = key)) as [->|Hne1];
        destruct (decide (key2 = key)) as [->|Hne2]; [reflexivity| | |].
      * rewrite lookup_insert_eq in H1. injection H1 as <-.
        rewrite lookup_insert_ne in H2 by congruence. now apply Hunused in H2.
      * rewrite lookup_insert_eq in H2. injection H2 as <-.
        rewrite lookup_insert_ne in H1 by congruence. now apply Hunused in H1.
      * rewrite lookup_insert_ne in H1, H2 by congruence. now apply (Hinj1 _ _ ref').
  - eapply NameGenerator.same_config_trans; eassumption.
  - lia.
  - exact Hderived1.
  - intros _. exists name. split; [reflexivity|].
    apply not_handed_out; [exact Hfresh|].
    intros Hmade0. apply Hnew. now apply (made_before_mono _ _ _ Hcfg1 Hle1).
Qed.

Lemma new_names_fresh (debugNames : option bool) (uniqueSuffix : option string) :
  names_fresh (new debugNames uniqueSuffix).
Proof.
  split; [|split].
  - intros key ref H. cbn in H. now rewrite lookup_empty in H.
  - intros name args H. cbn in H. now rewrite lookup_empty in H.
  - intros key1 key2 ref H _. cbn in H. now rewrite lookup_empty in H.
Qed.

(** X19.  Identifiers are never handed out twice.  On a prelude generator
    all of whose identifiers came from its name generator and whose memoized
    references are pairwise distinct (a new one has none), a call of
    [memoizeReference] returns (given fuel for the depth of the key and the
    forbidden names, and room for the counter below 2^53) and keeps both;
    when the key was not memoized yet, the identifier it returns was not in
    use before, neither as a memoized reference nor as the name of a
    derived value. *)
Theorem memoizeReference_hands_out_fresh_names (fuel : nat) (key : string) (this : t) :
  names_fresh this ->
  (if String.eqb key "global" then 0 else String.length key + 1)
    + size (NameGenerator.forbiddenNames (nameGenerator this)) < fuel ->
  NameGenerator.counter_room (nameGenerator this) (fuel * fuel) ->
  exists (ref : BabelNode) (this' : t),
    memoizeReference fuel key this = Some (ref, this')
    /\ names_fresh this'
    /\ NameGenerator.same_config (nameGenerator this) (nameGenerator this')
    /\ (NameGenerator.uidCounter (nameGenerator this)
        <= NameGenerator.uidCounter (nameGenerator this'))%N
    /\ derivedIds this' = derivedIds this
    /\ (memoizedRefs this !! key = None ->
        exists name : string, ref = identifier name /\ ~ handed_out this name).
Proof.
  intros Hfresh Hfuel Hroom.
  destruct (memoizeReference_terminates fuel key this Hfuel Hroom) as [[ref this'] Hrun].
  exists ref, this'. split; [exact Hrun|].
  exact (memoizeReference_keeps_fresh _ _ _ _ _ Hfresh Hroom Hrun).
Qed.

Lemma memoizeReference_hands_out_fresh_names_witness :
  names_fresh (new None None)
  /\ (if String.eqb "Object.prototype" "global" then 0
      else String.length "Object.prototype" + 1)
     + size (NameGenerator.forbiddenNames (nameGenerator (new None None))) < 18
  /\ NameGenerator.counter_room (nameGenerator (new None None)) (18 * 18)
  /\ exists (ref : BabelNode) (this' : t),
      memoizeReference 18 "Object.prototype" (new None None) = Some (ref, this')
      /\ names_fresh this'
      /\ NameGenerator.same_config (nameGenerator (new None None)) (nameGenerator this')
      /\ (NameGenerator.uidCounter (nameGenerator (new None None))
          <= NameGenerator.uidCounter (nameGenerator this'))%N
      /\ derivedIds this' = derivedIds (new None None)
      /\ (memoizedRefs (new None None) !! "Object.prototype" = None ->
          exists name : string,
            ref = identifier name /\ ~ handed_out (new None None) name).
Proof.
  assert (Hfuel : (if String.eqb "Object.prototype" "global" then 0
                   else String.length "Object.prototype" + 1)
                  + size (NameGenerator.forbiddenNames (nameGenerator (new None None)))
                  < 18) by (vm_compute; lia).
  assert (Hroom : NameGenerator.counter_room (nameGenerator (new None None)) (18 * 18))
    by (vm_compute; discriminate).
  split; [apply new_names_fresh|]. split; [exact Hfuel|]. split; [exact Hroom|].
  exact (memoizeReference_hands_out_fresh_names 18 "Object.prototype" (new None None)
           (new_names_fresh None None) Hfuel Hroom).
Defined.

End PreludeGeneratorProperties.

(* ===================================================================== *)
(** * generator.js: more on [derive] *)
(* ===================================================================== *)

(** The prelude generator, the realm and the value [derive] leaves, once
    the name generator has produced [name] and is left as [g']. *)
Definition derived_prelude (name : string) (g' : NameGenerator.t) (args : list Value)
    (prelude : PreludeGenerator.t) : PreludeGenerator.t :=
  PreludeGenerator.set_derivedIds
    (<[name := args]> (PreludeGenerator.derivedIds prelude))
    (PreludeGenerator.set_nameGenerator g' prelude).

Definition derived_realm (name : string) (realm : Realm) : Realm :=
  set_intrinsicNames (insert (nextId realm) name) (set_nextId (S (nextId realm)) realm).

Definition derived_value (types : TypesDomain) (values : option (list Value))
    (optionalArgs : option DeriveOptions) (realm : Realm) : Value :=
  AbstractValue (nextId realm) (ValueClass_eqb (getType types) ObjectValue_class)
    types values
    (match optionalArgs with Some o => opt_kind o | None => None end) [].

(** How [derive] goes up to the typeof guard. *)
Lemma derive_run (fuel : nat) (types : TypesDomain) (values : option (list Value))
    (args : list Value) (buildNode_ : (list BabelNode -> BabelNode) + BabelNode)
    (optionalArgs : option DeriveOptions) (this : Generator) (realm : Realm)
    (name : string) (g' : NameGenerator.t) :
  (instanceof_Function buildNode_ || Nat.eqb (length args) 0)%bool = true ->
  NameGenerator.generate fuel (PreludeGenerator.nameGenerator (preludeGenerator this))
    (Some "derived") = Some (name, g') ->
  let res := derived_value types values optionalArgs realm in
  let this1 :=
    body_push (derived_entry (identifier name) res args buildNode_ optionalArgs)
      (set_preludeGenerator (derived_prelude name g' args (preludeGenerator this)) this) in
  derive fuel types values args buildNode_ optionalArgs (this, realm)
  = if skipInvariant_set optionalArgs
    then (Normal res, (this1, derived_realm name realm))
    else
      match getType types with
      | UndefinedValue_class | NullValue_class =>
          (Abrupt (InvariantViolation ""), (this1, derived_realm name realm))
      | type =>
          (Normal res,
           (match typeofString_picked type with
            | Some typeofString => body_push (typeof_guard_entry res typeofString) this1
            | None => this1
            end,
            derived_realm name realm))
      end.
Proof.
  intros Hguard Hgen res this1. unfold derive, bind, invariant.
  rewrite Hguard. cbn [ret gets fst snd]. rewrite Hgen.
  cbn [on_this on_realm modify createAbstract fst snd ret bind].
  unfold skipInvariant_set.
  destruct (match optionalArgs with
            | Some o => truthy (opt_skipInvariant o)
            | None => false
            end); [reflexivity|].
  unfold typeofString_of, class_instanceof_FunctionValue.
  destruct (getType types) eqn:Htype; cbn; subst res this1;
    unfold derived_value; rewrite ?Htype; reflexivity.
Qed.

(** X20.  The name of a derived value is new.  On a prelude generator all
    of whose identifiers came from its name generator, and whose counter has
    room below 2^53 for the iterations of the name generator's loop, a call
    of [derive] that returns has given the value an identifier that was not
    in use before, neither for a memoized reference nor for a derived value;
    it has
    recorded the arguments under that identifier in [derivedIds] and the
    identifier as the value's intrinsic name, has left the memoized
    references and the prelude alone, and the first entry it appended
    declares the value and builds [var identifier = ...]. *)
Theorem derive_hands_out_fresh_name (fuel : nat) (types : TypesDomain)
    (values : option (list Value)) (args : list Value)
    (buildNode_ : (list BabelNode -> BabelNode) + BabelNode)
    (optionalArgs : option DeriveOptions)
    (this this' : Generator) (realm realm' : Realm) (res : Value) :
  PreludeGeneratorProperties.names_fresh (preludeGenerator this) ->
  NameGenerator.counter_room
    (PreludeGenerator.nameGenerator (preludeGenerator this)) fuel ->
  derive fuel types values args buildNode_ optionalArgs (this, realm)
  = (Normal res, (this', realm')) ->
  exists name : string,
    ~ PreludeGeneratorProperties.handed_out (preludeGenerator this) name
    /\ PreludeGenerator.derivedIds (preludeGenerator this')
       = <[name := args]> (PreludeGenerator.derivedIds (preludeGenerator this))
    /\ intrinsicNames realm' = <[abstract_id res := name]> (intrinsicNames realm)
    /\ abstract_id res = nextId realm
    /\ PreludeGenerator.memoizedRefs (preludeGenerator this')
       = PreludeGenerator.memoizedRefs (preludeGenerator this)
    /\ PreludeGenerator.prelude (preludeGenerator this')
       = PreludeGenerator.prelude (preludeGenerator this)
    /\ PreludeGeneratorProperties.names_fresh (preludeGenerator this')
    /\ exists rest : list GeneratorEntry,
        body this'
        = body this
          ++ derived_entry (identifier name) res args buildNode_ optionalArgs :: rest.
Proof.
  intros Hfresh Hroom Hrun.
  destruct (instanceof_Function buildNode_ || Nat.eqb (length args) 0)%bool eqn:Hguard.
  2:{ unfold derive, bind, invariant in Hrun. rewrite Hguard in Hrun. discriminate. }
  destruct (NameGenerator.generate fuel
              (PreludeGenerator.nameGenerator (preludeGenerator this)) (Some "derived"))
    as [[name g']|] eqn:Hgen.
  2:{ unfold derive, bind, invariant in Hrun. rewrite Hguard in Hrun.
      cbn [ret gets fst snd] in Hrun. rewrite Hgen in Hrun. discriminate. }
  rewrite (derive_run _ _ _ _ _ _ _ _ _ _ Hguard Hgen) in Hrun.
  destruct (PreludeGeneratorProperties.made_before_generated _ _ _ _ _ Hroom Hgen)
    as (Hcfg & Hle & Hmade & Hnew).
  assert (Hstate : res = derived_value types values optionalArgs realm
                   /\ preludeGenerator this'
                      = derived_prelude name g' args (preludeGenerator this)
                   /\ realm' = derived_realm name realm
                   /\ exists rest,
                       body this'
                       = body this
                         ++ derived_entry (identifier name) res args buildNode_
                              optionalArgs :: rest).
  { destruct (skipInvariant_set optionalArgs).
    - injection Hrun as <- <- <-. repeat split. now exists [].
    - destruct (getType types); try discriminate; injection Hrun as <- <- <-;
        repeat split; cbn [body body_push set_preludeGenerator typeofString_picked];
        rewrite <- ?app_assoc; eauto. }
  destruct Hstate as (-> & Hprelude & -> & Hbody).
  exists name. rewrite Hprelude.
  split; [now apply PreludeGeneratorProperties.not_handed_out|].
  split; [reflexivity|]. split; [reflexivity|]. split; [reflexivity|].
  split; [reflexivity|]. split; [reflexivity|]. split; [|exact Hbody].
  destruct Hfresh as (Hrefs & Hnames & Hinj). split; [|split].
  - intros key ref Hkey. destruct (Hrefs _ _ Hkey) as (name0 & Heq & Hmade0).
    exists name0. split; [exact Heq|].
    now apply (PreludeGeneratorProperties.made_before_mono _ _ _ Hcfg Hle).
  - intros name0 args0 Hargs0.
    cbn [derived_prelude PreludeGenerator.derivedIds PreludeGenerator.set_derivedIds
           PreludeGenerator.nameGenerator PreludeGenerator.set_nameGenerator] in *.
    destruct (decide (name0 = name)) as [->|Hne]; [exact Hmade|].
    rewrite lookup_insert_ne in Hargs0 by congruence.
    apply (PreludeGeneratorProperties.made_before_mono _ _ _ Hcfg Hle).
    now apply (Hnames name0 args0).
  - exact Hinj.
Qed.

Lemma derive_hands_out_fresh_name_witness :
  PreludeGeneratorProperties.names_fresh (preludeGenerator fresh_generator)
  /\ NameGenerator.counter_room
       (PreludeGenerator.nameGenerator (preludeGenerator fresh_generator)) 1
  /\ fst (derive 1 {| getType := StringValue_class |} None [] (inr (identifier "f")) None
            (fresh_generator, fresh_realm))
     = Normal (AbstractValue 0 false {| getType := StringValue_class |} None None [])
  /\ exists name : string,
      ~ PreludeGeneratorProperties.handed_out (preludeGenerator fresh_generator) name
      /\ PreludeGenerator.derivedIds
           (preludeGenerator
              (fst (snd (derive 1 {| getType := StringValue_class |} None []
                           (inr (identifier "f")) None (fresh_generator, fresh_realm)))))
         = <[name := []]> (PreludeGenerator.derivedIds (preludeGenerator fresh_generator)).
Proof.
  pose proof (PreludeGeneratorProperties.new_names_fresh None None) as Hfresh.
  assert (Hroom : NameGenerator.counter_room
                    (PreludeGenerator.nameGenerator (preludeGenerator fresh_generator)) 1)
    by (vm_compute; discriminate).
  split; [exact Hfresh|]. split; [exact Hroom|]. split; [reflexivity|].
  destruct (derive_hands_out_fresh_name 1 {| getType := StringValue_class |} None []
              (inr (identifier "f")) None fresh_generator _ fresh_realm _ _
              Hfresh Hroom eq_refl)
    as (name & Hnew & Hderived & _).
  exists name. split; [exact Hnew | exact Hderived].
Defined.

(** X21.  [derive] takes arguments only together with a build function:
    given an expression instead and a non-empty list of arguments, it fails
    its first assertion before anything is changed: no identifier is taken
    from the name generator, and neither the generator nor the realm
    changes. *)
Theorem derive_failures (fuel : nat) (types : TypesDomain)
    (values : option (list Value)) (args : list Value)
    (buildNode_ : (list BabelNode -> BabelNode) + BabelNode)
    (optionalArgs : option DeriveOptions) (this : Generator) (realm : Realm) :
  instanceof_Function buildNode_ = false -> args <> [] ->
  derive fuel types values args buildNode_ optionalArgs (this, realm)
  = (Abrupt (InvariantViolation ""), (this, realm)).
Proof.
  intros Hexpression Hargs. unfold derive, bind, invariant. rewrite Hexpression.
  destruct args; [contradiction | reflexivity].
Qed.

Lemma derive_failures_witness :
  instanceof_Function (inr (identifier "f")) = false
  /\ [NumberValue 1] <> []
  /\ derive 0 {| getType := StringValue_class |} None [NumberValue 1]
       (inr (identifier "f")) None (fresh_generator, fresh_realm)
     = (Abrupt (InvariantViolation ""), (fresh_generator, fresh_realm)).
Proof.
  assert (Hargs : [NumberValue 1] <> []) by discriminate.
  split; [reflexivity|]. split; [exact Hargs|].
  exact (derive_failures 0 {| getType := StringValue_class |} None [NumberValue 1]
           (inr (identifier "f")) None fresh_generator fresh_realm eq_refl Hargs).
Defined.

(* ===================================================================== *)
(** * generator.js: [visitEntry] and [visit] *)
(* ===================================================================== *)

(** [VisitEntryCallbacks]: five callbacks of the visitor, which keeps
    state of its own ([S]). *)
Record VisitEntryCallbacks (S : Type) := {
  visitValue : Value -> M S unit;
  visitGenerator : nat -> M S unit;
  canSkip : Value -> M S bool;
  recordDeclaration : Value -> M S unit;
  recordDelayedEntry : GeneratorEntry -> M S unit;
}.
Arguments visitValue {S} _ _.
Arguments visitGenerator {S} _ _.
Arguments canSkip {S} _ _.
Arguments recordDeclaration {S} _ _.
Arguments recordDelayedEntry {S} _ _.

(** [visitEntry(entry, callbacks)]: [&&] asks [canSkip] only of an entry
    that is pure and declares a value. *)
Definition visitEntry {S : Type} (entry : GeneratorEntry)
    (callbacks : VisitEntryCallbacks S) : M S unit :=
  let! skipped :=
    if truthy (isPure entry) then
      match declared entry with
      | Some d => canSkip callbacks d
      | None => ret false
      end
    else ret false in
  if (skipped : bool) then recordDelayedEntry callbacks entry
  else
    match declared entry with
    | Some d => recordDeclaration callbacks d
    | None => ret tt
    end ;;;
    for_of (args entry) (fun boundArg => visitValue callbacks boundArg) ;;;
    match dependencies entry with
    | Some dependencies =>
        for_of dependencies (fun dependency => visitGenerator callbacks dependency)
    | None => ret tt
    end.

(** [visit(callbacks)] *)
Definition visit {S : Type} (this : Generator) (callbacks : VisitEntryCallbacks S)
    : M S unit :=
  for_of (body this) (fun bodyEntry => visitEntry bodyEntry callbacks).

(** What a visitor lets an observer see: the calls of its callbacks, in
    order.  A delayed entry is known by what it declares. *)
Inductive VisitEvent :=
| ev_delayed (declared : option Value)
| ev_declaration (v : Value)
| ev_value (v : Value)
| ev_generator (g : nat).

(** Callbacks that answer [canSkip] from a table and record every other
    call. *)
Definition observing_callbacks (skip : Value -> bool)
    : VisitEntryCallbacks (list VisitEvent) :=
  {| visitValue := fun v => modify (fun log => log ++ [ev_value v]);
     visitGenerator := fun g => modify (fun log => log ++ [ev_generator g]);
     canSkip := fun v => ret (skip v);
     recordDeclaration := fun v => modify (fun log => log ++ [ev_declaration v]);
     recordDelayedEntry :=
       fun entry => modify (fun log => log ++ [ev_delayed (declared entry)]) |}.

(** What the observer sees of one entry. *)
Definition visit_events (skip : Value -> bool) (entry : GeneratorEntry)
    : list VisitEvent :=
  if omitted skip entry then [ev_delayed (declared entry)]
  else
    match declared entry with
    | Some d => [ev_declaration d]
    | None => []
    end
    ++ map ev_value (args entry)
    ++ match dependencies entry with
       | Some dependencies => map ev_generator dependencies
       | None => []
       end.

Lemma for_of_logging {A E : Type} (event : A -> E) (l : list A) (log : list E) :
  for_of l (fun x => modify (fun log => log ++ [event x])) log
  = (Normal tt, log ++ map event l).
Proof.
  revert log. induction l as [|x l IH]; intros log; cbn [for_of map].
  - unfold ret. now rewrite app_nil_r.
  - erewrite bind_run by reflexivity. rewrite IH. now rewrite <- app_assoc.
Qed.

Lemma visitEntry_observing (skip : Value -> bool) (entry : GeneratorEntry)
    (log : list VisitEvent) :
  visitEntry entry (observing_callbacks skip) log
  = (Normal tt, log ++ visit_events skip entry).
Proof.
  unfold visitEntry, visit_events, omitted.
  assert (Hvisit :
            (match declared entry with
             | Some d => recordDeclaration (observing_callbacks skip) d
             | None => ret tt
             end ;;;
             for_of (args entry)
               (fun boundArg => visitValue (observing_callbacks skip) boundArg) ;;;
             match dependencies entry with
             | Some dependencies =>
                 for_of dependencies
                   (fun dependency => visitGenerator (observing_callbacks skip) dependency)
             | None => ret tt
             end) log
            = (Normal tt,
               log ++
               match declared entry with
               | Some d => [ev_declaration d]
               | None => []
               end
               ++ map ev_value (args entry)
               ++ match dependencies entry with
                  | Some dependencies => map ev_generator dependencies
                  | None => []
                  end)).
  { cbn [recordDeclaration visitValue visitGenerator observing_callbacks].
    erewrite bind_run
      with (s' := log ++ match declared entry with
                         | Some d => [ev_declaration d]
                         | None => []
                         end)
      by (destruct (declared entry); [reflexivity | unfold ret; now rewrite app_nil_r]).
    erewrite bind_run by apply for_of_logging.
    destruct (dependencies entry) as [deps|].
    - rewrite for_of_logging. now rewrite <- !app_assoc.
    - unfold ret. now rewrite app_nil_r, <- app_assoc. }
  destruct (truthy (isPure entry)); cbn [andb].
  - destruct (declared entry) as [d|] eqn:Hd.
    + erewrite bind_run by reflexivity.
      destruct (skip d); [|exact Hvisit].
      cbn [recordDelayedEntry observing_callbacks modify]. now rewrite Hd.
    + erewrite bind_run by reflexivity. exact Hvisit.
  - erewrite bind_run by reflexivity. exact Hvisit.
Qed.

(** X22.  Seen through callbacks that record their calls, [visit] goes
    through the entries of the body in their order; an entry that is pure,
    declares a value and whose declared value [canSkip] accepts is recorded
    as delayed and nothing else is done with it (these are the entries
    [serialize] leaves out when [canOmit] answers as [canSkip] does); for
    every other entry the declared value, if any, is recorded first, then
    each argument is visited in order, then each dependency. *)
Theorem visit_in_order (skip : Value -> bool) (this : Generator) (log : list VisitEvent) :
  visit this (observing_callbacks skip) log
  = (Normal tt, log ++ flat_map (visit_events skip) (body this)).
Proof.
  unfold visit. generalize (body this) as entries. intros entries. revert log.
  induction entries as [|entry rest IH]; intros log.
  - cbn. now rewrite app_nil_r.
  - cbn [for_of flat_map].
    erewrite bind_run by apply visitEntry_observing.
    rewrite IH. now rewrite app_assoc.
Qed.

Example visit_example_trace :
  snd (visit example_this (observing_callbacks (fun v => identical v example_a)) [])
  = [ ev_delayed (Some example_a);
      ev_declaration example_b;
      ev_value example_b; ev_value example_b ].
Proof. vm_compute. reflexivity. Qed.

(* ===================================================================== *)
(** * More on the for-in evaluator *)
(* ===================================================================== *)

(** What the [catch] block of the evaluator makes of an exception: a
    break without target ends the statement with the completion's value, or
    undefined if that is empty; [None] stands for [throw e]. *)
Definition completes_loop (e : Exception) : option Value :=
  match e with
  | BreakCompletion value None
  | BreakCompletion value (Some EmptyString) =>
      Some (UpdateEmpty_value value UndefinedValue)
  | _ => None
  end.

Definition caught {A : Type} (outcome : Result Value * A) : Result Value * A :=
  match outcome with
  | (Abrupt e, r) =>
      match completes_loop e with
      | Some v => (Normal v, r)
      | None => (Abrupt e, r)
      end
  | other => other
  end.

(** The left-hand side and the kind of binding handed to
    [ForInOfBodyEvaluation], by the form of the head. *)
Definition body_lhs (left : BabelNode) : BabelNode :=
  match left with
  | variableDeclaration kind declarations =>
      if String.eqb kind "var" then first_declaration_id declarations else left
  | _ => left
  end.

Definition lhsKind (left : BabelNode) : string :=
  match left with
  | variableDeclaration kind _ =>
      if String.eqb kind "var" then "varBinding" else "lexicalBinding"
  | _ => "assignment"
  end.

Lemma find_sourceObject_is_object (absStr : Value) :
  forall (mem sourceObject : Value),
    find_sourceObject absStr mem = Some sourceObject ->
    instanceof_ObjectValue sourceObject = true.
Proof.
  fix IH 1. intros mem sourceObject.
  destruct mem as [| | | | | | | |id isObject types values kind margs];
    try discriminate.
  cbn [find_sourceObject].
  match goal with
  | |- (if ?c then _ else _) = _ -> _ => destruct c eqn:Hfound
  end.
  - intros Harg. apply andb_prop in Hfound as [Hfound _].
    apply andb_prop in Hfound as [_ Hobject]. rewrite Harg in Hobject.
    now destruct sourceObject.
  - match goal with
    | |- (if ?c then _ else _) = _ -> _ => destruct c
    end; [|discriminate].
    destruct margs as [|a0 [|a1 [|mem' rest]]]; try discriminate.
    apply IH.
Qed.

Section ForInMore.

Variable ForInOfHeadEvaluation :
  nat -> list string -> BabelNode -> string -> bool -> M Realm Value.
Variable ForInOfBodyEvaluation :
  nat -> BabelNode -> BabelNode -> Value -> string -> option (list string) -> bool ->
  M Realm Value.
Variable BoundNames : BabelNode -> list string.
Variable evaluateNodeForEffects : BabelNode -> bool -> nat -> M Realm Effects.
Variable EnumerableOwnProperties : Value -> M Realm (list (Value * Value)).
Variable _Set : Value -> Value -> Value -> Value -> M Realm bool.
Variable abstract_isPartialObject : Value -> M Realm bool.
Variable abstract_isSimpleObject : Value -> M Realm bool.

Local Abbreviation ForInStatement_ :=
  (ForInStatement ForInOfHeadEvaluation ForInOfBodyEvaluation BoundNames
     evaluateNodeForEffects EnumerableOwnProperties _Set
     abstract_isPartialObject abstract_isSimpleObject).
Local Abbreviation ForInStatement_try_ :=
  (ForInStatement_try ForInOfHeadEvaluation ForInOfBodyEvaluation BoundNames
     evaluateNodeForEffects EnumerableOwnProperties _Set
     abstract_isPartialObject abstract_isSimpleObject).
Local Abbreviation emitResidualLoopIfSafe_ :=
  (emitResidualLoopIfSafe BoundNames evaluateNodeForEffects EnumerableOwnProperties
     _Set abstract_isPartialObject abstract_isSimpleObject).
Local Abbreviation residual_loop_try_ :=
  (residual_loop_try BoundNames evaluateNodeForEffects EnumerableOwnProperties
     _Set abstract_isPartialObject).
Local Abbreviation isPartialAndSimple_ :=
  (isPartialAndSimple abstract_isPartialObject abstract_isSimpleObject).

Lemma ForInStatement_catch (ast : BabelNodeForInStatement) (strictCode : bool)
    (env : nat) (labelSet : option (list string)) (r : Realm) :
  ForInStatement_ ast strictCode env labelSet r
  = caught (ForInStatement_try_ ast strictCode env labelSet r).
Proof.
  unfold ForInStatement, try_catch, caught, completes_loop.
  destruct (ForInStatement_try_ ast strictCode env labelSet r) as [[v|e|] r'];
    try reflexivity.
  destruct e as [| value [[|]|] | | |]; reflexivity.
Qed.

(** X23.  Over a concrete object that is not both partial and simple, the
    evaluator reports nothing and hands the loop to
    [ForInOfBodyEvaluation], with the first declared identifier and
    "varBinding" for a [var] head, the declaration and "lexicalBinding" for
    a [let] or [const] head, and the left-hand side and "assignment"
    otherwise.  What the loop returns or throws is the outcome of the
    statement, except that a break without target ends it normally, with
    the value the break carries, or undefined if it carries none. *)
Theorem ForInStatement_concrete_head (ast : BabelNodeForInStatement)
    (strictCode : bool) (env : nat) (labelSet : option (list string))
    (ref : nat) (r r1 r2 : Realm) :
  ForInOfHeadEvaluation env (head_names BoundNames (ast_left ast)) (ast_right ast)
    "enumerate" strictCode r = (Normal (ObjectValue ref), r1) ->
  (if is_var_declaration (ast_left ast)
   then isPartialAndSimple_ (ObjectValue ref) r1 = (Normal false, r2)
   else r2 = r1) ->
  ForInStatement_ ast strictCode env labelSet r
  = caught (ForInOfBodyEvaluation env (body_lhs (ast_left ast)) (ast_body ast)
              (ObjectValue ref) (lhsKind (ast_left ast)) labelSet strictCode r2).
Proof.
  intros Hhead Hcheck. rewrite ForInStatement_catch. f_equal.
  unfold ForInStatement_try, head_names, is_var_declaration, body_lhs, lhsKind in *.
  destruct (ast_left ast) eqn:Hleft;
    try (subst r2; erewrite bind_run by exact Hhead;
         erewrite bind_run by reflexivity; erewrite bind_run by reflexivity;
         reflexivity).
  destruct (String.eqb kind "var").
  - erewrite bind_run by exact Hhead.
    erewrite bind_run by exact Hcheck. cbv beta iota.
    erewrite bind_run by reflexivity. erewrite bind_run by reflexivity.
    reflexivity.
  - subst r2. erewrite bind_run by exact Hhead.
    erewrite bind_run by reflexivity. erewrite bind_run by reflexivity.
    reflexivity.
Qed.

(** X24.  When the evaluation of the head ends abruptly, the body is not
    evaluated and nothing is reported: a break without target (what the head
    evaluation answers for null and undefined) ends the statement normally,
    with undefined if the break carries no value, and every other
    exception goes on to the caller. *)
Theorem ForInStatement_head_abrupt (ast : BabelNodeForInStatement)
    (strictCode : bool) (env : nat) (labelSet : option (list string))
    (e : Exception) (r r1 : Realm) :
  ForInOfHeadEvaluation env (head_names BoundNames (ast_left ast)) (ast_right ast)
    "enumerate" strictCode r = (Abrupt e, r1) ->
  ForInStatement_ ast strictCode env labelSet r
  = match completes_loop e with
    | Some v => (Normal v, r1)
    | None => (Abrupt e, r1)
    end
  /\ completes_loop (BreakCompletion EmptyValue None) = Some UndefinedValue.
Proof.
  intros Hhead. split; [|reflexivity]. rewrite ForInStatement_catch.
  assert (Htry : ForInStatement_try_ ast strictCode env labelSet r = (Abrupt e, r1)).
  { unfold ForInStatement_try, head_names in *.
    destruct (ast_left ast) eqn:Hleft; try (now apply bind_abrupt).
    destruct (String.eqb kind "var"); now apply bind_abrupt. }
  rewrite Htry. reflexivity.
Qed.

(** X25.  However [emitResidualLoopIfSafe] ends (it returns, it reports
    the loop as unsupported, or something in it throws), the running
    lexical environment is again the one it found; if the iterated object
    is not simple, it fails its first assertion before anything is
    changed. *)
Theorem emitResidualLoopIfSafe_restores_environment (ast : BabelNodeForInStatement)
    (strictCode : bool) (env : nat) (lh : BabelNode)
    (obexpr_loc : option SourceLocation) (ob : Value) (body : BabelNode)
    (obSimple : bool) (r r0 : Realm) :
  isSimpleObject abstract_isSimpleObject ob r = (Normal obSimple, r0) ->
  lexicalEnvironment
    (snd (emitResidualLoopIfSafe_ ast strictCode env lh obexpr_loc ob body r))
  = lexicalEnvironment r0
  /\ (obSimple = false ->
      emitResidualLoopIfSafe_ ast strictCode env lh obexpr_loc ob body r
      = (Abrupt (InvariantViolation ""), r0)).
Proof.
  intros Hsimple. destruct obSimple.
  - split; [|discriminate].
    destruct (residual_loop_try_ strictCode (nextId r0) lh ob body (entered_block r0))
      as [[returned|e|] r3] eqn:Htry.
    + rewrite (emitResidualLoopIfSafe_run BoundNames evaluateNodeForEffects
                 EnumerableOwnProperties _Set abstract_isPartialObject
                 abstract_isSimpleObject ast strictCode env lh obexpr_loc
                 ob body returned r r0 r3 Hsimple Htry).
      destruct returned; reflexivity.
    + now rewrite (emitResidualLoopIfSafe_abrupt BoundNames evaluateNodeForEffects
                     EnumerableOwnProperties _Set abstract_isPartialObject
                     abstract_isSimpleObject ast strictCode env lh obexpr_loc
                     ob body e r r0 r3 Hsimple Htry).
    + unfold emitResidualLoopIfSafe.
      erewrite bind_run by exact Hsimple.
      erewrite bind_run by reflexivity.
      erewrite bind_run by reflexivity.
      erewrite bind_run by reflexivity.
      erewrite bind_run by reflexivity.
      unfold bind at 1, try_finally. cbn [gets fst]. fold (entered_block r0).
      rewrite Htry. reflexivity.
  - assert (Hrun : emitResidualLoopIfSafe_ ast strictCode env lh obexpr_loc ob body r
                   = (Abrupt (InvariantViolation ""), r0)).
    { unfold emitResidualLoopIfSafe. erewrite bind_run by exact Hsimple. reflexivity. }
    split; [now rewrite Hrun | intros _; exact Hrun].
Qed.

(** X26.  When the body is accepted as [target[k] = source[k]] but the
    source is not the iterated object, the evaluator still marks the target
    simple and partial and appends the residual loop to the body of the
    realm's generator (the generator ends with its former body followed by
    the one entry), restores the lexical environment and returns undefined;
    it copies nothing: [EnumerableOwnProperties] and [$Set] are not called,
    and among the objects only the target changes, so the source keeps its
    partial bit. *)
Theorem emitResidualLoopIfSafe_other_source (ast : BabelNodeForInStatement)
    (strictCode : bool) (env : nat) (lh : BabelNode)
    (obexpr_loc : option SourceLocation) (ob : Value) (loopBody : BabelNode)
    (n : string) (effects : Effects) (target_ref : nat) (sourceObject : Value)
    (g : Generator) (r r0 r1 r2 : Realm) :
  isSimpleObject abstract_isSimpleObject ob r = (Normal true, r0) ->
  BoundNames lh = [n] ->
  evaluateNodeForEffects loopBody strictCode (nextId r0) (body_realm n r0)
  = (Normal effects, r1) ->
  body_shape (loop_variable r0) effects r1
  = (Normal (Some (ObjectValue target_ref, sourceObject)), r2) ->
  identical sourceObject (iterated_object ob) = false ->
  generator r2 = Some g ->
  emitResidualLoopIfSafe_ ast strictCode env lh obexpr_loc ob loopBody r
  = (Normal UndefinedValue,
     {| objects :=
          alter (with_partial true) target_ref
            (alter (with_simple true) target_ref (objects r2));
        nextId := nextId r2;
        intrinsicNames := intrinsicNames r2;
        modifiedBindings := modifiedBindings r2;
        lexicalEnvironments := lexicalEnvironments r2;
        lexicalEnvironment := lexicalEnvironment r0;
        generator :=
          Some {| body :=
                    body g ++
                    [forIn_entry lh (Some (identifier n)) (iterated_object ob)
                       (ObjectValue target_ref) sourceObject];
                  preludeGenerator := preludeGenerator g |};
        diagnostics := diagnostics r2;
        currentLocation := currentLocation r2 |}).
Proof.
  intros Hsimple Hnames Heffects Hshape Hsource Hgenerator.
  rewrite (emitResidualLoopIfSafe_run BoundNames evaluateNodeForEffects
             EnumerableOwnProperties _Set abstract_isPartialObject
             abstract_isSimpleObject ast strictCode env lh obexpr_loc ob loopBody
             (Some UndefinedValue) r r0
             (set_generator
                (body_push
                   (forIn_entry lh (Some (identifier n)) (iterated_object ob)
                      (ObjectValue target_ref) sourceObject)
                 <$> generator r2)
                (updated (with_partial true) (ObjectValue target_ref)
                   (updated (with_simple true) (ObjectValue target_ref) r2))) Hsimple);
    [rewrite Hgenerator; reflexivity|].
  rewrite (residual_loop_try_run BoundNames evaluateNodeForEffects
             EnumerableOwnProperties _Set abstract_isPartialObject
             strictCode lh ob loopBody n effects
             (Some (ObjectValue target_ref, sourceObject)) r0 r1 r2
             Hnames Heffects Hshape).
  unfold emit_residual_loop.
  erewrite bind_run.
  2:{ erewrite bind_run by reflexivity.
      unfold invariant. rewrite bool_decide_eq_true_2 by (rewrite Hgenerator; eauto).
      erewrite bind_run by reflexivity.
      unfold makeSimple, makePartial.
      erewrite bind_run by apply update_object_run.
      erewrite bind_run by apply update_object_run.
      rewrite Hsource.
      erewrite bind_run by reflexivity.
      erewrite bind_run by reflexivity.
      reflexivity. }
  reflexivity.
Qed.

Lemma bind_names_second (blockEnv : nat) (absStr : Value) (n m : string)
    (names : list string) (boundName : option BabelNode) (s s' : Realm) :
  bind_names blockEnv absStr [n] None s = (Normal boundName, s') ->
  bind_names blockEnv absStr (n :: m :: names) None s
  = (Abrupt (InvariantViolation ""), s').
Proof.
  intros H. cbn [bind_names] in *. unfold bind in *.
  destruct (invariant (bool_decide (None = None)) "" s) as [[[]|e|] s1];
    try discriminate.
  destruct (on_envRec blockEnv (CreateMutableBinding n false) s1) as [[v|e|] s2];
    try discriminate.
  destruct (on_envRec blockEnv (InitializeBinding n absStr) s2) as [[v'|e|] s3];
    try discriminate.
  injection H as _ <-.
  rewrite bool_decide_eq_false_2 by discriminate. reflexivity.
Qed.

(** X27.  A head that binds more than one name is not supported: the
    evaluator fails an assertion after it has bound the first name, without
    evaluating the body and without reporting a diagnostic; the lexical
    environment is restored. *)
Theorem emitResidualLoopIfSafe_two_names (ast : BabelNodeForInStatement)
    (strictCode : bool) (env : nat) (lh : BabelNode)
    (obexpr_loc : option SourceLocation) (ob : Value) (body : BabelNode)
    (n m : string) (names : list string) (r r0 : Realm) :
  isSimpleObject abstract_isSimpleObject ob r = (Normal true, r0) ->
  BoundNames lh = n :: m :: names ->
  emitResidualLoopIfSafe_ ast strictCode env lh obexpr_loc ob body r
  = (Abrupt (InvariantViolation ""),
     set_lexicalEnvironment (lexicalEnvironment r0) (body_realm n r0))
  /\ diagnostics (body_realm n r0) = diagnostics r0.
Proof.
  intros Hsimple Hnames. split; [|reflexivity].
  apply (emitResidualLoopIfSafe_abrupt BoundNames evaluateNodeForEffects
           EnumerableOwnProperties _Set abstract_isPartialObject
           abstract_isSimpleObject ast strictCode env lh obexpr_loc ob body
           (InvariantViolation "") r r0 (body_realm n r0) Hsimple).
  pose proof (prologue_run n r0 (fun absStr boundName => ret (absStr, boundName)))
    as Hprologue.
  unfold residual_loop_try. rewrite Hnames.
  unfold bind at 1 in Hprologue. unfold bind at 1.
  destruct (on_envRec (nextId r0) (ret tt) (entered_block r0)) as [[[]|e|] s1];
    try discriminate.
  unfold bind at 1 in Hprologue. unfold bind at 1.
  destruct (createAbstract {| getType := StringValue_class |} None []
              (stringLiteral "never used") None s1) as [[absStr|e|] s2];
    try discriminate.
  unfold bind at 1 in Hprologue. unfold bind at 1.
  destruct (bind_names (nextId r0) absStr [n] None s2) as [[boundName|e|] s3] eqn:Hfirst;
    try discriminate.
  injection Hprologue as _ _ <-.
  now rewrite (bind_names_second _ _ _ _ _ _ _ _ Hfirst).
Qed.

End ForInMore.

(** The callback only reads the realm; the target it sets is the object
    of the property binding it is called for, and the source it sets is what
    [find_sourceObject] finds in the second argument of the value assigned
    to the [unknownProperty] binding of that object. *)
Lemma inspect_property_reads (absStr : Value) (targetObject sourceObject : option Value)
    (key : PropertyBinding) (desc : option Descriptor) (r r' : Realm)
    (res : Result (option Value * option Value)) :
  inspect_property absStr targetObject sourceObject key desc r = (res, r') ->
  r' = r /\
  forall t s : option Value,
    res = Normal (t, s) ->
    (t = targetObject \/ t = Some (ObjectValue (pb_object key))) /\
    (s = sourceObject \/
     exists (found : Value) (d : Descriptor) (assigned mem : Value),
       s = Some found /\ instanceof_ObjectValue found = true /\
       (o ← objects r !! pb_object key; unknownProperty o) = Some (pb_id key) /\
       desc = Some d /\ value d = Some assigned /\
       instanceof_AbstractValue assigned = true /\
       kind_is (arg 0 (args_of assigned)) "template for property name condition" = true /\
       arg 2 (args_of assigned) = Some UndefinedValue /\
       arg 1 (args_of assigned) = Some mem /\
       find_sourceObject absStr mem = Some found).
Proof.
  unfold inspect_property. unfold bind at 1. cbn [gets].
  destruct (bool_decide ((o ← objects r !! pb_object key; unknownProperty o)
                         = Some (pb_id key))) eqn:Hunknown.
  2:{ intros H. injection H as <- <-. split; [reflexivity|].
      intros tgt src Hres. injection Hres as <- <-. auto. }
  apply bool_decide_eq_true_1 in Hunknown.
  destruct desc as [d|].
  2:{ intros H. injection H as <- <-. split; [reflexivity|]. discriminate. }
  destruct (value d) as [assigned|] eqn:Hvalue.
  2:{ intros H. injection H as <- <-. split; [reflexivity|].
      intros tgt src Hres. injection Hres as <- <-. auto. }
  destruct assigned as [| | | | | | | |id isObject types values kind sargs];
    try (intros H; injection H as <- <-; (split; [reflexivity|]);
         intros tgt src Hres; injection Hres as <- <-; auto).
  unfold bind, invariant.
  destruct (kind_is (arg 0 sargs) "template for property name condition") eqn:Hkind.
  2:{ intros H. injection H as <- <-. split; [reflexivity|]. discriminate. }
  cbn [ret].
  destruct (arg 2 sargs) as [[]|] eqn:Hundefined;
    try (intros H; injection H as <- <-; (split; [reflexivity|]);
         intros tgt src Hres; injection Hres as <- <-; auto).
  cbn [instanceof_UndefinedValue].
  destruct (arg 1 sargs) as [mem|] eqn:Hmem.
  2:{ intros H. injection H as <- <-. split; [reflexivity|].
      intros tgt src Hres. injection Hres as <- <-. auto. }
  destruct (find_sourceObject absStr mem) as [found|] eqn:Hfound.
  2:{ intros H. injection H as <- <-. split; [reflexivity|].
      intros tgt src Hres. injection Hres as <- <-. auto. }
  intros H. injection H as <- <-. split; [reflexivity|].
  intros tgt src Hres. injection Hres as <- <-. split; [auto|]. right.
  exists found, d, (AbstractValue id isObject types values kind sargs), mem.
  split; [reflexivity|].
  split; [eapply find_sourceObject_is_object; eassumption|].
  split; [exact Hunknown|]. split; [reflexivity|]. split; [exact Hvalue|].
  split; [destruct isObject; reflexivity|].
  split; [exact Hkind|]. split; [exact Hundefined|].
  split; [exact Hmem | exact Hfound].
Qed.

Lemma invariant_state {St : Type} (condition : bool) (message : string) (s s' : St)
    (res : Result unit) :
  invariant condition message s = (res, s') -> s' = s.
Proof.
  unfold invariant, ret, throw. destruct condition; intros H; now injection H.
Qed.

(** X28.  The test of the body's effects only reads the realm, and what it
    accepts is a pair of concrete objects.  The effects are then those of a
    body that completed with a value, emitted nothing, modified no binding,
    created no object, and modified exactly one property, which is the
    [unknownProperty] binding of the target; the value assigned to it is an
    abstract value whose first argument is a condition on the property
    name and whose third is undefined, and the source is the object that
    [find_sourceObject] finds in its second argument: the object
    [sourceObject] of an expression [sourceObject[absStr]]. *)
Theorem body_shape_accepts_objects (absStr : Value) (effects : Effects) (r r' : Realm)
    (res : Result (option (Value * Value))) :
  body_shape absStr effects r = (res, r') ->
  r' = r /\
  forall targetObject sourceObject : Value,
    res = Normal (Some (targetObject, sourceObject)) ->
    instanceof_ObjectValue targetObject = true /\
    instanceof_ObjectValue sourceObject = true /\
    single_property_effects effects = true /\
    eff_createdObjects effects = [] /\
    exists (key : PropertyBinding) (d : Descriptor) (assigned mem : Value),
      eff_properties effects = [(key, Some d)] /\
      targetObject = ObjectValue (pb_object key) /\
      (o ← objects r !! pb_object key; unknownProperty o) = Some (pb_id key) /\
      value d = Some assigned /\
      instanceof_AbstractValue assigned = true /\
      kind_is (arg 0 (args_of assigned)) "template for property name condition" = true /\
      arg 2 (args_of assigned) = Some UndefinedValue /\
      arg 1 (args_of assigned) = Some mem /\
      find_sourceObject absStr mem = Some sourceObject.
Proof.
  unfold body_shape. fold (single_property_effects effects).
  destruct (single_property_effects effects) eqn:Hshape.
  2:{ intros H. unfold ret in H. injection H as <- <-.
      split; [reflexivity | discriminate]. }
  pose proof Hshape as Hone. unfold single_property_effects in Hone.
  apply andb_prop in Hone as [_ Hone]. apply Nat.eqb_eq in Hone.
  destruct (eff_properties effects) as [|[key desc] [|]]; try discriminate.
  unfold bind at 1.
  destruct (eff_createdObjects effects) as [|created rest] eqn:Hcreated.
  2:{ intros H. injection H as <- <-. split; [reflexivity | discriminate]. }
  cbn [length Nat.eqb invariant ret].
  cbn [inspect_properties]. unfold bind at 1 2.
  destruct (inspect_property absStr None None key desc r) as [inspected r1] eqn:Hinspect.
  destruct (inspect_property_reads _ _ _ _ _ _ _ _ Hinspect) as [-> Hfound].
  destruct inspected as [[tgt src]| |].
  2,3: (intros H; injection H as <- <-; split; [reflexivity | discriminate]).
  destruct (Hfound tgt src eq_refl) as [Htarget Hsource]. cbn [ret].
  destruct tgt as [[| | | | | | |target_ref|]|], src as [found|];
    intros H; injection H as <- <-; (split; [reflexivity|]);
    intros targetObject sourceObject Hres; try discriminate.
  injection Hres as <- <-.
  destruct Hsource as [?|(found0 & d & assigned & mem & Heq & Hobject & Hunknown & ->
                           & Hvalue & Habstract & Hkind & Hundefined & Hmem & Hfind)];
    [discriminate|].
  injection Heq as ->.
  split; [reflexivity|]. split; [exact Hobject|]. split; [reflexivity|].
  split; [reflexivity|].
  exists key, d, assigned, mem. split; [reflexivity|]. split.
  { destruct Htarget as [?|Heq]; [discriminate | now injection Heq as ->]. }
  auto 10.
Qed.

Lemma body_shape_accepts_objects_witness :
  body_shape example_absStr assignment_effects (body_realm "k" example_realm)
  = (Normal (Some (ObjectValue 1, ObjectValue 0)), body_realm "k" example_realm)
  /\ find_sourceObject example_absStr
       (AbstractValue 22 false {| getType := Value_class |} None
          (Some "sentinel member expression") [ObjectValue 0; example_absStr])
     = Some (ObjectValue 0)
  /\ instanceof_ObjectValue (ObjectValue 1) = true
  /\ instanceof_ObjectValue (ObjectValue 0) = true
  /\ single_property_effects assignment_effects = true
  /\ eff_createdObjects assignment_effects = []
  /\ exists (key : PropertyBinding) (d : Descriptor) (assigned mem : Value),
      eff_properties assignment_effects = [(key, Some d)] /\
      ObjectValue 1 = ObjectValue (pb_object key) /\
      (o ← objects (body_realm "k" example_realm) !! pb_object key; unknownProperty o)
      = Some (pb_id key) /\
      value d = Some assigned /\
      instanceof_AbstractValue assigned = true /\
      kind_is (arg 0 (args_of assigned)) "template for property name condition" = true /\
      arg 2 (args_of assigned) = Some UndefinedValue /\
      arg 1 (args_of assigned) = Some mem /\
      find_sourceObject example_absStr mem = Some (ObjectValue 0).
Proof.
  assert (H : body_shape example_absStr assignment_effects (body_realm "k" example_realm)
              = (Normal (Some (ObjectValue 1, ObjectValue 0)),
                 body_realm "k" example_realm)) by reflexivity.
  split; [exact H|]. split; [reflexivity|].
  exact (proj2 (body_shape_accepts_objects _ _ _ _ _ H) _ _ eq_refl).
Defined.

(** Further collaborators for the examples: a loop that breaks with the
    value 5, a head evaluation that breaks (as it does over null and
    undefined), and a head that binds two names. *)
Definition breaking_body
    : nat -> BabelNode -> BabelNode -> Value -> string -> option (list string) -> bool ->
      M Realm Value :=
  fun _ _ _ _ _ _ _ => throw (BreakCompletion (NumberValue 5) None).

Definition head_breaks
    : nat -> list string -> BabelNode -> string -> bool -> M Realm Value :=
  fun _ _ _ _ _ => throw (BreakCompletion EmptyValue None).

Definition names_a_b : BabelNode -> list string := fun _ => ["a"; "b"].

(** The effects of [t[k] = p[k]], where [p] is the object 5 and not the
    iterated object. *)
Definition other_source_effects : Effects :=
  {| eff_completion := result_Value UndefinedValue;
     eff_generator := fresh_generator;
     eff_bindings := [];
     eff_properties :=
       [ ({| pb_id := 7; pb_object := 1; pb_key := example_absStr |},
          Some (data_property
                  (AbstractValue 20 false {| getType := Value_class |} None None
                     [ AbstractValue 21 false {| getType := BooleanValue_class |} None
                         (Some "template for property name condition") [];
                       AbstractValue 22 false {| getType := Value_class |} None
                         (Some "sentinel member expression")
                         [ObjectValue 5; example_absStr];
                       UndefinedValue ]))) ];
     eff_createdObjects := [] |}.

Lemma ForInStatement_concrete_head_witness :
  head_is (ObjectValue 1) 0 (head_names names_k (ast_left example_forIn))
    (ast_right example_forIn) "enumerate" false example_realm
  = (Normal (ObjectValue 1), example_realm)
  /\ (if is_var_declaration (ast_left example_forIn)
      then isPartialAndSimple (always true) (always false) (ObjectValue 1) example_realm
           = (Normal false, example_realm)
      else example_realm = example_realm)
  /\ ForInStatement (head_is (ObjectValue 1)) breaking_body names_k
       (effects_are no_effects) list_known_properties set_data_property
       (always true) (always false) example_forIn false 0 None example_realm
     = (Normal (NumberValue 5), example_realm).
Proof.
  split; [reflexivity|]. split; [reflexivity|].
  exact (ForInStatement_concrete_head (head_is (ObjectValue 1)) breaking_body names_k
           (effects_are no_effects) list_known_properties set_data_property
           (always true) (always false) example_forIn false 0 None 1
           example_realm example_realm example_realm eq_refl eq_refl).
Defined.

Lemma ForInStatement_head_abrupt_witness :
  head_breaks 0 (head_names names_k (ast_left example_forIn))
    (ast_right example_forIn) "enumerate" false example_realm
  = (Abrupt (BreakCompletion EmptyValue None), example_realm)
  /\ ForInStatement head_breaks no_body_evaluation names_k
       (effects_are no_effects) list_known_properties set_data_property
       (always true) (always false) example_forIn false 0 None example_realm
     = (Normal UndefinedValue, example_realm).
Proof.
  split; [reflexivity|].
  exact (proj1 (ForInStatement_head_abrupt head_breaks no_body_evaluation names_k
                  (effects_are no_effects) list_known_properties set_data_property
                  (always true) (always false) example_forIn false 0 None
                  (BreakCompletion EmptyValue None) example_realm example_realm
                  eq_refl)).
Defined.

Lemma emitResidualLoopIfSafe_restores_environment_witness :
  isSimpleObject (always false) (ObjectValue 0) example_realm
  = (Normal true, example_realm)
  /\ lexicalEnvironment
       (snd (emitResidualLoopIfSafe names_k (effects_are no_effects)
               list_known_properties set_data_property (always true) (always false)
               example_forIn false 0 (ast_left example_forIn) example_loc (ObjectValue 0)
               (ast_body example_forIn) example_realm))
     = lexicalEnvironment example_realm.
Proof.
  split; [reflexivity|].
  exact (proj1 (emitResidualLoopIfSafe_restores_environment names_k
                  (effects_are no_effects) list_known_properties set_data_property
                  (always true) (always false) example_forIn false 0
                  (ast_left example_forIn) example_loc (ObjectValue 0)
                  (ast_body example_forIn) true example_realm example_realm eq_refl)).
Defined.

Lemma emitResidualLoopIfSafe_other_source_witness :
  isSimpleObject (always false) (ObjectValue 0) example_realm
  = (Normal true, example_realm)
  /\ names_k (ast_left example_forIn) = ["k"]
  /\ effects_are other_source_effects (ast_body example_forIn) false
       (nextId example_realm) (body_realm "k" example_realm)
     = (Normal other_source_effects, body_realm "k" example_realm)
  /\ body_shape (loop_variable example_realm) other_source_effects
       (body_realm "k" example_realm)
     = (Normal (Some (ObjectValue 1, ObjectValue 5)), body_realm "k" example_realm)
  /\ identical (ObjectValue 5) (iterated_object (ObjectValue 0)) = false
  /\ generator (body_realm "k" example_realm) = Some fresh_generator
  /\ emitResidualLoopIfSafe names_k (effects_are other_source_effects)
       list_known_properties set_data_property (always true) (always false)
       example_forIn false 0 (ast_left example_forIn) example_loc (ObjectValue 0)
       (ast_body example_forIn) example_realm
     = (Normal UndefinedValue,
        {| objects :=
             alter (with_partial true) 1
               (alter (with_simple true) 1 (objects (body_realm "k" example_realm)));
           nextId := nextId (body_realm "k" example_realm);
           intrinsicNames := intrinsicNames (body_realm "k" example_realm);
           modifiedBindings := modifiedBindings (body_realm "k" example_realm);
           lexicalEnvironments := lexicalEnvironments (body_realm "k" example_realm);
           lexicalEnvironment := lexicalEnvironment example_realm;
           generator :=
             Some {| body :=
                       [forIn_entry (ast_left example_forIn) (Some (identifier "k"))
                          (iterated_object (ObjectValue 0)) (ObjectValue 1)
                          (ObjectValue 5)];
                     preludeGenerator := preludeGenerator fresh_generator |};
           diagnostics := diagnostics (body_realm "k" example_realm);
           currentLocation := currentLocation (body_realm "k" example_realm) |}).
Proof.
  split; [reflexivity|]. split; [reflexivity|]. split; [reflexivity|].
  split; [reflexivity|]. split; [reflexivity|]. split; [reflexivity|].
  exact (emitResidualLoopIfSafe_other_source names_k (effects_are other_source_effects)
           list_known_properties set_data_property (always true) (always false)
           example_forIn false 0 (ast_left example_forIn) example_loc (ObjectValue 0)
           (ast_body example_forIn) "k" other_source_effects
           1 (ObjectValue 5) fresh_generator
           example_realm example_realm (body_realm "k" example_realm)
           (body_realm "k" example_realm)
           eq_refl eq_refl eq_refl eq_refl eq_refl eq_refl).
Defined.

Lemma emitResidualLoopIfSafe_two_names_witness :
  isSimpleObject (always false) (ObjectValue 0) example_realm
  = (Normal true, example_realm)
  /\ names_a_b (ast_left example_forIn) = ["a"; "b"]
  /\ emitResidualLoopIfSafe names_a_b (effects_are no_effects)
       list_known_properties set_data_property (always true) (always false)
       example_forIn false 0 (ast_left example_forIn) example_loc (ObjectValue 0)
       (ast_body example_forIn) example_realm
     = (Abrupt (InvariantViolation ""),
        set_lexicalEnvironment (lexicalEnvironment example_realm)
          (body_realm "a" example_realm)).
Proof.
  split; [reflexivity|]. split; [reflexivity|].
  exact (proj1 (emitResidualLoopIfSafe_two_names names_a_b (effects_are no_effects)
                  list_known_properties set_data_property (always true) (always false)
                  example_forIn false 0 (ast_left example_forIn) example_loc
                  (ObjectValue 0) (ast_body example_forIn) "a" "b" []
                  example_realm example_realm eq_refl eq_refl)).
Defined.

(* ===================================================================== *)
(** * generator.js: the other methods of [PreludeGenerator] *)
(* ===================================================================== *)

(** [str.split(".")] *)
Fixpoint split_dot (str : string) : list string :=
  match str with
  | EmptyString => [EmptyString]
  | String c str' =>
      if Ascii.eqb c "."
      then EmptyString :: split_dot str'
      else match split_dot str' with
           | name :: names => String c name :: names
           | [] => [String c EmptyString]
           end
  end.

Module PreludeGeneratorMethods.
Import PreludeGenerator.

(** [createNameGenerator(prefix)] *)
Definition createNameGenerator (this : t) (prefix : string) : NameGenerator.t :=
  NameGenerator.new
    (NameGenerator.forbiddenNames (nameGenerator this))
    (NameGenerator.debugNames (nameGenerator this))
    (NameGenerator.uniqueSuffix (nameGenerator this))
    prefix.

(** The [map] of [convertStringToMember]: from left to right, ["global"]
    becomes the memoized reference and every other name an identifier. *)
Fixpoint convert_names (fuel : nat) (names : list string) (this : t)
    : option (list BabelNode * t) :=
  match names with
  | [] => Some ([], this)
  | name :: names' =>
      match (if String.eqb name "global"
             then memoizeReference fuel name this
             else Some (identifier name, this)) with
      | None => None
      | Some (node, this1) =>
          match convert_names fuel names' this1 with
          | None => None
          | Some (nodes, this2) => Some (node :: nodes, this2)
          end
      end
  end.

(** [convertStringToMember(str)]: [reduce] without initial value starts
    from the first element, and the builder's [computed] defaults to
    false. *)
Definition convertStringToMember (fuel : nat) (str : string) (this : t)
    : option (BabelNode * t) :=
  match convert_names fuel (split_dot str) this with
  | None => None
  | Some (nodes, this') =>
      match nodes with
      | [] => None
      | first :: rest =>
          Some (fold_left (fun obj prop => memberExpression obj prop false) rest first,
                this')
      end
  end.

Section GlobalReference.

(** [t.isValidIdentifier] of babel-types. *)
Variable isValidIdentifier : string -> bool.

(** [globalReference(key, globalScope)]; [globalScope] defaults to
    false. *)
Definition globalReference (fuel : nat) (key : string) (globalScope : bool) (this : t)
    : option (BabelNode * t) :=
  if (globalScope && isValidIdentifier key)%bool then Some (identifier key, this)
  else
    let keyNode :=
      if isValidIdentifier key then identifier key else stringLiteral key in
    match memoizeReference fuel "global" this with
    | None => None
    | Some (g, this') =>
        Some (memberExpression g keyNode (negb (isIdentifier keyNode)), this')
    end.

(** The prelude reads [this] only where [usesThis] says so: the flag is
    set whenever the prelude holds a declaration initialized with [this],
    and whenever ["global"] is memoized. *)
Definition this_flagged (this : t) : Prop :=
  (Exists (fun stmt => exists ref, stmt = variableDeclaration "var"
                                            [variableDeclarator ref thisExpression])
     (prelude this)
   \/ is_Some (memoizedRefs this !! "global")) ->
  usesThis this = true.

Lemma memoizeReference_flags_this (fuel : nat) :
  forall (key : string) (this : t) (ref : BabelNode) (this' : t),
    this_flagged this ->
    memoizeReference fuel key this = Some (ref, this') ->
    this_flagged this' /\ (usesThis this = true -> usesThis this' = true).
Proof.
  induction fuel as [|fuel IH]; intros key this ref this' Hflag H; [discriminate|].
  cbn [memoizeReference] in H.
  destruct (memoizedRefs this !! key) as [r|] eqn:Hlookup.
  { injection H as <- <-. auto. }
  match type of H with
  | match ?scrutinee with _ => _ end = _ =>
      destruct scrutinee as [[init this1]|] eqn:Hinit
  end; [|discriminate].
  destruct (NameGenerator.generate (S fuel) (nameGenerator this1) (Some key))
    as [[name g']|] eqn:Hgen; [|discriminate].
  injection H as <- <-.
  assert (Hstep : this_flagged this1
                  /\ (usesThis this = true -> usesThis this1 = true)
                  /\ (init = thisExpression \/ key = "global" -> usesThis this1 = true)).
  { destruct (JsString.includes_char "(" key || JsString.includes_char "[" key)%bool
      eqn:Hhack.
    { injection Hinit as <- <-. split; [assumption|]. split; [auto|].
      intros [?| ->]; [discriminate|]. cbn in Hhack. discriminate. }
    destruct (String.eqb key "global") eqn:Hglobal.
    { injection Hinit as <- <-. repeat split. }
    apply String.eqb_neq in Hglobal.
    destruct (JsString.lastIndexOf_dot key) as [i|].
    - destruct (memoizeReference fuel (String.substring 0 i key) this)
        as [[o this0]|] eqn:Hrec; [|discriminate].
      injection Hinit as <- <-.
      destruct (IH _ _ _ _ Hflag Hrec) as [Hflag1 Hmono].
      split; [assumption|]. split; [assumption|]. intros [?|?]; [discriminate|easy].
    - destruct (memoizeReference fuel "global" this)
        as [[o this0]|] eqn:Hrec; [|discriminate].
      injection Hinit as <- <-.
      destruct (IH _ _ _ _ Hflag Hrec) as [Hflag1 Hmono].
      split; [assumption|]. split; [assumption|]. intros [?|?]; [discriminate|easy]. }
  destruct Hstep as (Hflag1 & Hmono & Hthis).
  split; [|exact Hmono].
  unfold this_flagged.
  cbn [prelude memoizedRefs usesThis set_memoizedRef push_prelude set_nameGenerator].
  intros [Hex|Hglobal].
  - apply Exists_app in Hex as [Hex|Hex]; [apply Hflag1; now left|].
    apply List.Exists_cons in Hex as [(ref0 & Heq)|Hex];
      [|now apply List.Exists_nil in Hex].
    apply Hthis. left. now injection Heq.
  - destruct (decide (key = "global")) as [->|Hne]; [apply Hthis; now right|].
    rewrite lookup_insert_ne in Hglobal by congruence. apply Hflag1. now right.
Qed.

(** Memoizing ["global"] takes one identifier: more fuel than there are
    forbidden names, and as much room for the counter, suffice. *)
Lemma memoizeReference_global_terminates (fuel : nat) (this : t) :
  size (NameGenerator.forbiddenNames (nameGenerator this)) < fuel ->
  NameGenerator.counter_room (nameGenerator this) fuel ->
  is_Some (memoizeReference fuel "global" this).
Proof.
  intros Hfuel Hroom. destruct fuel as [|fuel]; [lia|].
  cbn [memoizeReference].
  destruct (memoizedRefs this !! "global") as [r|]; [eauto|].
  cbn [JsString.includes_char String.eqb Ascii.eqb Bool.eqb orb nameGenerator
         set_usesThis].
  destruct (NameGenerator.generate_terminates (S fuel) (nameGenerator this)
              (Some "global") Hfuel Hroom) as [[name g'] Hgen].
  change (nameGenerator (set_usesThis true this)) with (nameGenerator this).
  rewrite Hgen. eauto.
Qed.

(** X29.  [globalReference] answers with the bare identifier only for a
    valid identifier in global scope, and then changes nothing.  Otherwise
    the answer is a property of the memoized reference to the global
    object, written [g.key] for a valid identifier and [g["key"]] for any
    other key; on a prelude generator whose [usesThis] flag covers its
    prelude (a new one's does), the flag is then set, the global object is
    memoized, and the flag still covers the prelude.  The counter of the
    name generator has to have room below 2^53 for the identifier of the
    global object. *)
Theorem globalReference_shape (fuel : nat) (key : string) (globalScope : bool)
    (this : t) :
  this_flagged this ->
  size (NameGenerator.forbiddenNames (nameGenerator this)) < fuel ->
  NameGenerator.counter_room (nameGenerator this) fuel ->
  if (globalScope && isValidIdentifier key)%bool
  then globalReference fuel key globalScope this = Some (identifier key, this)
  else
    exists (g : BabelNode) (this' : t),
      globalReference fuel key globalScope this
      = Some (memberExpression g
                (if isValidIdentifier key then identifier key else stringLiteral key)
                (negb (isValidIdentifier key)),
              this')
      /\ memoizedRefs this' !! "global" = Some g
      /\ usesThis this' = true
      /\ this_flagged this'.
Proof.
  intros Hflag Hfuel Hroom. unfold globalReference.
  destruct (globalScope && isValidIdentifier key)%bool; [reflexivity|].
  destruct (memoizeReference_global_terminates fuel this Hfuel Hroom)
    as [[g this'] Hrun].
  rewrite Hrun. exists g, this'.
  destruct (memoizeReference_flags_this _ _ _ _ _ Hflag Hrun) as [Hflag' _].
  assert (Hcached : memoizedRefs this' !! "global" = Some g).
  { destruct (memoizedRefs this !! "global") as [r|] eqn:Hlookup.
    - rewrite (memoizeReference_hit fuel _ _ _ Hlookup) in Hrun by lia.
      now injection Hrun as <- <-.
    - now destruct (memoizeReference_miss _ _ _ _ _ Hrun Hlookup)
        as (_ & _ & _ & _ & Hc & _). }
  split; [|split; [exact Hcached|split; [|exact Hflag']]].
  - now destruct (isValidIdentifier key).
  - apply Hflag'. right. now rewrite Hcached.
Qed.

End GlobalReference.

(** Without room for the counter the call need not return: on a prelude
    generator whose name generator is stuck at 2^53, with the one
    identifier it can still make forbidden, no amount of fuel is enough. *)
Lemma globalReference_needs_room (fuel : nat) :
  size (NameGenerator.forbiddenNames NameGenerator.stuck_generator) = 1 /\
  globalReference (fun _ => false) fuel "a-b" false
    (set_nameGenerator NameGenerator.stuck_generator (new None None))
  = None.
Proof.
  split; [vm_compute; reflexivity|].
  unfold globalReference. cbn [andb].
  destruct fuel as [|fuel]; [reflexivity|].
  cbn [memoizeReference]. cbn [memoizedRefs set_nameGenerator new].
  rewrite lookup_empty.
  cbn [JsString.includes_char String.eqb Ascii.eqb Bool.eqb orb nameGenerator
         set_usesThis set_nameGenerator].
  now rewrite NameGenerator.generate_loops_at_limit.
Qed.

Lemma new_this_flagged (debugNames : option bool) (uniqueSuffix : option string) :
  this_flagged (new debugNames uniqueSuffix).
Proof.
  intros [Hex|[g Hg]].
  - now apply List.Exists_nil in Hex.
  - cbn in Hg. now rewrite lookup_empty in Hg.
Qed.

Lemma globalReference_shape_witness :
  this_flagged (new None None)
  /\ size (NameGenerator.forbiddenNames (nameGenerator (new None None))) < 1
  /\ NameGenerator.counter_room (nameGenerator (new None None)) 1
  /\ exists (g : BabelNode) (this' : t),
      globalReference (fun _ => false) 1 "a-b" false (new None None)
      = Some (memberExpression g (stringLiteral "a-b") true, this')
      /\ memoizedRefs this' !! "global" = Some g
      /\ usesThis this' = true
      /\ this_flagged this'.
Proof.
  assert (Hfuel : size (NameGenerator.forbiddenNames (nameGenerator (new None None))) < 1)
    by (vm_compute; lia).
  assert (Hroom : NameGenerator.counter_room (nameGenerator (new None None)) 1)
    by (vm_compute; discriminate).
  split; [apply new_this_flagged|]. split; [exact Hfuel|]. split; [exact Hroom|].
  exact (globalReference_shape (fun _ => false) 1 "a-b" false (new None None)
           (new_this_flagged None None) Hfuel Hroom).
Defined.

Example convertStringToMember_example :
  fst <$> convertStringToMember 1 "global.Object.prototype" (new None None)
  = Some (memberExpression
            (memberExpression (identifier "_$0") (identifier "Object") false)
            (identifier "prototype") false).
Proof. vm_compute. reflexivity. Qed.

End PreludeGeneratorMethods.

(* ===================================================================== *)
(** * generator.js: the other emitters *)
(* ===================================================================== *)

Section GeneratorEmitters.

Variable numericIndex : string -> option BabelNode.
Variable isValidIdentifier : string -> bool.

(** [t.callExpression(callee, arguments)] of babel-types. *)
Variable callExpression : BabelNode -> list BabelNode -> BabelNode.

Definition emitPropertyDelete (object : Value) (key : string) : M Generator unit :=
  let propName := getAsPropertyNameExpression numericIndex isValidIdentifier key true in
  modify (body_push
    {| declared := None;
       args := [object];
       buildNode := fun nodes S context =>
         let objectNode := node_at 0 nodes in
         ret (expressionStatement
                (unaryExpression "delete"
                   (memberExpression objectNode propName (negb (isIdentifier propName)))));
       dependencies := None;
       isPure := None |}).

Definition emitCall (createCallee : unit -> BabelNode) (args : list Value)
    : M Generator unit :=
  modify (body_push
    {| declared := None;
       args := args;
       buildNode := fun values S context =>
         ret (expressionStatement (callExpression (createCallee tt) values));
       dependencies := None;
       isPure := None |}).

(** [typeof v === "string" ? new StringValue(this.realm, v) : v] *)
Definition string_to_value (v : string + Value) : Value :=
  match v with
  | inl s => StringValue s
  | inr v => v
  end.

Definition emitConsoleLog (method : string) (args : list (string + Value))
    : M Generator unit :=
  emitCall
    (fun _ => memberExpression (identifier "console") (identifier method) false)
    (map string_to_value args).

(** [emitCallAndCaptureResult]: [kind] is accepted and not passed on. *)
Definition emitCallAndCaptureResult (fuel : nat) (types : TypesDomain)
    (values : option (list Value)) (createCallee : unit -> BabelNode)
    (args : list Value) (kind : option string) : M (Generator * Realm) Value :=
  derive fuel types values args
    (inl (fun nodes => callExpression (createCallee tt) nodes)) None.

Definition emitVoidExpression (types : TypesDomain) (values : option (list Value))
    (args : list Value) (buildNode_ : (list BabelNode -> BabelNode) + BabelNode)
    : M Generator Value :=
  modify (body_push
    {| declared := None;
       args := args;
       buildNode := fun nodes S context =>
         ret (expressionStatement (apply_buildNode_ buildNode_ nodes));
       dependencies := None;
       isPure := None |}) ;;;
  ret UndefinedValue.

(** Serializing a body with one more entry, which declares nothing and
    builds its statement without consulting the context. *)
Lemma serialize_pushed (omit : Value -> bool) (expr : Value -> BabelNode)
    (dpb : Value -> string -> Descriptor -> BabelNode) (gb : nat -> list BabelNode)
    (this : Generator) (entry_args : list Value) (build : GeneratorBuildNodeFunction)
    (statement : list BabelNode -> BabelNode) (log log1 : list Event) :
  (forall nodes S context s, build nodes S context s = (Normal (statement nodes), s)) ->
  serialize this (observing_context omit expr dpb gb) log = (Normal tt, log1) ->
  serialize
    (body_push
       {| declared := None; args := entry_args; buildNode := build;
          dependencies := None; isPure := None |} this)
    (observing_context omit expr dpb gb) log
  = (Normal tt, log1 ++ [ev_emit (statement (map expr entry_args))]).
Proof.
  intros Hbuild Hserialize. unfold serialize in *.
  cbn [body body_push]. rewrite for_of_app.
  erewrite bind_run by exact Hserialize.
  cbn [for_of]. erewrite bind_run; [reflexivity|].
  unfold serialize_entry. cbn [isPure declared args buildNode truthy negb].
  erewrite bind_run by reflexivity. cbv beta iota.
  erewrite bind_run by apply map_M_observing.
  erewrite bind_run by apply Hbuild.
  erewrite bind_run by reflexivity. reflexivity.
Qed.

(** X30.  What is emitted last is serialized last.  After [emitCall],
    [emitConsoleLog], [emitPropertyDelete] or [emitVoidExpression],
    serializing the generator produces what it produced before, followed by
    one statement and no declaration: the call of the callee on the
    serialized arguments (for [emitConsoleLog] the callee is
    [console.method] and string arguments are serialized as string
    values), the [delete] of the property of the serialized object, or the
    expression built from the serialized arguments. *)
Theorem emitted_last_is_serialized_last (omit : Value -> bool) (expr : Value -> BabelNode)
    (dpb : Value -> string -> Descriptor -> BabelNode) (gb : nat -> list BabelNode)
    (this : Generator) (log log1 : list Event)
    (createCallee : unit -> BabelNode) (args : list Value)
    (method : string) (logged_args : list (string + Value))
    (object : Value) (key : string)
    (types : TypesDomain) (values : option (list Value))
    (buildNode_ : (list BabelNode -> BabelNode) + BabelNode) :
  serialize this (observing_context omit expr dpb gb) log = (Normal tt, log1) ->
  serialize (snd (emitCall createCallee args this)) (observing_context omit expr dpb gb)
    log
  = (Normal tt,
     log1 ++ [ev_emit (expressionStatement
                         (callExpression (createCallee tt) (map expr args)))])
  /\
  serialize (snd (emitConsoleLog method logged_args this))
    (observing_context omit expr dpb gb) log
  = (Normal tt,
     log1 ++ [ev_emit (expressionStatement
                         (callExpression
                            (memberExpression (identifier "console") (identifier method)
                               false)
                            (map (fun v => expr (string_to_value v)) logged_args)))])
  /\
  serialize (snd (emitPropertyDelete object key this))
    (observing_context omit expr dpb gb) log
  = (Normal tt,
     log1 ++ [ev_emit
                (expressionStatement
                   (unaryExpression "delete"
                      (memberExpression (expr object)
                         (getAsPropertyNameExpression numericIndex isValidIdentifier
                            key true)
                         (negb (isIdentifier
                                  (getAsPropertyNameExpression numericIndex
                                     isValidIdentifier key true))))))])
  /\
  serialize (snd (emitVoidExpression types values args buildNode_ this))
    (observing_context omit expr dpb gb) log
  = (Normal tt,
     log1 ++ [ev_emit (expressionStatement
                         (apply_buildNode_ buildNode_ (map expr args)))]).
Proof.
  intros Hserialize.
  unfold emitConsoleLog, emitCall, emitPropertyDelete, emitVoidExpression, modify, bind,
    ret.
  cbn [snd]. repeat apply conj.
  - now apply (serialize_pushed omit expr dpb gb this args _
                 (fun nodes =>
                    expressionStatement (callExpression (createCallee tt) nodes))).
  - rewrite <- (map_map string_to_value expr logged_args).
    now apply (serialize_pushed omit expr dpb gb this (map string_to_value logged_args) _
                 (fun nodes =>
                    expressionStatement
                      (callExpression
                         (memberExpression (identifier "console") (identifier method)
                            false)
                         nodes))).
  - now apply (serialize_pushed omit expr dpb gb this [object] _
                 (fun nodes =>
                    expressionStatement
                      (unaryExpression "delete"
                         (memberExpression (node_at 0 nodes)
                            (getAsPropertyNameExpression numericIndex isValidIdentifier
                               key true)
                            (negb (isIdentifier
                                     (getAsPropertyNameExpression numericIndex
                                        isValidIdentifier key true))))))).
  - now apply (serialize_pushed omit expr dpb gb this args _
                 (fun nodes =>
                    expressionStatement (apply_buildNode_ buildNode_ nodes))).
Qed.

End GeneratorEmitters.

Lemma emitted_last_is_serialized_last_witness :
  serialize example_this example_context []
  = (Normal tt, snd (serialize example_this example_context []))
  /\ serialize
       (snd (emitPropertyDelete (fun _ => None) (fun _ => true) example_b "x"
               example_this))
       example_context []
     = (Normal tt,
        snd (serialize example_this example_context [])
        ++ [ev_emit
              (expressionStatement
                 (unaryExpression "delete"
                    (memberExpression
                       (identifier (if identical example_b example_a then "a" else "b"))
                       (getAsPropertyNameExpression (fun _ => None) (fun _ => true)
                          "x" true)
                       (negb (isIdentifier
                                (getAsPropertyNameExpression (fun _ => None)
                                   (fun _ => true) "x" true))))))]).
Proof.
  assert (H : serialize example_this example_context []
              = (Normal tt, snd (serialize example_this example_context [])))
    by reflexivity.
  split; [exact H|].
  exact (proj1 (proj2 (proj2
           (emitted_last_is_serialized_last (fun _ => None) (fun _ => true)
              (fun _ _ => missingNode)
              (fun v => identical v example_a)
              (fun v => identifier (if identical v example_a then "a" else "b"))
              (fun _ _ _ => missingNode) (fun _ => [])
              example_this [] _ (fun _ => missingNode) []
              "log" [] example_b "x" {| getType := Value_class |} None
              (inr missingNode) H)))).
Defined.
